(** * A 64-bit segregated free list allocator (mm.c): model and properties

    The allocator keeps its metadata inside the heap it manages: an 8-byte
    header per block, a footer for free regular blocks, and the free-list
    links in the first payload words of free blocks.  The model below keeps
    that representation: the heap is a byte-addressed memory, headers and
    links are little-endian 64-bit words read from and written to it, and
    every function of mm.c is transcribed with explicit state passing.

    Loops that follow pointers stored in memory ([rem_from_mini_list],
    [find_fit], [mm_checkheap]) take a [fuel] argument and return [None]
    when it runs out; every other function is total. *)

From Stdlib Require Import ZArith List Lia Bool Permutation.
Import ListNotations.
Local Open Scope Z_scope.

(** ** Machine words *)

Definition word_modulus : Z := 2 ^ 64.

(** [size_t] and pointer arithmetic wrap modulo 2^64. *)
Definition wrap (x : Z) : Z := x mod word_modulus.

Definition SIZE_MAX : Z := word_modulus - 1.

(** Bitwise complement of a 64-bit word ([~x]). *)
Definition wnot (x : Z) : Z := Z.lxor x SIZE_MAX.

(** [(intptr_t) x] *)
Definition to_intptr (x : Z) : Z :=
  if x <? 2 ^ 63 then x else x - word_modulus.

Definition NULL : Z := 0.

(** ** Byte-addressed memory *)

Definition Mem : Type := Z -> Z.

Definition load8 (m : Mem) (a : Z) : Z := m a mod 256.

Definition byte_of (v i : Z) : Z := (v / 2 ^ (8 * i)) mod 256.

(** Little-endian 64-bit accesses. *)
Definition load64 (m : Mem) (a : Z) : Z :=
  load8 m a
  + 2 ^ 8 * load8 m (a + 1)
  + 2 ^ 16 * load8 m (a + 2)
  + 2 ^ 24 * load8 m (a + 3)
  + 2 ^ 32 * load8 m (a + 4)
  + 2 ^ 40 * load8 m (a + 5)
  + 2 ^ 48 * load8 m (a + 6)
  + 2 ^ 56 * load8 m (a + 7).

Definition store64 (m : Mem) (a v : Z) : Mem :=
  fun x => if (a <=? x) && (x <? a + 8) then byte_of v (x - a) else m x.

(** Modelled from the spec: the host's [bytewise_copy(dst, src, n)]
    ([memcpy]); the [n] bytes from [src] are read from the memory as it is
    before the call. *)
Definition memcpy (m : Mem) (dst src n : Z) : Mem :=
  fun x => if wrap (x - dst) <? n then load8 m (wrap (src + wrap (x - dst))) else m x.

(** Modelled from the spec: the host's [bytewise_fill(dst, byte, n)]
    ([memset]). *)
Definition memset (m : Mem) (dst c n : Z) : Mem :=
  fun x => if wrap (x - dst) <? n then c mod 256 else m x.

(** ** Constants of mm.c *)

Definition wsize : Z := 8.
Definition dsize : Z := 2 * wsize.
Definition min_block_size : Z := 2 * dsize.
Definition chunksize : Z := Z.shiftl 1 12.
Definition alloc_mask : Z := 1.
Definition prev_alloc_mask : Z := 2.
Definition prev_mini_mask : Z := 4.
Definition size_mask : Z := wnot 15.
Definition NUM_CLASSES : nat := 15.
Definition mb_block_size : Z := 16.
Definition mb_dsize : Z := 8.
Definition MAX_SEARCH : nat := 10.

(** Offsets of the members of [block_t]: the header at 0, then the union of
    [payload] and the pair [next], [prev]. *)
Definition payload_offset : Z := 8.
Definition next_offset : Z := 8.
Definition prev_offset : Z := 16.

(** ** Allocator state

    The global variables of mm.c, the heap memory, and the break of the
    underlying memory system. *)

Record State : Type := mkState {
  mem : Mem;
  mem_start_brk : Z;        (* memlib: first byte of the heap *)
  mem_brk : Z;              (* memlib: first byte past the heap *)
  mem_max_addr : Z;         (* memlib: largest legal break *)
  heap_start : Z;
  size_class : list Z;
  mini_block_head : Z
}.

Definition set_mem (st : State) (m : Mem) : State :=
  mkState m (mem_start_brk st) (mem_brk st) (mem_max_addr st)
          (heap_start st) (size_class st) (mini_block_head st).

Definition set_brk (st : State) (b : Z) : State :=
  mkState (mem st) (mem_start_brk st) b (mem_max_addr st)
          (heap_start st) (size_class st) (mini_block_head st).

Definition set_heap_start (st : State) (p : Z) : State :=
  mkState (mem st) (mem_start_brk st) (mem_brk st) (mem_max_addr st)
          p (size_class st) (mini_block_head st).

Definition set_size_class (st : State) (l : list Z) : State :=
  mkState (mem st) (mem_start_brk st) (mem_brk st) (mem_max_addr st)
          (heap_start st) l (mini_block_head st).

Definition set_mini_block_head (st : State) (p : Z) : State :=
  mkState (mem st) (mem_start_brk st) (mem_brk st) (mem_max_addr st)
          (heap_start st) (size_class st) p.

(** [*(word_t * )a] and [*(word_t * )a = v] *)
Definition load_word (st : State) (a : Z) : Z := load64 (mem st) a.
Definition store_word (st : State) (a v : Z) : State :=
  set_mem st (store64 (mem st) a v).

(** [size_class[i]] and [size_class[i] = p] *)
Definition class_head (st : State) (i : nat) : Z := nth i (size_class st) NULL.

Fixpoint list_set (l : list Z) (i : nat) (v : Z) : list Z :=
  match l, i with
  | [], _ => []
  | _ :: t, O => v :: t
  | h :: t, S j => h :: list_set t j v
  end.

Definition set_class_head (st : State) (i : nat) (p : Z) : State :=
  set_size_class st (list_set (size_class st) i p).

(** Members of [block_t]. *)
Definition header (st : State) (block : Z) : Z := load_word st block.
Definition set_header (st : State) (block w : Z) : State := store_word st block w.
Definition get_next (st : State) (block : Z) : Z := load_word st (block + next_offset).
Definition set_next (st : State) (block p : Z) : State := store_word st (block + next_offset) p.
Definition get_prev (st : State) (block : Z) : Z := load_word st (block + prev_offset).
Definition set_prev (st : State) (block p : Z) : State := store_word st (block + prev_offset) p.

(** Modelled from the spec: the host's grow primitive ([mem_sbrk] of
    memlib): extends the heap by [incr] bytes and returns the address of the
    first new byte, or the error sentinel [(void * )-1] without any change. *)
Definition mem_sbrk (st : State) (incr : Z) : State * Z :=
  if (incr <? 0) || (mem_max_addr st - mem_brk st <? incr)
  then (st, wrap (-1))
  else (set_brk st (mem_brk st + incr), mem_brk st).

(** Modelled from the spec: the host's [heap_low()] and [heap_high()]. *)
Definition mem_heap_lo (st : State) : Z := mem_start_brk st.
Definition mem_heap_hi (st : State) : Z := mem_brk st - 1.

(** ** Short helper functions *)

Definition max (x y : Z) : Z := if x >? y then x else y.

Definition round_up (size n : Z) : Z := wrap (n * (wrap (size + (n - 1)) / n)).

Definition extract_alloc (word : Z) : bool := negb (Z.land word alloc_mask =? 0).

Definition get_alloc (st : State) (block : Z) : bool :=
  extract_alloc (header st block).

Definition get_prev_alloc (st : State) (block : Z) : bool :=
  negb (Z.land (Z.shiftr (header st block) 1) 1 =? 0).

Definition clear_prev_alloc (st : State) (block : Z) : State :=
  set_header st block (Z.land (header st block) (wnot prev_alloc_mask)).

Definition set_prev_alloc (st : State) (block : Z) : State :=
  set_header st block (Z.lor (header st block) prev_alloc_mask).

Definition extract_size (word : Z) : Z := Z.land word size_mask.

Definition get_size (st : State) (block : Z) : Z := extract_size (header st block).

Definition get_mini (st : State) (block : Z) : bool :=
  get_size st block =? mb_block_size.

Definition get_prev_mini (st : State) (block : Z) : bool :=
  negb (Z.land (Z.shiftr (header st block) 2) 1 =? 0).

Definition header_to_footer (st : State) (block : Z) : Z :=
  wrap (block + payload_offset + get_size st block - dsize).

Definition set_prev_mini (st : State) (block : Z) : State :=
  let st := set_header st block (Z.lor (header st block) prev_mini_mask) in
  if negb (get_alloc st block) && negb (get_mini st block) then
    let footer := header_to_footer st block in
    store_word st footer (Z.lor (load_word st footer) prev_mini_mask)
  else st.

Definition clear_prev_mini (st : State) (block : Z) : State :=
  let st := set_header st block (Z.land (header st block) (wnot prev_mini_mask)) in
  if negb (get_alloc st block) && negb (get_mini st block) then
    let footer := header_to_footer st block in
    store_word st footer (Z.land (load_word st footer) (wnot prev_mini_mask))
  else st.

Definition pack (size : Z) (alloc prev_alloc prev_mini : bool) : Z :=
  let word := size in
  let word := if alloc then Z.lor word alloc_mask else word in
  let word := if prev_alloc then Z.lor word (Z.shiftl alloc_mask 1) else word in
  let word := if prev_mini then Z.lor word (Z.shiftl alloc_mask 2) else word in
  word.

Definition payload_to_header (bp : Z) : Z := wrap (bp - payload_offset).

Definition header_to_payload (block : Z) : Z := wrap (block + payload_offset).

Definition footer_to_header (st : State) (footer : Z) : Z :=
  let size := extract_size (load_word st footer) in
  wrap (footer + wsize - size).

Definition get_payload_size (st : State) (block : Z) : Z :=
  let asize := get_size st block in
  if negb (get_alloc st block) then wrap (asize - dsize) else wrap (asize - wsize).

Definition write_epilogue (st : State) (block : Z) : State :=
  set_header st block (pack 0 true false false).

Definition write_block (st : State) (block size : Z)
    (alloc prev_alloc prev_mini : bool) : State :=
  let st := set_header st block (pack size alloc prev_alloc prev_mini) in
  if negb alloc && negb (size =? mb_block_size) then
    let footerp := header_to_footer st block in
    store_word st footerp (pack size alloc prev_alloc prev_mini)
  else st.

Definition find_next (st : State) (block : Z) : Z :=
  wrap (block + get_size st block).

Definition find_prev_footer (block : Z) : Z := wrap (block - wsize).

Definition find_prev (st : State) (block : Z) : Z :=
  if get_prev_mini st block then
    wrap (block - mb_block_size)
  else
    let footerp := find_prev_footer block in
    if extract_size (load_word st footerp) =? 0 then NULL
    else footer_to_header st footerp.

(** ** Free lists *)

Definition size_to_class (size : Z) : nat :=
  if size <=? 32 then 0%nat
  else if size <=? 64 then 1%nat
  else if size <=? 128 then 2%nat
  else if size <=? 256 then 3%nat
  else if size <=? 512 then 4%nat
  else if size <=? 1024 then 5%nat
  else if size <=? 2048 then 6%nat
  else if size <=? 4096 then 7%nat
  else if size <=? 8192 then 8%nat
  else if size <=? 16384 then 9%nat
  else if size <=? 32768 then 10%nat
  else if size <=? 65536 then 11%nat
  else if size <=? 131072 then 12%nat
  else if size <=? 262144 then 13%nat
  else 14%nat.

Definition add_to_free_list (st : State) (block : Z) : State :=
  let class := size_to_class (get_size st block) in
  let st := set_next st block (class_head st class) in
  let st := set_prev st block NULL in
  let st :=
    if negb (class_head st class =? NULL)
    then set_prev st (class_head st class) block
    else st in
  set_class_head st class block.

Definition rem_from_free_list (st : State) (block : Z) : State :=
  let old_prev := get_prev st block in
  let old_next := get_next st block in
  let class := size_to_class (get_size st block) in
  if (old_prev =? NULL) && (old_next =? NULL) then
    set_class_head st class NULL
  else if negb (old_prev =? NULL) && negb (old_next =? NULL) then
    let st := set_next st old_prev old_next in
    set_prev st old_next old_prev
  else if negb (old_prev =? NULL) && (old_next =? NULL) then
    set_next st old_prev NULL
  else if (old_prev =? NULL) && negb (old_next =? NULL) then
    let st := set_prev st old_next NULL in
    set_class_head st class old_next
  else st.

Notation "x <- c ;; k" :=
  (match c with Some x => k | None => None end)
  (at level 61, c at next level, right associativity).
Notation "' p <- c ;; k" :=
  (match c with Some p => k | None => None end)
  (at level 61, p pattern, c at next level, right associativity).

(** The search loop of [rem_from_mini_list]:
    [while (current != NULL && current->next != block) current = current->next;] *)
Fixpoint mini_list_seek (fuel : nat) (st : State) (block current : Z) : option Z :=
  match fuel with
  | O => None
  | S fuel' =>
      if negb (current =? NULL) && negb (get_next st current =? block)
      then mini_list_seek fuel' st block (get_next st current)
      else Some current
  end.

Definition rem_from_mini_list (fuel : nat) (st : State) (block : Z) : option State :=
  if block =? mini_block_head st then
    Some (set_mini_block_head st (get_next st (mini_block_head st)))
  else
    current <- mini_list_seek fuel st block (mini_block_head st) ;;
    if negb (current =? NULL) && (get_next st current =? block)
    then Some (set_next st current (get_next st block))
    else Some st.

Definition add_to_mini_list (st : State) (block : Z) : State :=
  let st := set_next st block (mini_block_head st) in
  set_mini_block_head st block.

(** [if (get_mini(b)) rem_from_mini_list(b); else rem_from_free_list(b);] *)
Definition rem_from_its_list (fuel : nat) (st : State) (b : Z) : option State :=
  if get_mini st b then rem_from_mini_list fuel st b
  else Some (rem_from_free_list st b).

(** ** Coalescing *)

Definition coalesce_block (fuel : nat) (st : State) (block : Z) : option (State * Z) :=
  let next := find_next st block in
  let prev := if negb (get_prev_alloc st block) then find_prev st block else NULL in
  let prev_alloced := get_prev_alloc st block || (prev =? NULL) in
  let next_alloced := (next =? NULL) || get_alloc st next in
  let free_free_free := negb prev_alloced && negb next_alloced in
  let free_free_alloced := negb prev_alloced && next_alloced in
  let alloced_free_free := prev_alloced && negb next_alloced in
  let alloced_free_alloced := prev_alloced && next_alloced in
  let size := get_size st block in
  if free_free_free then
    let size := wrap (size + get_size st prev) in
    let size := wrap (size + get_size st next) in
    st <- rem_from_its_list fuel st prev ;;
    st <- rem_from_its_list fuel st next ;;
    let st := write_block st prev size false (get_prev_alloc st prev) (get_prev_mini st prev) in
    let st := clear_prev_alloc st (find_next st prev) in
    let st := clear_prev_mini st (find_next st prev) in
    Some (st, prev)
  else if free_free_alloced then
    let size := wrap (size + get_size st prev) in
    st <- rem_from_its_list fuel st prev ;;
    let st := write_block st prev size false (get_prev_alloc st prev) (get_prev_mini st prev) in
    let st := clear_prev_alloc st (find_next st prev) in
    let st := clear_prev_mini st (find_next st prev) in
    Some (st, prev)
  else if alloced_free_free then
    let size := wrap (size + get_size st next) in
    st <- rem_from_its_list fuel st next ;;
    let st := write_block st block size false (get_prev_alloc st block) (get_prev_mini st block) in
    let st := clear_prev_alloc st (find_next st block) in
    let st := clear_prev_mini st (find_next st block) in
    Some (st, block)
  else if alloced_free_alloced then
    let st := clear_prev_alloc st next in
    let st := if get_mini st block then set_prev_mini st next else clear_prev_mini st next in
    Some (st, block)
  else Some (st, block).

(** ** Growing the heap *)

Definition extend_heap (fuel : nat) (st : State) (size : Z) : option (State * Z) :=
  let size := round_up size dsize in
  let '(st, bp) := mem_sbrk st (to_intptr size) in
  if bp =? wrap (-1) then Some (st, NULL)
  else
    let block := payload_to_header bp in
    let st := write_block st block size false (get_prev_alloc st block) (get_prev_mini st block) in
    let block_next := find_next st block in
    let st := write_epilogue st block_next in
    ' (st, block) <- coalesce_block fuel st block ;;
    let st := add_to_free_list st block in
    Some (st, block).

(** ** Splitting *)

Definition split_block (st : State) (block asize : Z) : State :=
  let block_size := get_size st block in
  let remainder := wrap (block_size - asize) in
  if asize =? mb_block_size then
    if remainder >=? min_block_size then
      let st := write_block st block mb_block_size true (get_prev_alloc st block) (get_prev_mini st block) in
      let block_next := find_next st block in
      let st := write_block st block_next remainder false true true in
      let st := add_to_free_list st block_next in
      let st := clear_prev_alloc st (find_next st block_next) in
      clear_prev_mini st (find_next st block_next)
    else if remainder =? mb_block_size then
      let st := write_block st block mb_block_size true (get_prev_alloc st block) (get_prev_mini st block) in
      let block_next := find_next st block in
      let st := write_block st block_next mb_block_size false true true in
      let st := add_to_mini_list st block_next in
      let st := clear_prev_alloc st (find_next st block_next) in
      set_prev_mini st (find_next st block_next)
    else
      let st := write_block st block block_size true (get_prev_alloc st block) (get_prev_mini st block) in
      let st := set_prev_alloc st (find_next st block) in
      set_prev_mini st (find_next st block)
  else
    if remainder >=? min_block_size then
      let st := write_block st block asize true (get_prev_alloc st block) (get_prev_mini st block) in
      let block_next := find_next st block in
      let st := write_block st block_next remainder false true false in
      let st := add_to_free_list st block_next in
      let st := clear_prev_alloc st (find_next st block_next) in
      clear_prev_mini st (find_next st block_next)
    else if remainder =? mb_block_size then
      let st := write_block st block asize true (get_prev_alloc st block) (get_prev_mini st block) in
      let block_next := find_next st block in
      let st := write_block st block_next mb_block_size false true false in
      let st := add_to_mini_list st block_next in
      let st := clear_prev_alloc st (find_next st block_next) in
      set_prev_mini st (find_next st block_next)
    else
      let st := write_block st block block_size true (get_prev_alloc st block) (get_prev_mini st block) in
      let st := set_prev_alloc st (find_next st block) in
      clear_prev_mini st (find_next st block).

(** ** Searching for a fit *)

(** First loop of [find_fit]: the first block of the list that is large
    enough; [NULL] when the loop ends without returning. *)
Fixpoint first_fit_scan (fuel : nat) (st : State) (asize block : Z) : option Z :=
  match fuel with
  | O => None
  | S fuel' =>
      if block =? NULL then Some NULL
      else if asize <=? get_size st block then Some block
      else first_fit_scan fuel' st asize (get_next st block)
  end.

(** Inner loop of the second part of [find_fit]; [left] is
    [MAX_SEARCH - search_count]. *)
Fixpoint best_fit_scan (left : nat) (st : State) (asize block best best_size : Z) : Z :=
  match left with
  | O => best
  | S left' =>
      if block =? NULL then best
      else
        let '(best, best_size) :=
          if (asize <=? get_size st block) && (get_size st block <? best_size)
          then (block, get_size st block)
          else (best, best_size) in
        best_fit_scan left' st asize (get_next st block) best best_size
  end.

(** Outer loop: [for (i = class + 1; i < NUM_CLASSES; i++)]; [n] is
    [NUM_CLASSES - i]. *)
Fixpoint higher_classes_scan (n : nat) (st : State) (asize : Z) (i : nat) : Z :=
  match n with
  | O => NULL
  | S n' =>
      let best := best_fit_scan MAX_SEARCH st asize (class_head st i) NULL SIZE_MAX in
      if negb (best =? NULL) then best
      else higher_classes_scan n' st asize (S i)
  end.

Definition find_fit (fuel : nat) (st : State) (asize : Z) : option Z :=
  if (asize <=? mb_block_size) && negb (mini_block_head st =? NULL) then
    Some (mini_block_head st)
  else
    let class := size_to_class asize in
    block <- first_fit_scan fuel st asize (class_head st class) ;;
    if negb (block =? NULL) then Some block
    else Some (higher_classes_scan (NUM_CLASSES - (class + 1)) st asize (class + 1)%nat).

(** ** Heap checker *)

(** The heap walk of [mm_checkheap].  [Some None]: a check failed and the
    checker returned [false]; [Some (Some n)]: the walk reached a block of
    size 0 having counted [n] free blocks. *)
Fixpoint checkheap_walk (fuel : nat) (st : State)
    (block prev_block totalFreed : Z) : option (option Z) :=
  match fuel with
  | O => None
  | S fuel' =>
      if negb (get_size st block >? 0) then Some (Some totalFreed)
      else if negb (get_size st block mod 16 =? 0) then Some None
      else if get_size st block <? mb_block_size then Some None
      else if (block <? mem_heap_lo st) || (block >? mem_heap_hi st) then Some None
      else if negb (prev_block =? NULL)
              && (get_alloc st prev_block && negb (get_prev_alloc st block)) then Some None
      else if negb (prev_block =? NULL)
              && (negb (get_alloc st prev_block) && get_prev_alloc st block) then Some None
      else if negb (get_alloc st block)
              && (negb (get_alloc st (find_next st block))
                  && (get_size st (find_next st block) >? 0)) then Some None
      else if negb (get_alloc st block) && negb (get_mini st block)
              && negb (header st block =? load_word st (header_to_footer st block))
           then Some None
      else
        checkheap_walk fuel' st (find_next st block) block
          (if negb (get_alloc st block) then totalFreed + 1 else totalFreed)
  end.

(** [for (block = head; block != NULL; block = block->next) trackedFreed++;] *)
Fixpoint count_list (fuel : nat) (st : State) (block trackedFreed : Z) : option Z :=
  match fuel with
  | O => None
  | S fuel' =>
      if block =? NULL then Some trackedFreed
      else count_list fuel' st (get_next st block) (trackedFreed + 1)
  end.

(** [for (i = 0; i < NUM_CLASSES; i++)] over the lists; [n] is
    [NUM_CLASSES - i]. *)
Fixpoint count_classes (n : nat) (fuel : nat) (st : State) (i : nat)
    (trackedFreed : Z) : option Z :=
  match n with
  | O => Some trackedFreed
  | S n' =>
      t <- count_list fuel st (class_head st i) trackedFreed ;;
      count_classes n' fuel st (S i) t
  end.

Definition mm_checkheap (fuel : nat) (st : State) : option bool :=
  let prologue := wrap (heap_start st - wsize) in
  if negb (load_word st prologue =? pack 0 true true false) then Some false
  else
    walk <- checkheap_walk fuel st (heap_start st) NULL 0 ;;
    match walk with
    | None => Some false
    | Some totalFreed =>
        trackedFreed <- count_classes NUM_CLASSES fuel st 0%nat 0 ;;
        trackedFreed <- count_list fuel st (mini_block_head st) trackedFreed ;;
        if negb (trackedFreed =? totalFreed) then Some false else Some true
    end.

(** ** Public functions *)

(** [for (i = 0; i < NUM_CLASSES; i++) size_class[i] = NULL;] *)
Fixpoint clear_classes (n : nat) (st : State) (i : nat) : State :=
  match n with
  | O => st
  | S n' => clear_classes n' (set_class_head st i NULL) (S i)
  end.

Definition mm_init (fuel : nat) (st : State) : option (State * bool) :=
  let '(st, start) := mem_sbrk st (2 * wsize) in
  if start =? wrap (-1) then Some (st, false)
  else
    let st := store_word st start (pack 0 true true false) in
    let st := store_word st (wrap (start + wsize)) (pack 0 true true false) in
    let st := clear_classes NUM_CLASSES st 0%nat in
    let st := set_mini_block_head st NULL in
    let st := set_heap_start st (wrap (start + wsize)) in
    ' (st, block) <- extend_heap fuel st chunksize ;;
    if block =? NULL then Some (st, false) else Some (st, true).

Definition malloc (fuel : nat) (st : State) (size : Z) : option (State * Z) :=
  ' (st, ok) <- (if heap_start st =? NULL then mm_init fuel st else Some (st, true)) ;;
  if negb ok then Some (st, NULL)
  else if size =? 0 then Some (st, NULL)
  else
    let asize :=
      if size <=? mb_dsize then mb_block_size
      else max (round_up (wrap (size + wsize)) dsize) min_block_size in
    block <- find_fit fuel st asize ;;
    if (asize =? mb_block_size) && negb (block =? NULL) && get_mini st block then
      st <- rem_from_mini_list fuel st block ;;
      let st := write_block st block mb_block_size true
                  (get_prev_alloc st block) (get_prev_mini st block) in
      let st := set_prev_alloc st (find_next st block) in
      let st := set_prev_mini st (find_next st block) in
      Some (st, header_to_payload block)
    else
      ' (st, block) <-
        (if block =? NULL then extend_heap fuel st (max asize chunksize)
         else Some (st, block)) ;;
      if block =? NULL then Some (st, NULL)
      else
        let st := rem_from_free_list st block in
        let st := split_block st block asize in
        Some (st, header_to_payload block).

Definition free (fuel : nat) (st : State) (bp : Z) : option State :=
  if bp =? NULL then Some st
  else
    let block := payload_to_header bp in
    let size := get_size st block in
    let st := write_block st block size false (get_prev_alloc st block) (get_prev_mini st block) in
    ' (st, block) <- coalesce_block fuel st block ;;
    if get_mini st block then Some (add_to_mini_list st block)
    else Some (add_to_free_list st block).

Definition realloc (fuel : nat) (st : State) (ptr size : Z) : option (State * Z) :=
  let block := payload_to_header ptr in
  if size =? 0 then
    st <- free fuel st ptr ;;
    Some (st, NULL)
  else if ptr =? NULL then malloc fuel st size
  else
    ' (st, newptr) <- malloc fuel st size ;;
    if newptr =? NULL then Some (st, NULL)
    else
      let copysize := get_payload_size st block in
      let copysize := if size <? copysize then size else copysize in
      let st := set_mem st (memcpy (mem st) newptr ptr copysize) in
      st <- free fuel st ptr ;;
      Some (st, newptr).

Definition calloc (fuel : nat) (st : State) (elements size : Z) : option (State * Z) :=
  let asize := wrap (elements * size) in
  if elements =? 0 then Some (st, NULL)
  else if negb (asize / elements =? size) then Some (st, NULL)
  else
    ' (st, bp) <- malloc fuel st asize ;;
    if bp =? NULL then Some (st, NULL)
    else Some (set_mem st (memset (mem st) bp 0 asize), bp).

(** ** A concrete machine to run the allocator on

    An empty memory system whose heap will start at a 16-byte aligned
    address, with room for 1 MiB. *)

Definition fresh_state : State :=
  mkState (fun _ => 0) 65536 65536 (65536 + 1048576) NULL (repeat NULL NUM_CLASSES) NULL.

Definition run_fuel : nat := 64.

Definition st_of {A} (r : option (State * A)) : State :=
  match r with Some (st, _) => st | None => fresh_state end.
Definition val_of (r : option (State * Z)) : Z :=
  match r with Some (_, v) => v | None => NULL end.
Definition state_of (r : option State) : State :=
  match r with Some st => st | None => fresh_state end.

(** The heap after [mm_init] on the fresh machine: one free block of
    [chunksize] bytes between the prologue and the epilogue. *)
Definition initial_heap : State := st_of (mm_init run_fuel fresh_state).

(** ** The heap walk and the flag invariant *)

(** The blocks met by walking from [heap_start] with [find_next] until a
    header of size 0. *)
Inductive heap_block (st : State) : Z -> Prop :=
| heap_block_first :
    get_size st (heap_start st) > 0 -> heap_block st (heap_start st)
| heap_block_next a :
    heap_block st a -> get_size st (find_next st a) > 0 ->
    heap_block st (find_next st a).

(** Flag coherence (invariant 5): every block [A] and its successor
    [B = next(A)] (the epilogue for the last block) satisfy
    [prev_alloc(B) = alloc(A)] and [prev_mini(B) = (size(A) == 16)]. *)
Definition flags_coherent (st : State) : Prop :=
  forall A, heap_block st A ->
    get_prev_alloc st (find_next st A) = get_alloc st A /\
    get_prev_mini st (find_next st A) = get_mini st A.

(** ** Scenarios run on the concrete machine *)

Module Overflow.
(** [p = malloc(100)]; the application stores a word in its payload;
    [realloc(p, SIZE_MAX)]. *)
Definition r_p := malloc run_fuel initial_heap 100.
Definition p := val_of r_p.
Definition st_written : State := store_word (st_of r_p) (p + 24) 3952.
Definition r_q := realloc run_fuel st_written p SIZE_MAX.
Definition q := val_of r_q.
End Overflow.

Module ReallocCopy.
(** [a = malloc(56); p = malloc(56); free(a)]; the application stores two
    words in the payload of [p]; [realloc(p, SIZE_MAX)]. *)
Definition r_a := malloc run_fuel initial_heap 56.
Definition r_p := malloc run_fuel (st_of r_a) 56.
Definition p := val_of r_p.
Definition st_freed : State := state_of (free run_fuel (st_of r_p) (val_of r_a)).
Definition st_written : State :=
  store_word (store_word st_freed (p + 24) 34) (p + 48) 34.
Definition r_q := realloc run_fuel st_written p SIZE_MAX.
Definition q := val_of r_q.
End ReallocCopy.

Module CheckerGap.
(** After [malloc(24)] the heap holds an allocated block of 32 bytes and a
    free block; the head of the free block's list is redirected to the
    allocated block. *)
Definition r_p := malloc run_fuel initial_heap 24.
Definition st_bad : State :=
  set_class_head (st_of r_p) 7 (heap_start (st_of r_p)).
End CheckerGap.

(** A block size: a 64-bit word whose low four bits are clear. *)
Definition is_size (s : Z) : Prop := 0 <= s < word_modulus /\ s mod 16 = 0.

(** The break of the memory system and [heap_start]: only [mem_sbrk] and
    [mm_init] change them. *)
Definition bounds_of (st : State) : Z * Z * Z * Z :=
  (mem_start_brk st, mem_brk st, mem_max_addr st, heap_start st).

Definition ok_of (r : option (State * bool)) : bool :=
  match r with Some (_, b) => b | None => false end.

Definition returned {A} (r : option A) : bool :=
  match r with Some _ => true | None => false end.

(** The request size [asize] that [malloc(size)] computes for [size > 0]. *)
Definition adjusted_size (size : Z) : Z :=
  if size <=? mb_dsize then mb_block_size
  else max (round_up (wrap (size + wsize)) dsize) min_block_size.

(** ** Lists in memory *)

(** [l] is the sequence of nodes reached from [head] through the [next]
    members, up to the first null pointer. *)
Fixpoint is_list (st : State) (head : Z) (l : list Z) : Prop :=
  match l with
  | [] => head = NULL
  | a :: l' => head = a /\ a <> NULL /\ is_list st (get_next st a) l'
  end.

(** ** What the heap checker checks *)

(** The conditions [mm_checkheap] tests on a block of non-zero size met by
    the heap walk; [prev_block] is the block visited before it, [NULL] for
    the first. *)
Definition block_checks (st : State) (prev_block block : Z) : Prop :=
  get_size st block mod 16 = 0 /\
  mem_heap_lo st <= block <= mem_heap_hi st /\
  (prev_block <> NULL -> get_prev_alloc st block = get_alloc st prev_block) /\
  (get_alloc st block = false ->
   get_alloc st (find_next st block) = true \/ get_size st (find_next st block) = 0) /\
  (get_alloc st block = false -> get_mini st block = false ->
   header st block = load_word st (header_to_footer st block)).

(** The heap walk from [block] passes the checks on every block and ends at
    a header of size 0; [l] lists the blocks met. *)
Inductive checked_walk (st : State) : Z -> Z -> list Z -> Prop :=
| checked_walk_end prev_block block :
    get_size st block = 0 -> checked_walk st prev_block block []
| checked_walk_step prev_block block l :
    get_size st block > 0 ->
    block_checks st prev_block block ->
    checked_walk st block (find_next st block) l ->
    checked_walk st prev_block block (block :: l).

(** The heap walk from [block] meets, after [n] blocks that pass, a block
    that fails a check. *)
Inductive walk_fails (st : State) : Z -> Z -> nat -> Prop :=
| walk_fails_here prev_block block :
    get_size st block > 0 ->
    ~ block_checks st prev_block block ->
    walk_fails st prev_block block 0
| walk_fails_later prev_block block n :
    get_size st block > 0 ->
    block_checks st prev_block block ->
    walk_fails st block (find_next st block) n ->
    walk_fails st prev_block block (S n).

Definition count_free (st : State) (l : list Z) : Z :=
  Z.of_nat (length (filter (fun b => negb (get_alloc st b)) l)).

(** The size-class lists and the mini list, as lists of nodes. *)
Definition free_lists (st : State) (classes : list (list Z)) (mini : list Z) : Prop :=
  length classes = NUM_CLASSES /\
  (forall i, (i < NUM_CLASSES)%nat -> is_list st (class_head st i) (nth i classes [])) /\
  is_list st (mini_block_head st) mini.

Definition count_nodes (classes : list (list Z)) (mini : list Z) : Z :=
  Z.of_nat (length (concat classes) + length mini).

Definition prologue_ok (st : State) : Prop :=
  load_word st (wrap (heap_start st - wsize)) = pack 0 true true false.

(** ** [find_fit] as the specification describes it

    [fits] and [too_small] compare the size in a block's header with the
    request. *)
Definition fits (st : State) (asize b : Z) : Prop := asize <= get_size st b.
Definition none_fits (st : State) (asize : Z) (l : list Z) : Prop :=
  forall x, In x l -> get_size st x < asize.

(** The blocks of class [c] that the bounded search examines. *)
Definition examined (classes : list (list Z)) (c : nat) : list Z :=
  firstn MAX_SEARCH (nth c classes []).

Inductive fit_spec (st : State) (classes : list (list Z)) (mini : list Z)
    (asize : Z) : Z -> Prop :=
| fit_mini_head b rest :
    (* the head of the mini list when asize <= 16 and the list is non-empty *)
    asize <= 16 -> mini = b :: rest ->
    fit_spec st classes mini asize b
| fit_first_in_class l1 b l2 :
    (* otherwise the first block large enough in the class of asize *)
    ~ (asize <= 16 /\ mini <> []) ->
    nth (size_to_class asize) classes [] = l1 ++ b :: l2 ->
    none_fits st asize l1 -> fits st asize b ->
    fit_spec st classes mini asize b
| fit_best_in_higher_class c b :
    (* otherwise, from the first higher class that has one among the blocks
       examined, a smallest block large enough *)
    ~ (asize <= 16 /\ mini <> []) ->
    none_fits st asize (nth (size_to_class asize) classes []) ->
    (size_to_class asize < c < NUM_CLASSES)%nat ->
    (forall c', (size_to_class asize < c' < c)%nat -> none_fits st asize (examined classes c')) ->
    In b (examined classes c) -> fits st asize b ->
    (forall x, In x (examined classes c) -> fits st asize x -> get_size st b <= get_size st x) ->
    fit_spec st classes mini asize b
| fit_null :
    (* otherwise null *)
    ~ (asize <= 16 /\ mini <> []) ->
    none_fits st asize (nth (size_to_class asize) classes []) ->
    (forall c', (size_to_class asize < c' < NUM_CLASSES)%nat ->
                none_fits st asize (examined classes c')) ->
    fit_spec st classes mini asize NULL.

(** ** Well-formed free lists *)

(** The [prev] member of every node of [l] points to the node before it,
    and that of the first node is [prev]. *)
Fixpoint prev_links (st : State) (prev : Z) (l : list Z) : Prop :=
  match l with
  | [] => True
  | a :: l' => get_prev st a = prev /\ prev_links st a l'
  end.

(** A size-class list: linked through [next] and back through [prev],
    the head's [prev] being null. *)
Definition is_dlist (st : State) (head : Z) (l : list Z) : Prop :=
  is_list st head l /\ prev_links st NULL l.

Definition all_nodes (classes : list (list Z)) (mini : list Z) : list Z :=
  concat classes ++ mini.

(** The blocks at [a] and [b] do not overlap. *)
Definition apart (st : State) (a b : Z) : Prop :=
  a + get_size st a <= b \/ b + get_size st b <= a.

(** The word at [w] lies outside the block at [a]. *)
Definition word_outside (st : State) (w a : Z) : Prop :=
  w + wsize <= a \/ a + get_size st a <= w.

(** The free lists are well formed: [classes] and [mini] list the nodes of
    the size-class lists and of the mini list; every node of a size-class
    list is a regular block of that class, every node of the mini list a
    block of 16 bytes; the nodes are pairwise distinct blocks that do not
    overlap. *)
Record lists_wf (st : State) (classes : list (list Z)) (mini : list Z) : Prop := {
  wf_heads : length (size_class st) = NUM_CLASSES;
  wf_classes : length classes = NUM_CLASSES;
  wf_dlist : forall c, (c < NUM_CLASSES)%nat ->
             is_dlist st (class_head st c) (nth c classes []);
  wf_mini_list : is_list st (mini_block_head st) mini;
  wf_regular : forall c a, In a (nth c classes []) ->
               min_block_size <= get_size st a /\ size_to_class (get_size st a) = c;
  wf_mini : forall a, In a mini -> get_size st a = mb_block_size;
  wf_range : forall a, In a (all_nodes classes mini) ->
             0 < a /\ a + get_size st a <= word_modulus;
  wf_nodup : NoDup (all_nodes classes mini);
  wf_apart : forall a b, In a (all_nodes classes mini) -> In b (all_nodes classes mini) ->
             a <> b -> apart st a b
}.

(** The lists after a node has been unlinked. *)
Definition without (x : Z) (l : list Z) : list Z := remove Z.eq_dec x l.

(** [F] is the header of an allocated block (or the epilogue), outside
    every listed block. *)
Definition allocated_header (st : State) (classes : list (list Z)) (mini : list Z)
    (F : Z) : Prop :=
  get_alloc st F = true /\
  F + wsize <= word_modulus /\
  forall a, In a (all_nodes classes mini) -> word_outside st F a.

(** [B] is a newly freed block: its [alloc] bit is clear, it is on no
    list, and it overlaps no listed block. *)
Record freed_block (st : State) (classes : list (list Z)) (mini : list Z)
    (B : Z) : Prop := {
  fb_lists : lists_wf st classes mini;
  fb_free : get_alloc st B = false;
  fb_size : mb_block_size <= get_size st B;
  fb_range : 0 < B /\ B + get_size st B + wsize <= word_modulus;
  fb_unlisted : forall a, In a (all_nodes classes mini) -> apart st a B
}.

(** The word at [b] does not overlap the payload of any listed block: the
    list operations leave it alone. *)
Definition outside_payloads (st : State) (classes : list (list Z)) (mini : list Z)
    (b : Z) : Prop :=
  forall a, In a (all_nodes classes mini) -> b <= a \/ a + get_size st a <= b.

Definition links_only (st st' : State) (classes : list (list Z)) (mini : list Z) : Prop :=
  forall b, outside_payloads st classes mini b -> load_word st' b = load_word st b.

Module Coalesce.
(** Four blocks of 64 bytes [a], [b], [c], [d] are allocated, [a] and [c]
    are freed, and the header of [b] is rewritten as free, as [free] does
    before it calls [coalesce_block]. *)
Definition r_a := malloc run_fuel initial_heap 56.
Definition r_b := malloc run_fuel (st_of r_a) 56.
Definition r_c := malloc run_fuel (st_of r_b) 56.
Definition r_d := malloc run_fuel (st_of r_c) 56.
Definition st_a : State := state_of (free run_fuel (st_of r_d) (val_of r_a)).
Definition st_c : State := state_of (free run_fuel st_a (val_of r_c)).
Definition B : Z := payload_to_header (val_of r_b).
Definition st_freed : State :=
  write_block st_c B (get_size st_c B) false (get_prev_alloc st_c B) (get_prev_mini st_c B).
Definition classes : list (list Z) :=
  [[]; [65672; 65544]; []; []; []; []; []; [65800]; []; []; []; []; []; []; []].
End Coalesce.

Module FirstBlock.
(** The first block of the heap, 64 bytes at [heap_start], is allocated and
    its header is then rewritten as free with the [prev_alloc] and
    [prev_mini] bits clear; the word before it is the prologue, and the
    block after it is the free remainder of the initial chunk. *)
Definition r_a := malloc run_fuel initial_heap 56.
Definition B : Z := payload_to_header (val_of r_a).
Definition st_freed : State :=
  write_block (st_of r_a) B (get_size (st_of r_a) B) false false false.
Definition classes : list (list Z) :=
  [[]; []; []; []; []; []; []; [65608]; []; []; []; []; []; []; []].
End FirstBlock.

(** ** The branches of [coalesce_block] that leave the previous block alone *)

(** Nothing is merged: the flags of the next block are updated. *)
Definition coalesce_none (st : State) (block : Z) : State * Z :=
  let next := find_next st block in
  let st1 := clear_prev_alloc st next in
  (if get_mini st1 block then set_prev_mini st1 next else clear_prev_mini st1 next,
   block).

(** The next block is merged into [block]. *)
Definition coalesce_next (fuel : nat) (st : State) (block : Z) : option (State * Z) :=
  let next := find_next st block in
  let size := wrap (get_size st block + get_size st next) in
  st1 <- rem_from_its_list fuel st next ;;
  let st2 := write_block st1 block size false
               (get_prev_alloc st1 block) (get_prev_mini st1 block) in
  let st3 := clear_prev_alloc st2 (find_next st2 block) in
  Some (clear_prev_mini st3 (find_next st3 block), block).

(** Two states hold the same bytes from address [lo] on, and the same
    global variables. *)
Definition agree_from (lo : Z) (s1 s2 : State) : Prop :=
  bounds_of s1 = bounds_of s2 /\
  size_class s1 = size_class s2 /\
  mini_block_head s1 = mini_block_head s2 /\
  forall a, lo <= a -> load8 (mem s1) a = load8 (mem s2) a.

(** ** Insertion into the free lists *)

(** The size-class lists after [b] has been put at the head of class [c]. *)
Fixpoint push_class (classes : list (list Z)) (c : nat) (b : Z) : list (list Z) :=
  match classes, c with
  | [], _ => []
  | l :: t, O => (b :: l) :: t
  | l :: t, S c' => l :: push_class t c' b
  end.

Module MiniBlock.
(** The first block of the heap is allocated as a mini block of 16 bytes
    and its header is then rewritten as free, as [free] does before it
    calls [coalesce_block]; the rest of the initial chunk is on the list of
    class 7. *)
Definition r_a := malloc run_fuel initial_heap 8.
Definition B : Z := payload_to_header (val_of r_a).
Definition st_freed : State :=
  write_block (st_of r_a) B (get_size (st_of r_a) B) false
    (get_prev_alloc (st_of r_a) B) (get_prev_mini (st_of r_a) B).
Definition classes : list (list Z) :=
  [[]; []; []; []; []; []; []; [65560]; []; []; []; []; []; []; []].
(** The block put on the mini list. *)
Definition st_listed : State := add_to_mini_list st_freed B.
End MiniBlock.

Module SplitBlock.
(** The free block of the initial heap is taken off its list, as [malloc]
    does before it calls [split_block]. *)
Definition B : Z := class_head initial_heap 7.
Definition st_unlisted : State := rem_from_free_list initial_heap B.
Definition classes : list (list Z) := repeat [] NUM_CLASSES.
End SplitBlock.

Module FullHeap.
(** The whole initial chunk is allocated: the last block before the
    epilogue is allocated and the free lists are empty. *)
Definition r_a := malloc run_fuel initial_heap 4088.
Definition st_full : State := st_of r_a.
End FullHeap.

Module FreeBetween.
(** Four blocks of 64 bytes are allocated; the second one lies between two
    allocated blocks, and the rest of the initial chunk is on the list of
    class 7. *)
Definition st_alloc : State := st_of Coalesce.r_d.
Definition bp : Z := val_of Coalesce.r_b.
Definition classes : list (list Z) :=
  [[]; []; []; []; []; []; []; [65800]; []; []; []; []; []; []; []].
End FreeBetween.

Module MergePrev.
(** Four blocks of 64 bytes are allocated and the first one is freed: the
    second one has a free block before it and an allocated block after
    it. *)
Definition st_one : State := Coalesce.st_a.
Definition bp : Z := val_of Coalesce.r_b.
Definition classes : list (list Z) :=
  [[]; [65544]; []; []; []; []; []; [65800]; []; []; []; []; []; []; []].
End MergePrev.

Module MergeNext.
(** Four blocks of 64 bytes are allocated and the third one is freed: the
    second one has an allocated block before it and a free block after
    it. *)
Definition st_one : State :=
  state_of (free run_fuel (st_of Coalesce.r_d) (val_of Coalesce.r_c)).
Definition bp : Z := val_of Coalesce.r_b.
Definition classes : list (list Z) :=
  [[]; [65672]; []; []; []; []; []; [65800]; []; []; []; []; []; []; []].
End MergeNext.

Module MergeBoth.
(** Four blocks of 64 bytes are allocated and the first and the third one
    are freed: the second one lies between two free blocks. *)
Definition st_two : State := Coalesce.st_c.
Definition bp : Z := val_of Coalesce.r_b.
End MergeBoth.

Module FitBlock.
(** The initial heap: its one free block, on the list of class 7, is
    large enough for any request of at most 4088 bytes. *)
Definition classes : list (list Z) :=
  [[]; []; []; []; []; []; []; [65544]; []; []; []; []; []; []; []].
End FitBlock.

Module MiniFit.
(** A mini block and a block of 64 bytes are allocated and the mini block
    is freed: it is on the mini list, before an allocated block, and the
    rest of the initial chunk is on the list of class 7. *)
Definition r_a := malloc run_fuel initial_heap 8.
Definition r_b := malloc run_fuel (st_of r_a) 56.
Definition st_freed : State := state_of (free run_fuel (st_of r_b) (val_of r_a)).
Definition classes : list (list Z) :=
  [[]; []; []; []; []; []; []; [65624]; []; []; []; []; []; []; []].
End MiniFit.

Module ZeroFill.
(** A block of 64 bytes is allocated, the client fills the word at offset
    24 of its payload with ones, and the block is freed: a later [calloc]
    that is given the same memory finds bytes that are not zero. *)
Definition r_a := malloc run_fuel initial_heap 56.
Definition p : Z := val_of r_a.
Definition st_written : State := store_word (st_of r_a) (p + 24) (word_modulus - 1).
Definition st_freed : State := state_of (free run_fuel st_written p).
End ZeroFill.

(** * Properties *)

(** ** Memory accesses *)

Lemma load8_range m a : 0 <= load8 m a < 256.
Proof. unfold load8. apply Z.mod_pos_bound. lia. Qed.

Lemma load64_range m a : 0 <= load64 m a < word_modulus.
Proof.
  unfold load64, word_modulus.
  pose proof (load8_range m a). pose proof (load8_range m (a+1)).
  pose proof (load8_range m (a+2)). pose proof (load8_range m (a+3)).
  pose proof (load8_range m (a+4)). pose proof (load8_range m (a+5)).
  pose proof (load8_range m (a+6)). pose proof (load8_range m (a+7)).
  change (2^8) with 256. change (2^16) with 65536. change (2^24) with 16777216.
  change (2^32) with 4294967296. change (2^40) with 1099511627776.
  change (2^48) with 281474976710656. change (2^56) with 72057594037927936.
  change (2^64) with 18446744073709551616.
  lia.
Qed.

Lemma load8_store64_in m a v i :
  0 <= i < 8 -> load8 (store64 m a v) (a + i) = byte_of v i.
Proof.
  intros Hi. unfold load8, store64.
  replace ((a <=? a + i) && (a + i <? a + 8)) with true
    by (symmetry; apply andb_true_iff; split; [apply Z.leb_le|apply Z.ltb_lt]; lia).
  replace (a + i - a) with i by lia.
  unfold byte_of. apply Z.mod_mod. lia.
Qed.

Lemma load8_store64_out m a v x :
  x < a \/ a + 8 <= x -> load8 (store64 m a v) x = load8 m x.
Proof.
  intros Hx. unfold load8, store64.
  replace ((a <=? x) && (x <? a + 8)) with false; [reflexivity|].
  symmetry. apply andb_false_iff.
  destruct Hx; [left; apply Z.leb_gt|right; apply Z.ltb_ge]; lia.
Qed.

Lemma le_bytes_join v :
  byte_of v 0 + 2^8 * byte_of v 1 + 2^16 * byte_of v 2 + 2^24 * byte_of v 3
  + 2^32 * byte_of v 4 + 2^40 * byte_of v 5 + 2^48 * byte_of v 6 + 2^56 * byte_of v 7
  = v mod word_modulus.
Proof.
  unfold byte_of, word_modulus.
  change (2^64) with (256 * (256 * (256 * (256 * (256 * (256 * (256 * 256))))))).
  rewrite !Z.rem_mul_r by lia.
  rewrite !Z.div_div by lia.
  change (8*0) with 0. change (2^0) with 1. rewrite Z.div_1_r.
  change (2 ^ (8 * 1)) with 256. change (2 ^ (8 * 2)) with (256*256).
  change (2 ^ (8 * 3)) with (256*256*256).
  change (2 ^ (8 * 4)) with (256*256*256*256).
  change (2 ^ (8 * 5)) with (256*256*256*256*256).
  change (2 ^ (8 * 6)) with (256*256*256*256*256*256).
  change (2 ^ (8 * 7)) with (256*256*256*256*256*256*256).
  change (2^8) with 256. change (2^16) with (256*256).
  change (2^24) with (256*256*256).
  change (2^32) with (256*256*256*256).
  change (2^40) with (256*256*256*256*256).
  change (2^48) with (256*256*256*256*256*256).
  change (2^56) with (256*256*256*256*256*256*256).
  ring.
Qed.

Lemma load64_store64_same m a v : load64 (store64 m a v) a = wrap v.
Proof.
  unfold load64, wrap.
  replace a with (a + 0) at 2 by lia.
  rewrite !load8_store64_in by lia.
  apply le_bytes_join.
Qed.

Lemma load64_store64_other m a v b :
  b + 8 <= a \/ a + 8 <= b -> load64 (store64 m a v) b = load64 m b.
Proof.
  intros H. unfold load64.
  rewrite !load8_store64_out by lia. reflexivity.
Qed.

(** ** Header words *)

Lemma wrap_small x : 0 <= x < word_modulus -> wrap x = x.
Proof. intros H. unfold wrap. apply Z.mod_small. exact H. Qed.

Lemma wrap_range x : 0 <= wrap x < word_modulus.
Proof. unfold wrap. apply Z.mod_pos_bound. reflexivity. Qed.

Lemma wrap_land x : wrap x = Z.land x (Z.ones 64).
Proof. unfold wrap, word_modulus. rewrite Z.land_ones by lia. reflexivity. Qed.

(** A value is a 64-bit word when wrapping leaves it unchanged. *)
Lemma word_iff x : 0 <= x < word_modulus <-> wrap x = x.
Proof.
  split; [apply wrap_small|]. intros <-. apply wrap_range.
Qed.

Lemma land_word h c : 0 <= c < word_modulus -> 0 <= Z.land h c < word_modulus.
Proof.
  intros Hc. apply word_iff. apply word_iff in Hc.
  rewrite wrap_land in *. rewrite <- Z.land_assoc, Hc. reflexivity.
Qed.

Lemma lor_word h c :
  0 <= h < word_modulus -> 0 <= c < word_modulus -> 0 <= Z.lor h c < word_modulus.
Proof.
  intros Hh Hc. apply word_iff. apply word_iff in Hh, Hc.
  rewrite wrap_land in *. rewrite Z.land_lor_distr_l, Hh, Hc. reflexivity.
Qed.

Lemma flag_test h k :
  0 <= k -> negb (Z.land (Z.shiftr h k) 1 =? 0) = Z.testbit h k.
Proof.
  intros Hk. change 1 with (Z.ones 1) at 1. rewrite Z.land_ones by lia.
  change (2 ^ 1) with 2. rewrite <- Z.bit0_mod, Z.shiftr_spec by lia.
  rewrite Z.add_0_l. destruct (Z.testbit h k); reflexivity.
Qed.

Lemma extract_alloc_testbit h : extract_alloc h = Z.testbit h 0.
Proof.
  unfold extract_alloc, alloc_mask. rewrite <- (flag_test h 0) by lia.
  rewrite Z.shiftr_0_r. reflexivity.
Qed.


Lemma is_size_land s : is_size s <-> Z.land s size_mask = s.
Proof.
  unfold is_size. split.
  - intros [Hr Hm]. apply word_iff in Hr. rewrite wrap_land in Hr.
    change 16 with (2 ^ 4) in Hm. rewrite <- Z.land_ones in Hm by lia.
    rewrite <- Hr at 2.
    change (Z.ones 64) with (Z.lor size_mask (Z.ones 4)).
    rewrite Z.land_lor_distr_r, Hm, Z.lor_0_r. reflexivity.
  - intros <-. split.
    + apply land_word. vm_compute. split; [discriminate|reflexivity].
    + change 16 with (2 ^ 4). rewrite <- Z.land_ones by lia.
      rewrite <- Z.land_assoc. change (Z.land size_mask (Z.ones 4)) with 0.
      apply Z.land_0_r.
Qed.

Lemma extract_size_is_size h : is_size (extract_size h).
Proof.
  apply is_size_land. unfold extract_size.
  rewrite <- Z.land_assoc, Z.land_diag. reflexivity.
Qed.

Lemma is_size_add s1 s2 : is_size s1 -> is_size s2 -> is_size (wrap (s1 + s2)).
Proof.
  intros [_ H1] [_ H2]. split; [apply wrap_range|].
  unfold wrap, word_modulus.
  change (2 ^ 64) with (16 * 2 ^ 60).
  rewrite Z.rem_mul_r by lia.
  rewrite (Z.mul_comm 16), Z.mod_add by lia.
  rewrite Z.mod_mod by lia.
  rewrite Z.add_mod, H1, H2 by lia. reflexivity.
Qed.

Lemma size_bit s k : is_size s -> 0 <= k < 4 -> Z.testbit s k = false.
Proof.
  intros Hs Hk. apply is_size_land in Hs. rewrite <- Hs, Z.land_spec.
  assert (Z.testbit size_mask k = false).
  { assert (k = 0 \/ k = 1 \/ k = 2 \/ k = 3) as [->|[->|[->| ->]]] by lia; reflexivity. }
  rewrite H. apply andb_false_r.
Qed.

Lemma pack_word s a pa pm :
  0 <= s < word_modulus -> 0 <= pack s a pa pm < word_modulus.
Proof.
  intros Hs. unfold pack.
  destruct a, pa, pm; repeat apply lor_word; try assumption;
    vm_compute; split; (discriminate || reflexivity).
Qed.

Lemma extract_size_pack s a pa pm : is_size s -> extract_size (pack s a pa pm) = s.
Proof.
  intros Hs. apply is_size_land in Hs. unfold extract_size, pack.
  destruct a, pa, pm; rewrite ?Z.land_lor_distr_l, Hs;
    repeat (match goal with |- context [Z.land ?c size_mask] =>
       progress change (Z.land c size_mask) with 0 end);
    rewrite ?Z.lor_0_r; reflexivity.
Qed.

Lemma pack_bit0 s a pa pm : is_size s -> Z.testbit (pack s a pa pm) 0 = a.
Proof.
  intros Hs. unfold pack.
  destruct a, pa, pm; rewrite ?Z.lor_spec, (size_bit s 0 Hs) by lia; reflexivity.
Qed.

Lemma pack_bit1 s a pa pm : is_size s -> Z.testbit (pack s a pa pm) 1 = pa.
Proof.
  intros Hs. unfold pack.
  destruct a, pa, pm; rewrite ?Z.lor_spec, (size_bit s 1 Hs) by lia; reflexivity.
Qed.

Lemma pack_bit2 s a pa pm : is_size s -> Z.testbit (pack s a pa pm) 2 = pm.
Proof.
  intros Hs. unfold pack.
  destruct a, pa, pm; rewrite ?Z.lor_spec, (size_bit s 2 Hs) by lia; reflexivity.
Qed.

(** ** What the block operations leave alone *)

Ltac case_if :=
  match goal with
  | |- context [if ?c then _ else _] => destruct c
  end.

Lemma bounds_store_word st a v : bounds_of (store_word st a v) = bounds_of st.
Proof. reflexivity. Qed.

Lemma bounds_set_class_head st i p : bounds_of (set_class_head st i p) = bounds_of st.
Proof. reflexivity. Qed.

Lemma bounds_set_mini_block_head st p : bounds_of (set_mini_block_head st p) = bounds_of st.
Proof. reflexivity. Qed.

Lemma bounds_clear_prev_alloc st b : bounds_of (clear_prev_alloc st b) = bounds_of st.
Proof. reflexivity. Qed.

Lemma bounds_set_prev_alloc st b : bounds_of (set_prev_alloc st b) = bounds_of st.
Proof. reflexivity. Qed.

Lemma bounds_set_prev_mini st b : bounds_of (set_prev_mini st b) = bounds_of st.
Proof. unfold set_prev_mini. case_if; reflexivity. Qed.

Lemma bounds_clear_prev_mini st b : bounds_of (clear_prev_mini st b) = bounds_of st.
Proof. unfold clear_prev_mini. case_if; reflexivity. Qed.

Lemma bounds_write_block st b s a pa pm :
  bounds_of (write_block st b s a pa pm) = bounds_of st.
Proof. unfold write_block. case_if; reflexivity. Qed.

Lemma bounds_write_epilogue st b : bounds_of (write_epilogue st b) = bounds_of st.
Proof. reflexivity. Qed.

Lemma bounds_add_to_free_list st b : bounds_of (add_to_free_list st b) = bounds_of st.
Proof. unfold add_to_free_list. case_if; reflexivity. Qed.

Lemma bounds_add_to_mini_list st b : bounds_of (add_to_mini_list st b) = bounds_of st.
Proof. reflexivity. Qed.

Lemma bounds_rem_from_free_list st b : bounds_of (rem_from_free_list st b) = bounds_of st.
Proof. unfold rem_from_free_list. repeat case_if; reflexivity. Qed.

Lemma bounds_rem_from_mini_list fuel st b st' :
  rem_from_mini_list fuel st b = Some st' -> bounds_of st' = bounds_of st.
Proof.
  unfold rem_from_mini_list. case_if.
  - intros [= <-]. reflexivity.
  - destruct (mini_list_seek fuel st b (mini_block_head st)); [|discriminate].
    case_if; intros [= <-]; reflexivity.
Qed.

Lemma bounds_rem_from_its_list fuel st b st' :
  rem_from_its_list fuel st b = Some st' -> bounds_of st' = bounds_of st.
Proof.
  unfold rem_from_its_list. case_if.
  - apply bounds_rem_from_mini_list.
  - intros [= <-]. apply bounds_rem_from_free_list.
Qed.

Create Rewrite HintDb bounds.

#[local] Hint Rewrite bounds_clear_prev_mini bounds_set_prev_mini bounds_clear_prev_alloc
  bounds_set_prev_alloc bounds_write_block bounds_write_epilogue
  bounds_add_to_free_list bounds_add_to_mini_list bounds_rem_from_free_list
  bounds_store_word bounds_set_class_head bounds_set_mini_block_head : bounds.

Ltac bounds_step := autorewrite with bounds.

Lemma bounds_coalesce_block fuel st b st' r :
  coalesce_block fuel st b = Some (st', r) -> bounds_of st' = bounds_of st.
Proof.
  unfold coalesce_block.
  repeat case_if;
    repeat (match goal with
            | |- context [rem_from_its_list ?f ?s ?x] =>
                let E := fresh "E" in
                destruct (rem_from_its_list f s x) eqn:E;
                [apply bounds_rem_from_its_list in E|discriminate]
            end);
    intros [= <- <-]; bounds_step; congruence.
Qed.

Lemma bounds_split_block st b asize : bounds_of (split_block st b asize) = bounds_of st.
Proof. unfold split_block. repeat case_if; bounds_step; reflexivity. Qed.

(** ** Heap growth *)

Lemma is_size_bound x : is_size x -> x <= word_modulus - 16.
Proof.
  unfold is_size, word_modulus. intros [Hr Hm].
  change (2 ^ 64) with 18446744073709551616 in *.
  pose proof (Z.div_mod x 16). lia.
Qed.

Lemma round_up_is_size x : is_size (round_up x dsize).
Proof.
  unfold round_up, dsize, wsize. split; [apply wrap_range|].
  unfold wrap, word_modulus. change (2 ^ 64) with (16 * 2 ^ 60).
  rewrite Z.rem_mul_r by lia.
  rewrite (Z.mul_comm 16 (_ mod _)), Z.mod_add by lia.
  rewrite Z.mod_mod by lia.
  change (2 * 8) with 16. rewrite Z.mul_comm. apply Z.mod_mul. lia.
Qed.

Lemma round_up_multiple x : is_size x -> round_up x dsize = x.
Proof.
  intros Hx. pose proof (is_size_bound x Hx) as Hb. destruct Hx as [Hr Hm].
  unfold round_up, dsize, wsize. change (2 * 8) with 16. change (16 - 1) with 15.
  unfold word_modulus in *. change (2 ^ 64) with 18446744073709551616 in *.
  rewrite (wrap_small (x + 15)) by (unfold word_modulus; lia).
  assert (Hq : 16 * ((x + 15) / 16) = x).
  { pose proof (Z.div_mod x 16). pose proof (Z.div_mod (x + 15) 16).
    pose proof (Z.mod_pos_bound (x + 15) 16). lia. }
  rewrite Hq. apply wrap_small. unfold word_modulus. lia.
Qed.

Lemma is_size_16 : is_size 16.
Proof. unfold is_size, word_modulus. split; [lia|reflexivity]. Qed.

Lemma is_size_32 : is_size 32.
Proof. unfold is_size, word_modulus. split; [lia|reflexivity]. Qed.

Lemma is_size_4096 : is_size 4096.
Proof. unfold is_size, word_modulus. split; [lia|reflexivity]. Qed.

Lemma is_size_max x y : is_size x -> is_size y -> is_size (max x y).
Proof. intros Hx Hy. unfold max. destruct (x >? y); assumption. Qed.

Lemma max_ge_r x y : y <= max x y.
Proof. unfold max. destruct (Z.gtb_spec x y); lia. Qed.

(** The adjusted request size computed by [malloc]. *)
Lemma malloc_asize_is_size size :
  is_size (if size <=? mb_dsize then mb_block_size
           else max (round_up (wrap (size + wsize)) dsize) min_block_size).
Proof.
  destruct (size <=? mb_dsize); [exact is_size_16|].
  apply is_size_max; [apply round_up_is_size|exact is_size_32].
Qed.

Lemma to_intptr_nonneg x :
  0 <= x < word_modulus -> 0 <= to_intptr x -> to_intptr x = x.
Proof.
  unfold to_intptr, word_modulus. intros Hx.
  destruct (Z.ltb_spec x (2 ^ 63)); [reflexivity|].
  change (2 ^ 64) with 18446744073709551616 in *.
  change (2 ^ 63) with 9223372036854775808 in *. lia.
Qed.

Lemma bounds_brk s s' : bounds_of s = bounds_of s' -> mem_brk s = mem_brk s'.
Proof. unfold bounds_of. intros H. injection H. intros. assumption. Qed.

Lemma extend_heap_brk fuel st size st' b :
  extend_heap fuel st size = Some (st', b) ->
  (st' = st /\ b = NULL) \/
  (mem_brk st' = mem_brk st + round_up size dsize /\ 0 <= round_up size dsize).
Proof.
  unfold extend_heap, mem_sbrk.
  destruct (Z.ltb_spec (to_intptr (round_up size dsize)) 0) as [Hneg|Hpos]; cbn [orb].
  { rewrite Z.eqb_refl. intros [= <- <-]. left. split; reflexivity. }
  destruct (mem_max_addr st - mem_brk st <? to_intptr (round_up size dsize)).
  { rewrite Z.eqb_refl. intros [= <- <-]. left. split; reflexivity. }
  pose proof (round_up_is_size size) as [Hr _]. pose proof (proj1 Hr) as Hr0.
  rewrite (to_intptr_nonneg _ Hr Hpos).
  case_if.
  - intros [= <- <-]. right. split; [reflexivity|exact Hr0].
  - match goal with |- context [coalesce_block ?f ?s ?x] =>
      destruct (coalesce_block f s x) as [[st1 b1]|] eqn:E; [|discriminate] end.
    apply bounds_coalesce_block in E.
    intros [= <- <-]. right. split; [|exact Hr0].
    assert (Hb : bounds_of (add_to_free_list st1 b1)
                 = bounds_of (set_brk st (mem_brk st + round_up size dsize))).
    { rewrite bounds_add_to_free_list, E. bounds_step. reflexivity. }
    apply bounds_brk in Hb. exact Hb.
Qed.

(** Every heap growth made by [malloc] on an initialised heap is by at
    least [chunksize] bytes. *)
Lemma malloc_brk fuel st size st' p :
  heap_start st <> NULL ->
  malloc fuel st size = Some (st', p) ->
  mem_brk st' = mem_brk st \/ mem_brk st + chunksize <= mem_brk st'.
Proof.
  intros Hinit. unfold malloc.
  destruct (Z.eqb_spec (heap_start st) NULL) as [E|_]; [contradiction|].
  cbn [negb]. cbv iota.
  destruct (size =? 0); [intros [= <- <-]; left; reflexivity|].
  set (asize := if size <=? mb_dsize then mb_block_size
                else max (round_up (wrap (size + wsize)) dsize) min_block_size).
  assert (Hasize : is_size asize) by apply malloc_asize_is_size.
  destruct (find_fit fuel st asize) as [block|]; [|discriminate].
  case_if.
  - destruct (rem_from_mini_list fuel st block) as [st1|] eqn:E; [|discriminate].
    apply bounds_rem_from_mini_list in E.
    intros [= <- <-]. left.
    apply bounds_brk. bounds_step. exact E.
  - destruct (block =? NULL).
    + destruct (extend_heap fuel st (max asize chunksize)) as [[st1 b1]|] eqn:E; [|discriminate].
      apply extend_heap_brk in E.
      rewrite round_up_multiple in E by (apply is_size_max; [assumption|exact is_size_4096]).
      pose proof (max_ge_r asize chunksize) as Hge.
      case_if; intros [= <- <-].
      * destruct E as [[-> _]|[E _]]; [left; reflexivity|right; lia].
      * match goal with |- mem_brk ?s = _ \/ _ =>
          assert (Hb : mem_brk s = mem_brk st1)
            by (apply bounds_brk; rewrite bounds_split_block; bounds_step; reflexivity)
        end.
        rewrite Hb.
        destruct E as [[-> _]|[E _]]; [left; reflexivity|right; lia].
    + case_if; intros [= <- <-]; [left; reflexivity|].
      left. apply bounds_brk. rewrite bounds_split_block. bounds_step. reflexivity.
Qed.

Lemma bounds_clear_classes n st i : bounds_of (clear_classes n st i) = bounds_of st.
Proof.
  revert st i. induction n as [|n IH]; intros st i; [reflexivity|].
  cbn [clear_classes]. rewrite IH. reflexivity.
Qed.

Lemma mem_brk_set_heap_start s p : mem_brk (set_heap_start s p) = mem_brk s.
Proof. reflexivity. Qed.

Lemma mem_brk_set_mini_block_head s p : mem_brk (set_mini_block_head s p) = mem_brk s.
Proof. reflexivity. Qed.

Lemma mem_brk_store_word s a v : mem_brk (store_word s a v) = mem_brk s.
Proof. reflexivity. Qed.

Lemma mem_brk_set_brk s b : mem_brk (set_brk s b) = b.
Proof. reflexivity. Qed.

Lemma mm_init_brk fuel st st' :
  mm_init fuel st = Some (st', true) ->
  mem_brk st' = mem_brk st + 2 * wsize + chunksize.
Proof.
  unfold mm_init, mem_sbrk.
  destruct ((2 * wsize <? 0) || (mem_max_addr st - mem_brk st <? 2 * wsize)).
  { rewrite Z.eqb_refl. discriminate. }
  destruct (mem_brk st =? wrap (-1)); [discriminate|].
  match goal with |- context [extend_heap ?f ?s ?x] =>
    destruct (extend_heap f s x) as [[st1 b1]|] eqn:E; [|discriminate]
  end.
  destruct (Z.eqb_spec b1 NULL) as [Hb|Hb]; [discriminate|]. intros [= <-].
  apply extend_heap_brk in E.
  rewrite round_up_multiple in E by exact is_size_4096.
  destruct E as [[_ ?]|[E _]]; [contradiction|].
  rewrite E, mem_brk_set_heap_start, mem_brk_set_mini_block_head.
  rewrite (bounds_brk _ _ (bounds_clear_classes _ _ _)).
  rewrite !mem_brk_store_word, mem_brk_set_brk. reflexivity.
Qed.

(** The heap growth made by [malloc] on an initialised heap is exactly the
    request it passes to [extend_heap], [max(asize, chunksize)]. *)
Lemma malloc_grows fuel st size st' p :
  heap_start st <> NULL ->
  malloc fuel st size = Some (st', p) ->
  mem_brk st' = mem_brk st \/
  mem_brk st' = mem_brk st + max (adjusted_size size) chunksize.
Proof.
  intros Hinit. unfold malloc, adjusted_size.
  destruct (Z.eqb_spec (heap_start st) NULL) as [E|_]; [contradiction|].
  cbn [negb]. cbv iota.
  destruct (size =? 0); [intros [= <- <-]; left; reflexivity|].
  set (asize := if size <=? mb_dsize then mb_block_size
                else max (round_up (wrap (size + wsize)) dsize) min_block_size).
  assert (Hasize : is_size asize) by apply malloc_asize_is_size.
  destruct (find_fit fuel st asize) as [block|]; [|discriminate].
  case_if.
  - destruct (rem_from_mini_list fuel st block) as [st1|] eqn:E; [|discriminate].
    apply bounds_rem_from_mini_list in E.
    intros [= <- <-]. left.
    apply bounds_brk. bounds_step. exact E.
  - destruct (block =? NULL).
    + destruct (extend_heap fuel st (max asize chunksize)) as [[st1 b1]|] eqn:E; [|discriminate].
      apply extend_heap_brk in E.
      rewrite round_up_multiple in E by (apply is_size_max; [assumption|exact is_size_4096]).
      case_if; intros [= <- <-].
      * destruct E as [[-> _]|[E _]]; [left; reflexivity|right; exact E].
      * match goal with |- mem_brk ?s = _ \/ _ =>
          assert (Hb : mem_brk s = mem_brk st1)
            by (apply bounds_brk; rewrite bounds_split_block; bounds_step; reflexivity)
        end.
        rewrite Hb.
        destruct E as [[-> _]|[E _]]; [left; reflexivity|right; exact E].
    + case_if; intros [= <- <-]; [left; reflexivity|].
      left. apply bounds_brk. rewrite bounds_split_block. bounds_step. reflexivity.
Qed.

(** C9.  [extend_heap] rounds its request up to a multiple of 16 and asks
    the grow primitive for that amount.  The maximum with the chunk size
    4096 is taken on the request before the grow primitive is called:
    [malloc] computes [extendsize = max(asize, chunksize)] and passes it to
    [extend_heap], and [mm_init] passes [chunksize].  So every successful
    heap extension grows the heap by at least 4096 bytes: on the requests
    [extend_heap] receives, a successful call moves the break by the
    request, a multiple of 16 that is at least 4096; a successful [mm_init]
    grows the heap by the two sentinel words and 4096 bytes; and a [malloc]
    on an initialised heap grows it either not at all or by exactly
    [max(asize, 4096)] bytes. *)
Theorem C9_heap_growth :
  forall fuel st size st' r,
    (extend_heap fuel st size = Some (st', r) -> r <> NULL ->
     mem_brk st' = mem_brk st + round_up size dsize /\
     round_up size dsize mod 16 = 0) /\
    (forall n, size = chunksize \/ size = max (adjusted_size n) chunksize ->
     extend_heap fuel st size = Some (st', r) -> r <> NULL ->
     round_up size dsize = size /\
     mem_brk st' = mem_brk st + size /\
     mem_brk st + 4096 <= mem_brk st') /\
    (mm_init fuel st = Some (st', true) ->
     mem_brk st' = mem_brk st + 2 * wsize + 4096) /\
    (heap_start st <> NULL -> malloc fuel st size = Some (st', r) ->
     mem_brk st' = mem_brk st \/
     (mem_brk st' = mem_brk st + max (adjusted_size size) 4096 /\
      max (adjusted_size size) 4096 mod 16 = 0 /\
      mem_brk st + 4096 <= mem_brk st')).
Proof.
  intros fuel st size st' r. split; [|split; [|split]].
  - intros E Hr. apply extend_heap_brk in E.
    destruct E as [[_ ?]|[E _]]; [contradiction|].
    split; [exact E|]. apply round_up_is_size.
  - intros n Hsite E Hr. apply extend_heap_brk in E.
    destruct E as [[_ ?]|[E _]]; [contradiction|].
    assert (Hs : is_size size /\ 4096 <= size).
    { destruct Hsite as [->| ->].
      - split; [exact is_size_4096|vm_compute; congruence].
      - split; [|exact (max_ge_r _ _)].
        apply is_size_max; [apply malloc_asize_is_size|exact is_size_4096]. }
    destruct Hs as [Hs H4096].
    rewrite (round_up_multiple size Hs) in E.
    split; [exact (round_up_multiple size Hs)|]. split; [exact E|]. lia.
  - apply mm_init_brk.
  - intros Hinit E. destruct (malloc_grows fuel st size st' r Hinit E) as [H|H];
      [left; exact H|right].
    change chunksize with 4096 in H.
    split; [exact H|].
    split.
    + apply (is_size_max (adjusted_size size) 4096);
        [apply malloc_asize_is_size|exact is_size_4096].
    + pose proof (max_ge_r (adjusted_size size) 4096). lia.
Qed.

Lemma returned_some (r : option (State * Z)) :
  returned r = true -> r = Some (st_of r, val_of r).
Proof. destruct r as [[s v]|]; [reflexivity|discriminate]. Qed.

Lemma ok_of_some (r : option (State * bool)) :
  ok_of r = true -> r = Some (st_of r, true).
Proof. destruct r as [[s []]|]; (reflexivity || discriminate). Qed.

Lemma C9_heap_growth_witness :
  (let r := extend_heap run_fuel initial_heap 4096 in
   mem_brk (st_of r) = mem_brk initial_heap + round_up 4096 dsize /\
   round_up 4096 dsize mod 16 = 0) /\
  (let size := max (adjusted_size 5000) chunksize in
   let r := extend_heap run_fuel initial_heap size in
   round_up size dsize = size /\
   mem_brk (st_of r) = mem_brk initial_heap + size /\
   mem_brk initial_heap + 4096 <= mem_brk (st_of r)) /\
  (let r := mm_init run_fuel fresh_state in
   mem_brk (st_of r) = mem_brk fresh_state + 2 * wsize + 4096) /\
  (let r := malloc run_fuel initial_heap 5000 in
   mem_brk (st_of r) = mem_brk initial_heap \/
   (mem_brk (st_of r) = mem_brk initial_heap + max (adjusted_size 5000) 4096 /\
    max (adjusted_size 5000) 4096 mod 16 = 0 /\
    mem_brk initial_heap + 4096 <= mem_brk (st_of r))).
Proof.
  split; [|split; [|split]].
  - intros r.
    apply (proj1 (C9_heap_growth run_fuel initial_heap 4096 (st_of r) (val_of r))).
    + apply returned_some. vm_compute. reflexivity.
    + vm_compute. congruence.
  - intros size r.
    apply (proj1 (proj2 (C9_heap_growth run_fuel initial_heap size (st_of r) (val_of r)))
             5000).
    + right. reflexivity.
    + apply returned_some. vm_compute. reflexivity.
    + vm_compute. congruence.
  - intros r.
    apply (proj1 (proj2 (proj2 (C9_heap_growth run_fuel fresh_state 0 (st_of r) 0)))).
    apply ok_of_some. vm_compute. reflexivity.
  - intros r.
    apply (proj2 (proj2 (proj2
             (C9_heap_growth run_fuel initial_heap 5000 (st_of r) (val_of r))))).
    + vm_compute. congruence.
    + apply returned_some. vm_compute. reflexivity.
Defined.

(** ** Failing requests and [calloc] *)

Lemma malloc_asize size : size <> 0 -> forall fuel st,
  heap_start st <> NULL ->
  malloc fuel st size =
    (block <- find_fit fuel st (adjusted_size size) ;;
     if (adjusted_size size =? mb_block_size) && negb (block =? NULL) && get_mini st block then
       st <- rem_from_mini_list fuel st block ;;
       let st := write_block st block mb_block_size true
                   (get_prev_alloc st block) (get_prev_mini st block) in
       let st := set_prev_alloc st (find_next st block) in
       let st := set_prev_mini st (find_next st block) in
       Some (st, header_to_payload block)
     else
       ' (st, block) <-
         (if block =? NULL then extend_heap fuel st (max (adjusted_size size) chunksize)
          else Some (st, block)) ;;
       if block =? NULL then Some (st, NULL)
       else
         let st := rem_from_free_list st block in
         let st := split_block st block (adjusted_size size) in
         Some (st, header_to_payload block)).
Proof.
  intros Hsize fuel st Hinit. unfold malloc, adjusted_size.
  destruct (Z.eqb_spec (heap_start st) NULL) as [E|_]; [contradiction|].
  destruct (Z.eqb_spec size 0) as [E|_]; [contradiction|].
  reflexivity.
Qed.

Lemma malloc_zero fuel st :
  heap_start st <> NULL -> malloc fuel st 0 = Some (st, NULL).
Proof.
  intros Hinit. unfold malloc.
  destruct (Z.eqb_spec (heap_start st) NULL) as [E|_]; [contradiction|].
  reflexivity.
Qed.

(** The grow primitive refuses any request larger than the room left. *)
Lemma extend_heap_refused fuel st size :
  is_size size ->
  mem_max_addr st - mem_brk st < size ->
  extend_heap fuel st size = Some (st, NULL).
Proof.
  intros Hsize Hroom. unfold extend_heap, mem_sbrk.
  rewrite (round_up_multiple size Hsize).
  assert (Hrefuse : (to_intptr size <? 0) || (mem_max_addr st - mem_brk st <? to_intptr size) = true).
  { destruct (Z.ltb_spec (to_intptr size) 0) as [|Hpos]; [reflexivity|].
    rewrite (to_intptr_nonneg size (proj1 Hsize) Hpos). cbn [orb].
    apply Z.ltb_lt. exact Hroom. }
  rewrite Hrefuse, Z.eqb_refl. reflexivity.
Qed.

(** Out of memory: no fit and the grow primitive refuses; [malloc] returns
    null and the state is the one it was called in. *)
Lemma malloc_out_of_memory fuel st size :
  heap_start st <> NULL -> size <> 0 ->
  find_fit fuel st (adjusted_size size) = Some NULL ->
  mem_max_addr st - mem_brk st < max (adjusted_size size) chunksize ->
  malloc fuel st size = Some (st, NULL).
Proof.
  intros Hinit Hsize Hfit Hroom.
  rewrite (malloc_asize size Hsize fuel st Hinit), Hfit.
  change (NULL =? NULL) with true. cbn [negb andb].
  rewrite andb_false_r.
  rewrite extend_heap_refused;
    [reflexivity| |exact Hroom].
  apply is_size_max; [apply malloc_asize_is_size|exact is_size_4096].
Qed.

Lemma calloc_no_overflow elements size :
  0 < elements < word_modulus -> 0 <= size < word_modulus ->
  (wrap (elements * size) / elements =? size) = true ->
  wrap (elements * size) = elements * size.
Proof.
  intros He Hs Hq. apply Z.eqb_eq in Hq.
  unfold wrap in *.
  pose proof (Z.mod_pos_bound (elements * size) word_modulus ltac:(reflexivity)) as Hm.
  pose proof (Z.mod_le (elements * size) word_modulus ltac:(nia) ltac:(reflexivity)) as Hle.
  set (w := (elements * size) mod word_modulus) in *.
  assert (Hw : elements * size <= w).
  { pose proof (Z.mul_div_le w elements ltac:(lia)) as H1. rewrite Hq in H1. exact H1. }
  apply Z.mod_small. lia.
Qed.

Lemma calloc_overflow elements size :
  0 < elements < word_modulus -> 0 <= size < word_modulus ->
  word_modulus <= elements * size ->
  (wrap (elements * size) / elements =? size) = false.
Proof.
  intros He Hs Ho. apply Z.eqb_neq. intros Hq.
  assert (Hw : wrap (elements * size) = elements * size).
  { apply calloc_no_overflow; try assumption. apply Z.eqb_eq. exact Hq. }
  pose proof (wrap_range (elements * size)). lia.
Qed.

Lemma memset_zero m dst n i :
  0 <= i < n -> i < word_modulus ->
  load8 (memset m dst 0 n) (wrap (dst + i)) = 0.
Proof.
  intros Hi Hw. unfold load8, memset.
  assert (Hd : wrap (wrap (dst + i) - dst) = i).
  { unfold wrap. rewrite Zminus_mod_idemp_l.
    replace (dst + i - dst) with i by lia. apply Z.mod_small. lia. }
  rewrite Hd. destruct (Z.ltb_spec i n); [reflexivity|lia].
Qed.

(** C7 (as stated, refuted): on a heap that is not yet initialised,
    [calloc(1, 0)] returns null after the lazy [mm_init] of [malloc] has
    created the heap: the state has changed. *)
Lemma C7_calloc_zero_size_initialises_heap :
  heap_start fresh_state = NULL /\
  match calloc run_fuel fresh_state 1 0 with
  | Some (st', p) =>
      p = NULL /\
      heap_start st' <> heap_start fresh_state /\
      mem_brk st' <> mem_brk fresh_state
  | None => False
  end.
Proof.
  vm_compute. repeat split; congruence.
Qed.

(** C7 (amended).  [calloc(elements, size)] returns null with the state
    unchanged when [elements] is zero or [elements * size] overflows, and,
    on an initialised heap, when [size] is zero or when the allocation runs
    out of memory (no fit, and the grow primitive refuses); whenever the
    underlying [malloc] returns null, [calloc] returns null with the state
    [malloc] left.  On a non-null return the pointer is the one [malloc]
    returned for [elements * size] bytes, and when the payload of that
    block holds [elements * size] bytes, all [elements * size] payload
    bytes are zero. *)
Theorem C7_calloc :
  forall fuel st elements size,
    0 <= elements < word_modulus -> 0 <= size < word_modulus ->
    (elements = 0 \/ word_modulus <= elements * size ->
     calloc fuel st elements size = Some (st, NULL)) /\
    (heap_start st <> NULL -> size = 0 ->
     calloc fuel st elements size = Some (st, NULL)) /\
    (heap_start st <> NULL -> 0 < elements * size < word_modulus ->
     find_fit fuel st (adjusted_size (elements * size)) = Some NULL ->
     mem_max_addr st - mem_brk st < max (adjusted_size (elements * size)) chunksize ->
     calloc fuel st elements size = Some (st, NULL)) /\
    (0 < elements -> elements * size < word_modulus ->
     forall st1, malloc fuel st (elements * size) = Some (st1, NULL) ->
     calloc fuel st elements size = Some (st1, NULL)) /\
    (forall st' p, calloc fuel st elements size = Some (st', p) -> p <> NULL ->
     elements * size < word_modulus /\
     exists st1,
       malloc fuel st (elements * size) = Some (st1, p) /\
       (elements * size <= get_payload_size st1 (payload_to_header p) ->
        forall i, 0 <= i < elements * size -> load8 (mem st') (wrap (p + i)) = 0)).
Proof.
  intros fuel st elements size He Hs.
  split; [|split; [|split; [|split]]].
  - intros [->|Ho]; [reflexivity|]. unfold calloc.
    destruct (Z.eqb_spec elements 0); [reflexivity|].
    rewrite calloc_overflow by (try assumption; lia). reflexivity.
  - intros Hinit ->. unfold calloc.
    destruct (Z.eqb_spec elements 0); [reflexivity|].
    rewrite Z.mul_0_r. change (wrap 0) with 0.
    rewrite Z.div_0_l by assumption. cbn [Z.eqb negb].
    rewrite malloc_zero by assumption. reflexivity.
  - intros Hinit Hprod Hfit Hroom. unfold calloc.
    destruct (Z.eqb_spec elements 0); [reflexivity|].
    destruct (negb (wrap (elements * size) / elements =? size)); [reflexivity|].
    rewrite (wrap_small (elements * size)) by lia.
    rewrite malloc_out_of_memory by (try assumption; lia).
    reflexivity.
  - intros Hpos Hprod st1 Hm. unfold calloc.
    destruct (Z.eqb_spec elements 0) as [|Hne]; [lia|].
    rewrite (wrap_small (elements * size)) by nia.
    rewrite (Z.mul_comm elements size), Z.div_mul by assumption.
    rewrite Z.eqb_refl. cbn [negb].
    rewrite (Z.mul_comm size elements), Hm. reflexivity.
  - intros st' p Hc Hp. unfold calloc in Hc.
    destruct (Z.eqb_spec elements 0) as [|Hne];
      [injection Hc as _ Hc; congruence|].
    destruct (wrap (elements * size) / elements =? size) eqn:Hq; cbn [negb] in Hc;
      [|injection Hc as _ Hc; congruence].
    apply calloc_no_overflow in Hq; [|lia|assumption].
    pose proof (wrap_range (elements * size)) as Hr. rewrite Hq in *.
    destruct (malloc fuel st (elements * size)) as [[st1 bp]|]; [|discriminate].
    destruct (Z.eqb_spec bp NULL); [injection Hc as _ Hc; congruence|].
    injection Hc as <- <-.
    split; [lia|]. exists st1. split; [reflexivity|].
    intros _ i Hi. cbn [mem set_mem].
    apply memset_zero; lia.
Qed.

Lemma st_of_some {A} (r : option (State * A)) s v : r = Some (s, v) -> st_of r = s.
Proof. intros ->. reflexivity. Qed.

Lemma C7_calloc_witness :
  calloc run_fuel initial_heap 0 8 = Some (initial_heap, NULL) /\
  calloc run_fuel initial_heap 3 0 = Some (initial_heap, NULL) /\
  calloc run_fuel initial_heap (2 ^ 32) (2 ^ 32) = Some (initial_heap, NULL) /\
  (let st := ZeroFill.st_freed in
   let r := calloc run_fuel st 4 10 in
   val_of r = ZeroFill.p /\
   load8 (mem st) (ZeroFill.p + 24) = 255 /\
   forall i, 0 <= i < 4 * 10 -> load8 (mem (st_of r)) (wrap (val_of r + i)) = 0).
Proof.
  split; [|split; [|split]].
  - apply (proj1 (C7_calloc run_fuel initial_heap 0 8 ltac:(vm_compute; intuition congruence)
             ltac:(vm_compute; intuition congruence))).
    left. reflexivity.
  - apply (proj1 (proj2 (C7_calloc run_fuel initial_heap 3 0 ltac:(vm_compute; intuition congruence)
             ltac:(vm_compute; intuition congruence)))).
    + vm_compute. congruence.
    + reflexivity.
  - apply (proj1 (C7_calloc run_fuel initial_heap (2 ^ 32) (2 ^ 32)
             ltac:(vm_compute; intuition congruence)
             ltac:(vm_compute; intuition congruence))).
    right. vm_compute. congruence.
  - intros st r.
    split; [vm_compute; reflexivity|]. split; [vm_compute; reflexivity|].
    destruct (proj2 (proj2 (proj2 (proj2 (C7_calloc run_fuel st 4 10
                ltac:(vm_compute; intuition congruence)
                ltac:(vm_compute; intuition congruence))))) (st_of r) (val_of r))
      as (_ & st1 & Hm & Hz).
    + apply returned_some. vm_compute. reflexivity.
    + vm_compute. congruence.
    + apply Hz. rewrite <- (st_of_some _ _ _ Hm).
      vm_compute. congruence.
Defined.

(** ** The heap checker *)

Lemma get_size_nonneg st b : 0 <= get_size st b.
Proof. exact (proj1 (proj1 (extract_size_is_size (header st b)))). Qed.

Lemma get_size_zero_or_pos st b : get_size st b = 0 \/ get_size st b > 0.
Proof. pose proof (get_size_nonneg st b). lia. Qed.

Ltac checks_hold :=
  left; split;
  [ repeat split; intros; try assumption; try lia; try congruence;
    solve [left; congruence | right; lia]
  | reflexivity ].

Ltac checks_fail :=
  right; split;
  [ let H1 := fresh in let H2 := fresh in let H3 := fresh in
    let H4 := fresh in let H5 := fresh in
    intros (H1 & H2 & H3 & H4 & H5);
    try specialize (H3 ltac:(assumption));
    try specialize (H4 ltac:(assumption));
    try specialize (H5 ltac:(assumption) ltac:(assumption));
    try (destruct H4);
    first [lia | congruence]
  | reflexivity ].

Ltac checks_split c :=
  destruct c; cbn [negb andb orb]; try solve [checks_hold | checks_fail].

(** The loop body of the heap walk either passes every test and moves on to
    the next block, or fails one and makes the checker return [false]. *)
Lemma block_checks_dec st prev_block block :
  get_size st block > 0 ->
  (block_checks st prev_block block
   /\ forall f n,
      checkheap_walk (S f) st block prev_block n
      = checkheap_walk f st (find_next st block) block
          (if negb (get_alloc st block) then n + 1 else n)) \/
  (~ block_checks st prev_block block
   /\ forall f n, checkheap_walk (S f) st block prev_block n = Some None).
Proof.
  intros Hpos. unfold block_checks. cbn [checkheap_walk].
  pose proof (get_size_nonneg st (find_next st block)) as Hnn.
  destruct (Z.gtb_spec (get_size st block) 0) as [_|]; [|lia]. cbn [negb].
  checks_split (Z.eqb_spec (get_size st block mod 16) 0).
  destruct (Z.ltb_spec (get_size st block) mb_block_size) as [Hlt|_];
    [unfold mb_block_size in Hlt; exfalso; Z.div_mod_to_equations; lia|].
  checks_split (Z.ltb_spec block (mem_heap_lo st)).
  checks_split (Z.gtb_spec block (mem_heap_hi st)).
  destruct (get_alloc st block) eqn:Ha;
    destruct (get_alloc st (find_next st block)) eqn:Hna;
    destruct (get_mini st block) eqn:Hmini;
    destruct (get_alloc st prev_block) eqn:Hpa;
    destruct (get_prev_alloc st block) eqn:Hb;
    checks_split (Z.eqb_spec prev_block NULL);
    checks_split (Z.gtb_spec (get_size st (find_next st block)) 0);
    checks_split (Z.eqb_spec (header st block) (load_word st (header_to_footer st block))).
Qed.

Lemma count_free_cons st b l :
  count_free st (b :: l) = (if negb (get_alloc st b) then 1 else 0) + count_free st l.
Proof.
  unfold count_free. cbn [filter]. destruct (negb (get_alloc st b)); cbn [length]; lia.
Qed.

Lemma checkheap_walk_sound st fuel :
  forall block prev_block n m,
    checkheap_walk fuel st block prev_block n = Some (Some m) ->
    exists l, checked_walk st prev_block block l /\ m = n + count_free st l.
Proof.
  induction fuel as [|fuel IH]; intros block prev_block n m H; [discriminate|].
  destruct (get_size_zero_or_pos st block) as [Hz|Hpos].
  - cbn [checkheap_walk] in H. rewrite Hz in H. cbn in H. injection H as <-.
    exists []. split; [constructor; exact Hz|]. unfold count_free. cbn. lia.
  - destruct (block_checks_dec st prev_block block Hpos) as [[Hok Hstep]|[_ Hstep]];
      rewrite Hstep in H; [|discriminate].
    apply IH in H. destruct H as (l & Hl & ->).
    exists (block :: l). split; [constructor; assumption|].
    rewrite count_free_cons. destruct (negb (get_alloc st block)); lia.
Qed.

Lemma checkheap_walk_passes st prev_block block l :
  checked_walk st prev_block block l ->
  forall fuel n, (length l < fuel)%nat ->
    checkheap_walk fuel st block prev_block n = Some (Some (n + count_free st l)).
Proof.
  induction 1 as [prev_block block Hz|prev_block block l Hpos Hok _ IH];
    intros fuel n Hfuel; (destruct fuel as [|fuel]; [cbn in Hfuel; lia|]).
  - cbn [checkheap_walk]. rewrite Hz. cbn. unfold count_free. cbn.
    rewrite Z.add_0_r. reflexivity.
  - destruct (block_checks_dec st prev_block block Hpos) as [[_ Hstep]|[Hbad _]];
      [|contradiction].
    rewrite Hstep, IH by (cbn in Hfuel; lia).
    rewrite count_free_cons. destruct (negb (get_alloc st block)); do 2 f_equal; lia.
Qed.

Lemma checkheap_walk_fails st prev_block block k :
  walk_fails st prev_block block k ->
  forall fuel n, (k < fuel)%nat ->
    checkheap_walk fuel st block prev_block n = Some None.
Proof.
  induction 1 as [prev_block block Hpos Hbad|prev_block block k Hpos Hok _ IH];
    intros fuel n Hfuel; (destruct fuel as [|fuel]; [lia|]).
  - destruct (block_checks_dec st prev_block block Hpos) as [[Hok _]|[_ Hstep]];
      [contradiction|apply Hstep].
  - destruct (block_checks_dec st prev_block block Hpos) as [[_ Hstep]|[Hbad _]];
      [|contradiction].
    rewrite Hstep. apply IH. lia.
Qed.

Lemma count_list_sound st fuel :
  forall block n m,
    count_list fuel st block n = Some m ->
    exists l, is_list st block l /\ m = n + Z.of_nat (length l).
Proof.
  induction fuel as [|fuel IH]; intros block n m H; [discriminate|].
  cbn [count_list] in H. destruct (Z.eqb_spec block NULL) as [Hb|Hb].
  - injection H as <-. exists []. split; [exact Hb|]. cbn. lia.
  - apply IH in H. destruct H as (l & Hl & ->).
    exists (block :: l). cbn [is_list length]. repeat split; try assumption. lia.
Qed.

Lemma count_list_complete st :
  forall l block fuel n,
    is_list st block l -> (length l < fuel)%nat ->
    count_list fuel st block n = Some (n + Z.of_nat (length l)).
Proof.
  induction l as [|a l IH]; intros block fuel n Hl Hfuel;
    (destruct fuel as [|fuel]; [cbn in Hfuel; lia|]); cbn [count_list].
  - cbn in Hl. subst block. cbn. rewrite Z.add_0_r. reflexivity.
  - destruct Hl as (-> & Ha & Hl).
    destruct (Z.eqb_spec a NULL) as [|_]; [contradiction|].
    rewrite (IH _ fuel (n + 1) Hl) by (cbn in Hfuel; lia).
    f_equal. cbn [length]. lia.
Qed.

Lemma count_classes_sound st fuel :
  forall k i n m,
    count_classes k fuel st i n = Some m ->
    exists ls, length ls = k /\
      (forall j, (j < k)%nat -> is_list st (class_head st (i + j)) (nth j ls [])) /\
      m = n + Z.of_nat (length (concat ls)).
Proof.
  induction k as [|k IH]; intros i n m H; cbn [count_classes] in H.
  - injection H as <-. exists []. repeat split; [intros j Hj; lia|cbn; lia].
  - destruct (count_list fuel st (class_head st i) n) as [t|] eqn:E; [|discriminate].
    apply count_list_sound in E. destruct E as (l & Hl & ->).
    apply IH in H. destruct H as (ls & Hlen & Hls & ->).
    exists (l :: ls). cbn [length concat]. repeat split.
    + congruence.
    + intros [|j] Hj; cbn [nth].
      * rewrite Nat.add_0_r. exact Hl.
      * replace (i + S j)%nat with (S i + j)%nat by lia. apply Hls. lia.
    + rewrite length_app. lia.
Qed.

Lemma count_classes_complete st fuel :
  forall ls i n,
    (forall j, (j < length ls)%nat -> is_list st (class_head st (i + j)) (nth j ls [])) ->
    (forall l, In l ls -> (length l < fuel)%nat) ->
    count_classes (length ls) fuel st i n = Some (n + Z.of_nat (length (concat ls))).
Proof.
  induction ls as [|l ls IH]; intros i n Hls Hfuel; cbn [length count_classes concat].
  - cbn. rewrite Z.add_0_r. reflexivity.
  - pose proof (Hls 0%nat ltac:(cbn; lia)) as Hl. rewrite Nat.add_0_r in Hl. cbn [nth] in Hl.
    rewrite (count_list_complete st l _ fuel n Hl) by (apply Hfuel; left; reflexivity).
    rewrite IH.
    + f_equal. rewrite length_app. lia.
    + intros j Hj. replace (S i + j)%nat with (i + S j)%nat by lia.
      apply (Hls (S j)). cbn. lia.
    + intros l' Hl'. apply Hfuel. right. exact Hl'.
Qed.

(** C8 (as stated, refuted): a heap in which the head of a size-class
    list is an allocated block, which the checker accepts because it only
    counts the nodes of the free lists. *)
Lemma C8_checkheap_accepts_allocated_node :
  let st := CheckerGap.st_bad in
  class_head st 7 <> NULL /\
  get_alloc st (class_head st 7) = true /\
  mm_checkheap run_fuel st = Some true.
Proof.
  cbv zeta. repeat split; vm_compute; congruence.
Qed.

(** C8 (amended).  [mm_checkheap] returns [false] when the prologue word
    is wrong, when the heap walk meets a block whose size is not a multiple
    of 16, that lies outside the heap bounds, whose [prev_alloc] bit differs
    from the [alloc] bit of the block before it, that is free and followed
    by a free block of non-zero size, or that is free, regular and has a
    footer different from its header, and when the number of free blocks
    met by the walk differs from the number of nodes on the free lists,
    which it only counts.  It returns [true] exactly when none of these
    tests fails. *)
Theorem C8_checkheap_verdict :
  forall fuel st,
    (mm_checkheap fuel st = Some true ->
     prologue_ok st /\
     exists blocks classes mini,
       checked_walk st NULL (heap_start st) blocks /\
       free_lists st classes mini /\
       count_free st blocks = count_nodes classes mini) /\
    (~ prologue_ok st -> mm_checkheap fuel st = Some false) /\
    (forall n, walk_fails st NULL (heap_start st) n -> (n < fuel)%nat ->
     mm_checkheap fuel st = Some false) /\
    (forall blocks classes mini,
       prologue_ok st ->
       checked_walk st NULL (heap_start st) blocks ->
       free_lists st classes mini ->
       (length blocks < fuel)%nat ->
       (forall l, In l (mini :: classes) -> (length l < fuel)%nat) ->
       mm_checkheap fuel st
       = Some (count_free st blocks =? count_nodes classes mini)).
Proof.
  intros fuel st. unfold mm_checkheap, prologue_ok.
  destruct (Z.eqb_spec (load_word st (wrap (heap_start st - wsize))) (pack 0 true true false))
    as [Hpro|Hpro]; cbn [negb].
  2:{ split; [discriminate|]. split; [reflexivity|]. split; [reflexivity|].
      intros; contradiction. }
  split; [|split; [|split]].
  - intros H. split; [exact Hpro|].
    destruct (checkheap_walk fuel st (heap_start st) NULL 0) as [[total|]|] eqn:Ew;
      try discriminate.
    destruct (count_classes NUM_CLASSES fuel st 0 0) as [t1|] eqn:Ec; [|discriminate].
    destruct (count_list fuel st (mini_block_head st) t1) as [t2|] eqn:Em; [|discriminate].
    destruct (Z.eqb_spec t2 total) as [Heq|]; [|discriminate].
    apply checkheap_walk_sound in Ew. destruct Ew as (blocks & Hw & ->).
    apply count_classes_sound in Ec. destruct Ec as (classes & Hlen & Hcl & ->).
    apply count_list_sound in Em. destruct Em as (mini & Hmini & ->).
    exists blocks, classes, mini. repeat split; try assumption.
    unfold count_nodes. lia.
  - intros; contradiction.
  - intros n Hfail Hfuel.
    rewrite (checkheap_walk_fails st _ _ n Hfail) by exact Hfuel. reflexivity.
  - intros blocks classes mini _ Hw (Hlen & Hcl & Hmini) Hfuel Hlens.
    rewrite (checkheap_walk_passes st _ _ _ Hw) by exact Hfuel.
    rewrite <- Hlen.
    rewrite (count_classes_complete st fuel classes 0 0).
    + rewrite (count_list_complete st mini _ fuel _ Hmini)
        by (apply Hlens; left; reflexivity).
      unfold count_nodes.
      destruct (Z.eqb_spec (0 + Z.of_nat (length (concat classes)) + Z.of_nat (length mini))
                           (0 + count_free st blocks)) as [E|E];
      destruct (Z.eqb_spec (count_free st blocks)
                           (Z.of_nat (length (concat classes) + length mini))) as [E'|E'];
      cbn [negb]; try reflexivity; exfalso; lia.
    + intros j Hj. apply Hcl. rewrite <- Hlen. exact Hj.
    + intros l Hl. apply Hlens. right. exact Hl.
Qed.

Lemma C8_checkheap_verdict_witness :
  (prologue_ok initial_heap /\
   exists blocks classes mini,
     checked_walk initial_heap NULL (heap_start initial_heap) blocks /\
     free_lists initial_heap classes mini /\
     count_free initial_heap blocks = count_nodes classes mini) /\
  mm_checkheap run_fuel (st_of Overflow.r_q) = Some false.
Proof.
  split.
  - apply (proj1 (C8_checkheap_verdict run_fuel initial_heap)).
    vm_compute. reflexivity.
  - apply (proj1 (proj2 (proj2 (C8_checkheap_verdict run_fuel (st_of Overflow.r_q)))) 2%nat);
      [|vm_compute; lia].
    assert (E0 : heap_start (st_of Overflow.r_q) = 65544) by (vm_compute; reflexivity).
    assert (E1 : find_next (st_of Overflow.r_q) 65544 = 65656) by (vm_compute; reflexivity).
    assert (E2 : find_next (st_of Overflow.r_q) 65656 = 65688) by (vm_compute; reflexivity).
    rewrite E0.
    apply walk_fails_later; [vm_compute; reflexivity| |rewrite E1].
    { unfold block_checks. rewrite E1.
      split; [vm_compute; reflexivity|].
      split; [vm_compute; split; congruence|].
      split; [intros H; exfalso; apply H; reflexivity|].
      split; [intros _; left; vm_compute; reflexivity|].
      intros _ _. vm_compute. reflexivity. }
    apply walk_fails_later; [vm_compute; reflexivity| |rewrite E2].
    { unfold block_checks. rewrite E2.
      split; [vm_compute; reflexivity|].
      split; [vm_compute; split; congruence|].
      split; [intros _; vm_compute; reflexivity|].
      split; intros H; vm_compute in H; discriminate H. }
    apply walk_fails_here; [vm_compute; reflexivity|].
    intros (_ & _ & H & _). specialize (H ltac:(vm_compute; congruence)).
    vm_compute in H. discriminate H.
Defined.

(** ** [find_fit] *)

Lemma first_fit_scan_spec st asize :
  forall l block fuel,
    is_list st block l -> (length l < fuel)%nat ->
    exists r, first_fit_scan fuel st asize block = Some r /\
      ((r = NULL /\ none_fits st asize l) \/
       (r <> NULL /\ exists l1 l2,
          l = l1 ++ r :: l2 /\ none_fits st asize l1 /\ fits st asize r)).
Proof.
  induction l as [|a l IH]; intros block fuel Hl Hfuel;
    (destruct fuel as [|fuel]; [cbn in Hfuel; lia|]); cbn [first_fit_scan].
  - cbn in Hl. subst block. exists NULL. split; [reflexivity|].
    left. split; [reflexivity|]. intros x [].
  - destruct Hl as (-> & Ha & Hl).
    destruct (Z.eqb_spec a NULL) as [|_]; [contradiction|].
    destruct (Z.leb_spec asize (get_size st a)) as [Hfit|Hsmall].
    + exists a. split; [reflexivity|]. right. split; [exact Ha|].
      exists [], l. split; [reflexivity|]. split; [intros x []|exact Hfit].
    + destruct (IH _ fuel Hl ltac:(cbn in Hfuel; lia)) as (r & -> & Hr).
      exists r. split; [reflexivity|].
      destruct Hr as [[-> Hnone]|[Hr (l1 & l2 & -> & Hnone & Hfit)]].
      * left. split; [reflexivity|]. intros x [<-|Hx]; [exact Hsmall|auto].
      * right. split; [exact Hr|]. exists (a :: l1), l2.
        split; [reflexivity|]. split; [|exact Hfit].
        intros x [<-|Hx]; [exact Hsmall|auto].
Qed.

(** The bounded scan keeps [best] unless it meets a strictly smaller block
    that is large enough. *)
Lemma best_fit_scan_spec st asize :
  forall k l block best best_size,
    is_list st block l ->
    let r := best_fit_scan k st asize block best best_size in
    (r = best /\
     forall x, In x (firstn k l) -> fits st asize x -> best_size <= get_size st x) \/
    (In r (firstn k l) /\ fits st asize r /\ get_size st r < best_size /\
     forall x, In x (firstn k l) -> fits st asize x -> get_size st r <= get_size st x).
Proof.
  unfold fits.
  induction k as [|k IH]; intros l block best best_size Hl; cbn [best_fit_scan firstn].
  - left. split; [reflexivity|]. intros x [].
  - destruct l as [|a l]; cbn [is_list] in Hl.
    + subst block. cbn. left. split; [reflexivity|]. intros x [].
    + destruct Hl as (-> & Ha & Hl). cbn [firstn].
      destruct (Z.eqb_spec a NULL) as [|_]; [contradiction|].
      destruct (Z.leb_spec asize (get_size st a)) as [Hfit|Hsmall]; cbn [andb].
      * destruct (Z.ltb_spec (get_size st a) best_size) as [Hlt|Hge].
        -- destruct (IH l (get_next st a) a (get_size st a) Hl)
             as [[-> Hmin]|(Hin & Hf & Hlt' & Hmin)].
           ++ right. split; [left; reflexivity|]. split; [exact Hfit|].
              split; [exact Hlt|]. intros x [<-|Hx] Hfx; [lia|auto].
           ++ right. split; [right; exact Hin|]. split; [exact Hf|].
              split; [lia|]. intros x [<-|Hx] Hfx; [lia|auto].
        -- destruct (IH l (get_next st a) best best_size Hl)
             as [[-> Hmin]|(Hin & Hf & Hlt' & Hmin)].
           ++ left. split; [reflexivity|]. intros x [<-|Hx] Hfx; [lia|auto].
           ++ right. split; [right; exact Hin|]. split; [exact Hf|].
              split; [exact Hlt'|]. intros x [<-|Hx] Hfx; [lia|auto].
      * destruct (IH l (get_next st a) best best_size Hl)
          as [[-> Hmin]|(Hin & Hf & Hlt' & Hmin)].
        -- left. split; [reflexivity|]. intros x [<-|Hx] Hfx; [lia|auto].
        -- right. split; [right; exact Hin|]. split; [exact Hf|].
           split; [exact Hlt'|]. intros x [<-|Hx] Hfx; [lia|auto].
Qed.

Lemma get_size_lt_SIZE_MAX st b : get_size st b < SIZE_MAX.
Proof.
  pose proof (is_size_bound _ (extract_size_is_size (header st b))) as H.
  unfold get_size, SIZE_MAX. lia.
Qed.

Lemma is_list_not_null st head l x : is_list st head l -> In x l -> x <> NULL.
Proof.
  revert head. induction l as [|a l IH]; intros head Hl Hx; [destruct Hx|].
  destruct Hl as (_ & Ha & Hl). destruct Hx as [<-|Hx]; [exact Ha|eauto].
Qed.

Lemma in_firstn (k : nat) (l : list Z) x : In x (firstn k l) -> In x l.
Proof.
  intros H. rewrite <- (firstn_skipn k l). apply in_or_app. left. exact H.
Qed.

(** One class of the second part of [find_fit]. *)
Lemma best_of_class st asize l head :
  is_list st head l ->
  let r := best_fit_scan MAX_SEARCH st asize head NULL SIZE_MAX in
  (r = NULL /\ none_fits st asize (firstn MAX_SEARCH l)) \/
  (r <> NULL /\ In r (firstn MAX_SEARCH l) /\ fits st asize r /\
   forall x, In x (firstn MAX_SEARCH l) -> fits st asize x -> get_size st r <= get_size st x).
Proof.
  intros Hl r.
  destruct (best_fit_scan_spec st asize MAX_SEARCH l head NULL SIZE_MAX Hl)
    as [[Hr Hmin]|(Hin & Hf & _ & Hmin)]; fold r in Hr || fold r in Hin, Hf, Hmin.
  - left. split; [exact Hr|]. intros x Hx.
    destruct (Z.lt_ge_cases (get_size st x) asize) as [|Hfx]; [assumption|].
    specialize (Hmin x Hx Hfx). pose proof (get_size_lt_SIZE_MAX st x). lia.
  - right. split; [|auto].
    apply (is_list_not_null st head l); [exact Hl|].
    eapply in_firstn. exact Hin.
Qed.

Lemma higher_classes_scan_spec st classes asize :
  (forall i, (i < NUM_CLASSES)%nat -> is_list st (class_head st i) (nth i classes [])) ->
  forall n i, (i + n = NUM_CLASSES)%nat ->
    let r := higher_classes_scan n st asize i in
    (r = NULL /\
     forall c, (i <= c < NUM_CLASSES)%nat -> none_fits st asize (examined classes c)) \/
    (r <> NULL /\ exists c, (i <= c < NUM_CLASSES)%nat /\
       (forall c', (i <= c' < c)%nat -> none_fits st asize (examined classes c')) /\
       In r (examined classes c) /\ fits st asize r /\
       forall x, In x (examined classes c) -> fits st asize x ->
                 get_size st r <= get_size st x).
Proof.
  intros Hcl. induction n as [|n IH]; intros i Hi; cbn [higher_classes_scan].
  - left. split; [reflexivity|]. intros c Hc. lia.
  - destruct (best_of_class st asize (nth i classes []) (class_head st i)
                (Hcl i ltac:(lia))) as [[Hr Hnone]|(Hr & Hin & Hf & Hmin)].
    + rewrite Hr. change (NULL =? NULL) with true. cbn [negb].
      destruct (IH (S i) ltac:(lia)) as [[Hr' Hnone']|(Hr' & c & Hc & Hlow & Hrest)].
      * left. split; [exact Hr'|]. intros c Hc.
        destruct (Nat.eq_dec c i) as [->|]; [exact Hnone|apply Hnone'; lia].
      * right. split; [exact Hr'|]. exists c. split; [lia|]. split; [|exact Hrest].
        intros c' Hc'.
        destruct (Nat.eq_dec c' i) as [->|]; [exact Hnone|apply Hlow; lia].
    + destruct (Z.eqb_spec (best_fit_scan MAX_SEARCH st asize (class_head st i) NULL SIZE_MAX) NULL)
        as [|_]; [contradiction|]. cbn [negb].
      right. split; [exact Hr|]. exists i. split; [lia|].
      split; [intros c' Hc'; lia|]. auto.
Qed.

Lemma size_to_class_lt size : (size_to_class size < NUM_CLASSES)%nat.
Proof.
  unfold size_to_class, NUM_CLASSES.
  repeat (match goal with |- context [if ?c then _ else _] => destruct c end; [lia|]).
  lia.
Qed.

(** C4.  On free lists that are well-formed linked lists, [find_fit]
    returns what the specification describes: the head of the mini list
    when [asize <= 16] and that list is not empty; otherwise the first
    block large enough in the class of [asize]; otherwise, from the first
    higher class in which one of the at most 10 blocks examined is large
    enough, a smallest such block; otherwise null. *)
Theorem C4_find_fit_meets_spec :
  forall fuel st classes mini asize,
    free_lists st classes mini ->
    (length (nth (size_to_class asize) classes []) < fuel)%nat ->
    exists r, find_fit fuel st asize = Some r /\ fit_spec st classes mini asize r.
Proof.
  intros fuel st classes mini asize (Hlen & Hcl & Hmini) Hfuel.
  pose proof (size_to_class_lt asize) as Hclass.
  assert (Hrest : ~ (asize <= 16 /\ mini <> []) ->
    exists r,
      (block <- first_fit_scan fuel st asize (class_head st (size_to_class asize)) ;;
       if negb (block =? NULL) then Some block
       else Some (higher_classes_scan (NUM_CLASSES - (size_to_class asize + 1)) st asize
                    (size_to_class asize + 1)%nat)) = Some r /\
      fit_spec st classes mini asize r).
  { intros Hno.
    destruct (first_fit_scan_spec st asize _ _ fuel (Hcl _ Hclass) Hfuel)
      as (r & -> & [[-> Hnone]|(Hr & l1 & l2 & Hsplit & Hnone & Hfit)]).
    - change (NULL =? NULL) with true. cbn [negb].
      destruct (higher_classes_scan_spec st classes asize Hcl
                  (NUM_CLASSES - (size_to_class asize + 1))
                  (size_to_class asize + 1)%nat ltac:(lia))
        as [[Hr Hnone']|(Hr & c & Hc & Hlow & Hin & Hfit & Hmin)].
      + eexists. split; [reflexivity|]. rewrite Hr.
        apply fit_null; [exact Hno|exact Hnone|].
        intros c' Hc'. apply Hnone'. lia.
      + eexists. split; [reflexivity|].
        apply (fit_best_in_higher_class st classes mini asize c); try assumption.
        * lia.
        * intros c' Hc'. apply Hlow. lia.
    - destruct (Z.eqb_spec r NULL) as [|_]; [contradiction|]. cbn [negb].
      exists r. split; [reflexivity|].
      eapply fit_first_in_class; eassumption. }
  unfold find_fit.
  destruct (Z.leb_spec asize mb_block_size) as [Hsmall|Hbig]; cbn [andb].
  - destruct mini as [|b rest]; cbn [is_list] in Hmini.
    + rewrite Hmini. change (NULL =? NULL) with true. cbn [negb].
      apply Hrest. intros [_ H]. congruence.
    + destruct Hmini as (Hhead & Hb & _). rewrite Hhead.
      destruct (Z.eqb_spec b NULL) as [|_]; [contradiction|]. cbn [negb].
      exists b. split; [reflexivity|]. eapply fit_mini_head; [exact Hsmall|reflexivity].
  - apply Hrest. unfold mb_block_size in Hbig. lia.
Qed.

Lemma C4_find_fit_meets_spec_witness :
  exists r,
    find_fit run_fuel ReallocCopy.st_freed 32 = Some r /\
    fit_spec ReallocCopy.st_freed
      [[]; [65544]; []; []; []; []; []; [65672]; []; []; []; []; []; []; []] [] 32 r.
Proof.
  apply C4_find_fit_meets_spec.
  - split; [reflexivity|]. split; [|vm_compute; reflexivity].
    intros i Hi.
    do 15 (destruct i as [|i]; [vm_compute; repeat split; congruence|]).
    unfold NUM_CLASSES in Hi. lia.
  - vm_compute. lia.
Defined.

(** ** Words of the state *)

Lemma load_store_same st a v :
  0 <= v < word_modulus -> load_word (store_word st a v) a = v.
Proof.
  intros Hv. unfold load_word, store_word. cbn [mem set_mem].
  rewrite load64_store64_same. apply wrap_small. exact Hv.
Qed.

Lemma load_store_other st a v b :
  b + 8 <= a \/ a + 8 <= b -> load_word (store_word st a v) b = load_word st b.
Proof.
  intros H. unfold load_word, store_word. cbn [mem set_mem].
  apply load64_store64_other. exact H.
Qed.

Lemma load_word_range st a : 0 <= load_word st a < word_modulus.
Proof. apply load64_range. Qed.

Lemma class_head_store_word st a v c :
  class_head (store_word st a v) c = class_head st c.
Proof. reflexivity. Qed.

Lemma nth_list_set_same l i v : (i < length l)%nat -> nth i (list_set l i v) NULL = v.
Proof.
  revert i. induction l as [|h t IH]; intros i Hi; [cbn in Hi; lia|].
  destruct i as [|i]; cbn; [reflexivity|]. apply IH. cbn in Hi. lia.
Qed.

Lemma nth_list_set_other l i j v : i <> j -> nth j (list_set l i v) NULL = nth j l NULL.
Proof.
  revert i j. induction l as [|h t IH]; intros i j Hij.
  - destruct i; reflexivity.
  - destruct i as [|i], j as [|j]; cbn; try reflexivity; try lia.
    apply IH. lia.
Qed.

Lemma length_list_set l i v : length (list_set l i v) = length l.
Proof.
  revert i. induction l as [|h t IH]; intros i; [destruct i; reflexivity|].
  destruct i; cbn; [reflexivity|]. f_equal. apply IH.
Qed.

(** ** Frames for the list predicates *)

Lemma is_list_frame st st' :
  forall l head,
    (forall a, In a l -> get_next st' a = get_next st a) ->
    is_list st head l -> is_list st' head l.
Proof.
  induction l as [|a l IH]; intros head Hframe Hl; [exact Hl|].
  destruct Hl as (Hh & Ha & Hl). cbn [is_list]. split; [exact Hh|]. split; [exact Ha|].
  rewrite (Hframe a (or_introl eq_refl)).
  apply IH; [|exact Hl]. intros b Hb. apply Hframe. right. exact Hb.
Qed.

Lemma prev_links_frame st st' :
  forall l prev,
    (forall a, In a l -> get_prev st' a = get_prev st a) ->
    prev_links st prev l -> prev_links st' prev l.
Proof.
  induction l as [|a l IH]; intros prev Hframe Hl; [exact Hl|].
  destruct Hl as (Hp & Hl). cbn [prev_links].
  rewrite (Hframe a (or_introl eq_refl)). split; [exact Hp|].
  apply IH; [|exact Hl]. intros b Hb. apply Hframe. right. exact Hb.
Qed.

Lemma in_nth_concat (classes : list (list Z)) c a :
  In a (nth c classes []) -> In a (concat classes).
Proof.
  revert c. induction classes as [|l ls IH]; intros c Ha.
  - destruct c; destruct Ha.
  - cbn [concat]. apply in_or_app. destruct c as [|c]; [left; exact Ha|right; eauto].
Qed.

Lemma in_concat_nth (classes : list (list Z)) a :
  In a (concat classes) -> exists c, (c < length classes)%nat /\ In a (nth c classes []).
Proof.
  induction classes as [|l ls IH]; intros Ha; [destruct Ha|].
  cbn [concat] in Ha. apply in_app_or in Ha. destruct Ha as [Ha|Ha].
  - exists 0%nat. split; [cbn; lia|exact Ha].
  - destruct (IH Ha) as (c & Hc & Hin). exists (S c). split; [cbn; lia|exact Hin].
Qed.

Lemma in_all_nodes classes mini a :
  In a (all_nodes classes mini) <-> In a (concat classes) \/ In a mini.
Proof. unfold all_nodes. apply in_app_iff. Qed.

Lemma node_size st classes mini a :
  lists_wf st classes mini -> In a (all_nodes classes mini) ->
  mb_block_size <= get_size st a.
Proof.
  intros Hwf Ha. apply in_all_nodes in Ha. destruct Ha as [Ha|Ha].
  - apply in_concat_nth in Ha. destruct Ha as (c & _ & Ha).
    pose proof (proj1 (wf_regular _ _ _ Hwf c a Ha)) as H.
    unfold min_block_size, dsize, wsize, mb_block_size in *. lia.
  - rewrite (wf_mini _ _ _ Hwf a Ha). lia.
Qed.

Lemma regular_node_size st classes mini a :
  lists_wf st classes mini -> In a (concat classes) -> 32 <= get_size st a.
Proof.
  intros Hwf Ha. apply in_concat_nth in Ha. destruct Ha as (c & _ & Ha).
  exact (proj1 (wf_regular _ _ _ Hwf c a Ha)).
Qed.

(** The lists stay well formed when the heads and the header and link
    words of every node are unchanged. *)
Lemma lists_wf_frame st st' classes mini :
  lists_wf st classes mini ->
  size_class st' = size_class st ->
  mini_block_head st' = mini_block_head st ->
  (forall a, In a (all_nodes classes mini) ->
     load_word st' a = load_word st a /\
     load_word st' (a + next_offset) = load_word st (a + next_offset)) ->
  (forall a, In a (concat classes) ->
     load_word st' (a + prev_offset) = load_word st (a + prev_offset)) ->
  lists_wf st' classes mini.
Proof.
  intros Hwf Hsc Hmh Hnodes Hprev.
  assert (Hsize : forall a, In a (all_nodes classes mini) -> get_size st' a = get_size st a).
  { intros a Ha. unfold get_size, header. rewrite (proj1 (Hnodes a Ha)). reflexivity. }
  assert (Hhead : forall c, class_head st' c = class_head st c).
  { intros c. unfold class_head. rewrite Hsc. reflexivity. }
  constructor.
  - rewrite Hsc. exact (wf_heads _ _ _ Hwf).
  - exact (wf_classes _ _ _ Hwf).
  - intros c Hc. destruct (wf_dlist _ _ _ Hwf c Hc) as [Hl Hp]. rewrite Hhead. split.
    + apply (is_list_frame st); [|exact Hl]. intros a Ha.
      apply (Hnodes a). apply in_all_nodes. left. eapply in_nth_concat. exact Ha.
    + apply (prev_links_frame st); [|exact Hp]. intros a Ha.
      apply (Hprev a). eapply in_nth_concat. exact Ha.
  - rewrite Hmh. apply (is_list_frame st); [|exact (wf_mini_list _ _ _ Hwf)].
    intros a Ha. apply (Hnodes a). apply in_all_nodes. right. exact Ha.
  - intros c a Ha. rewrite Hsize.
    + exact (wf_regular _ _ _ Hwf c a Ha).
    + apply in_all_nodes. left. eapply in_nth_concat. exact Ha.
  - intros a Ha. rewrite Hsize; [exact (wf_mini _ _ _ Hwf a Ha)|].
    apply in_all_nodes. right. exact Ha.
  - intros a Ha. rewrite (Hsize a Ha). exact (wf_range _ _ _ Hwf a Ha).
  - exact (wf_nodup _ _ _ Hwf).
  - intros a b Ha Hb Hab. unfold apart. rewrite (Hsize a Ha), (Hsize b Hb).
    exact (wf_apart _ _ _ Hwf a b Ha Hb Hab).
Qed.

(** A store outside every listed block keeps the lists well formed. *)
Lemma lists_wf_store_outside st classes mini w v :
  lists_wf st classes mini ->
  (forall a, In a (all_nodes classes mini) -> word_outside st w a) ->
  lists_wf (store_word st w v) classes mini.
Proof.
  intros Hwf Hout. apply (lists_wf_frame st); try assumption; try reflexivity.
  - intros a Ha. pose proof (node_size st classes mini a Hwf Ha) as Hs.
    pose proof (Hout a Ha) as Ho. unfold word_outside, wsize, mb_block_size, next_offset in *.
    split; apply load_store_other; lia.
  - intros a Ha. pose proof (regular_node_size st classes mini a Hwf Ha) as Hs.
    pose proof (Hout a ltac:(apply in_all_nodes; left; exact Ha)) as Ho.
    unfold word_outside, wsize, prev_offset in *.
    apply load_store_other; lia.
Qed.

(** ** Unlinking a node *)

Lemma is_list_hd st : forall l head, is_list st head l -> head = hd NULL l.
Proof. intros [|a l] head H; [exact H|exact (proj1 H)]. Qed.

Lemma is_list_next_of st x l2 :
  forall l1 head, is_list st head (l1 ++ x :: l2) -> get_next st x = hd NULL l2.
Proof.
  induction l1 as [|a l1 IH]; intros head H.
  - destruct H as (_ & _ & H). exact (is_list_hd st _ _ H).
  - destruct H as (_ & _ & H). exact (IH _ H).
Qed.

Lemma last_in (l : list Z) d : l <> [] -> In (last l d) l.
Proof.
  induction l as [|a l IH]; intros Hne; [congruence|].
  destruct l as [|b l]; [left; reflexivity|].
  right. apply IH. discriminate.
Qed.

Lemma last_cons_ne (a : Z) l d : l <> [] -> last (a :: l) d = last l d.
Proof. destruct l; [congruence|reflexivity]. Qed.

Lemma last_indep (l : list Z) d d' : l <> [] -> last l d = last l d'.
Proof.
  induction l as [|a l IH]; intros Hne; [congruence|].
  destruct l as [|b l]; [reflexivity|]. apply IH. discriminate.
Qed.

Lemma prev_links_prev_of st x l2 :
  forall l1 prev, prev_links st prev (l1 ++ x :: l2) -> get_prev st x = last l1 prev.
Proof.
  induction l1 as [|a l1 IH]; intros prev H.
  - exact (proj1 H).
  - destruct H as (_ & H). rewrite (IH _ H).
    destruct l1 as [|z l1]; [reflexivity|].
    rewrite (last_cons_ne a (z :: l1)) by discriminate.
    apply last_indep. discriminate.
Qed.

(** Unlinking [x] from a list linked through [next]: only the [next]
    member of the node before [x] changes, to the successor of [x]. *)
Lemma is_list_unlink st st' x l2 :
  forall l1 head,
    is_list st head (l1 ++ x :: l2) ->
    NoDup (l1 ++ x :: l2) ->
    (forall a, In a (l1 ++ l2) -> a <> last l1 NULL -> get_next st' a = get_next st a) ->
    (l1 <> [] -> get_next st' (last l1 NULL) = get_next st x) ->
    is_list st' (match l1 with [] => get_next st x | _ => head end) (l1 ++ l2).
Proof.
  induction l1 as [|a l1 IH]; intros head Hl Hnd Hframe Hlast.
  - destruct Hl as (_ & _ & Hl). cbn [app] in *.
    apply (is_list_frame st); [|exact Hl].
    intros b Hb. apply Hframe; [exact Hb|].
    cbn. exact (is_list_not_null st _ _ b Hl Hb).
  - destruct Hl as (Hh & Ha & Hl). cbn [app is_list].
    split; [exact Hh|]. split; [exact Ha|].
    cbn [app] in Hnd. apply NoDup_cons_iff in Hnd. destruct Hnd as [Hna Hnd].
    destruct l1 as [|b l1].
    + cbn [app] in *. specialize (Hlast ltac:(discriminate)). cbn [last] in Hlast.
      rewrite Hlast.
      destruct Hl as (_ & _ & Hl).
      apply (is_list_frame st); [|exact Hl].
      intros c Hc. apply Hframe; [right; exact Hc|].
      cbn. intros ->. apply Hna. right. exact Hc.
    + assert (Hne : b :: l1 <> []) by discriminate.
      rewrite last_cons_ne in Hframe, Hlast by exact Hne.
      rewrite Hframe.
      * apply (IH (get_next st a) Hl Hnd).
        -- intros c Hc Hcl. apply Hframe; [right; exact Hc|exact Hcl].
        -- intros _. apply Hlast. discriminate.
      * left. reflexivity.
      * intros ->. apply Hna. apply in_or_app. left. apply last_in. exact Hne.
Qed.

(** The same for the [prev] members: only that of the successor of [x]
    changes, to the predecessor of [x]. *)
Lemma prev_links_unlink st st' x l2 :
  forall l1 prev,
    prev_links st prev (l1 ++ x :: l2) ->
    NoDup (l1 ++ x :: l2) ->
    (forall a, In a (l1 ++ l2) -> a <> NULL) ->
    (forall a, In a (l1 ++ l2) -> a <> hd NULL l2 -> get_prev st' a = get_prev st a) ->
    (l2 <> [] -> get_prev st' (hd NULL l2) = get_prev st x) ->
    prev_links st' prev (l1 ++ l2).
Proof.
  induction l1 as [|a l1 IH]; intros prev Hl Hnd Hnn Hframe Hhd.
  - cbn [app] in *. destruct Hl as (Hx & Hl).
    destruct l2 as [|y l2]; [exact I|].
    destruct Hl as (_ & Hl). cbn [prev_links].
    split; [rewrite <- Hx; apply Hhd; discriminate|].
    apply (prev_links_frame st); [|exact Hl].
    intros b Hb. apply Hframe; [right; exact Hb|].
    cbn. intros ->. apply NoDup_cons_iff in Hnd. destruct Hnd as [_ Hnd].
    apply NoDup_cons_iff in Hnd. destruct Hnd as [Hny _]. contradiction.
  - cbn [app prev_links] in *. destruct Hl as (Ha & Hl).
    apply NoDup_cons_iff in Hnd. destruct Hnd as [Hna Hnd].
    split.
    + rewrite Hframe; [exact Ha|left; reflexivity|].
      destruct l2 as [|y l2]; cbn.
      * apply Hnn. left. reflexivity.
      * intros ->. apply Hna. apply in_or_app. right. right. left. reflexivity.
    + apply IH; try assumption.
      * intros c Hc. apply Hnn. right. exact Hc.
      * intros c Hc. apply Hframe. right. exact Hc.
Qed.

Lemma nodup_app_disjoint (l1 l2 : list Z) a :
  NoDup (l1 ++ l2) -> In a l1 -> In a l2 -> False.
Proof.
  induction l1 as [|b l1 IH]; intros Hnd H1 H2; [destruct H1|].
  cbn [app] in Hnd. apply NoDup_cons_iff in Hnd. destruct Hnd as [Hnb Hnd].
  destruct H1 as [->|H1]; [|eauto].
  apply Hnb. apply in_or_app. right. exact H2.
Qed.

Lemma nodup_concat_nth (classes : list (list Z)) :
  NoDup (concat classes) ->
  forall c, NoDup (nth c classes []).
Proof.
  induction classes as [|l ls IH]; intros Hnd c.
  - destruct c; constructor.
  - cbn [concat] in Hnd. destruct c as [|c]; cbn [nth].
    + eapply NoDup_app_remove_r. exact Hnd.
    + apply IH. eapply NoDup_app_remove_l. exact Hnd.
Qed.

Lemma nodup_concat_disjoint (classes : list (list Z)) a :
  NoDup (concat classes) ->
  forall c c', c <> c' -> In a (nth c classes []) -> In a (nth c' classes []) -> False.
Proof.
  induction classes as [|l ls IH]; intros Hnd c c' Hcc Hc Hc'.
  - destruct c; destruct Hc.
  - cbn [concat] in Hnd.
    destruct c as [|c], c' as [|c']; cbn [nth] in *; try lia.
    + eapply nodup_app_disjoint; [exact Hnd|exact Hc|]. eapply in_nth_concat. exact Hc'.
    + eapply nodup_app_disjoint; [exact Hnd|exact Hc'|]. eapply in_nth_concat. exact Hc.
    + apply (IH (NoDup_app_remove_l _ _ Hnd) c c'); [lia|assumption|assumption].
Qed.

Lemma without_split x l1 l2 :
  NoDup (l1 ++ x :: l2) -> without x (l1 ++ x :: l2) = l1 ++ l2.
Proof.
  intros Hnd. pose proof (NoDup_remove_2 _ _ _ Hnd) as Hnx.
  unfold without. rewrite remove_app, remove_cons.
  rewrite !notin_remove; [reflexivity| |];
    intros H; apply Hnx; apply in_or_app; [right|left]; exact H.
Qed.

Lemma nodup_without x (l : list Z) : NoDup l -> NoDup (without x l).
Proof.
  intros Hnd. unfold without. induction Hnd as [|a l Ha Hnd IH]; [constructor|].
  cbn [remove]. destruct (Z.eq_dec x a); [exact IH|].
  constructor; [|exact IH]. intros H. apply in_remove in H. apply Ha. exact (proj1 H).
Qed.

Lemma all_nodes_without x classes mini :
  all_nodes (map (without x) classes) (without x mini)
  = without x (all_nodes classes mini).
Proof.
  unfold all_nodes, without. rewrite remove_app, remove_concat.
  f_equal. induction classes as [|l ls IH]; [reflexivity|].
  cbn [map concat flat_map]. rewrite IH. reflexivity.
Qed.

Lemma in_without x (l : list Z) a : In a (without x l) <-> In a l /\ a <> x.
Proof.
  split; [apply in_remove|]. intros [Ha Hax]. apply in_in_remove; assumption.
Qed.

Lemma nth_map_without x classes c :
  nth c (map (without x) classes) [] = without x (nth c classes []).
Proof. exact (map_nth (without x) classes [] c). Qed.

(** After an unlinking that leaves the headers alone, the lists are well
    formed as soon as the links are. *)
Lemma lists_wf_unlink st st' classes mini x :
  lists_wf st classes mini ->
  (forall a, In a (all_nodes classes mini) -> load_word st' a = load_word st a) ->
  length (size_class st') = NUM_CLASSES ->
  (forall c, (c < NUM_CLASSES)%nat ->
     is_dlist st' (class_head st' c) (without x (nth c classes []))) ->
  is_list st' (mini_block_head st') (without x mini) ->
  lists_wf st' (map (without x) classes) (without x mini).
Proof.
  intros Hwf Hhdr Hlen Hdl Hml.
  assert (Hsize : forall a, In a (all_nodes classes mini) -> get_size st' a = get_size st a).
  { intros a Ha. unfold get_size, header. rewrite (Hhdr a Ha). reflexivity. }
  constructor.
  - exact Hlen.
  - rewrite length_map. exact (wf_classes _ _ _ Hwf).
  - intros c Hc. rewrite nth_map_without. apply Hdl. exact Hc.
  - exact Hml.
  - intros c a Ha. rewrite nth_map_without in Ha. apply in_without in Ha.
    destruct Ha as [Ha _]. rewrite Hsize.
    + exact (wf_regular _ _ _ Hwf c a Ha).
    + apply in_all_nodes. left. eapply in_nth_concat. exact Ha.
  - intros a Ha. apply in_without in Ha. destruct Ha as [Ha _].
    rewrite Hsize; [exact (wf_mini _ _ _ Hwf a Ha)|].
    apply in_all_nodes. right. exact Ha.
  - intros a Ha. rewrite all_nodes_without in Ha. apply in_without in Ha.
    destruct Ha as [Ha _]. rewrite (Hsize a Ha). exact (wf_range _ _ _ Hwf a Ha).
  - rewrite all_nodes_without. apply nodup_without. exact (wf_nodup _ _ _ Hwf).
  - intros a b Ha Hb Hab. rewrite all_nodes_without in Ha, Hb.
    apply in_without in Ha, Hb. destruct Ha as [Ha _], Hb as [Hb _].
    unfold apart. rewrite (Hsize a Ha), (Hsize b Hb).
    exact (wf_apart _ _ _ Hwf a b Ha Hb Hab).
Qed.

(** ** Removing a block from its free list *)

Lemma hd_in (l : list Z) d : l <> [] -> In (hd d l) l.
Proof. destruct l; [congruence|]. intros _. left. reflexivity. Qed.

Lemma nodes_apart st classes mini a b :
  lists_wf st classes mini ->
  In a (all_nodes classes mini) -> In b (all_nodes classes mini) ->
  a = b \/ apart st a b.
Proof.
  intros Hwf Ha Hb. destruct (Z.eq_dec a b) as [|Hab]; [left; assumption|].
  right. exact (wf_apart _ _ _ Hwf a b Ha Hb Hab).
Qed.

Lemma in_class_all_nodes classes mini c a :
  In a (nth c classes []) -> In a (all_nodes classes mini).
Proof. intros H. apply in_all_nodes. left. eapply in_nth_concat. exact H. Qed.

Lemma node_word st classes mini a :
  lists_wf st classes mini -> In a (all_nodes classes mini) ->
  0 <= a < word_modulus /\ a <> NULL.
Proof.
  intros Hwf Ha. pose proof (wf_range _ _ _ Hwf a Ha) as [H0 H1].
  pose proof (node_size _ _ _ a Hwf Ha) as Hs.
  unfold NULL, mb_block_size in *. lia.
Qed.

(** Unlinking [x] from the list of class [c], described by what the
    resulting state holds: the [next] member of the predecessor [p] and the
    [prev] member of the successor [y] are the only words changed, and the
    head of the class becomes [y] when [x] was first. *)
Lemma unlink_regular st st' classes mini c x l1 l2 :
  lists_wf st classes mini -> (c < NUM_CLASSES)%nat ->
  nth c classes [] = l1 ++ x :: l2 ->
  (forall b,
     (l1 = [] \/ b + 8 <= last l1 NULL + 8 \/ last l1 NULL + 16 <= b) ->
     (l2 = [] \/ b + 8 <= hd NULL l2 + 16 \/ hd NULL l2 + 24 <= b) ->
     load_word st' b = load_word st b) ->
  (l1 <> [] -> load_word st' (last l1 NULL + next_offset) = hd NULL l2) ->
  (l2 <> [] -> load_word st' (hd NULL l2 + prev_offset) = last l1 NULL) ->
  size_class st' = match l1 with
                   | [] => list_set (size_class st) c (hd NULL l2)
                   | _ => size_class st
                   end ->
  mini_block_head st' = mini_block_head st ->
  lists_wf st' (map (without x) classes) (without x mini) /\
  links_only st st' classes mini.
Proof.
  intros Hwf Hc El Hmem Hpn Hyp Hsc Hmh.
  set (p := last l1 NULL) in *. set (y := hd NULL l2) in *.
  destruct (wf_dlist _ _ _ Hwf c Hc) as [Hl Hpl]. rewrite El in Hl, Hpl.
  pose proof (wf_nodup _ _ _ Hwf) as Hnd.
  assert (Hndc : NoDup (concat classes)) by (eapply NoDup_app_remove_r; exact Hnd).
  assert (Hndl : NoDup (l1 ++ x :: l2))
    by (rewrite <- El; apply nodup_concat_nth; exact Hndc).
  assert (Hxn : get_next st x = y) by exact (is_list_next_of st x l2 l1 _ Hl).
  assert (Hxp : get_prev st x = p) by exact (prev_links_prev_of st x l2 l1 _ Hpl).
  assert (Hinl : forall a, In a (l1 ++ l2) -> In a (nth c classes []) /\ a <> x).
  { intros a Ha. rewrite El. split.
    - apply in_app_or in Ha. apply in_or_app. destruct Ha; [left|right; right]; assumption.
    - intros ->. exact (NoDup_remove_2 _ _ _ Hndl Ha). }
  assert (Hpin : l1 <> [] -> In p (nth c classes []) /\ p <> x).
  { intros Hne. apply Hinl. apply in_or_app. left. apply last_in. exact Hne. }
  assert (Hyin : l2 <> [] -> In y (nth c classes []) /\ y <> x).
  { intros Hne. apply Hinl. apply in_or_app. right. apply hd_in. exact Hne. }
  (* the three kinds of words of a node *)
  assert (Hhdr : forall a, In a (all_nodes classes mini) -> load_word st' a = load_word st a).
  { intros a Ha. pose proof (node_size _ _ _ a Hwf Ha) as Hsa.
    unfold mb_block_size in Hsa. apply Hmem.
    - destruct l1 as [|a1 l1r] eqn:E1; [left; reflexivity|right].
      destruct (Hpin ltac:(discriminate)) as [Hp _].
      pose proof (regular_node_size _ _ _ p Hwf (in_nth_concat _ _ _ Hp)) as Hsp.
      destruct (nodes_apart _ _ _ a p Hwf Ha (in_class_all_nodes _ mini _ _ Hp))
        as [->|[H|H]]; lia.
    - destruct l2 as [|y1 l2r] eqn:E2; [left; reflexivity|right].
      destruct (Hyin ltac:(discriminate)) as [Hy _].
      pose proof (regular_node_size _ _ _ y Hwf (in_nth_concat _ _ _ Hy)) as Hsy.
      destruct (nodes_apart _ _ _ a y Hwf Ha (in_class_all_nodes _ mini _ _ Hy))
        as [->|[H|H]]; lia. }
  assert (Hnext : forall a, In a (all_nodes classes mini) -> (l1 = [] \/ a <> p) ->
                  get_next st' a = get_next st a).
  { intros a Ha Hap. pose proof (node_size _ _ _ a Hwf Ha) as Hsa.
    unfold mb_block_size in Hsa. unfold get_next, next_offset. apply Hmem.
    - destruct l1 as [|a1 l1r] eqn:E1; [left; reflexivity|right].
      destruct Hap as [|Hap]; [discriminate|].
      destruct (Hpin ltac:(discriminate)) as [Hp _].
      pose proof (regular_node_size _ _ _ p Hwf (in_nth_concat _ _ _ Hp)) as Hsp.
      destruct (nodes_apart _ _ _ a p Hwf Ha (in_class_all_nodes _ mini _ _ Hp))
        as [->|[H|H]]; [contradiction|lia|lia].
    - destruct l2 as [|y1 l2r] eqn:E2; [left; reflexivity|right].
      destruct (Hyin ltac:(discriminate)) as [Hy _].
      pose proof (regular_node_size _ _ _ y Hwf (in_nth_concat _ _ _ Hy)) as Hsy.
      destruct (nodes_apart _ _ _ a y Hwf Ha (in_class_all_nodes _ mini _ _ Hy))
        as [->|[H|H]]; lia. }
  assert (Hprev : forall a, In a (concat classes) -> (l2 = [] \/ a <> y) ->
                  get_prev st' a = get_prev st a).
  { intros a Ha Hay. pose proof (regular_node_size _ _ _ a Hwf Ha) as Hsa.
    assert (Ha' : In a (all_nodes classes mini)) by (apply in_all_nodes; left; exact Ha).
    unfold get_prev, prev_offset. apply Hmem.
    - destruct l1 as [|a1 l1r] eqn:E1; [left; reflexivity|right].
      destruct (Hpin ltac:(discriminate)) as [Hp _].
      pose proof (regular_node_size _ _ _ p Hwf (in_nth_concat _ _ _ Hp)) as Hsp.
      destruct (nodes_apart _ _ _ a p Hwf Ha' (in_class_all_nodes _ mini _ _ Hp))
        as [->|[H|H]]; lia.
    - destruct l2 as [|y1 l2r] eqn:E2; [left; reflexivity|right].
      destruct Hay as [|Hay]; [discriminate|].
      destruct (Hyin ltac:(discriminate)) as [Hy _].
      pose proof (regular_node_size _ _ _ y Hwf (in_nth_concat _ _ _ Hy)) as Hsy.
      destruct (nodes_apart _ _ _ a y Hwf Ha' (in_class_all_nodes _ mini _ _ Hy))
        as [->|[H|H]]; [contradiction|lia|lia]. }
  assert (Hxc : forall c', c' <> c -> ~ In x (nth c' classes [])).
  { intros c' Hcc Hx'. apply (nodup_concat_disjoint classes x Hndc c' c Hcc Hx').
    rewrite El. apply in_or_app. right. left. reflexivity. }
  assert (Hxm : ~ In x mini).
  { intros Hx'. apply (nodup_app_disjoint _ _ x Hnd); [|exact Hx'].
    apply (in_nth_concat classes c). rewrite El. apply in_or_app. right. left. reflexivity. }
  assert (Hother : forall c' a, c' <> c -> In a (nth c' classes []) ->
                   (l1 = [] \/ a <> p) /\ (l2 = [] \/ a <> y)).
  { intros c' a Hcc Ha. split.
    - destruct l1 as [|a1 l1r] eqn:E1; [left; reflexivity|right]. intros ->.
      exact (nodup_concat_disjoint classes p Hndc c' c Hcc Ha
               (proj1 (Hpin ltac:(discriminate)))).
    - destruct l2 as [|y1 l2r] eqn:E2; [left; reflexivity|right]. intros ->.
      exact (nodup_concat_disjoint classes y Hndc c' c Hcc Ha
               (proj1 (Hyin ltac:(discriminate)))). }
  split.
  - apply (lists_wf_unlink st); try assumption.
    + rewrite Hsc. destruct l1; [rewrite length_list_set|]; exact (wf_heads _ _ _ Hwf).
    + intros c' Hc'. destruct (Nat.eq_dec c' c) as [->|Hcc].
      * rewrite El, (without_split x l1 l2 Hndl).
        assert (Hhead : class_head st' c
                        = match l1 with [] => get_next st x | _ => class_head st c end).
        { unfold class_head. rewrite Hsc, Hxn. destruct l1; [|reflexivity].
          apply nth_list_set_same. rewrite (wf_heads _ _ _ Hwf). exact Hc. }
        rewrite Hhead. split.
        -- apply (is_list_unlink st st' x l2 l1 _ Hl Hndl).
           ++ intros a Ha Hap. apply Hnext; [|right; exact Hap].
              eapply in_class_all_nodes. exact (proj1 (Hinl a Ha)).
           ++ intros Hne. rewrite Hxn. exact (Hpn Hne).
        -- apply (prev_links_unlink st st' x l2 l1 _ Hpl Hndl).
           ++ intros a Ha.
              refine (proj2 (node_word st classes mini a Hwf _)).
              eapply in_class_all_nodes. exact (proj1 (Hinl a Ha)).
           ++ intros a Ha Hay. apply Hprev; [|right; exact Hay].
              eapply in_nth_concat. exact (proj1 (Hinl a Ha)).
           ++ intros Hne. rewrite Hxp. exact (Hyp Hne).
      * unfold without. rewrite (notin_remove _ _ _ (Hxc c' Hcc)).
        assert (Hhead : class_head st' c' = class_head st c').
        { unfold class_head. rewrite Hsc. destruct l1; [|reflexivity].
          apply nth_list_set_other. lia. }
        rewrite Hhead. destruct (wf_dlist _ _ _ Hwf c' Hc') as [Hl' Hpl']. split.
        -- apply (is_list_frame st); [|exact Hl']. intros a Ha.
           apply Hnext; [eapply in_class_all_nodes; exact Ha|].
           exact (proj1 (Hother c' a Hcc Ha)).
        -- apply (prev_links_frame st); [|exact Hpl']. intros a Ha.
           apply Hprev; [eapply in_nth_concat; exact Ha|].
           exact (proj2 (Hother c' a Hcc Ha)).
    + unfold without. rewrite (notin_remove _ _ _ Hxm), Hmh.
      apply (is_list_frame st); [|exact (wf_mini_list _ _ _ Hwf)].
      intros a Ha. apply Hnext; [apply in_all_nodes; right; exact Ha|].
      destruct l1 as [|a1 l1r] eqn:E1; [left; reflexivity|right]. intros ->.
      apply (nodup_app_disjoint _ _ p Hnd); [|exact Ha].
      eapply in_nth_concat. exact (proj1 (Hpin ltac:(discriminate))).
  - intros b Hb. apply Hmem.
    + destruct l1 as [|a1 l1r] eqn:E1; [left; reflexivity|right].
      destruct (Hpin ltac:(discriminate)) as [Hp _].
      pose proof (regular_node_size _ _ _ p Hwf (in_nth_concat _ _ _ Hp)) as Hsp.
      destruct (Hb p (in_class_all_nodes _ mini _ _ Hp)); lia.
    + destruct l2 as [|y1 l2r] eqn:E2; [left; reflexivity|right].
      destruct (Hyin ltac:(discriminate)) as [Hy _].
      pose proof (regular_node_size _ _ _ y Hwf (in_nth_concat _ _ _ Hy)) as Hsy.
      destruct (Hb y (in_class_all_nodes _ mini _ _ Hy)); lia.
Qed.

Lemma rem_from_free_list_spec st classes mini c x :
  lists_wf st classes mini -> (c < NUM_CLASSES)%nat ->
  In x (nth c classes []) ->
  lists_wf (rem_from_free_list st x) (map (without x) classes) (without x mini) /\
  links_only st (rem_from_free_list st x) classes mini.
Proof.
  intros Hwf Hc Hx.
  destruct (in_split x _ Hx) as (l1 & l2 & El).
  destruct (wf_dlist _ _ _ Hwf c Hc) as [Hl Hpl]. rewrite El in Hl, Hpl.
  assert (Hxn : get_next st x = hd NULL l2) by exact (is_list_next_of st x l2 l1 _ Hl).
  assert (Hxp : get_prev st x = last l1 NULL) by exact (prev_links_prev_of st x l2 l1 _ Hpl).
  assert (Hcl : size_to_class (get_size st x) = c) by exact (proj2 (wf_regular _ _ _ Hwf c x Hx)).
  assert (Hnode : forall a, In a (l1 ++ l2) ->
                  In a (all_nodes classes mini) /\ 32 <= get_size st a).
  { intros a Ha. assert (Hin : In a (nth c classes [])).
    { rewrite El. apply in_app_or in Ha. apply in_or_app.
      destruct Ha; [left|right; right]; assumption. }
    split; [eapply in_class_all_nodes; exact Hin|].
    exact (proj1 (wf_regular _ _ _ Hwf c a Hin)). }
  assert (Hp : l1 <> [] -> In (last l1 NULL) (l1 ++ l2))
    by (intros Hne; apply in_or_app; left; apply last_in; exact Hne).
  assert (Hy : l2 <> [] -> In (hd NULL l2) (l1 ++ l2))
    by (intros Hne; apply in_or_app; right; apply hd_in; exact Hne).
  apply (unlink_regular st _ classes mini c x l1 l2 Hwf Hc El);
    unfold rem_from_free_list; rewrite Hxn, Hxp, Hcl.
  - (* the other words *)
    intros b Hb1 Hb2.
    destruct l1 as [|a1 l1r] eqn:E1, l2 as [|y1 l2r] eqn:E2.
    + reflexivity.
    + cbn [last hd]. change (NULL =? NULL) with true.
      destruct (Hnode _ (Hy ltac:(discriminate))) as [Hyn _].
      pose proof (node_word _ _ _ _ Hwf Hyn) as [_ Hy0]. cbn [hd] in Hy0.
      destruct (Z.eqb_spec y1 NULL) as [|_]; [contradiction|]. cbn [negb andb].
      unfold set_class_head, set_prev, prev_offset.
      cbn [hd] in Hb2. destruct Hb2 as [|Hb2]; [discriminate|].
      change (load_word (store_word st (y1 + 16) NULL) b = load_word st b).
      apply load_store_other. lia.
    + rewrite <- E1 in *. cbn [hd] in *.
      destruct (Hnode _ (Hp ltac:(subst l1; discriminate))) as [Hpn _].
      pose proof (node_word _ _ _ _ Hwf Hpn) as [_ Hp0].
      destruct (Z.eqb_spec (last l1 NULL) NULL) as [|_]; [contradiction|].
      change (NULL =? NULL) with true. cbn [negb andb].
      unfold set_next, next_offset.
      destruct Hb1 as [|Hb1]; [subst l1; discriminate|].
      apply load_store_other. lia.
    + rewrite <- E1 in *. cbn [hd] in *.
      destruct (Hnode _ (Hp ltac:(subst l1; discriminate))) as [Hpn _].
      pose proof (node_word _ _ _ _ Hwf Hpn) as [_ Hp0].
      destruct (Hnode _ (Hy ltac:(discriminate))) as [Hyn _].
      pose proof (node_word _ _ _ _ Hwf Hyn) as [_ Hy0]. cbn [hd] in Hy0.
      destruct (Z.eqb_spec (last l1 NULL) NULL) as [|_]; [contradiction|].
      destruct (Z.eqb_spec y1 NULL) as [|_]; [contradiction|]. cbn [negb andb].
      unfold set_next, set_prev, next_offset, prev_offset.
      destruct Hb1 as [|Hb1]; [subst l1; discriminate|].
      destruct Hb2 as [|Hb2]; [discriminate|].
      rewrite !load_store_other by lia. reflexivity.
  - (* the [next] member of the predecessor *)
    intros Hne.
    destruct (Hnode _ (Hp Hne)) as [Hpn Hps].
    pose proof (node_word _ _ _ _ Hwf Hpn) as [_ Hp0].
    destruct (Z.eqb_spec (last l1 NULL) NULL) as [|_]; [contradiction|].
    destruct l2 as [|y1 l2r] eqn:E2; cbn [hd].
    + change (NULL =? NULL) with true. cbn [negb andb].
      unfold set_next. apply load_store_same. unfold NULL, word_modulus. lia.
    + destruct (Hnode _ (Hy ltac:(discriminate))) as [Hyn Hys]. cbn [hd] in Hyn, Hys.
      pose proof (node_word _ _ _ _ Hwf Hyn) as [Hyr Hy0].
      destruct (Z.eqb_spec y1 NULL) as [|_]; [contradiction|]. cbn [negb andb].
      unfold set_next, set_prev, next_offset, prev_offset.
      assert (Hpy : last l1 NULL <> y1).
      { intros E. pose proof (wf_nodup _ _ _ Hwf) as Hnd.
        assert (Hndl : NoDup (l1 ++ x :: y1 :: l2r)).
        { rewrite <- El. apply nodup_concat_nth. eapply NoDup_app_remove_r. exact Hnd. }
        apply NoDup_remove_1 in Hndl.
        apply (nodup_app_disjoint l1 (y1 :: l2r) y1 Hndl); [|left; reflexivity].
        rewrite <- E. apply last_in. exact Hne. }
      destruct (nodes_apart _ _ _ _ _ Hwf Hpn Hyn) as [|[H|H]]; [contradiction| |];
        (rewrite load_store_other by lia; apply load_store_same; exact Hyr).
  - (* the [prev] member of the successor *)
    intros Hne.
    destruct (Hnode _ (Hy Hne)) as [Hyn Hys].
    pose proof (node_word _ _ _ _ Hwf Hyn) as [_ Hy0].
    destruct (Z.eqb_spec (hd NULL l2) NULL) as [|_]; [contradiction|].
    destruct l1 as [|a1 l1r] eqn:E1.
    + cbn [last]. change (NULL =? NULL) with true. cbn [negb andb].
      unfold set_class_head, set_prev.
      change (load_word (store_word st (hd NULL l2 + prev_offset) NULL)
                (hd NULL l2 + prev_offset) = NULL).
      apply load_store_same. unfold NULL, word_modulus. lia.
    + rewrite <- E1 in *.
      destruct (Hnode _ (Hp ltac:(subst l1; discriminate))) as [Hpn Hps].
      pose proof (node_word _ _ _ _ Hwf Hpn) as [Hpr Hp0].
      destruct (Z.eqb_spec (last l1 NULL) NULL) as [|_]; [contradiction|]. cbn [negb andb].
      unfold set_next, set_prev. apply load_store_same. exact Hpr.
  - (* the head of the class *)
    destruct l1 as [|a1 l1r] eqn:E1.
    + cbn [last]. change (NULL =? NULL) with true.
      destruct l2 as [|y1 l2r] eqn:E2; cbn [hd].
      * reflexivity.
      * destruct (Hnode _ (Hy ltac:(discriminate))) as [Hyn _]. cbn [hd] in Hyn.
        pose proof (node_word _ _ _ _ Hwf Hyn) as [_ Hy0].
        destruct (Z.eqb_spec y1 NULL) as [|_]; [contradiction|]. reflexivity.
    + rewrite <- E1 in *.
      destruct (Hnode _ (Hp ltac:(subst l1; discriminate))) as [Hpn _].
      pose proof (node_word _ _ _ _ Hwf Hpn) as [_ Hp0].
      destruct (Z.eqb_spec (last l1 NULL) NULL) as [|_]; [contradiction|].
      destruct (hd NULL l2 =? NULL); cbn [negb andb]; subst l1; reflexivity.
  - (* the mini list *)
    destruct (last l1 NULL =? NULL), (hd NULL l2 =? NULL); reflexivity.
Qed.

(** Unlinking [x] from the mini list: the [next] member of the predecessor
    [p] is the only word changed, and the head becomes the successor of [x]
    when [x] was first. *)
Lemma unlink_mini st st' classes mini x m1 m2 :
  lists_wf st classes mini ->
  mini = m1 ++ x :: m2 ->
  (forall b, (m1 = [] \/ b + 8 <= last m1 NULL + 8 \/ last m1 NULL + 16 <= b) ->
     load_word st' b = load_word st b) ->
  (m1 <> [] -> load_word st' (last m1 NULL + next_offset) = hd NULL m2) ->
  size_class st' = size_class st ->
  mini_block_head st' = match m1 with
                        | [] => hd NULL m2
                        | _ => mini_block_head st
                        end ->
  lists_wf st' (map (without x) classes) (without x mini) /\
  links_only st st' classes mini.
Proof.
  intros Hwf Em Hmem Hpn Hsc Hmh.
  set (p := last m1 NULL) in *.
  pose proof (wf_mini_list _ _ _ Hwf) as Hl. rewrite Em in Hl.
  pose proof (wf_nodup _ _ _ Hwf) as Hnd.
  assert (Hndm : NoDup (m1 ++ x :: m2))
    by (rewrite <- Em; eapply NoDup_app_remove_l; exact Hnd).
  assert (Hxn : get_next st x = hd NULL m2) by exact (is_list_next_of st x m2 m1 _ Hl).
  assert (Hinm : forall a, In a (m1 ++ m2) -> In a mini /\ a <> x).
  { intros a Ha. rewrite Em. split.
    - apply in_app_or in Ha. apply in_or_app. destruct Ha; [left|right; right]; assumption.
    - intros ->. exact (NoDup_remove_2 _ _ _ Hndm Ha). }
  assert (Hpin : m1 <> [] -> In p mini).
  { intros Hne. apply Hinm. apply in_or_app. left. apply last_in. exact Hne. }
  assert (Hpm : forall a, In a mini -> In a (all_nodes classes mini))
    by (intros a Ha; apply in_all_nodes; right; exact Ha).
  assert (Hhdr : forall a, In a (all_nodes classes mini) -> load_word st' a = load_word st a).
  { intros a Ha. pose proof (node_size _ _ _ a Hwf Ha) as Hsa.
    unfold mb_block_size in Hsa. apply Hmem.
    destruct m1 as [|a1 m1r] eqn:E1; [left; reflexivity|right].
    pose proof (Hpin ltac:(discriminate)) as Hp.
    pose proof (node_size _ _ _ p Hwf (Hpm _ Hp)) as Hsp. unfold mb_block_size in Hsp.
    destruct (nodes_apart _ _ _ a p Hwf Ha (Hpm _ Hp)) as [->|[H|H]]; lia. }
  assert (Hnext : forall a, In a (all_nodes classes mini) -> (m1 = [] \/ a <> p) ->
                  get_next st' a = get_next st a).
  { intros a Ha Hap. pose proof (node_size _ _ _ a Hwf Ha) as Hsa.
    unfold mb_block_size in Hsa. unfold get_next, next_offset. apply Hmem.
    destruct m1 as [|a1 m1r] eqn:E1; [left; reflexivity|right].
    destruct Hap as [|Hap]; [discriminate|].
    pose proof (Hpin ltac:(discriminate)) as Hp.
    pose proof (node_size _ _ _ p Hwf (Hpm _ Hp)) as Hsp. unfold mb_block_size in Hsp.
    destruct (nodes_apart _ _ _ a p Hwf Ha (Hpm _ Hp)) as [->|[H|H]];
      [contradiction|lia|lia]. }
  assert (Hprev : forall a, In a (concat classes) -> get_prev st' a = get_prev st a).
  { intros a Ha. pose proof (regular_node_size _ _ _ a Hwf Ha) as Hsa.
    assert (Ha' : In a (all_nodes classes mini)) by (apply in_all_nodes; left; exact Ha).
    unfold get_prev, prev_offset. apply Hmem.
    destruct m1 as [|a1 m1r] eqn:E1; [left; reflexivity|right].
    pose proof (Hpin ltac:(discriminate)) as Hp.
    pose proof (node_size _ _ _ p Hwf (Hpm _ Hp)) as Hsp. unfold mb_block_size in Hsp.
    destruct (nodes_apart _ _ _ a p Hwf Ha' (Hpm _ Hp)) as [->|[H|H]]; [|lia|lia].
    exfalso. exact (nodup_app_disjoint _ _ p Hnd Ha Hp). }
  assert (Hxm : In x mini) by (rewrite Em; apply in_or_app; right; left; reflexivity).
  split.
  - apply (lists_wf_unlink st); try assumption.
    + rewrite Hsc. exact (wf_heads _ _ _ Hwf).
    + intros c Hc.
      assert (Hxc : ~ In x (nth c classes [])).
      { intros Hx. apply (nodup_app_disjoint _ _ x Hnd); [|exact Hxm].
        eapply in_nth_concat. exact Hx. }
      unfold without. rewrite (notin_remove _ _ _ Hxc).
      unfold class_head. rewrite Hsc.
      destruct (wf_dlist _ _ _ Hwf c Hc) as [Hl' Hpl']. split.
      * apply (is_list_frame st); [|exact Hl']. intros a Ha.
        apply Hnext; [eapply in_class_all_nodes; exact Ha|].
        destruct m1 as [|a1 m1r] eqn:E1; [left; reflexivity|right]. intros ->.
        apply (nodup_app_disjoint _ _ p Hnd); [|exact (Hpin ltac:(discriminate))].
        eapply in_nth_concat. exact Ha.
      * apply (prev_links_frame st); [|exact Hpl']. intros a Ha.
        apply Hprev. eapply in_nth_concat. exact Ha.
    + rewrite Em, (without_split x m1 m2 Hndm), Hmh.
      replace (match m1 with [] => hd NULL m2 | _ :: _ => mini_block_head st end)
        with (match m1 with [] => get_next st x | _ :: _ => mini_block_head st end)
        by (rewrite Hxn; reflexivity).
      apply (is_list_unlink st st' x m2 m1 _ Hl Hndm).
      * intros a Ha Hap. apply Hnext; [|right; exact Hap].
        apply Hpm. exact (proj1 (Hinm a Ha)).
      * intros Hne. rewrite Hxn. exact (Hpn Hne).
  - intros b Hb. apply Hmem.
    destruct m1 as [|a1 m1r] eqn:E1; [left; reflexivity|right].
    pose proof (Hpin ltac:(discriminate)) as Hp.
    pose proof (node_size _ _ _ p Hwf (Hpm _ Hp)) as Hsp. unfold mb_block_size in Hsp.
    destruct (Hb p (Hpm _ Hp)); lia.
Qed.

Lemma mini_list_seek_spec st x m2 :
  forall m1 current fuel,
    is_list st current (m1 ++ x :: m2) -> m1 <> [] ->
    NoDup (m1 ++ x :: m2) -> (length m1 <= fuel)%nat ->
    mini_list_seek fuel st x current = Some (last m1 NULL).
Proof.
  induction m1 as [|a m1 IH]; intros current fuel Hl Hne Hnd Hfuel; [congruence|].
  destruct fuel as [|fuel]; [cbn in Hfuel; lia|].
  destruct Hl as (-> & Ha & Hl). cbn [mini_list_seek].
  destruct (Z.eqb_spec a NULL) as [|_]; [contradiction|]. cbn [negb andb].
  pose proof (is_list_hd st _ _ Hl) as Hn.
  destruct m1 as [|b m1].
  - cbn [app hd] in Hn. rewrite Hn, Z.eqb_refl. reflexivity.
  - cbn [app hd] in Hn. rewrite Hn.
    destruct (Z.eqb_spec b x) as [->|_].
    + exfalso. cbn [app] in Hnd. apply NoDup_cons_iff in Hnd. destruct Hnd as [_ Hnd].
      apply NoDup_cons_iff in Hnd. destruct Hnd as [Hnx _].
      apply Hnx. apply in_or_app. right. left. reflexivity.
    + cbn [negb]. rewrite Hn in Hl.
      rewrite (IH b fuel Hl ltac:(discriminate)).
      * reflexivity.
      * cbn [app] in Hnd. apply NoDup_cons_iff in Hnd. exact (proj2 Hnd).
      * cbn [length] in *. lia.
Qed.

Lemma rem_from_mini_list_spec fuel st classes mini x :
  lists_wf st classes mini -> In x mini -> (length mini <= fuel)%nat ->
  exists st', rem_from_mini_list fuel st x = Some st' /\
    lists_wf st' (map (without x) classes) (without x mini) /\
    links_only st st' classes mini.
Proof.
  intros Hwf Hx Hfuel.
  destruct (in_split x _ Hx) as (m1 & m2 & Em).
  pose proof (wf_mini_list _ _ _ Hwf) as Hl. rewrite Em in Hl.
  assert (Hndm : NoDup (m1 ++ x :: m2))
    by (rewrite <- Em; eapply NoDup_app_remove_l; exact (wf_nodup _ _ _ Hwf)).
  assert (Hxn : get_next st x = hd NULL m2) by exact (is_list_next_of st x m2 m1 _ Hl).
  assert (Hnode : forall a, In a mini -> 0 <= a < word_modulus /\ a <> NULL).
  { intros a Ha. apply (node_word st classes mini a Hwf). apply in_all_nodes. right. exact Ha. }
  unfold rem_from_mini_list.
  destruct m1 as [|a1 m1r] eqn:E1.
  - (* [x] is the head *)
    cbn [app] in Hl. destruct Hl as (Hh & _ & _). rewrite Hh, Z.eqb_refl.
    eexists. split; [reflexivity|].
    apply (unlink_mini st _ classes mini x [] m2 Hwf Em).
    + intros b _. reflexivity.
    + intros H. congruence.
    + reflexivity.
    + cbn [mini_block_head set_mini_block_head]. exact Hxn.
  - rewrite <- E1 in *.
    assert (Hne : m1 <> []) by (subst m1; discriminate).
    assert (Hhx : mini_block_head st <> x).
    { rewrite (is_list_hd st _ _ Hl). subst m1. cbn [app hd]. intros ->.
      cbn [app] in Hndm. apply NoDup_cons_iff in Hndm. destruct Hndm as [Hn _].
      apply Hn. apply in_or_app. right. left. reflexivity. }
    destruct (Z.eqb_spec x (mini_block_head st)) as [E|_]; [congruence|].
    rewrite (mini_list_seek_spec st x m2 m1 _ fuel Hl Hne Hndm).
    2:{ rewrite Em, length_app in Hfuel. cbn [length] in Hfuel. lia. }
    assert (Hpin : In (last m1 NULL) mini).
    { rewrite Em. apply in_or_app. left. apply last_in. exact Hne. }
    destruct (Hnode _ Hpin) as [Hpr Hp0].
    destruct (Z.eqb_spec (last m1 NULL) NULL) as [|_]; [contradiction|]. cbn [negb andb].
    assert (Hpx : get_next st (last m1 NULL) = x).
    { destruct (exists_last Hne) as (m1' & p & Em1).
      rewrite Em1, last_last. rewrite Em1, <- app_assoc in Hl. cbn [app] in Hl.
      exact (is_list_next_of st p (x :: m2) m1' _ Hl). }
    rewrite Hpx, Z.eqb_refl.
    eexists. split; [reflexivity|].
    assert (Hyr : 0 <= hd NULL m2 < word_modulus).
    { destruct m2 as [|y m2r]; cbn [hd]; [unfold NULL, word_modulus; lia|].
      apply Hnode. rewrite Em. apply in_or_app. right. right. left. reflexivity. }
    apply (unlink_mini st _ classes mini x m1 m2 Hwf Em).
    + intros b [|Hb]; [contradiction|].
      unfold set_next, next_offset. apply load_store_other. lia.
    + intros _. unfold set_next. rewrite Hxn. apply load_store_same. exact Hyr.
    + reflexivity.
    + subst m1. reflexivity.
Qed.

(** Removing a listed block from the list its size selects. *)
Lemma rem_from_its_list_spec fuel st classes mini x :
  lists_wf st classes mini -> In x (all_nodes classes mini) ->
  (length mini <= fuel)%nat ->
  exists st', rem_from_its_list fuel st x = Some st' /\
    lists_wf st' (map (without x) classes) (without x mini) /\
    links_only st st' classes mini /\
    bounds_of st' = bounds_of st.
Proof.
  intros Hwf Hx Hfuel. unfold rem_from_its_list, get_mini.
  apply in_all_nodes in Hx. destruct Hx as [Hx|Hx].
  - apply in_concat_nth in Hx. destruct Hx as (c & Hc & Hx).
    rewrite (wf_classes _ _ _ Hwf) in Hc.
    pose proof (proj1 (wf_regular _ _ _ Hwf c x Hx)) as Hs.
    destruct (Z.eqb_spec (get_size st x) mb_block_size) as [E|_].
    { unfold min_block_size, dsize, wsize, mb_block_size in *. lia. }
    eexists. split; [reflexivity|].
    destruct (rem_from_free_list_spec st classes mini c x Hwf Hc Hx) as [H1 H2].
    split; [exact H1|]. split; [exact H2|]. apply bounds_rem_from_free_list.
  - rewrite (wf_mini _ _ _ Hwf x Hx), Z.eqb_refl.
    destruct (rem_from_mini_list_spec fuel st classes mini x Hwf Hx Hfuel)
      as (st' & E & H1 & H2).
    exists st'. split; [exact E|]. split; [exact H1|]. split; [exact H2|].
    eapply bounds_rem_from_mini_list. exact E.
Qed.

(** ** Flag updates on a header *)

Lemma get_alloc_bit st b : get_alloc st b = Z.testbit (header st b) 0.
Proof. apply extract_alloc_testbit. Qed.

Lemma get_prev_alloc_bit st b : get_prev_alloc st b = Z.testbit (header st b) 1.
Proof. unfold get_prev_alloc. apply flag_test. lia. Qed.

Lemma get_prev_mini_bit st b : get_prev_mini st b = Z.testbit (header st b) 2.
Proof. unfold get_prev_mini. apply flag_test. lia. Qed.

Lemma header_range st b : 0 <= header st b < word_modulus.
Proof. apply load_word_range. Qed.

Lemma header_store_same st b v :
  0 <= v < word_modulus -> header (store_word st b v) b = v.
Proof. apply load_store_same. Qed.

Lemma extract_size_land h c :
  Z.land c size_mask = size_mask -> extract_size (Z.land h c) = extract_size h.
Proof. intros Hc. unfold extract_size. rewrite <- Z.land_assoc, Hc. reflexivity. Qed.

Lemma extract_size_lor h c :
  Z.land c size_mask = 0 -> extract_size (Z.lor h c) = extract_size h.
Proof.
  intros Hc. unfold extract_size. rewrite Z.land_lor_distr_l, Hc, Z.lor_0_r. reflexivity.
Qed.

(** On an allocated block the [prev_mini] updates touch the header only. *)
Lemma clear_prev_mini_allocated st F :
  get_alloc st F = true ->
  clear_prev_mini st F = store_word st F (Z.land (header st F) (wnot prev_mini_mask)).
Proof.
  intros Ha. unfold clear_prev_mini, set_header.
  set (h' := Z.land (header st F) (wnot prev_mini_mask)).
  assert (Hr : 0 <= h' < word_modulus)
    by (apply land_word; vm_compute; split; congruence).
  assert (E : get_alloc (store_word st F h') F = true).
  { rewrite get_alloc_bit, (header_store_same st F h' Hr). unfold h'.
    rewrite Z.land_spec, <- get_alloc_bit, Ha. reflexivity. }
  rewrite E. reflexivity.
Qed.

Lemma set_prev_mini_allocated st F :
  get_alloc st F = true ->
  set_prev_mini st F = store_word st F (Z.lor (header st F) prev_mini_mask).
Proof.
  intros Ha. unfold set_prev_mini, set_header.
  set (h' := Z.lor (header st F) prev_mini_mask).
  assert (Hr : 0 <= h' < word_modulus)
    by (apply lor_word; [apply header_range|vm_compute; split; congruence]).
  assert (E : get_alloc (store_word st F h') F = true).
  { rewrite get_alloc_bit, (header_store_same st F h' Hr). unfold h'.
    rewrite Z.lor_spec, <- get_alloc_bit, Ha. reflexivity. }
  rewrite E. reflexivity.
Qed.

(** Clearing both flags on the header of an allocated block. *)
Lemma clear_flags_allocated st F :
  get_alloc st F = true ->
  let st' := clear_prev_mini (clear_prev_alloc st F) F in
  exists h1 h2,
    st' = store_word (store_word st F h1) F h2 /\
    get_alloc st' F = true /\
    get_prev_alloc st' F = false /\
    get_prev_mini st' F = false /\
    get_size st' F = get_size st F.
Proof.
  intros Ha st'. unfold st'.
  set (h1 := Z.land (header st F) (wnot prev_alloc_mask)).
  assert (Hr1 : 0 <= h1 < word_modulus)
    by (apply land_word; vm_compute; split; congruence).
  assert (E1 : clear_prev_alloc st F = store_word st F h1) by reflexivity.
  assert (Hh1 : header (store_word st F h1) F = h1) by (apply header_store_same; exact Hr1).
  assert (Ha1 : get_alloc (store_word st F h1) F = true).
  { rewrite get_alloc_bit, Hh1. unfold h1.
    rewrite Z.land_spec, <- get_alloc_bit, Ha. reflexivity. }
  rewrite E1, (clear_prev_mini_allocated _ F Ha1), Hh1.
  set (h2 := Z.land h1 (wnot prev_mini_mask)).
  assert (Hr2 : 0 <= h2 < word_modulus)
    by (apply land_word; vm_compute; split; congruence).
  exists h1, h2. split; [reflexivity|].
  assert (Hh2 : header (store_word (store_word st F h1) F h2) F = h2)
    by (apply header_store_same; exact Hr2).
  rewrite get_alloc_bit, get_prev_alloc_bit, get_prev_mini_bit.
  unfold get_size. rewrite Hh2. unfold h2, h1.
  rewrite !Z.land_spec, <- get_alloc_bit, Ha.
  repeat split; try reflexivity.
  - change (Z.testbit (wnot prev_alloc_mask) 1) with false.
    rewrite andb_false_r. reflexivity.
  - change (Z.testbit (wnot prev_mini_mask) 2) with false.
    rewrite andb_false_r. reflexivity.
  - rewrite !extract_size_land by reflexivity. reflexivity.
Qed.

(** ** Writing the merged block *)

Lemma store_outside st classes mini w v :
  lists_wf st classes mini ->
  (forall a, In a (all_nodes classes mini) -> word_outside st w a) ->
  lists_wf (store_word st w v) classes mini /\
  (forall a, In a (all_nodes classes mini) ->
     get_size (store_word st w v) a = get_size st a).
Proof.
  intros Hwf Hout. split; [apply lists_wf_store_outside; assumption|].
  intros a Ha. pose proof (node_size _ _ _ a Hwf Ha) as Hs.
  pose proof (Hout a Ha) as Ho. unfold word_outside, wsize, mb_block_size in *.
  unfold get_size, header. rewrite load_store_other by lia. reflexivity.
Qed.

Lemma write_block_free_regular st R S pa pm :
  is_size S -> 32 <= S -> 0 < R -> R + S <= word_modulus ->
  write_block st R S false pa pm
  = store_word (store_word st R (pack S false pa pm)) (R + S - 8) (pack S false pa pm).
Proof.
  intros HS H32 HR Hb. unfold write_block, set_header. cbn [negb andb].
  destruct (Z.eqb_spec S mb_block_size) as [E|_]; [unfold mb_block_size in E; lia|].
  cbn [negb]. unfold header_to_footer, get_size.
  rewrite (header_store_same st R _ (pack_word S false pa pm (proj1 HS))).
  rewrite (extract_size_pack S false pa pm HS).
  unfold payload_offset, dsize, wsize.
  rewrite wrap_small by (unfold word_modulus in *; lia).
  replace (R + 8 + S - 2 * 8) with (R + S - 8) by lia. reflexivity.
Qed.

(** Two states with the same header at [b] read the same size and flags. *)
Lemma header_flags st st' b :
  header st' b = header st b ->
  get_size st' b = get_size st b /\ get_alloc st' b = get_alloc st b /\
  get_prev_alloc st' b = get_prev_alloc st b /\
  get_prev_mini st' b = get_prev_mini st b.
Proof.
  intros E. unfold get_size, get_alloc, get_prev_alloc, get_prev_mini.
  rewrite E. repeat split.
Qed.

(** The last three statements of every merge case of [coalesce_block]:
    write the merged free block at [R] with size [S], then clear both flags
    on the block [F] that follows it. *)
Lemma merge_step st classes mini R S pa pm F :
  lists_wf st classes mini ->
  is_size S -> 32 <= S -> 0 < R -> F = R + S -> F + 8 <= word_modulus ->
  get_alloc st F = true ->
  (forall a, In a (all_nodes classes mini) -> a + get_size st a <= R \/ F + 8 <= a) ->
  exists st',
    (let st3 := write_block st R S false pa pm in
     let st4 := clear_prev_alloc st3 (find_next st3 R) in
     clear_prev_mini st4 (find_next st4 R)) = st' /\
    get_size st' R = S /\ get_alloc st' R = false /\
    get_prev_alloc st' R = pa /\ get_prev_mini st' R = pm /\
    load_word st' (header_to_footer st' R) = header st' R /\
    find_next st' R = F /\
    get_alloc st' F = true /\ get_prev_alloc st' F = false /\ get_prev_mini st' F = false /\
    lists_wf st' classes mini /\
    (forall b, b + 8 <= R -> load_word st' b = load_word st b) /\
    (forall a, In a (all_nodes classes mini) -> get_size st' a = get_size st a) /\
    get_size st' F = get_size st F /\
    bounds_of st' = bounds_of st.
Proof.
  intros Hwf HS H32 HR HF Hb Ha Hout. cbv zeta.
  set (hw := pack S false pa pm).
  assert (Hhw : 0 <= hw < word_modulus) by (apply pack_word; exact (proj1 HS)).
  rewrite (write_block_free_regular st R S pa pm HS H32 HR ltac:(lia)). fold hw.
  set (st3 := store_word (store_word st R hw) (R + S - 8) hw).
  assert (HR3 : header st3 R = hw).
  { unfold st3, header. rewrite load_store_other by lia. apply load_store_same. exact Hhw. }
  assert (Hn3 : find_next st3 R = F).
  { unfold find_next, get_size. rewrite HR3. unfold hw.
    rewrite (extract_size_pack S false pa pm HS).
    rewrite wrap_small by (unfold word_modulus in *; lia). lia. }
  rewrite Hn3.
  assert (Hn4 : find_next (clear_prev_alloc st3 F) R = F).
  { unfold find_next, get_size, clear_prev_alloc, set_header, header.
    rewrite load_store_other by lia. fold (header st3 R). rewrite HR3. unfold hw.
    rewrite (extract_size_pack S false pa pm HS).
    rewrite wrap_small by (unfold word_modulus in *; lia). lia. }
  rewrite Hn4.
  assert (HF3 : header st3 F = header st F).
  { unfold st3, header. rewrite !load_store_other by lia. reflexivity. }
  assert (Ha3 : get_alloc st3 F = true).
  { rewrite get_alloc_bit, HF3, <- get_alloc_bit. exact Ha. }
  destruct (clear_flags_allocated st3 F Ha3) as (h1 & h2 & E5 & Ha5 & Hpa5 & Hpm5 & Hs5).
  cbv zeta in E5. rewrite E5 in *. clear E5.
  set (st5 := store_word (store_word st3 F h1) F h2) in *.
  assert (HR5 : header st5 R = hw).
  { unfold st5, header. rewrite !load_store_other by lia. exact HR3. }
  exists st5. split; [reflexivity|].
  assert (Hsz : get_size st5 R = S).
  { unfold get_size. rewrite HR5. apply extract_size_pack. exact HS. }
  split; [exact Hsz|].
  split; [rewrite get_alloc_bit, HR5; apply pack_bit0; exact HS|].
  split; [rewrite get_prev_alloc_bit, HR5; apply pack_bit1; exact HS|].
  split; [rewrite get_prev_mini_bit, HR5; apply pack_bit2; exact HS|].
  split.
  { unfold header_to_footer. rewrite Hsz, HR5.
    unfold payload_offset, dsize, wsize.
    rewrite wrap_small by (unfold word_modulus in *; lia).
    replace (R + 8 + S - 2 * 8) with (R + S - 8) by lia.
    unfold st5. rewrite !load_store_other by lia.
    unfold st3. apply load_store_same. exact Hhw. }
  split.
  { unfold find_next. rewrite Hsz.
    rewrite wrap_small by (unfold word_modulus in *; lia). lia. }
  split; [exact Ha5|]. split; [exact Hpa5|]. split; [exact Hpm5|].
  (* the four stores are outside every listed block *)
  destruct (store_outside st classes mini R hw Hwf) as [W1 S1].
  { intros a Hin. destruct (Hout a Hin); unfold word_outside, wsize; lia. }
  destruct (store_outside _ classes mini (R + S - 8) hw W1) as [W2 S2].
  { intros a Hin. unfold word_outside. rewrite (S1 a Hin).
    destruct (Hout a Hin); unfold wsize; lia. }
  destruct (store_outside _ classes mini F h1 W2) as [W3 S3].
  { intros a Hin. unfold word_outside. rewrite (S2 a Hin), (S1 a Hin).
    destruct (Hout a Hin); unfold wsize; lia. }
  destruct (store_outside _ classes mini F h2 W3) as [W4 S4].
  { intros a Hin. unfold word_outside. rewrite (S3 a Hin), (S2 a Hin), (S1 a Hin).
    destruct (Hout a Hin); unfold wsize; lia. }
  split; [exact W4|].
  split; [intros b Hlow; unfold st5, st3; rewrite !load_store_other by lia; reflexivity|].
  split.
  { intros a Hin. unfold st5, st3.
    rewrite (S4 a Hin), (S3 a Hin), (S2 a Hin). exact (S1 a Hin). }
  split; [rewrite Hs5; unfold get_size; rewrite HF3; reflexivity|].
  unfold st5, st3. rewrite !bounds_store_word. reflexivity.
Qed.

(** ** The four cases of [coalesce_block] *)

Lemma coalesce_block_alloc_alloc fuel st block :
  get_prev_alloc st block = true ->
  get_alloc st (find_next st block) = true ->
  coalesce_block fuel st block = Some (coalesce_none st block).
Proof.
  intros Hpa Hna. unfold coalesce_block, coalesce_none. rewrite Hpa, Hna.
  cbn [negb orb andb]. rewrite orb_true_r. cbn [negb orb andb]. reflexivity.
Qed.

Lemma coalesce_block_alloc_free fuel st block :
  get_prev_alloc st block = true ->
  get_alloc st (find_next st block) = false ->
  find_next st block <> NULL ->
  coalesce_block fuel st block = coalesce_next fuel st block.
Proof.
  intros Hpa Hna Hn. unfold coalesce_block, coalesce_next. rewrite Hpa, Hna.
  destruct (Z.eqb_spec (find_next st block) NULL) as [|_]; [contradiction|].
  cbn [negb orb andb]. reflexivity.
Qed.

(** With a null [find_prev] the previous block counts as allocated. *)
Lemma coalesce_block_first_alloc fuel st block :
  get_prev_alloc st block = false ->
  find_prev st block = NULL ->
  get_alloc st (find_next st block) = true ->
  coalesce_block fuel st block = Some (coalesce_none st block).
Proof.
  intros Hpa Hp Hna. unfold coalesce_block, coalesce_none. rewrite Hpa, Hp, Hna.
  change (NULL =? NULL) with true.
  cbn [negb orb andb]. rewrite orb_true_r. cbn [negb orb andb]. reflexivity.
Qed.

Lemma coalesce_block_first_free fuel st block :
  get_prev_alloc st block = false ->
  find_prev st block = NULL ->
  get_alloc st (find_next st block) = false ->
  find_next st block <> NULL ->
  coalesce_block fuel st block = coalesce_next fuel st block.
Proof.
  intros Hpa Hp Hna Hn. unfold coalesce_block, coalesce_next. rewrite Hpa, Hp, Hna.
  change (NULL =? NULL) with true.
  destruct (Z.eqb_spec (find_next st block) NULL) as [|_]; [contradiction|].
  cbn [negb orb andb]. reflexivity.
Qed.

Lemma coalesce_block_free_alloc fuel st block :
  get_prev_alloc st block = false ->
  find_prev st block <> NULL ->
  get_alloc st (find_next st block) = true ->
  coalesce_block fuel st block =
    (let prev := find_prev st block in
     let size := wrap (get_size st block + get_size st prev) in
     st1 <- rem_from_its_list fuel st prev ;;
     let st2 := write_block st1 prev size false
                  (get_prev_alloc st1 prev) (get_prev_mini st1 prev) in
     let st3 := clear_prev_alloc st2 (find_next st2 prev) in
     Some (clear_prev_mini st3 (find_next st3 prev), prev)).
Proof.
  intros Hpa Hp Hna. unfold coalesce_block. rewrite Hpa, Hna.
  cbn [negb orb andb].
  destruct (Z.eqb_spec (find_prev st block) NULL) as [|_]; [contradiction|].
  rewrite orb_true_r. cbn [negb orb andb]. reflexivity.
Qed.

Lemma coalesce_block_free_free fuel st block :
  get_prev_alloc st block = false ->
  find_prev st block <> NULL ->
  get_alloc st (find_next st block) = false ->
  find_next st block <> NULL ->
  coalesce_block fuel st block =
    (let prev := find_prev st block in
     let next := find_next st block in
     let size := wrap (wrap (get_size st block + get_size st prev) + get_size st next) in
     st1 <- rem_from_its_list fuel st prev ;;
     st2 <- rem_from_its_list fuel st1 next ;;
     let st3 := write_block st2 prev size false
                  (get_prev_alloc st2 prev) (get_prev_mini st2 prev) in
     let st4 := clear_prev_alloc st3 (find_next st3 prev) in
     Some (clear_prev_mini st4 (find_next st4 prev), prev)).
Proof.
  intros Hpa Hp Hna Hn. unfold coalesce_block. rewrite Hpa, Hna.
  cbn [negb orb andb].
  destruct (Z.eqb_spec (find_prev st block) NULL) as [|_]; [contradiction|].
  destruct (Z.eqb_spec (find_next st block) NULL) as [|_]; [contradiction|].
  cbn [negb orb andb]. reflexivity.
Qed.

Lemma node_outside_payloads st classes mini a :
  lists_wf st classes mini -> In a (all_nodes classes mini) ->
  outside_payloads st classes mini a.
Proof.
  intros Hwf Ha b Hb.
  pose proof (node_size _ _ _ a Hwf Ha) as Hsa. unfold mb_block_size in Hsa.
  destruct (nodes_apart _ _ _ a b Hwf Ha Hb) as [->|[H|H]]; lia.
Qed.

Lemma freed_outside_payloads st classes mini B :
  freed_block st classes mini B -> outside_payloads st classes mini B.
Proof.
  intros Hfb a Ha. pose proof (fb_size _ _ _ _ Hfb) as Hs. unfold mb_block_size in Hs.
  destruct (fb_unlisted _ _ _ _ Hfb a Ha) as [H|H]; lia.
Qed.

Lemma allocated_outside_payloads st classes mini F :
  allocated_header st classes mini F -> outside_payloads st classes mini F.
Proof.
  intros (_ & _ & Hout) a Ha. destruct (Hout a Ha) as [H|H]; unfold wsize in *; lia.
Qed.

Lemma links_only_header st st' classes mini b :
  links_only st st' classes mini -> outside_payloads st classes mini b ->
  header st' b = header st b.
Proof. intros Hlo Hb. exact (Hlo b Hb). Qed.

Lemma freed_next st classes mini B :
  freed_block st classes mini B -> find_next st B = B + get_size st B.
Proof.
  intros Hfb. destruct (fb_range _ _ _ _ Hfb) as [H0 H1].
  pose proof (fb_size _ _ _ _ Hfb) as Hs. unfold mb_block_size, wsize in *.
  unfold find_next. apply wrap_small. unfold word_modulus in *. lia.
Qed.

Lemma get_size_is_size st b : is_size (get_size st b).
Proof. apply extract_size_is_size. Qed.

Lemma is_size_sum s1 s2 :
  is_size s1 -> is_size s2 -> s1 + s2 < word_modulus -> is_size (s1 + s2).
Proof.
  intros H1 H2 Hb. pose proof (is_size_add s1 s2 H1 H2) as H.
  rewrite wrap_small in H; [exact H|]. destruct H1 as [[? _] _], H2 as [[? _] _]. lia.
Qed.

(** The branch that merges nothing. *)
Lemma coalesce_none_spec st classes mini B :
  freed_block st classes mini B ->
  allocated_header st classes mini (find_next st B) ->
  exists st',
    coalesce_none st B = (st', B) /\
    get_size st' B = get_size st B /\
    get_alloc st' (find_next st B) = true /\
    get_prev_alloc st' (find_next st B) = false /\
    get_prev_mini st' (find_next st B) = get_mini st B /\
    lists_wf st' classes mini /\
    (forall b, b + 8 <= B -> load_word st' b = load_word st b).
Proof.
  intros Hfb HN. pose proof HN as (Hna & HNr & HNout).
  unfold coalesce_none. cbv zeta.
  pose proof (freed_next _ _ _ _ Hfb) as EN.
  pose proof (fb_size _ _ _ _ Hfb) as Hs. unfold mb_block_size in Hs.
  set (N := find_next st B) in *.
  set (h1 := Z.land (header st N) (wnot prev_alloc_mask)).
  assert (Hr1 : 0 <= h1 < word_modulus)
    by (apply land_word; vm_compute; split; congruence).
  change (clear_prev_alloc st N) with (store_word st N h1).
  set (st1 := store_word st N h1).
  assert (Hh1 : header st1 N = h1) by (apply header_store_same; exact Hr1).
  assert (Ha1 : get_alloc st1 N = true).
  { rewrite get_alloc_bit, Hh1. unfold h1.
    rewrite Z.land_spec, <- get_alloc_bit, Hna. reflexivity. }
  assert (HB1 : header st1 B = header st B).
  { unfold st1, header. apply load_store_other. lia. }
  assert (Hm1 : get_mini st1 B = get_mini st B).
  { unfold get_mini, get_size. rewrite HB1. reflexivity. }
  rewrite Hm1.
  destruct (store_outside st classes mini N h1 (fb_lists _ _ _ _ Hfb) HNout) as [W1 S1].
  assert (Hout1 : forall a, In a (all_nodes classes mini) -> word_outside st1 N a).
  { intros a Ha. unfold word_outside. unfold st1. rewrite (S1 a Ha). exact (HNout a Ha). }
  assert (Hfinal : forall h2, 0 <= h2 < word_modulus ->
    Z.testbit h2 0 = true -> Z.testbit h2 1 = false ->
    Z.testbit h2 2 = get_mini st B ->
    get_size (store_word st1 N h2) B = get_size st B /\
    get_alloc (store_word st1 N h2) N = true /\
    get_prev_alloc (store_word st1 N h2) N = false /\
    get_prev_mini (store_word st1 N h2) N = get_mini st B /\
    lists_wf (store_word st1 N h2) classes mini /\
    (forall b, b + 8 <= B -> load_word (store_word st1 N h2) b = load_word st b)).
  { intros h2 Hr2 Hb0 Hb1 Hb2.
    rewrite get_alloc_bit, get_prev_alloc_bit, get_prev_mini_bit.
    rewrite (header_store_same st1 N h2 Hr2).
    split; [|split; [exact Hb0|split; [exact Hb1|split; [exact Hb2|split]]]].
    - unfold get_size, header. rewrite load_store_other by lia.
      fold (header st1 B). rewrite HB1. reflexivity.
    - exact (proj1 (store_outside st1 classes mini N h2 W1 Hout1)).
    - intros b Hb. unfold st1. rewrite !load_store_other by lia. reflexivity. }
  destruct (get_mini st B) eqn:Hmini.
  - rewrite (set_prev_mini_allocated st1 N Ha1), Hh1.
    eexists. split; [reflexivity|]. apply Hfinal.
    + apply lor_word; [exact Hr1|vm_compute; split; congruence].
    + rewrite Z.lor_spec. unfold h1.
      rewrite Z.land_spec, <- get_alloc_bit, Hna. reflexivity.
    + rewrite Z.lor_spec. unfold h1. rewrite Z.land_spec.
      change (Z.testbit (wnot prev_alloc_mask) 1) with false.
      rewrite andb_false_r. reflexivity.
    + rewrite Z.lor_spec. change (Z.testbit prev_mini_mask 2) with true.
      apply orb_true_r.
  - rewrite (clear_prev_mini_allocated st1 N Ha1), Hh1.
    eexists. split; [reflexivity|]. apply Hfinal.
    + apply land_word. vm_compute. split; congruence.
    + rewrite Z.land_spec. unfold h1.
      rewrite Z.land_spec, <- get_alloc_bit, Hna. reflexivity.
    + rewrite Z.land_spec. unfold h1. rewrite Z.land_spec.
      change (Z.testbit (wnot prev_alloc_mask) 1) with false.
      rewrite andb_false_r. reflexivity.
    + rewrite Z.land_spec. change (Z.testbit (wnot prev_mini_mask) 2) with false.
      apply andb_false_r.
Qed.

(** Case AA: both neighbours allocated. *)
Lemma coalesce_alloc_alloc fuel st classes mini B :
  freed_block st classes mini B ->
  get_prev_alloc st B = true ->
  allocated_header st classes mini (find_next st B) ->
  exists st',
    coalesce_block fuel st B = Some (st', B) /\
    get_size st' B = get_size st B /\
    get_alloc st' (find_next st B) = true /\
    get_prev_alloc st' (find_next st B) = false /\
    get_prev_mini st' (find_next st B) = get_mini st B /\
    lists_wf st' classes mini.
Proof.
  intros Hfb Hpa HN.
  rewrite (coalesce_block_alloc_alloc fuel st B Hpa (proj1 HN)).
  destruct (coalesce_none_spec st classes mini B Hfb HN)
    as (st' & E & H1 & H2 & H3 & H4 & H5 & _).
  rewrite E. exists st'. split; [reflexivity|].
  split; [exact H1|]. split; [exact H2|]. split; [exact H3|]. split; [exact H4|exact H5].
Qed.

Lemma links_only_size st st1 classes mini a :
  lists_wf st classes mini -> links_only st st1 classes mini ->
  In a (all_nodes classes mini) -> get_size st1 a = get_size st a.
Proof.
  intros Hwf Hlo Ha. unfold get_size.
  rewrite (links_only_header st st1 classes mini a Hlo
             (node_outside_payloads _ _ _ a Hwf Ha)).
  reflexivity.
Qed.

Lemma outside_payloads_without st st1 classes mini x b :
  lists_wf st classes mini -> links_only st st1 classes mini ->
  outside_payloads st classes mini b ->
  outside_payloads st1 (map (without x) classes) (without x mini) b.
Proof.
  intros Hwf Hlo Hb a Ha. rewrite all_nodes_without in Ha. apply in_without in Ha.
  destruct Ha as [Ha _]. rewrite (links_only_size st st1 classes mini a Hwf Hlo Ha).
  exact (Hb a Ha).
Qed.

(** Case FA: the previous block [P] is free, the next one allocated.  The
    merged block keeps the [prev] flags of [P] and has a footer; the next
    block keeps its size; the other listed blocks keep theirs. *)
Lemma coalesce_free_alloc_full fuel st classes mini B P :
  freed_block st classes mini B -> (length mini <= fuel)%nat ->
  get_prev_alloc st B = false -> find_prev st B = P ->
  In P (all_nodes classes mini) -> P + get_size st P = B ->
  allocated_header st classes mini (find_next st B) ->
  exists st',
    coalesce_block fuel st B = Some (st', P) /\
    get_size st' P = get_size st P + get_size st B /\
    get_alloc st' P = false /\
    lists_wf st' (map (without P) classes) (without P mini) /\
    find_next st' P = find_next st B /\
    get_prev_alloc st' (find_next st B) = false /\
    get_prev_mini st' (find_next st B) = false /\
    (get_prev_alloc st' P = get_prev_alloc st P /\
     get_prev_mini st' P = get_prev_mini st P) /\
    load_word st' (header_to_footer st' P) = header st' P /\
    (get_alloc st' (find_next st B) = true /\
     get_size st' (find_next st B) = get_size st (find_next st B)) /\
    (forall a, In a (all_nodes classes mini) -> a <> P ->
       get_size st' a = get_size st a) /\
    bounds_of st' = bounds_of st.
Proof.
  intros Hfb Hfuel Hpa HP HPin HPB HN.
  pose proof (fb_lists _ _ _ _ Hfb) as Hwf.
  pose proof HN as (Hna & HNr & HNout).
  pose proof (freed_next _ _ _ _ Hfb) as EN.
  pose proof (fb_size _ _ _ _ Hfb) as HsB. unfold mb_block_size in HsB.
  destruct (fb_range _ _ _ _ Hfb) as [HB0 HB1]. unfold wsize in HB1, HNr.
  pose proof (node_size _ _ _ P Hwf HPin) as HsP. unfold mb_block_size in HsP.
  destruct (wf_range _ _ _ Hwf P HPin) as [HP0 HP1].
  assert (HPn : find_prev st B <> NULL) by (rewrite HP; unfold NULL; lia).
  rewrite (coalesce_block_free_alloc fuel st B Hpa HPn Hna). cbv zeta. rewrite HP.
  destruct (rem_from_its_list_spec fuel st classes mini P Hwf HPin Hfuel)
    as (st1 & E1 & W1 & L1 & B1).
  rewrite E1.
  rewrite (wrap_small (get_size st B + get_size st P)) by (unfold word_modulus in *; lia).
  set (N := find_next st B) in *.
  pose proof (links_only_header st st1 classes mini P L1
                (node_outside_payloads _ _ _ P Hwf HPin)) as HhP.
  pose proof (links_only_header st st1 classes mini N L1
                (allocated_outside_payloads _ _ _ _ HN)) as HhN.
  destruct (merge_step st1 (map (without P) classes) (without P mini) P
              (get_size st B + get_size st P)
              (get_prev_alloc st1 P) (get_prev_mini st1 P) N W1)
    as (st' & E & Hsz & Hal & Hrpa & Hrpm & Hfoot & Hnx & HaF & Hfa & Hfm & W' & _
        & Hsizes & HsF & Hb).
  - apply is_size_sum; try apply get_size_is_size. unfold word_modulus in *. lia.
  - lia.
  - exact HP0.
  - lia.
  - exact HNr.
  - rewrite get_alloc_bit,
      (links_only_header st st1 classes mini N L1 (allocated_outside_payloads _ _ _ _ HN)),
      <- get_alloc_bit.
    exact Hna.
  - intros a Ha. rewrite all_nodes_without in Ha. apply in_without in Ha.
    destruct Ha as [Ha HaP].
    rewrite (links_only_size st st1 classes mini a Hwf L1 Ha).
    pose proof (node_size _ _ _ a Hwf Ha) as Hsa. unfold mb_block_size in Hsa.
    pose proof (wf_apart _ _ _ Hwf a P Ha HPin HaP) as H1.
    pose proof (fb_unlisted _ _ _ _ Hfb a Ha) as H2.
    pose proof (HNout a Ha) as H3.
    unfold apart, word_outside, wsize in *. lia.
  - cbv zeta in E. rewrite E. exists st'. split; [reflexivity|].
    split; [lia|]. split; [exact Hal|]. split; [exact W'|].
    split; [exact Hnx|]. split; [exact Hfa|]. split; [exact Hfm|].
    split.
    { rewrite Hrpa, Hrpm. destruct (header_flags st st1 P HhP) as (_ & _ & -> & ->).
      split; reflexivity. }
    split; [exact Hfoot|].
    split.
    { split; [exact HaF|]. rewrite HsF.
      exact (proj1 (header_flags st st1 N HhN)). }
    split.
    { intros a Ha HaP.
      rewrite (Hsizes a) by (rewrite all_nodes_without; apply in_without; split; assumption).
      exact (links_only_size st st1 classes mini a Hwf L1 Ha). }
    rewrite Hb. exact B1.
Qed.

Lemma coalesce_free_alloc fuel st classes mini B P :
  freed_block st classes mini B -> (length mini <= fuel)%nat ->
  get_prev_alloc st B = false -> find_prev st B = P ->
  In P (all_nodes classes mini) -> P + get_size st P = B ->
  allocated_header st classes mini (find_next st B) ->
  exists st',
    coalesce_block fuel st B = Some (st', P) /\
    get_size st' P = get_size st P + get_size st B /\
    get_alloc st' P = false /\
    lists_wf st' (map (without P) classes) (without P mini) /\
    find_next st' P = find_next st B /\
    get_prev_alloc st' (find_next st B) = false /\
    get_prev_mini st' (find_next st B) = false.
Proof.
  intros Hfb Hfuel Hpa HP HPin HPB HN.
  destruct (coalesce_free_alloc_full fuel st classes mini B P Hfb Hfuel Hpa HP HPin HPB HN)
    as (st' & H1 & H2 & H3 & H4 & H5 & H6 & H7 & _).
  exists st'. split; [exact H1|]. split; [exact H2|]. split; [exact H3|].
  split; [exact H4|]. split; [exact H5|]. split; [exact H6|exact H7].
Qed.

(** The branch that merges the next block [N]. *)
Lemma coalesce_next_full fuel st classes mini B :
  freed_block st classes mini B -> (length mini <= fuel)%nat ->
  In (find_next st B) (all_nodes classes mini) ->
  allocated_header st classes mini (find_next st B + get_size st (find_next st B)) ->
  exists st',
    coalesce_next fuel st B = Some (st', B) /\
    get_size st' B = get_size st B + get_size st (find_next st B) /\
    get_alloc st' B = false /\
    lists_wf st' (map (without (find_next st B)) classes) (without (find_next st B) mini) /\
    find_next st' B = find_next st B + get_size st (find_next st B) /\
    get_prev_alloc st' (find_next st B + get_size st (find_next st B)) = false /\
    get_prev_mini st' (find_next st B + get_size st (find_next st B)) = false /\
    ((forall a, In a (all_nodes classes mini) -> B <= a) ->
     forall b, b + 8 <= B -> load_word st' b = load_word st b) /\
    (get_prev_alloc st' B = get_prev_alloc st B /\
     get_prev_mini st' B = get_prev_mini st B) /\
    load_word st' (header_to_footer st' B) = header st' B /\
    (get_alloc st' (find_next st B + get_size st (find_next st B)) = true /\
     get_size st' (find_next st B + get_size st (find_next st B))
     = get_size st (find_next st B + get_size st (find_next st B))) /\
    (forall a, In a (all_nodes classes mini) -> a <> find_next st B ->
       get_size st' a = get_size st a) /\
    bounds_of st' = bounds_of st.
Proof.
  intros Hfb Hfuel HXin HF.
  pose proof (fb_lists _ _ _ _ Hfb) as Hwf.
  pose proof HF as (Hfa & HFr & HFout).
  pose proof (freed_next _ _ _ _ Hfb) as EN.
  pose proof (fb_size _ _ _ _ Hfb) as HsB. unfold mb_block_size in HsB.
  destruct (fb_range _ _ _ _ Hfb) as [HB0 HB1]. unfold wsize in HB1, HFr.
  unfold coalesce_next. cbv zeta.
  set (X := find_next st B) in *.
  pose proof (node_size _ _ _ X Hwf HXin) as HsX. unfold mb_block_size in HsX.
  destruct (wf_range _ _ _ Hwf X HXin) as [HX0 HX1].
  destruct (rem_from_its_list_spec fuel st classes mini X Hwf HXin Hfuel)
    as (st1 & E1 & W1 & L1 & B1).
  rewrite E1.
  rewrite (wrap_small (get_size st B + get_size st X)) by (unfold word_modulus in *; lia).
  set (F := X + get_size st X) in *.
  pose proof (links_only_header st st1 classes mini B L1
                (freed_outside_payloads _ _ _ _ Hfb)) as HhB.
  pose proof (links_only_header st st1 classes mini F L1
                (allocated_outside_payloads _ _ _ _ HF)) as HhF.
  destruct (merge_step st1 (map (without X) classes) (without X mini) B
              (get_size st B + get_size st X)
              (get_prev_alloc st1 B) (get_prev_mini st1 B) F W1)
    as (st' & E & Hsz & Hal & Hrpa & Hrpm & Hfoot & Hnx & HaF & Hfpa & Hfpm & W' & Hlow
        & Hsizes & HsF & Hb).
  - apply is_size_sum; try apply get_size_is_size. unfold word_modulus in *. lia.
  - lia.
  - exact HB0.
  - unfold F. lia.
  - exact HFr.
  - rewrite get_alloc_bit,
      (links_only_header st st1 classes mini F L1 (allocated_outside_payloads _ _ _ _ HF)),
      <- get_alloc_bit.
    exact Hfa.
  - intros a Ha. rewrite all_nodes_without in Ha. apply in_without in Ha.
    destruct Ha as [Ha HaX].
    rewrite (links_only_size st st1 classes mini a Hwf L1 Ha).
    pose proof (node_size _ _ _ a Hwf Ha) as Hsa. unfold mb_block_size in Hsa.
    pose proof (wf_apart _ _ _ Hwf a X Ha HXin HaX) as H1.
    pose proof (fb_unlisted _ _ _ _ Hfb a Ha) as H2.
    pose proof (HFout a Ha) as H3.
    unfold apart, word_outside, wsize, F in *. lia.
  - cbv zeta in E. rewrite E. exists st'. split; [reflexivity|].
    split; [exact Hsz|]. split; [exact Hal|]. split; [exact W'|].
    split; [exact Hnx|]. split; [exact Hfpa|]. split; [exact Hfpm|].
    split.
    { intros Hafter b Hlt. rewrite (Hlow b Hlt). apply L1.
      intros a Ha. left. specialize (Hafter a Ha). lia. }
    split.
    { rewrite Hrpa, Hrpm. destruct (header_flags st st1 B HhB) as (_ & _ & -> & ->).
      split; reflexivity. }
    split; [exact Hfoot|].
    split.
    { split; [exact HaF|]. rewrite HsF.
      exact (proj1 (header_flags st st1 F HhF)). }
    split.
    { intros a Ha HaX.
      rewrite (Hsizes a) by (rewrite all_nodes_without; apply in_without; split; assumption).
      exact (links_only_size st st1 classes mini a Hwf L1 Ha). }
    rewrite Hb. exact B1.
Qed.

Lemma coalesce_next_spec fuel st classes mini B :
  freed_block st classes mini B -> (length mini <= fuel)%nat ->
  In (find_next st B) (all_nodes classes mini) ->
  allocated_header st classes mini (find_next st B + get_size st (find_next st B)) ->
  exists st',
    coalesce_next fuel st B = Some (st', B) /\
    get_size st' B = get_size st B + get_size st (find_next st B) /\
    get_alloc st' B = false /\
    lists_wf st' (map (without (find_next st B)) classes) (without (find_next st B) mini) /\
    find_next st' B = find_next st B + get_size st (find_next st B) /\
    get_prev_alloc st' (find_next st B + get_size st (find_next st B)) = false /\
    get_prev_mini st' (find_next st B + get_size st (find_next st B)) = false /\
    ((forall a, In a (all_nodes classes mini) -> B <= a) ->
     forall b, b + 8 <= B -> load_word st' b = load_word st b).
Proof.
  intros Hfb Hfuel HXin HF.
  destruct (coalesce_next_full fuel st classes mini B Hfb Hfuel HXin HF)
    as (st' & H1 & H2 & H3 & H4 & H5 & H6 & H7 & H8 & _).
  exists st'. split; [exact H1|]. split; [exact H2|]. split; [exact H3|].
  split; [exact H4|]. split; [exact H5|]. split; [exact H6|]. split; [exact H7|exact H8].
Qed.

(** Case AF: the previous block is allocated, the next block [N] free. *)
Lemma coalesce_alloc_free fuel st classes mini B :
  freed_block st classes mini B -> (length mini <= fuel)%nat ->
  get_prev_alloc st B = true ->
  get_alloc st (find_next st B) = false ->
  In (find_next st B) (all_nodes classes mini) ->
  allocated_header st classes mini (find_next st B + get_size st (find_next st B)) ->
  exists st',
    coalesce_block fuel st B = Some (st', B) /\
    get_size st' B = get_size st B + get_size st (find_next st B) /\
    get_alloc st' B = false /\
    lists_wf st' (map (without (find_next st B)) classes) (without (find_next st B) mini) /\
    find_next st' B = find_next st B + get_size st (find_next st B) /\
    get_prev_alloc st' (find_next st B + get_size st (find_next st B)) = false /\
    get_prev_mini st' (find_next st B + get_size st (find_next st B)) = false.
Proof.
  intros Hfb Hfuel Hpa Hna HXin HF.
  assert (HXn : find_next st B <> NULL).
  { destruct (wf_range _ _ _ (fb_lists _ _ _ _ Hfb) _ HXin) as [H0 _]. unfold NULL. lia. }
  rewrite (coalesce_block_alloc_free fuel st B Hpa Hna HXn).
  destruct (coalesce_next_spec fuel st classes mini B Hfb Hfuel HXin HF)
    as (st' & E & H1 & H2 & H3 & H4 & H5 & H6 & _).
  exists st'. split; [exact E|]. split; [exact H1|]. split; [exact H2|].
  split; [exact H3|]. split; [exact H4|]. split; [exact H5|exact H6].
Qed.

(** Case FF: both neighbours, [P] before and [N] after, are free. *)
Lemma coalesce_free_free_full fuel st classes mini B P :
  freed_block st classes mini B -> (length mini <= fuel)%nat ->
  get_prev_alloc st B = false -> find_prev st B = P ->
  In P (all_nodes classes mini) -> P + get_size st P = B ->
  get_alloc st (find_next st B) = false ->
  In (find_next st B) (all_nodes classes mini) ->
  allocated_header st classes mini (find_next st B + get_size st (find_next st B)) ->
  exists st',
    coalesce_block fuel st B = Some (st', P) /\
    get_size st' P = get_size st P + get_size st B + get_size st (find_next st B) /\
    get_alloc st' P = false /\
    lists_wf st' (map (without (find_next st B)) (map (without P) classes))
                 (without (find_next st B) (without P mini)) /\
    find_next st' P = find_next st B + get_size st (find_next st B) /\
    get_prev_alloc st' (find_next st B + get_size st (find_next st B)) = false /\
    get_prev_mini st' (find_next st B + get_size st (find_next st B)) = false /\
    (get_prev_alloc st' P = get_prev_alloc st P /\
     get_prev_mini st' P = get_prev_mini st P) /\
    load_word st' (header_to_footer st' P) = header st' P /\
    (get_alloc st' (find_next st B + get_size st (find_next st B)) = true /\
     get_size st' (find_next st B + get_size st (find_next st B))
     = get_size st (find_next st B + get_size st (find_next st B))) /\
    (forall a, In a (all_nodes classes mini) -> a <> P -> a <> find_next st B ->
       get_size st' a = get_size st a) /\
    bounds_of st' = bounds_of st.
Proof.
  intros Hfb Hfuel Hpa HP HPin HPB Hna HXin HF.
  pose proof (fb_lists _ _ _ _ Hfb) as Hwf.
  pose proof HF as (Hfa & HFr & HFout).
  pose proof (freed_next _ _ _ _ Hfb) as EN.
  pose proof (fb_size _ _ _ _ Hfb) as HsB. unfold mb_block_size in HsB.
  destruct (fb_range _ _ _ _ Hfb) as [HB0 HB1]. unfold wsize in HB1, HFr.
  pose proof (node_size _ _ _ P Hwf HPin) as HsP. unfold mb_block_size in HsP.
  destruct (wf_range _ _ _ Hwf P HPin) as [HP0 HP1].
  set (X := find_next st B) in *.
  pose proof (node_size _ _ _ X Hwf HXin) as HsX. unfold mb_block_size in HsX.
  destruct (wf_range _ _ _ Hwf X HXin) as [HX0 HX1].
  assert (HPn : find_prev st B <> NULL) by (rewrite HP; unfold NULL; lia).
  assert (HXn : X <> NULL) by (unfold NULL; lia).
  rewrite (coalesce_block_free_free fuel st B Hpa HPn Hna HXn). cbv zeta.
  rewrite HP. fold X.
  destruct (rem_from_its_list_spec fuel st classes mini P Hwf HPin Hfuel)
    as (st1 & E1 & W1 & L1 & B1).
  rewrite E1.
  assert (HXin1 : In X (all_nodes (map (without P) classes) (without P mini))).
  { rewrite all_nodes_without. apply in_without. split; [exact HXin|lia]. }
  assert (Hfuel1 : (length (without P mini) <= fuel)%nat).
  { pose proof (remove_length_le Z.eq_dec mini P). unfold without. lia. }
  destruct (rem_from_its_list_spec fuel st1 _ _ X W1 HXin1 Hfuel1)
    as (st2 & E2 & W2 & L2 & B2).
  rewrite E2.
  rewrite (wrap_small (get_size st B + get_size st P)) by (unfold word_modulus in *; lia).
  rewrite (wrap_small (get_size st B + get_size st P + get_size st X))
    by (unfold word_modulus in *; lia).
  set (F := X + get_size st X) in *.
  assert (Hsize2 : forall a, In a (all_nodes classes mini) -> a <> P ->
                   get_size st2 a = get_size st a).
  { intros a Ha HaP.
    rewrite (links_only_size st1 st2 _ _ a W1 L2)
      by (rewrite all_nodes_without; apply in_without; split; assumption).
    exact (links_only_size st st1 classes mini a Hwf L1 Ha). }
  assert (Hh2 : forall b, outside_payloads st classes mini b -> header st2 b = header st b).
  { intros b Hb.
    rewrite (links_only_header st1 st2 _ _ b L2
               (outside_payloads_without st st1 classes mini P b Hwf L1 Hb)).
    exact (links_only_header st st1 classes mini b L1 Hb). }
  pose proof (Hh2 P (node_outside_payloads _ _ _ P Hwf HPin)) as HhP.
  pose proof (Hh2 F (allocated_outside_payloads _ _ _ _ HF)) as HhF.
  destruct (merge_step st2 (map (without X) (map (without P) classes))
              (without X (without P mini)) P
              (get_size st B + get_size st P + get_size st X)
              (get_prev_alloc st2 P) (get_prev_mini st2 P) F W2)
    as (st' & E & Hsz & Hal & Hrpa & Hrpm & Hfoot & Hnx & HaF & Hfpa & Hfpm & W' & _
        & Hsizes & HsF & Hb).
  - apply is_size_sum; [apply is_size_sum| |]; try apply get_size_is_size;
      unfold word_modulus in *; lia.
  - lia.
  - exact HP0.
  - unfold F. lia.
  - exact HFr.
  - rewrite get_alloc_bit.
    rewrite (links_only_header st1 st2 _ _ F L2
               (outside_payloads_without st st1 classes mini P F Hwf L1
                  (allocated_outside_payloads _ _ _ _ HF))).
    rewrite (links_only_header st st1 classes mini F L1
               (allocated_outside_payloads _ _ _ _ HF)), <- get_alloc_bit.
    exact Hfa.
  - intros a Ha. rewrite !all_nodes_without in Ha. apply in_without in Ha.
    destruct Ha as [Ha HaX]. apply in_without in Ha. destruct Ha as [Ha HaP].
    rewrite (Hsize2 a Ha HaP).
    pose proof (node_size _ _ _ a Hwf Ha) as Hsa. unfold mb_block_size in Hsa.
    pose proof (wf_apart _ _ _ Hwf a P Ha HPin HaP) as H0.
    pose proof (wf_apart _ _ _ Hwf a X Ha HXin HaX) as H1.
    pose proof (fb_unlisted _ _ _ _ Hfb a Ha) as H2.
    pose proof (HFout a Ha) as H3.
    unfold apart, word_outside, wsize, F in *. lia.
  - cbv zeta in E. rewrite E. exists st'. split; [reflexivity|].
    split; [lia|]. split; [exact Hal|]. split; [exact W'|].
    split; [exact Hnx|]. split; [exact Hfpa|]. split; [exact Hfpm|].
    split.
    { rewrite Hrpa, Hrpm. destruct (header_flags st st2 P HhP) as (_ & _ & -> & ->).
      split; reflexivity. }
    split; [exact Hfoot|].
    split.
    { split; [exact HaF|]. rewrite HsF.
      exact (proj1 (header_flags st st2 F HhF)). }
    split.
    { intros a Ha HaP HaX.
      rewrite (Hsizes a)
        by (rewrite !all_nodes_without; apply in_without; split;
            [apply in_without; split; assumption|assumption]).
      exact (Hsize2 a Ha HaP). }
    rewrite Hb, B2. exact B1.
Qed.

Lemma coalesce_free_free fuel st classes mini B P :
  freed_block st classes mini B -> (length mini <= fuel)%nat ->
  get_prev_alloc st B = false -> find_prev st B = P ->
  In P (all_nodes classes mini) -> P + get_size st P = B ->
  get_alloc st (find_next st B) = false ->
  In (find_next st B) (all_nodes classes mini) ->
  allocated_header st classes mini (find_next st B + get_size st (find_next st B)) ->
  exists st',
    coalesce_block fuel st B = Some (st', P) /\
    get_size st' P = get_size st P + get_size st B + get_size st (find_next st B) /\
    get_alloc st' P = false /\
    lists_wf st' (map (without (find_next st B)) (map (without P) classes))
                 (without (find_next st B) (without P mini)) /\
    find_next st' P = find_next st B + get_size st (find_next st B) /\
    get_prev_alloc st' (find_next st B + get_size st (find_next st B)) = false /\
    get_prev_mini st' (find_next st B + get_size st (find_next st B)) = false.
Proof.
  intros Hfb Hfuel Hpa HP HPin HPB Hna HXin HF.
  destruct (coalesce_free_free_full fuel st classes mini B P Hfb Hfuel Hpa HP HPin HPB
              Hna HXin HF)
    as (st' & H1 & H2 & H3 & H4 & H5 & H6 & H7 & _).
  exists st'. split; [exact H1|]. split; [exact H2|]. split; [exact H3|].
  split; [exact H4|]. split; [exact H5|]. split; [exact H6|exact H7].
Qed.

(** C5.  [coalesce_block] on a newly freed block [B] (its [alloc] bit
    clear, on no list), in a heap whose free lists are well formed and whose
    free neighbours of [B] are on the lists:
    - both neighbours allocated: it returns [B] with its size unchanged,
      after clearing [prev_alloc] on the next block and setting its
      [prev_mini] to [size(B) == 16];
    - previous block [P] free, next allocated: it returns [P] with size
      [size(P) + size(B)], [P] removed from its list;
    - previous allocated, next block [N] free: it returns [B] with size
      [size(B) + size(N)], [N] removed from its list;
    - both free: it returns [P] with size [size(P) + size(B) + size(N)],
      both removed from their lists;
    and in the three merge cases [prev_alloc] and [prev_mini] are clear on
    the block that follows the merged block. *)
Theorem C5_coalesce_block_cases :
  forall fuel st classes mini B,
    freed_block st classes mini B ->
    (length mini <= fuel)%nat ->
    let N := find_next st B in
    let F := N + get_size st N in
    (get_prev_alloc st B = true ->
     allocated_header st classes mini N ->
     exists st',
       coalesce_block fuel st B = Some (st', B) /\
       get_size st' B = get_size st B /\
       get_prev_alloc st' N = false /\
       get_prev_mini st' N = (get_size st B =? 16) /\
       lists_wf st' classes mini) /\
    (forall P,
       get_prev_alloc st B = false -> find_prev st B = P ->
       In P (all_nodes classes mini) -> P + get_size st P = B ->
       allocated_header st classes mini N ->
       exists st',
         coalesce_block fuel st B = Some (st', P) /\
         get_size st' P = get_size st P + get_size st B /\
         lists_wf st' (map (without P) classes) (without P mini) /\
         find_next st' P = N /\
         get_prev_alloc st' N = false /\ get_prev_mini st' N = false) /\
    (get_prev_alloc st B = true ->
     get_alloc st N = false -> In N (all_nodes classes mini) ->
     allocated_header st classes mini F ->
     exists st',
       coalesce_block fuel st B = Some (st', B) /\
       get_size st' B = get_size st B + get_size st N /\
       lists_wf st' (map (without N) classes) (without N mini) /\
       find_next st' B = F /\
       get_prev_alloc st' F = false /\ get_prev_mini st' F = false) /\
    (forall P,
       get_prev_alloc st B = false -> find_prev st B = P ->
       In P (all_nodes classes mini) -> P + get_size st P = B ->
       get_alloc st N = false -> In N (all_nodes classes mini) ->
       allocated_header st classes mini F ->
       exists st',
         coalesce_block fuel st B = Some (st', P) /\
         get_size st' P = get_size st P + get_size st B + get_size st N /\
         lists_wf st' (map (without N) (map (without P) classes))
                      (without N (without P mini)) /\
         find_next st' P = F /\
         get_prev_alloc st' F = false /\ get_prev_mini st' F = false).
Proof.
  intros fuel st classes mini B Hfb Hfuel N F.
  split; [|split; [|split]].
  - intros Hpa HN.
    destruct (coalesce_alloc_alloc fuel st classes mini B Hfb Hpa HN)
      as (st' & E & Hsz & _ & Hfa & Hfm & W).
    exists st'. split; [exact E|]. split; [exact Hsz|]. split; [exact Hfa|].
    split; [exact Hfm|exact W].
  - intros P Hpa HP HPin HPB HN.
    destruct (coalesce_free_alloc fuel st classes mini B P Hfb Hfuel Hpa HP HPin HPB HN)
      as (st' & E & Hsz & _ & W & Hnx & Hfa & Hfm).
    exists st'. split; [exact E|]. split; [exact Hsz|]. split; [exact W|].
    split; [exact Hnx|]. split; [exact Hfa|exact Hfm].
  - intros Hpa Hna HNin HF.
    destruct (coalesce_alloc_free fuel st classes mini B Hfb Hfuel Hpa Hna HNin HF)
      as (st' & E & Hsz & _ & W & Hnx & Hfa & Hfm).
    exists st'. split; [exact E|]. split; [exact Hsz|]. split; [exact W|].
    split; [exact Hnx|]. split; [exact Hfa|exact Hfm].
  - intros P Hpa HP HPin HPB Hna HNin HF.
    destruct (coalesce_free_free fuel st classes mini B P Hfb Hfuel Hpa HP HPin HPB
                Hna HNin HF)
      as (st' & E & Hsz & _ & W & Hnx & Hfa & Hfm).
    exists st'. split; [exact E|]. split; [exact Hsz|]. split; [exact W|].
    split; [exact Hnx|]. split; [exact Hfa|exact Hfm].
Qed.

(** The scenario of module [Coalesce] meets the hypotheses of the case
    where both neighbours are free. *)
Lemma coalesce_scenario_lists : lists_wf Coalesce.st_freed Coalesce.classes [].
Proof.
  assert (Hnodes : all_nodes Coalesce.classes [] = [65672; 65544; 65800]) by reflexivity.
  constructor.
  - vm_compute. reflexivity.
  - reflexivity.
  - intros c Hc.
    do 15 (destruct c as [|c]; [vm_compute; repeat split; congruence|]).
    unfold NUM_CLASSES in Hc. lia.
  - vm_compute. reflexivity.
  - intros c a Ha.
    do 15 (destruct c as [|c];
           [cbn in Ha; repeat (destruct Ha as [<-|Ha]; [vm_compute; split; congruence|]);
            destruct Ha|]).
    destruct c; destruct Ha.
  - intros a [].
  - intros a Ha. rewrite Hnodes in Ha.
    repeat (destruct Ha as [<-|Ha]; [vm_compute; split; congruence|]). destruct Ha.
  - rewrite Hnodes. repeat constructor; cbn; intuition congruence.
  - intros a b Ha Hb Hab. rewrite Hnodes in Ha, Hb. unfold apart.
    repeat (destruct Ha as [<-|Ha]);
      repeat (destruct Hb as [<-|Hb]);
      try contradiction; try congruence;
      solve [left; vm_compute; congruence | right; vm_compute; congruence].
Qed.

Lemma coalesce_scenario_freed :
  freed_block Coalesce.st_freed Coalesce.classes [] Coalesce.B.
Proof.
  assert (Hnodes : all_nodes Coalesce.classes [] = [65672; 65544; 65800]) by reflexivity.
  constructor.
  - exact coalesce_scenario_lists.
  - vm_compute. reflexivity.
  - vm_compute. congruence.
  - vm_compute. split; congruence.
  - intros a Ha. rewrite Hnodes in Ha. unfold apart.
    repeat (destruct Ha as [<-|Ha];
            [solve [left; vm_compute; congruence | right; vm_compute; congruence]|]).
    destruct Ha.
Qed.

Lemma C5_coalesce_block_cases_witness :
  exists st',
    coalesce_block run_fuel Coalesce.st_freed Coalesce.B = Some (st', 65544) /\
    get_size st' 65544
    = get_size Coalesce.st_freed 65544 + get_size Coalesce.st_freed Coalesce.B
      + get_size Coalesce.st_freed (find_next Coalesce.st_freed Coalesce.B) /\
    lists_wf st'
      (map (without (find_next Coalesce.st_freed Coalesce.B))
           (map (without 65544) Coalesce.classes))
      (without (find_next Coalesce.st_freed Coalesce.B) (without 65544 [])) /\
    find_next st' 65544
    = find_next Coalesce.st_freed Coalesce.B
      + get_size Coalesce.st_freed (find_next Coalesce.st_freed Coalesce.B) /\
    get_prev_alloc st'
      (find_next Coalesce.st_freed Coalesce.B
       + get_size Coalesce.st_freed (find_next Coalesce.st_freed Coalesce.B)) = false /\
    get_prev_mini st'
      (find_next Coalesce.st_freed Coalesce.B
       + get_size Coalesce.st_freed (find_next Coalesce.st_freed Coalesce.B)) = false.
Proof.
  assert (Hnodes : all_nodes Coalesce.classes [] = [65672; 65544; 65800]) by reflexivity.
  apply (proj2 (proj2 (proj2 (C5_coalesce_block_cases run_fuel Coalesce.st_freed
                                Coalesce.classes [] Coalesce.B
                                coalesce_scenario_freed ltac:(cbn; lia))))).
  - vm_compute. reflexivity.
  - vm_compute. reflexivity.
  - rewrite Hnodes. right. left. reflexivity.
  - vm_compute. reflexivity.
  - vm_compute. reflexivity.
  - rewrite Hnodes. left. vm_compute. reflexivity.
  - split; [vm_compute; reflexivity|]. split; [vm_compute; congruence|].
    intros a Ha. rewrite Hnodes in Ha. unfold word_outside.
    repeat (destruct Ha as [<-|Ha];
            [solve [left; vm_compute; congruence | right; vm_compute; congruence]|]).
    destruct Ha.
Defined.

(** ** States that agree from an address on

    Running a function on two states that hold the same bytes from [lo] on
    gives states that again agree from [lo] on, as long as the function
    reads no byte below [lo]. *)

Lemma agree_refl lo s : agree_from lo s s.
Proof. repeat split. Qed.

Lemma agree_load_word lo s1 s2 a :
  agree_from lo s1 s2 -> lo <= a -> load_word s1 a = load_word s2 a.
Proof.
  intros (_ & _ & _ & H) Ha. unfold load_word, load64.
  rewrite (H a), (H (a + 1)), (H (a + 2)), (H (a + 3)), (H (a + 4)),
    (H (a + 5)), (H (a + 6)), (H (a + 7)) by lia.
  reflexivity.
Qed.

Lemma agree_store_word lo s1 s2 a v :
  agree_from lo s1 s2 -> agree_from lo (store_word s1 a v) (store_word s2 a v).
Proof.
  intros (Hb & Hc & Hm & H).
  split; [exact Hb|]. split; [exact Hc|]. split; [exact Hm|].
  intros x Hx. unfold store_word. cbn [mem set_mem]. unfold load8, store64.
  destruct ((a <=? x) && (x <? a + 8)); [reflexivity|]. exact (H x Hx).
Qed.

Lemma agree_set_class_head lo s1 s2 c p :
  agree_from lo s1 s2 -> agree_from lo (set_class_head s1 c p) (set_class_head s2 c p).
Proof.
  intros (Hb & Hc & Hm & H). unfold set_class_head.
  split; [exact Hb|]. split; [cbn [size_class set_size_class]; rewrite Hc; reflexivity|].
  split; [exact Hm|exact H].
Qed.

Lemma agree_set_mini_block_head lo s1 s2 p :
  agree_from lo s1 s2 ->
  agree_from lo (set_mini_block_head s1 p) (set_mini_block_head s2 p).
Proof.
  intros (Hb & Hc & Hm & H).
  split; [exact Hb|]. split; [exact Hc|]. split; [reflexivity|exact H].
Qed.

Lemma agree_header lo s1 s2 b :
  agree_from lo s1 s2 -> lo <= b -> header s1 b = header s2 b.
Proof. intros H Hb. apply (agree_load_word lo); assumption. Qed.

Lemma agree_get_next lo s1 s2 b :
  agree_from lo s1 s2 -> lo <= b -> get_next s1 b = get_next s2 b.
Proof.
  intros H Hb. apply (agree_load_word lo); [assumption|unfold next_offset; lia].
Qed.

Lemma agree_get_prev lo s1 s2 b :
  agree_from lo s1 s2 -> lo <= b -> get_prev s1 b = get_prev s2 b.
Proof.
  intros H Hb. apply (agree_load_word lo); [assumption|unfold prev_offset; lia].
Qed.

Lemma agree_get_size lo s1 s2 b :
  agree_from lo s1 s2 -> lo <= b -> get_size s1 b = get_size s2 b.
Proof. intros H Hb. unfold get_size. rewrite (agree_header lo s1 s2 b H Hb). reflexivity. Qed.

Lemma agree_get_alloc lo s1 s2 b :
  agree_from lo s1 s2 -> lo <= b -> get_alloc s1 b = get_alloc s2 b.
Proof. intros H Hb. unfold get_alloc. rewrite (agree_header lo s1 s2 b H Hb). reflexivity. Qed.

Lemma agree_get_prev_alloc lo s1 s2 b :
  agree_from lo s1 s2 -> lo <= b -> get_prev_alloc s1 b = get_prev_alloc s2 b.
Proof.
  intros H Hb. unfold get_prev_alloc. rewrite (agree_header lo s1 s2 b H Hb). reflexivity.
Qed.

Lemma agree_get_prev_mini lo s1 s2 b :
  agree_from lo s1 s2 -> lo <= b -> get_prev_mini s1 b = get_prev_mini s2 b.
Proof.
  intros H Hb. unfold get_prev_mini. rewrite (agree_header lo s1 s2 b H Hb). reflexivity.
Qed.

Lemma agree_get_mini lo s1 s2 b :
  agree_from lo s1 s2 -> lo <= b -> get_mini s1 b = get_mini s2 b.
Proof. intros H Hb. unfold get_mini. rewrite (agree_get_size lo s1 s2 b H Hb). reflexivity. Qed.

Lemma agree_find_next lo s1 s2 b :
  agree_from lo s1 s2 -> lo <= b -> find_next s1 b = find_next s2 b.
Proof. intros H Hb. unfold find_next. rewrite (agree_get_size lo s1 s2 b H Hb). reflexivity. Qed.

Lemma agree_find_prev lo s1 s2 b :
  agree_from lo s1 s2 -> lo <= find_prev_footer b -> lo <= b ->
  find_prev s1 b = find_prev s2 b.
Proof.
  intros H Hf Hb. unfold find_prev, footer_to_header.
  rewrite (agree_get_prev_mini lo s1 s2 b H Hb),
    (agree_load_word lo s1 s2 (find_prev_footer b) H Hf).
  reflexivity.
Qed.

Lemma agree_clear_prev_alloc lo s1 s2 b :
  agree_from lo s1 s2 -> lo <= b ->
  agree_from lo (clear_prev_alloc s1 b) (clear_prev_alloc s2 b).
Proof.
  intros H Hb. unfold clear_prev_alloc, set_header.
  rewrite (agree_header lo s1 s2 b H Hb). apply agree_store_word. exact H.
Qed.

Lemma get_alloc_clear_prev_alloc st b :
  get_alloc (clear_prev_alloc st b) b = get_alloc st b.
Proof.
  unfold clear_prev_alloc, set_header.
  rewrite (get_alloc_bit (store_word _ _ _)), header_store_same
    by (apply land_word; vm_compute; split; congruence).
  rewrite Z.land_spec, <- get_alloc_bit.
  change (Z.testbit (wnot prev_alloc_mask) 0) with true. apply andb_true_r.
Qed.

Lemma agree_clear_prev_mini lo s1 s2 b :
  agree_from lo s1 s2 -> lo <= b -> get_alloc s1 b = true ->
  agree_from lo (clear_prev_mini s1 b) (clear_prev_mini s2 b).
Proof.
  intros H Hb Ha.
  rewrite (clear_prev_mini_allocated s1 b Ha).
  rewrite (clear_prev_mini_allocated s2 b)
    by (rewrite <- (agree_get_alloc lo s1 s2 b H Hb); exact Ha).
  rewrite (agree_header lo s1 s2 b H Hb). apply agree_store_word. exact H.
Qed.

Lemma agree_set_prev_mini lo s1 s2 b :
  agree_from lo s1 s2 -> lo <= b -> get_alloc s1 b = true ->
  agree_from lo (set_prev_mini s1 b) (set_prev_mini s2 b).
Proof.
  intros H Hb Ha.
  rewrite (set_prev_mini_allocated s1 b Ha).
  rewrite (set_prev_mini_allocated s2 b)
    by (rewrite <- (agree_get_alloc lo s1 s2 b H Hb); exact Ha).
  rewrite (agree_header lo s1 s2 b H Hb). apply agree_store_word. exact H.
Qed.

(** *** Unlinking a block *)

Lemma agree_rem_from_free_list lo s1 s2 x :
  agree_from lo s1 s2 -> lo <= x ->
  agree_from lo (rem_from_free_list s1 x) (rem_from_free_list s2 x).
Proof.
  intros H Hx. unfold rem_from_free_list.
  rewrite <- (agree_get_prev lo s1 s2 x H Hx), <- (agree_get_next lo s1 s2 x H Hx),
    <- (agree_get_size lo s1 s2 x H Hx).
  cbv zeta. unfold set_next, set_prev.
  destruct (get_prev s1 x =? NULL), (get_next s1 x =? NULL); cbn [negb andb].
  - apply agree_set_class_head. exact H.
  - apply agree_set_class_head, agree_store_word. exact H.
  - apply agree_store_word. exact H.
  - apply agree_store_word, agree_store_word. exact H.
Qed.

Lemma agree_mini_list_seek lo s1 s2 x :
  agree_from lo s1 s2 ->
  forall fuel l current,
    is_list s1 current l -> (forall a, In a l -> lo <= a) ->
    mini_list_seek fuel s2 x current = mini_list_seek fuel s1 x current.
Proof.
  intros H. induction fuel as [|fuel IH]; intros l current Hl Hlo; [reflexivity|].
  cbn [mini_list_seek]. destruct l as [|a l].
  - cbn in Hl. subst current. reflexivity.
  - destruct Hl as (-> & Ha & Hl).
    rewrite <- (agree_get_next lo s1 s2 a H (Hlo a (or_introl eq_refl))).
    destruct (negb (a =? NULL) && negb (get_next s1 a =? x)); [|reflexivity].
    apply (IH l); [exact Hl|]. intros b Hb. apply Hlo. right. exact Hb.
Qed.

Lemma mini_list_seek_in st x :
  forall fuel l current c,
    is_list st current l -> mini_list_seek fuel st x current = Some c ->
    c = NULL \/ In c l.
Proof.
  induction fuel as [|fuel IH]; intros l current c Hl E; [discriminate|].
  cbn [mini_list_seek] in E. destruct l as [|a l].
  - cbn in Hl. subst current. cbn in E. left. congruence.
  - destruct Hl as (-> & Ha & Hl).
    destruct (negb (a =? NULL) && negb (get_next st a =? x)).
    + destruct (IH l _ c Hl E) as [Hc|Hc]; [left; exact Hc|right; right; exact Hc].
    + right. left. congruence.
Qed.

Lemma agree_rem_from_mini_list lo s1 s2 fuel mini x t1 :
  agree_from lo s1 s2 ->
  is_list s1 (mini_block_head s1) mini -> (forall a, In a mini -> lo <= a) ->
  lo <= x ->
  rem_from_mini_list fuel s1 x = Some t1 ->
  exists t2, rem_from_mini_list fuel s2 x = Some t2 /\ agree_from lo t1 t2.
Proof.
  intros H Hl Hlo Hx E. pose proof H as (_ & _ & Hm & _).
  unfold rem_from_mini_list in *. rewrite <- Hm.
  destruct (Z.eqb_spec x (mini_block_head s1)) as [Ex|_].
  - injection E as <-. eexists. split; [reflexivity|].
    rewrite <- Ex, <- (agree_get_next lo s1 s2 x H Hx).
    apply agree_set_mini_block_head. exact H.
  - rewrite (agree_mini_list_seek lo s1 s2 x H fuel mini _ Hl Hlo).
    destruct (mini_list_seek fuel s1 x (mini_block_head s1)) as [c|] eqn:Ec;
      [|discriminate].
    destruct (Z.eqb_spec c NULL) as [Hc|Hc]; cbn [negb andb] in *.
    + injection E as <-. eexists. split; [reflexivity|exact H].
    + destruct (mini_list_seek_in s1 x fuel mini _ c Hl Ec) as [|Hin]; [contradiction|].
      rewrite <- (agree_get_next lo s1 s2 c H (Hlo c Hin)).
      destruct (get_next s1 c =? x).
      * injection E as <-. eexists. split; [reflexivity|].
        rewrite <- (agree_get_next lo s1 s2 x H Hx).
        apply agree_store_word. exact H.
      * injection E as <-. eexists. split; [reflexivity|exact H].
Qed.

Lemma agree_rem_from_its_list lo s1 s2 fuel mini x t1 :
  agree_from lo s1 s2 ->
  is_list s1 (mini_block_head s1) mini -> (forall a, In a mini -> lo <= a) ->
  lo <= x ->
  rem_from_its_list fuel s1 x = Some t1 ->
  exists t2, rem_from_its_list fuel s2 x = Some t2 /\ agree_from lo t1 t2.
Proof.
  intros H Hl Hlo Hx E. unfold rem_from_its_list in *.
  rewrite <- (agree_get_mini lo s1 s2 x H Hx).
  destruct (get_mini s1 x).
  - apply (agree_rem_from_mini_list lo s1 s2 fuel mini x t1); assumption.
  - injection E as <-. eexists. split; [reflexivity|].
    apply agree_rem_from_free_list; assumption.
Qed.

(** *** The two branches *)

Lemma agree_coalesce_none lo s1 s2 B :
  agree_from lo s1 s2 -> lo <= B -> lo <= find_next s1 B ->
  get_alloc s1 (find_next s1 B) = true ->
  agree_from lo (fst (coalesce_none s1 B)) (fst (coalesce_none s2 B)).
Proof.
  intros H HB HN Ha. unfold coalesce_none. cbn [fst].
  rewrite <- (agree_find_next lo s1 s2 B H HB).
  set (N := find_next s1 B) in *.
  pose proof (agree_clear_prev_alloc lo s1 s2 N H HN) as H1.
  rewrite <- (agree_get_mini lo _ _ B H1 HB).
  assert (Ha1 : get_alloc (clear_prev_alloc s1 N) N = true)
    by (rewrite get_alloc_clear_prev_alloc; exact Ha).
  destruct (get_mini (clear_prev_alloc s1 N) B).
  - apply agree_set_prev_mini; assumption.
  - apply agree_clear_prev_mini; assumption.
Qed.


Lemma agree_merge_step lo s1 s2 R S pa pm :
  agree_from lo s1 s2 -> lo <= R ->
  is_size S -> 32 <= S -> 0 < R -> R + S + 8 <= word_modulus ->
  get_alloc s1 (R + S) = true ->
  agree_from lo
    (let st3 := write_block s1 R S false pa pm in
     let st4 := clear_prev_alloc st3 (find_next st3 R) in
     clear_prev_mini st4 (find_next st4 R))
    (let st3 := write_block s2 R S false pa pm in
     let st4 := clear_prev_alloc st3 (find_next st3 R) in
     clear_prev_mini st4 (find_next st4 R)).
Proof.
  intros H Hlo HS H32 HR Hb Ha. cbv zeta.
  set (F := R + S) in *.
  rewrite !(write_block_free_regular _ R S pa pm HS H32 HR) by lia.
  set (hw := pack S false pa pm).
  assert (Hhw : 0 <= hw < word_modulus) by (apply pack_word; exact (proj1 HS)).
  assert (Hn3 : forall s,
            find_next (store_word (store_word s R hw) (R + S - 8) hw) R = F).
  { intros s. unfold find_next, get_size, header.
    rewrite load_store_other by lia. rewrite (load_store_same s R hw Hhw).
    unfold hw. rewrite (extract_size_pack S false pa pm HS).
    apply wrap_small. unfold F, word_modulus in *. lia. }
  assert (Hn4 : forall s,
            find_next (clear_prev_alloc
                         (store_word (store_word s R hw) (R + S - 8) hw) F) R = F).
  { intros s. unfold find_next, get_size, clear_prev_alloc, set_header, header.
    rewrite !load_store_other by (unfold F; lia). rewrite (load_store_same s R hw Hhw).
    unfold hw. rewrite (extract_size_pack S false pa pm HS).
    apply wrap_small. unfold F, word_modulus in *. lia. }
  rewrite !Hn3, !Hn4.
  set (st3 := store_word (store_word s1 R hw) (R + S - 8) hw).
  set (t3 := store_word (store_word s2 R hw) (R + S - 8) hw).
  assert (H3 : agree_from lo st3 t3) by (apply agree_store_word, agree_store_word; exact H).
  assert (Ha3 : get_alloc st3 F = true).
  { rewrite get_alloc_bit. unfold st3, header.
    rewrite !load_store_other by (unfold F; lia).
    fold (header s1 F). rewrite <- get_alloc_bit. exact Ha. }
  assert (HF : lo <= F) by (unfold F; lia).
  apply agree_clear_prev_mini; [apply agree_clear_prev_alloc; assumption|exact HF|].
  rewrite get_alloc_clear_prev_alloc. exact Ha3.
Qed.

Lemma agree_coalesce_next lo fuel s1 s2 classes mini B st' :
  agree_from lo s1 s2 -> lo <= B ->
  (forall a, In a (all_nodes classes mini) -> lo <= a) ->
  freed_block s1 classes mini B -> (length mini <= fuel)%nat ->
  In (find_next s1 B) (all_nodes classes mini) ->
  allocated_header s1 classes mini (find_next s1 B + get_size s1 (find_next s1 B)) ->
  coalesce_next fuel s1 B = Some (st', B) ->
  exists st2', coalesce_next fuel s2 B = Some (st2', B) /\ agree_from lo st' st2'.
Proof.
  intros H HloB Hnodes Hfb Hfuel HXin HF E.
  pose proof (fb_lists _ _ _ _ Hfb) as Hwf.
  pose proof HF as (Hfa & HFr & HFout).
  pose proof (freed_next _ _ _ _ Hfb) as EN.
  pose proof (fb_size _ _ _ _ Hfb) as HsB. unfold mb_block_size in HsB.
  destruct (fb_range _ _ _ _ Hfb) as [HB0 HB1]. unfold wsize in HB1, HFr.
  unfold coalesce_next in *. cbv zeta in *.
  rewrite <- (agree_find_next lo s1 s2 B H HloB).
  set (X := find_next s1 B) in *.
  assert (HloX : lo <= X) by (apply Hnodes; exact HXin).
  rewrite <- (agree_get_size lo s1 s2 B H HloB), <- (agree_get_size lo s1 s2 X H HloX).
  pose proof (node_size _ _ _ X Hwf HXin) as HsX. unfold mb_block_size in HsX.
  destruct (wf_range _ _ _ Hwf X HXin) as [HX0 HX1].
  destruct (rem_from_its_list_spec fuel s1 classes mini X Hwf HXin Hfuel)
    as (st1 & E1 & W1 & L1 & _).
  rewrite E1 in E.
  destruct (agree_rem_from_its_list lo s1 s2 fuel mini X st1 H
              (wf_mini_list _ _ _ Hwf)
              ltac:(intros a Ha; apply Hnodes, in_all_nodes; right; exact Ha)
              HloX E1) as (t1 & E2 & H1).
  rewrite E2.
  rewrite <- (agree_get_prev_alloc lo st1 t1 B H1 HloB),
    <- (agree_get_prev_mini lo st1 t1 B H1 HloB).
  rewrite (wrap_small (get_size s1 B + get_size s1 X)) in *
    by (unfold word_modulus in *; lia).
  injection E as <-. eexists. split; [reflexivity|].
  apply agree_merge_step.
  - exact H1.
  - exact HloB.
  - apply is_size_sum; try apply get_size_is_size. unfold word_modulus in *. lia.
  - lia.
  - exact HB0.
  - lia.
  - replace (B + (get_size s1 B + get_size s1 X)) with (X + get_size s1 X) by lia.
    rewrite get_alloc_bit,
      (links_only_header s1 st1 classes mini _ L1 (allocated_outside_payloads _ _ _ _ HF)),
      <- get_alloc_bit.
    exact Hfa.
Qed.

(** ** Coalescing the first block of the heap *)

Lemma load64_top_byte m b : load8 m (b + 7) = load64 m b / 2 ^ 56.
Proof.
  unfold load64.
  pose proof (load8_range m b). pose proof (load8_range m (b + 1)).
  pose proof (load8_range m (b + 2)). pose proof (load8_range m (b + 3)).
  pose proof (load8_range m (b + 4)). pose proof (load8_range m (b + 5)).
  pose proof (load8_range m (b + 6)). pose proof (load8_range m (b + 7)).
  apply Z.div_unique with
    (r := load8 m b + 2 ^ 8 * load8 m (b + 1) + 2 ^ 16 * load8 m (b + 2)
          + 2 ^ 24 * load8 m (b + 3) + 2 ^ 32 * load8 m (b + 4)
          + 2 ^ 40 * load8 m (b + 5) + 2 ^ 48 * load8 m (b + 6)); lia.
Qed.

(** Words that keep their value keep their bytes. *)
Lemma bytes_before st st' B :
  (forall b, b + 8 <= B -> load_word st' b = load_word st b) ->
  forall a, a < B -> load8 (mem st') a = load8 (mem st) a.
Proof.
  intros Hw a Ha. specialize (Hw (a - 7) ltac:(lia)). unfold load_word in Hw.
  replace a with (a - 7 + 7) by lia. rewrite !load64_top_byte, Hw. reflexivity.
Qed.

Lemma coalesce_none_fst st B : coalesce_none st B = (fst (coalesce_none st B), B).
Proof. reflexivity. Qed.

(** C10.  [coalesce_block] on a newly freed block [B] that no free block
    precedes, whose [prev_alloc] and [prev_mini] bits are clear and whose
    preceding word, the prologue, holds size 0: [find_prev] returns [NULL];
    [coalesce_block] takes the branches of an allocated predecessor and
    returns [B] itself, with its own size or, when the next block is free,
    merged with the next block only; no byte below [B] is written; and no
    byte below the prologue word is read: from any state with the same
    bytes from the prologue word on, it returns the same block and a state
    that again has the same bytes from the prologue word on. *)
Theorem C10_no_backward_merge_at_first_block :
  forall fuel st classes mini B,
    freed_block st classes mini B ->
    (length mini <= fuel)%nat ->
    wsize <= B ->
    (forall a, In a (all_nodes classes mini) -> B <= a) ->
    get_prev_alloc st B = false ->
    get_prev_mini st B = false ->
    extract_size (load_word st (find_prev_footer B)) = 0 ->
    let N := find_next st B in
    allocated_header st classes mini N \/
    (get_alloc st N = false /\ In N (all_nodes classes mini) /\
     allocated_header st classes mini (N + get_size st N)) ->
    find_prev st B = NULL /\
    coalesce_block fuel st B
    = (if get_alloc st N then Some (coalesce_none st B) else coalesce_next fuel st B) /\
    exists st',
      coalesce_block fuel st B = Some (st', B) /\
      get_size st' B = get_size st B + (if get_alloc st N then 0 else get_size st N) /\
      (forall a, a < B -> load8 (mem st') a = load8 (mem st) a) /\
      (forall st2, agree_from (find_prev_footer B) st st2 ->
         exists st2',
           coalesce_block fuel st2 B = Some (st2', B) /\
           agree_from (find_prev_footer B) st' st2').
Proof.
  intros fuel st classes mini B Hfb Hfuel HB8 Hafter Hpa Hpm Hzero N Hnext.
  destruct (fb_range _ _ _ _ Hfb) as [HB0 HB1].
  pose proof (get_size_nonneg st B) as HsB.
  pose proof (freed_next _ _ _ _ Hfb) as EN. fold N in EN.
  assert (Hfoot : find_prev_footer B = B - 8).
  { unfold find_prev_footer, wsize in *. apply wrap_small.
    unfold word_modulus in *. lia. }
  assert (Hprev : forall s,
            get_prev_mini s B = false ->
            extract_size (load_word s (find_prev_footer B)) = 0 ->
            find_prev s B = NULL).
  { intros s Hm Hz. unfold find_prev. rewrite Hm, Hz. reflexivity. }
  assert (Hside : forall st2, agree_from (find_prev_footer B) st st2 ->
            get_prev_alloc st2 B = false /\ find_prev st2 B = NULL /\
            find_next st2 B = N /\ get_alloc st2 N = get_alloc st N).
  { intros st2 Hag. rewrite Hfoot in Hag.
    rewrite <- (agree_get_prev_alloc _ st st2 B Hag) by lia.
    rewrite <- (agree_find_next _ st st2 B Hag) by lia. fold N.
    rewrite <- (agree_get_alloc _ st st2 N Hag) by lia.
    split; [exact Hpa|]. split; [|split; reflexivity].
    apply Hprev.
    - rewrite <- (agree_get_prev_mini _ st st2 B Hag) by lia. exact Hpm.
    - rewrite Hfoot, <- (agree_load_word _ st st2 (B - 8) Hag) by lia.
      rewrite <- Hfoot. exact Hzero. }
  split; [exact (Hprev st Hpm Hzero)|].
  destruct Hnext as [HN|(Hna & HNin & HF)].
  - pose proof (proj1 HN) as Hna. rewrite Hna.
    pose proof (coalesce_block_first_alloc fuel st B Hpa (Hprev st Hpm Hzero) Hna) as E.
    split; [exact E|].
    destruct (coalesce_none_spec st classes mini B Hfb HN)
      as (st' & E' & Hsz & _ & _ & _ & _ & Hlow).
    exists st'. split; [rewrite E, E'; reflexivity|].
    split; [rewrite Hsz; lia|].
    split; [exact (bytes_before st st' B Hlow)|].
    intros st2 Hag. destruct (Hside st2 Hag) as (Hpa2 & Hp2 & Hn2 & Ha2).
    exists (fst (coalesce_none st2 B)). split.
    + rewrite (coalesce_block_first_alloc fuel st2 B Hpa2 Hp2)
        by (rewrite Hn2, Ha2; exact Hna).
      rewrite <- coalesce_none_fst. reflexivity.
    + replace st' with (fst (coalesce_none st B)) by (rewrite E'; reflexivity).
      apply agree_coalesce_none; [exact Hag|lia| |exact Hna].
      fold N. lia.
  - rewrite Hna.
    assert (HNn : N <> NULL).
    { destruct (wf_range _ _ _ (fb_lists _ _ _ _ Hfb) _ HNin) as [H0 _].
      unfold NULL. lia. }
    pose proof (coalesce_block_first_free fuel st B Hpa (Hprev st Hpm Hzero) Hna HNn) as E.
    split; [exact E|].
    destruct (coalesce_next_spec fuel st classes mini B Hfb Hfuel HNin HF)
      as (st' & E' & Hsz & _ & _ & _ & _ & _ & Hlow).
    exists st'. split; [rewrite E; exact E'|].
    split; [exact Hsz|].
    split; [exact (bytes_before st st' B (Hlow Hafter))|].
    intros st2 Hag. destruct (Hside st2 Hag) as (Hpa2 & Hp2 & Hn2 & Ha2).
    rewrite (coalesce_block_first_free fuel st2 B Hpa2 Hp2)
      by (rewrite Hn2; first [exact HNn|rewrite Ha2; exact Hna]).
    apply (agree_coalesce_next _ fuel st st2 classes mini B st' Hag);
      try assumption.
    + lia.
    + intros a Ha. specialize (Hafter a Ha). lia.
Qed.

(** The scenario of module [FirstBlock] meets the hypotheses, with a free
    next block. *)
Lemma first_block_scenario_freed :
  freed_block FirstBlock.st_freed FirstBlock.classes [] FirstBlock.B.
Proof.
  assert (Hnodes : all_nodes FirstBlock.classes [] = [65608]) by reflexivity.
  constructor.
  - constructor.
    + vm_compute. reflexivity.
    + reflexivity.
    + intros c Hc.
      do 15 (destruct c as [|c]; [vm_compute; repeat split; congruence|]).
      unfold NUM_CLASSES in Hc. lia.
    + vm_compute. reflexivity.
    + intros c a Ha.
      do 15 (destruct c as [|c];
             [cbn in Ha; repeat (destruct Ha as [<-|Ha]; [vm_compute; split; congruence|]);
              destruct Ha|]).
      destruct c; destruct Ha.
    + intros a [].
    + intros a Ha. rewrite Hnodes in Ha.
      repeat (destruct Ha as [<-|Ha]; [vm_compute; split; congruence|]). destruct Ha.
    + rewrite Hnodes. repeat constructor; cbn; intuition congruence.
    + intros a b Ha Hb Hab. rewrite Hnodes in Ha, Hb.
      destruct Ha as [<-|[]]. destruct Hb as [<-|[]]. contradiction.
  - vm_compute. reflexivity.
  - vm_compute. congruence.
  - vm_compute. split; congruence.
  - intros a Ha. rewrite Hnodes in Ha. unfold apart.
    repeat (destruct Ha as [<-|Ha];
            [solve [left; vm_compute; congruence | right; vm_compute; congruence]|]).
    destruct Ha.
Qed.

Lemma C10_no_backward_merge_at_first_block_witness :
  find_prev FirstBlock.st_freed FirstBlock.B = NULL /\
  coalesce_block run_fuel FirstBlock.st_freed FirstBlock.B
  = (if get_alloc FirstBlock.st_freed (find_next FirstBlock.st_freed FirstBlock.B)
     then Some (coalesce_none FirstBlock.st_freed FirstBlock.B)
     else coalesce_next run_fuel FirstBlock.st_freed FirstBlock.B) /\
  exists st',
    coalesce_block run_fuel FirstBlock.st_freed FirstBlock.B
    = Some (st', FirstBlock.B) /\
    get_size st' FirstBlock.B
    = get_size FirstBlock.st_freed FirstBlock.B
      + (if get_alloc FirstBlock.st_freed (find_next FirstBlock.st_freed FirstBlock.B)
         then 0
         else get_size FirstBlock.st_freed
                (find_next FirstBlock.st_freed FirstBlock.B)) /\
    (forall a, a < FirstBlock.B ->
       load8 (mem st') a = load8 (mem FirstBlock.st_freed) a) /\
    (forall st2, agree_from (find_prev_footer FirstBlock.B) FirstBlock.st_freed st2 ->
       exists st2',
         coalesce_block run_fuel st2 FirstBlock.B = Some (st2', FirstBlock.B) /\
         agree_from (find_prev_footer FirstBlock.B) st' st2').
Proof.
  assert (Hnodes : all_nodes FirstBlock.classes [] = [65608]) by reflexivity.
  apply (C10_no_backward_merge_at_first_block run_fuel FirstBlock.st_freed
           FirstBlock.classes [] FirstBlock.B first_block_scenario_freed).
  - cbn. lia.
  - vm_compute. congruence.
  - intros a Ha. rewrite Hnodes in Ha. destruct Ha as [<-|[]]. vm_compute. congruence.
  - vm_compute. reflexivity.
  - vm_compute. reflexivity.
  - vm_compute. reflexivity.
  - right. split; [vm_compute; reflexivity|].
    split; [rewrite Hnodes; left; vm_compute; reflexivity|].
    split; [vm_compute; reflexivity|]. split; [vm_compute; congruence|].
    intros a Ha. rewrite Hnodes in Ha. unfold word_outside.
    repeat (destruct Ha as [<-|Ha];
            [solve [left; vm_compute; congruence | right; vm_compute; congruence]|]).
    destruct Ha.
Defined.

(** ** The size overflow of [malloc] *)

(** C1 (fails on the code).  On the initialised heap [malloc(SIZE_MAX)]
    returns a non-null, 16-byte aligned pointer to an allocated block of 32
    bytes: its payload of 24 bytes is smaller than the [SIZE_MAX] bytes
    requested. *)
Theorem C1_malloc_size_max_payload_too_small :
  heap_start initial_heap <> NULL /\
  mm_checkheap run_fuel initial_heap = Some true /\
  match malloc run_fuel initial_heap SIZE_MAX with
  | Some (st', p) =>
      p <> NULL /\ p mod 16 = 0 /\
      get_alloc st' (payload_to_header p) = true /\
      get_size st' (payload_to_header p) - wsize = 24 /\
      24 < SIZE_MAX
  | None => False
  end.
Proof.
  vm_compute. repeat split; congruence.
Qed.

(** C2 (fails on the code).  On the initialised heap [malloc(SIZE_MAX)]
    does not return null, and it changes the heap and the size-class
    lists: the adjusted size wraps around to 32. *)
Theorem C2_malloc_size_max_returns_block :
  wrap (SIZE_MAX + wsize) = 7 /\
  max (round_up (wrap (SIZE_MAX + wsize)) dsize) min_block_size = 32 /\
  match malloc run_fuel initial_heap SIZE_MAX with
  | Some (st', p) =>
      p <> NULL /\
      size_class st' <> size_class initial_heap /\
      header st' (heap_start initial_heap) <> header initial_heap (heap_start initial_heap)
  | None => False
  end.
Proof.
  vm_compute. repeat split; congruence.
Qed.

(** C3 (fails on the code).  After [p = malloc(100)], a store by the
    application into its own payload, and [realloc(p, SIZE_MAX)], the heap
    walk meets an allocated block of 32 bytes (the one [realloc] returned)
    whose successor has its [prev_alloc] bit clear: [malloc] sized the new
    block for a wrapped-around request and [realloc] copied 104 bytes into
    its 24-byte payload, over the header of the next block. *)
Theorem C3_flag_coherence_broken_by_realloc :
  mm_checkheap run_fuel Overflow.st_written = Some true /\
  get_alloc Overflow.st_written (payload_to_header Overflow.p) = true /\
  Overflow.q <> NULL /\
  let st := st_of Overflow.r_q in
  let A := payload_to_header Overflow.q in
  heap_block st A /\
  get_size st (find_next st A) > 0 /\
  get_alloc st A = true /\
  get_prev_alloc st (find_next st A) = false /\
  ~ flags_coherent st.
Proof.
  assert (HA : heap_block (st_of Overflow.r_q) (payload_to_header Overflow.q)).
  { replace (payload_to_header Overflow.q)
      with (find_next (st_of Overflow.r_q) (heap_start (st_of Overflow.r_q)))
      by (vm_compute; reflexivity).
    apply heap_block_next; [apply heap_block_first|]; vm_compute; reflexivity. }
  split; [vm_compute; reflexivity|].
  split; [vm_compute; reflexivity|].
  split; [vm_compute; congruence|].
  cbv zeta.
  split; [exact HA|].
  split; [vm_compute; reflexivity|].
  split; [vm_compute; reflexivity|].
  split; [vm_compute; reflexivity|].
  intros Hc. destruct (Hc _ HA) as [Hpa _].
  vm_compute in Hpa. discriminate Hpa.
Qed.

(** C6 (fails on the code).  [p] is an allocated block of 64 bytes that
    follows a free block of 64 bytes.  [realloc(p, SIZE_MAX)] returns a
    pointer [q] into a 32-byte block split from that free block, copies
    [min(SIZE_MAX, 56) = 56] bytes to it, and frees [p], which merges [p]
    with the free remainder that starts 24 bytes after [q]: byte 24 of [q]
    is then part of the merged header and differs from byte 24 of the old
    payload of [p]. *)
Theorem C6_realloc_size_max_loses_payload :
  let st := ReallocCopy.st_written in
  let p := ReallocCopy.p in
  let q := ReallocCopy.q in
  mm_checkheap run_fuel st = Some true /\
  p <> NULL /\
  get_alloc st (payload_to_header p) = true /\
  get_size st (payload_to_header p) - wsize = 56 /\
  q <> NULL /\
  get_size (st_of ReallocCopy.r_q) (payload_to_header q) - wsize = 24 /\
  0 <= 24 < Z.min SIZE_MAX 56 /\
  load8 (mem (st_of ReallocCopy.r_q)) (q + 24) <> load8 (mem st) (p + 24).
Proof.
  cbv zeta.
  repeat split; try (vm_compute; congruence).
Qed.

(** * Further properties of the helper functions *)

(** ** Rounding and size classes *)

(** X1.  [round_up size n], when [size + (n - 1)] does not overflow, is the
    least multiple of [n] that is at least [size]: it is a multiple of [n]
    and lies in [[size, size + n)]. *)
Theorem X1_round_up_next_multiple :
  forall size n,
    0 < n -> 0 <= size -> size + (n - 1) < word_modulus ->
    round_up size n mod n = 0 /\ size <= round_up size n < size + n.
Proof.
  intros size n Hn Hs Hb. unfold round_up.
  rewrite (wrap_small (size + (n - 1))) by lia.
  pose proof (Z.mul_div_le (size + (n - 1)) n Hn) as Hle.
  pose proof (Z.mod_pos_bound (size + (n - 1)) n Hn) as Hm.
  pose proof (Z.div_mod (size + (n - 1)) n ltac:(lia)) as Hd.
  assert (Hq : 0 <= (size + (n - 1)) / n) by (apply Z.div_pos; lia).
  rewrite wrap_small by nia.
  split; [rewrite Z.mul_comm; apply Z.mod_mul; lia|]. lia.
Qed.

Lemma X1_round_up_next_multiple_witness :
  round_up 4097 16 mod 16 = 0 /\ 4097 <= round_up 4097 16 < 4097 + 16.
Proof. apply X1_round_up_next_multiple; unfold word_modulus; lia. Defined.

(** X2.  For a [size] above the last multiple of [n] that a word can hold
    the addition in [round_up] wraps around and the result is 0. *)
Theorem X2_round_up_wraps_to_zero :
  forall size n,
    0 < n <= word_modulus -> word_modulus - n < size < word_modulus ->
    round_up size n = 0.
Proof.
  intros size n Hn Hs. unfold round_up.
  assert (E : wrap (size + (n - 1)) = size + (n - 1) - word_modulus).
  { unfold wrap. symmetry. apply (Z.mod_unique _ _ 1); lia. }
  rewrite E, Z.div_small by lia. rewrite Z.mul_0_r. reflexivity.
Qed.

Lemma X2_round_up_wraps_to_zero_witness : round_up (SIZE_MAX - 7) 16 = 0.
Proof. apply X2_round_up_wraps_to_zero; unfold SIZE_MAX, word_modulus; lia. Defined.

Ltac class_bound :=
  match goal with
  | |- context [32 * 2 ^ Z.of_nat ?n] =>
      let k := eval vm_compute in (32 * 2 ^ Z.of_nat n) in
      change (32 * 2 ^ Z.of_nat n) with k
  end.

(** X3.  [size_to_class] returns an index below [NUM_CLASSES], and for
    [c < 14] the classes up to [c] hold exactly the sizes up to
    [32 * 2^c]: sizes up to 32 fall in class 0, sizes in
    [(32 * 2^(c-1), 32 * 2^c]] in class [c], and sizes above 262144 in
    class 14. *)
Theorem X3_size_to_class_bounds :
  forall size,
    (size_to_class size < NUM_CLASSES)%nat /\
    forall c, (c < 14)%nat ->
      ((size_to_class size <= c)%nat <-> size <= 32 * 2 ^ Z.of_nat c).
Proof.
  intros size. split; [apply size_to_class_lt|].
  intros c Hc. unfold size_to_class.
  do 14 (destruct c as [|c];
         [class_bound;
          repeat match goal with
                 | |- context [?s <=? ?k] => destruct (Z.leb_spec s k)
                 end; lia|]).
  lia.
Qed.

(** ** Headers and payloads *)

(** X4.  [payload_to_header] and [header_to_payload] are inverse to each
    other on 64-bit addresses. *)
Theorem X4_header_payload_round_trip :
  forall p,
    0 <= p < word_modulus ->
    payload_to_header (header_to_payload p) = p /\
    header_to_payload (payload_to_header p) = p.
Proof.
  intros p Hp. unfold payload_to_header, header_to_payload, wrap.
  rewrite Zminus_mod_idemp_l, Zplus_mod_idemp_l.
  replace (p + payload_offset - payload_offset) with p by lia.
  replace (p - payload_offset + payload_offset) with p by lia.
  rewrite Z.mod_small by exact Hp. split; reflexivity.
Qed.

Lemma X4_header_payload_round_trip_witness :
  payload_to_header (header_to_payload 0) = 0 /\
  header_to_payload (payload_to_header 0) = 0.
Proof. apply X4_header_payload_round_trip. unfold word_modulus. lia. Defined.

(** ** Block headers and footers *)

(** The footer of a block never overlaps its header. *)
Lemma footer_apart b s :
  is_size s -> 0 <= b < word_modulus ->
  wrap (b + payload_offset + s - dsize) + 8 <= b \/
  b + 8 <= wrap (b + payload_offset + s - dsize).
Proof.
  intros [Hs Hm] Hb. unfold wrap, payload_offset, dsize, wsize, word_modulus in *.
  Z.div_mod_to_equations. lia.
Qed.

(** X5.  After [write_block] with a size that is a multiple of 16, the
    block reads back the size and the three flags written; a free block
    that is not a mini block has a footer equal to its header; and no word
    other than the header and that footer changes. *)
Theorem X5_write_block_round_trip :
  forall st b size a pa pm,
    is_size size -> 0 <= b < word_modulus ->
    let st' := write_block st b size a pa pm in
    get_size st' b = size /\
    get_alloc st' b = a /\
    get_prev_alloc st' b = pa /\
    get_prev_mini st' b = pm /\
    (a = false -> size <> mb_block_size ->
     load_word st' (header_to_footer st' b) = header st' b) /\
    (forall w,
       w + 8 <= b \/ b + 8 <= w ->
       a = true \/ size = mb_block_size \/
       w + 8 <= wrap (b + payload_offset + size - dsize) \/
       wrap (b + payload_offset + size - dsize) + 8 <= w ->
       load_word st' w = load_word st w).
Proof.
  intros st b size a pa pm HS Hb st'.
  set (hw := pack size a pa pm).
  assert (Hhw : 0 <= hw < word_modulus) by (apply pack_word; exact (proj1 HS)).
  set (F := wrap (b + payload_offset + size - dsize)).
  pose proof (footer_apart b size HS Hb) as HF. fold F in HF.
  assert (H1 : get_size (set_header st b hw) b = size).
  { unfold get_size, set_header. rewrite (header_store_same st b hw Hhw).
    apply extract_size_pack. exact HS. }
  assert (E : st' = if negb a && negb (size =? mb_block_size)
                    then store_word (store_word st b hw) F hw
                    else store_word st b hw).
  { unfold st', write_block, header_to_footer. fold hw. rewrite H1. reflexivity. }
  assert (Hh : header st' b = hw).
  { rewrite E. destruct (negb a && negb (size =? mb_block_size)).
    - unfold header. rewrite load_store_other by lia. apply load_store_same. exact Hhw.
    - apply header_store_same. exact Hhw. }
  assert (Hsz : get_size st' b = size).
  { unfold get_size. rewrite Hh. apply extract_size_pack. exact HS. }
  split; [exact Hsz|].
  split; [rewrite get_alloc_bit, Hh; apply pack_bit0; exact HS|].
  split; [rewrite get_prev_alloc_bit, Hh; apply pack_bit1; exact HS|].
  split; [rewrite get_prev_mini_bit, Hh; apply pack_bit2; exact HS|].
  split.
  - intros -> Hne. unfold header_to_footer. rewrite Hsz, Hh. fold F.
    rewrite E. destruct (Z.eqb_spec size mb_block_size) as [|_]; [contradiction|].
    cbn [negb andb]. apply load_store_same. exact Hhw.
  - intros w Hw Hwf. rewrite E.
    destruct a; cbn [negb andb]; [apply load_store_other; lia|].
    destruct (Z.eqb_spec size mb_block_size) as [Heq|Hne]; cbn [negb].
    + apply load_store_other. lia.
    + destruct Hwf as [Hwf|[Hwf|Hwf]]; [discriminate|contradiction|].
      rewrite !load_store_other by lia. reflexivity.
Qed.

Lemma X5_write_block_round_trip_witness :
  let st' := write_block initial_heap 65544 64 false true false in
  get_size st' 65544 = 64 /\
  get_alloc st' 65544 = false /\
  get_prev_alloc st' 65544 = true /\
  get_prev_mini st' 65544 = false /\
  (false = false -> 64 <> mb_block_size ->
   load_word st' (header_to_footer st' 65544) = header st' 65544) /\
  (forall w,
     w + 8 <= 65544 \/ 65544 + 8 <= w ->
     false = true \/ 64 = mb_block_size \/
     w + 8 <= wrap (65544 + payload_offset + 64 - dsize) \/
     wrap (65544 + payload_offset + 64 - dsize) + 8 <= w ->
     load_word st' w = load_word initial_heap w).
Proof.
  apply (X5_write_block_round_trip initial_heap 65544 64 false true false).
  - split; [unfold word_modulus; lia|reflexivity].
  - unfold word_modulus. lia.
Defined.

(** X6.  Boundary tags: from the block after [P], [find_prev] leads back
    to [P], provided the [prev_mini] bit of that block tells whether [P]
    is a mini block and, when it is not, the footer of [P] equals its
    header. *)
Theorem X6_find_prev_of_find_next :
  forall st P,
    0 <= P -> mb_block_size <= get_size st P ->
    P + get_size st P < word_modulus ->
    get_prev_mini st (find_next st P) = get_mini st P ->
    (get_mini st P = false -> load_word st (header_to_footer st P) = header st P) ->
    find_prev st (find_next st P) = P.
Proof.
  intros st P HP HS Hb Hpm Hfoot.
  assert (HN : find_next st P = P + get_size st P).
  { unfold find_next. apply wrap_small. unfold mb_block_size in HS. lia. }
  unfold find_prev. rewrite Hpm, HN. unfold get_mini in *.
  unfold mb_block_size in *.
  destruct (Z.eqb_spec (get_size st P) 16) as [E|Hne].
  - rewrite E. replace (P + 16 - 16) with P by lia. apply wrap_small. lia.
  - specialize (Hfoot eq_refl). cbv zeta.
    unfold footer_to_header, find_prev_footer, wsize.
    rewrite (wrap_small (P + get_size st P - 8)) by lia.
    unfold header_to_footer, payload_offset, dsize, wsize in Hfoot.
    replace (P + 8 + get_size st P - 2 * 8) with (P + get_size st P - 8) in Hfoot by lia.
    rewrite (wrap_small (P + get_size st P - 8)) in Hfoot by lia.
    rewrite Hfoot. fold (get_size st P).
    destruct (Z.eqb_spec (get_size st P) 0) as [E0|_]; [lia|].
    replace (P + get_size st P - 8 + 8 - get_size st P) with P by lia.
    apply wrap_small. lia.
Qed.

Lemma X6_find_prev_of_find_next_witness :
  find_prev Coalesce.st_freed (find_next Coalesce.st_freed 65544) = 65544.
Proof.
  apply X6_find_prev_of_find_next.
  - lia.
  - vm_compute. congruence.
  - vm_compute. reflexivity.
  - vm_compute. reflexivity.
  - intros _. vm_compute. reflexivity.
Defined.

(** X7.  [set_prev_alloc] and [clear_prev_alloc] set and clear the
    [prev_alloc] bit of the header and leave the size and the other two
    flags as they are; no other word is written, so a footer is not
    updated. *)
Theorem X7_prev_alloc_updates_header_only :
  forall st b,
    get_prev_alloc (set_prev_alloc st b) b = true /\
    get_prev_alloc (clear_prev_alloc st b) b = false /\
    (get_size (set_prev_alloc st b) b = get_size st b /\
     get_alloc (set_prev_alloc st b) b = get_alloc st b /\
     get_prev_mini (set_prev_alloc st b) b = get_prev_mini st b) /\
    (get_size (clear_prev_alloc st b) b = get_size st b /\
     get_alloc (clear_prev_alloc st b) b = get_alloc st b /\
     get_prev_mini (clear_prev_alloc st b) b = get_prev_mini st b) /\
    (forall w, w + 8 <= b \/ b + 8 <= w ->
       load_word (set_prev_alloc st b) w = load_word st w /\
       load_word (clear_prev_alloc st b) w = load_word st w).
Proof.
  intros st b.
  assert (Hs : header (set_prev_alloc st b) b = Z.lor (header st b) prev_alloc_mask).
  { unfold set_prev_alloc, set_header. apply header_store_same.
    apply lor_word; [apply header_range|vm_compute; split; congruence]. }
  assert (Hc : header (clear_prev_alloc st b) b
               = Z.land (header st b) (wnot prev_alloc_mask)).
  { unfold clear_prev_alloc, set_header. apply header_store_same.
    apply land_word. vm_compute. split; congruence. }
  rewrite !get_prev_alloc_bit, !get_alloc_bit, !get_prev_mini_bit.
  unfold get_size. rewrite Hs, Hc, !Z.lor_spec, !Z.land_spec.
  rewrite (extract_size_lor _ prev_alloc_mask) by reflexivity.
  rewrite (extract_size_land _ (wnot prev_alloc_mask)) by reflexivity.
  change (Z.testbit prev_alloc_mask 0) with false.
  change (Z.testbit prev_alloc_mask 1) with true.
  change (Z.testbit prev_alloc_mask 2) with false.
  change (Z.testbit (wnot prev_alloc_mask) 0) with true.
  change (Z.testbit (wnot prev_alloc_mask) 1) with false.
  change (Z.testbit (wnot prev_alloc_mask) 2) with true.
  rewrite !orb_false_r, !andb_true_r, orb_true_r, andb_false_r.
  repeat split.
  - unfold set_prev_alloc, set_header. apply load_store_other. lia.
  - unfold clear_prev_alloc, set_header. apply load_store_other. lia.
Qed.

(** The common shape of [set_prev_mini] and [clear_prev_mini]: the header
    is replaced by [f header] and, on a free block that is not a mini
    block, the footer by [f footer]. *)
Lemma prev_mini_update (f : Z -> Z) (v : bool) st b :
  (forall h, 0 <= h < word_modulus -> 0 <= f h < word_modulus) ->
  (forall h, extract_size (f h) = extract_size h) ->
  (forall h, Z.testbit (f h) 0 = Z.testbit h 0) ->
  (forall h, Z.testbit (f h) 1 = Z.testbit h 1) ->
  (forall h, Z.testbit (f h) 2 = v) ->
  0 <= b < word_modulus ->
  let st' :=
    let st1 := set_header st b (f (header st b)) in
    if negb (get_alloc st1 b) && negb (get_mini st1 b) then
      let footer := header_to_footer st1 b in
      store_word st1 footer (f (load_word st1 footer))
    else st1 in
  get_prev_mini st' b = v /\
  get_size st' b = get_size st b /\
  get_alloc st' b = get_alloc st b /\
  get_prev_alloc st' b = get_prev_alloc st b /\
  (get_alloc st b = false -> get_mini st b = false ->
   load_word st (header_to_footer st b) = header st b ->
   load_word st' (header_to_footer st' b) = header st' b) /\
  (get_alloc st b = true \/ get_mini st b = true ->
   forall w, w + 8 <= b \/ b + 8 <= w -> load_word st' w = load_word st w).
Proof.
  intros Hr Hsz H0 H1 H2 Hb. cbv zeta.
  set (h' := f (header st b)).
  assert (Hh' : 0 <= h' < word_modulus) by (apply Hr, header_range).
  set (st1 := set_header st b h').
  assert (Hh1 : header st1 b = h') by (apply header_store_same; exact Hh').
  assert (Hs1 : get_size st1 b = get_size st b).
  { unfold get_size. rewrite Hh1. apply Hsz. }
  assert (Ha1 : get_alloc st1 b = get_alloc st b).
  { rewrite !get_alloc_bit, Hh1. apply H0. }
  assert (Hm1 : get_mini st1 b = get_mini st b).
  { unfold get_mini. rewrite Hs1. reflexivity. }
  rewrite Ha1, Hm1. unfold header_to_footer. rewrite Hs1.
  set (F := wrap (b + payload_offset + get_size st b - dsize)).
  pose proof (footer_apart b (get_size st b) (get_size_is_size st b) Hb) as HF.
  fold F in HF.
  set (st' := if negb (get_alloc st b) && negb (get_mini st b)
              then store_word st1 F (f (load_word st1 F)) else st1).
  assert (Hh : header st' b = h').
  { unfold st'. destruct (negb (get_alloc st b) && negb (get_mini st b)); [|exact Hh1].
    unfold header. rewrite load_store_other by lia. exact Hh1. }
  assert (Hs : get_size st' b = get_size st b).
  { unfold get_size. rewrite Hh. apply Hsz. }
  split; [rewrite get_prev_mini_bit, Hh; apply H2|].
  split; [exact Hs|].
  split; [rewrite !get_alloc_bit, Hh; apply H0|].
  split; [rewrite !get_prev_alloc_bit, Hh; apply H1|].
  split.
  - intros Ha Hm Hfoot. rewrite Hs, Hh. fold F. fold F in Hfoot.
    unfold st'. rewrite Ha, Hm. cbn [negb andb].
    rewrite load_store_same by (apply Hr, load_word_range).
    unfold st1, set_header. rewrite load_store_other by lia.
    rewrite Hfoot. reflexivity.
  - intros Hor w Hw. unfold st'.
    replace (negb (get_alloc st b) && negb (get_mini st b)) with false
      by (destruct Hor as [-> | ->]; [reflexivity|rewrite andb_false_r; reflexivity]).
    unfold st1, set_header. apply load_store_other. lia.
Qed.

(** X8.  [set_prev_mini] and [clear_prev_mini] set and clear the
    [prev_mini] bit and leave the size and the other two flags as they
    are.  On a free block that is not a mini block the footer receives the
    same update, so a footer equal to the header stays equal to it; on an
    allocated block or a mini block only the header is written. *)
Theorem X8_prev_mini_updates_header_and_footer :
  forall st b,
    0 <= b < word_modulus ->
    forall v : bool,
      let st' := if v then set_prev_mini st b else clear_prev_mini st b in
      get_prev_mini st' b = v /\
      get_size st' b = get_size st b /\
      get_alloc st' b = get_alloc st b /\
      get_prev_alloc st' b = get_prev_alloc st b /\
      (get_alloc st b = false -> get_mini st b = false ->
       load_word st (header_to_footer st b) = header st b ->
       load_word st' (header_to_footer st' b) = header st' b) /\
      (get_alloc st b = true \/ get_mini st b = true ->
       forall w, w + 8 <= b \/ b + 8 <= w -> load_word st' w = load_word st w).
Proof.
  intros st b Hb [|].
  - apply (prev_mini_update (fun h => Z.lor h prev_mini_mask) true st b);
      try exact Hb; intros h.
    + intros Hh. apply lor_word; [exact Hh|vm_compute; split; congruence].
    + apply extract_size_lor. reflexivity.
    + rewrite Z.lor_spec. apply orb_false_r.
    + rewrite Z.lor_spec. apply orb_false_r.
    + rewrite Z.lor_spec. apply orb_true_r.
  - apply (prev_mini_update (fun h => Z.land h (wnot prev_mini_mask)) false st b);
      try exact Hb; intros h.
    + intros _. apply land_word. vm_compute. split; congruence.
    + apply extract_size_land. reflexivity.
    + rewrite Z.land_spec. apply andb_true_r.
    + rewrite Z.land_spec. apply andb_true_r.
    + rewrite Z.land_spec. apply andb_false_r.
Qed.

Lemma X8_prev_mini_updates_header_and_footer_witness :
  let st' := set_prev_mini Coalesce.st_freed 65544 in
  get_prev_mini st' 65544 = true /\
  get_size st' 65544 = get_size Coalesce.st_freed 65544 /\
  get_alloc st' 65544 = get_alloc Coalesce.st_freed 65544 /\
  get_prev_alloc st' 65544 = get_prev_alloc Coalesce.st_freed 65544 /\
  (get_alloc Coalesce.st_freed 65544 = false ->
   get_mini Coalesce.st_freed 65544 = false ->
   load_word Coalesce.st_freed (header_to_footer Coalesce.st_freed 65544)
   = header Coalesce.st_freed 65544 ->
   load_word st' (header_to_footer st' 65544) = header st' 65544) /\
  (get_alloc Coalesce.st_freed 65544 = true \/
   get_mini Coalesce.st_freed 65544 = true ->
   forall w, w + 8 <= 65544 \/ 65544 + 8 <= w ->
     load_word st' w = load_word Coalesce.st_freed w).
Proof.
  apply (X8_prev_mini_updates_header_and_footer Coalesce.st_freed 65544
           ltac:(unfold word_modulus; lia) true).
Defined.

(** ** Insertion into the free lists *)

Lemma length_push_class classes c b : length (push_class classes c b) = length classes.
Proof.
  revert c. induction classes as [|l t IH]; intros c; [reflexivity|].
  destruct c; cbn; [reflexivity|]. rewrite IH. reflexivity.
Qed.

Lemma nth_push_class_same classes c b :
  (c < length classes)%nat ->
  nth c (push_class classes c b) [] = b :: nth c classes [].
Proof.
  revert c. induction classes as [|l t IH]; intros c Hc; [cbn in Hc; lia|].
  destruct c; cbn; [reflexivity|]. apply IH. cbn in Hc. lia.
Qed.

Lemma nth_push_class_other classes c c' b :
  c <> c' -> nth c' (push_class classes c b) [] = nth c' classes [].
Proof.
  revert c c'. induction classes as [|l t IH]; intros c c' Hc; [reflexivity|].
  destruct c, c'; cbn; try reflexivity; try congruence. apply IH. congruence.
Qed.

Lemma perm_push_class classes c b :
  (c < length classes)%nat ->
  Permutation (concat (push_class classes c b)) (b :: concat classes).
Proof.
  revert c. induction classes as [|l t IH]; intros c Hc; [cbn in Hc; lia|].
  destruct c; cbn [push_class concat].
  - reflexivity.
  - rewrite (IH c) by (cbn in Hc; lia). symmetry. apply Permutation_middle.
Qed.

Lemma perm_all_nodes_push classes mini c b :
  (c < length classes)%nat ->
  Permutation (all_nodes (push_class classes c b) mini) (b :: all_nodes classes mini).
Proof.
  intros Hc. unfold all_nodes.
  rewrite (perm_push_class classes c b Hc). reflexivity.
Qed.

Lemma perm_all_nodes_mini classes mini b :
  Permutation (all_nodes classes (b :: mini)) (b :: all_nodes classes mini).
Proof. unfold all_nodes. symmetry. apply Permutation_middle. Qed.

(** Well-formed lists stay well formed when a block [b] that overlaps no
    listed block joins a list, if the headers are kept. *)
Lemma lists_wf_add st st' classes mini classes' mini' b :
  lists_wf st classes mini ->
  Permutation (all_nodes classes' mini') (b :: all_nodes classes mini) ->
  length classes' = NUM_CLASSES ->
  (forall a, a = b \/ In a (all_nodes classes mini) -> load_word st' a = load_word st a) ->
  0 < b -> b + get_size st b <= word_modulus -> 0 < get_size st b ->
  (forall a, In a (all_nodes classes mini) -> apart st a b) ->
  (forall c a, In a (nth c classes' []) ->
     (a = b /\ min_block_size <= get_size st b /\ size_to_class (get_size st b) = c) \/
     In a (nth c classes [])) ->
  (forall a, In a mini' -> (a = b /\ get_size st b = mb_block_size) \/ In a mini) ->
  length (size_class st') = NUM_CLASSES ->
  (forall c, (c < NUM_CLASSES)%nat ->
     is_dlist st' (class_head st' c) (nth c classes' [])) ->
  is_list st' (mini_block_head st') mini' ->
  lists_wf st' classes' mini'.
Proof.
  intros Hwf Hperm Hlen Hhdr Hb0 Hb1 Hbs Hap Hreg Hmini Hheads Hdl Hml.
  assert (Hsize : forall a, a = b \/ In a (all_nodes classes mini) ->
                  get_size st' a = get_size st a).
  { intros a Ha. unfold get_size, header. rewrite (Hhdr a Ha). reflexivity. }
  assert (Hin : forall a, In a (all_nodes classes' mini') ->
                a = b \/ In a (all_nodes classes mini)).
  { intros a Ha. apply (Permutation_in _ Hperm) in Ha.
    destruct Ha as [<-|Ha]; [left; reflexivity|right; exact Ha]. }
  assert (Hnb : ~ In b (all_nodes classes mini)).
  { intros Hb. specialize (Hap b Hb). unfold apart in Hap. lia. }
  constructor.
  - exact Hheads.
  - exact Hlen.
  - exact Hdl.
  - exact Hml.
  - intros c a Ha. destruct (Hreg c a Ha) as [(-> & H1 & H2)|Hold].
    + rewrite (Hsize b (or_introl eq_refl)). split; assumption.
    + rewrite (Hsize a (or_intror (in_class_all_nodes _ mini _ _ Hold))).
      exact (wf_regular _ _ _ Hwf c a Hold).
  - intros a Ha. destruct (Hmini a Ha) as [(-> & H1)|Hold].
    + rewrite (Hsize b (or_introl eq_refl)). exact H1.
    + rewrite (Hsize a) by (right; apply in_all_nodes; right; exact Hold).
      exact (wf_mini _ _ _ Hwf a Hold).
  - intros a Ha. specialize (Hin a Ha). rewrite (Hsize a Hin).
    destruct Hin as [->|Hold]; [lia|]. exact (wf_range _ _ _ Hwf a Hold).
  - apply (Permutation_NoDup (Permutation_sym Hperm)).
    constructor; [exact Hnb|]. exact (wf_nodup _ _ _ Hwf).
  - intros a a' Ha Ha' Hne.
    pose proof (Hin a Ha) as Ia. pose proof (Hin a' Ha') as Ia'.
    unfold apart. rewrite (Hsize a Ia), (Hsize a' Ia').
    destruct Ia as [->|Ia], Ia' as [->|Ia'].
    + congruence.
    + pose proof (Hap a' Ia') as H. unfold apart in H. lia.
    + exact (Hap a Ia).
    + exact (wf_apart _ _ _ Hwf a a' Ia Ia' Hne).
Qed.

(** [add_to_free_list] on a regular block that is on no list. *)
Lemma add_to_free_list_spec :
  forall st classes mini b,
    lists_wf st classes mini ->
    min_block_size <= get_size st b ->
    0 < b -> b + get_size st b <= word_modulus ->
    (forall a, In a (all_nodes classes mini) -> apart st a b) ->
    let c := size_to_class (get_size st b) in
    let st' := add_to_free_list st b in
    lists_wf st' (push_class classes c b) mini /\
    class_head st' c = b /\
    get_next st' b = class_head st c /\
    get_prev st' b = NULL /\
    (forall w,
       w + 8 <= b + 8 \/ b + 24 <= w ->
       class_head st c = NULL \/
       w + 8 <= class_head st c + 16 \/ class_head st c + 24 <= w ->
       load_word st' w = load_word st w).
Proof.
  intros st classes mini b Hwf HS Hb0 Hb1 Hap c st'.
  unfold min_block_size, dsize, wsize in HS.
  assert (Hc : (c < NUM_CLASSES)%nat) by apply size_to_class_lt.
  set (head := class_head st c).
  set (l := nth c classes []).
  destruct (wf_dlist _ _ _ Hwf c Hc) as [Hl Hpl]. fold head l in Hl, Hpl.
  assert (Hhd : head = hd NULL l) by exact (is_list_hd st l head Hl).
  (* the state in closed form *)
  set (st2 := store_word (store_word st (b + 8) head) (b + 16) NULL).
  set (st3 := if negb (head =? NULL) then store_word st2 (head + 16) b else st2).
  assert (E : st' = set_class_head st3 c b).
  { unfold st', add_to_free_list. fold c. cbv zeta.
    unfold set_next, set_prev, next_offset, prev_offset.
    rewrite !class_head_store_word. reflexivity. }
  (* the former head, when there is one *)
  assert (Hhead : head <> NULL ->
            In head l /\ In head (all_nodes classes mini) /\
            32 <= get_size st head /\ apart st head b /\ 0 <= head < word_modulus).
  { intros Hn. assert (Hin : In head l).
    { rewrite Hhd. apply hd_in. intros El. rewrite El in Hhd. contradiction. }
    pose proof (in_class_all_nodes classes mini c head Hin) as Hall.
    split; [exact Hin|]. split; [exact Hall|].
    split; [exact (proj1 (wf_regular _ _ _ Hwf c head Hin))|].
    split; [exact (Hap head Hall)|].
    exact (proj1 (node_word _ _ _ _ Hwf Hall)). }
  assert (Hframe : forall w,
            w + 8 <= b + 8 \/ b + 24 <= w ->
            head = NULL \/ w + 8 <= head + 16 \/ head + 24 <= w ->
            load_word st' w = load_word st w).
  { intros w Hw1 Hw2. rewrite E.
    change (load_word (set_class_head st3 c b) w) with (load_word st3 w).
    unfold st3. destruct (Z.eqb_spec head NULL) as [En|Hn]; cbn [negb].
    - unfold st2. rewrite !load_store_other by lia. reflexivity.
    - destruct Hw2 as [|Hw2]; [contradiction|].
      unfold st2. rewrite !load_store_other by lia. reflexivity. }
  assert (Hb_apart : forall a, In a (all_nodes classes mini) ->
            mb_block_size <= get_size st a /\ (a + get_size st a <= b \/ b + get_size st b <= a)).
  { intros a Ha. split; [exact (node_size _ _ _ a Hwf Ha)|exact (Hap a Ha)]. }
  assert (Hh_apart : forall a, In a (all_nodes classes mini) -> head <> NULL ->
            a = head \/ a + get_size st a <= head \/ head + 32 <= a).
  { intros a Ha Hn. destruct (Hhead Hn) as (_ & Hall & Hs & _).
    destruct (nodes_apart _ _ _ a head Hwf Ha Hall) as [->|[H|H]];
      [left; reflexivity|right; left; exact H|right; right; lia]. }
  (* headers and [next] words of the nodes are kept *)
  assert (Hhdr : forall a, a = b \/ In a (all_nodes classes mini) ->
            load_word st' a = load_word st a).
  { intros a [->|Ha]; apply Hframe.
    - left. lia.
    - destruct (Z.eq_dec head NULL) as [|Hn]; [left; assumption|right].
      destruct (Hhead Hn) as (_ & _ & Hs & Hapart & _). unfold apart in Hapart. lia.
    - destruct (Hb_apart a Ha) as [Hs H]. unfold mb_block_size in Hs. lia.
    - destruct (Z.eq_dec head NULL) as [|Hn]; [left; assumption|right].
      pose proof (node_size _ _ _ a Hwf Ha) as Hs. unfold mb_block_size in Hs.
      destruct (Hh_apart a Ha Hn) as [->|[H|H]]; lia. }
  assert (Hnext : forall a, In a (all_nodes classes mini) ->
            get_next st' a = get_next st a).
  { intros a Ha. unfold get_next, next_offset. apply Hframe.
    - destruct (Hb_apart a Ha) as [Hs H]. unfold mb_block_size in Hs. lia.
    - destruct (Z.eq_dec head NULL) as [|Hn]; [left; assumption|right].
      pose proof (node_size _ _ _ a Hwf Ha) as Hs. unfold mb_block_size in Hs.
      destruct (Hh_apart a Ha Hn) as [->|[H|H]]; lia. }
  assert (Hprev : forall a, In a (concat classes) -> a <> head ->
            get_prev st' a = get_prev st a).
  { intros a Ha Hne. unfold get_prev, prev_offset.
    pose proof (regular_node_size _ _ _ a Hwf Ha) as Hs.
    assert (Hall : In a (all_nodes classes mini))
      by (apply in_all_nodes; left; exact Ha).
    apply Hframe.
    - destruct (Hb_apart a Hall) as [_ H]. lia.
    - destruct (Z.eq_dec head NULL) as [|Hn]; [left; assumption|right].
      destruct (Hh_apart a Hall Hn) as [|[H|H]]; [contradiction|lia|lia]. }
  assert (Hbn : get_next st' b = head).
  { unfold get_next, next_offset. rewrite E.
    change (load_word (set_class_head st3 c b) (b + 8)) with (load_word st3 (b + 8)).
    assert (H2 : load_word st2 (b + 8) = head).
    { unfold st2. rewrite load_store_other by lia. apply load_store_same.
      destruct (Z.eq_dec head NULL) as [->|Hn]; [unfold NULL, word_modulus; lia|].
      exact (proj2 (proj2 (proj2 (proj2 (Hhead Hn))))). }
    unfold st3. destruct (Z.eqb_spec head NULL) as [En|Hn]; cbn [negb]; [exact H2|].
    destruct (Hhead Hn) as (_ & _ & Hs & Hapart & _). unfold apart in Hapart.
    rewrite load_store_other by lia. exact H2. }
  assert (Hbp : get_prev st' b = NULL).
  { unfold get_prev, prev_offset. rewrite E.
    change (load_word (set_class_head st3 c b) (b + 16)) with (load_word st3 (b + 16)).
    assert (H2 : load_word st2 (b + 16) = NULL).
    { unfold st2. apply load_store_same. unfold NULL, word_modulus. lia. }
    unfold st3. destruct (Z.eqb_spec head NULL) as [En|Hn]; cbn [negb]; [exact H2|].
    destruct (Hhead Hn) as (_ & _ & Hs & Hapart & _). unfold apart in Hapart.
    rewrite load_store_other by lia. exact H2. }
  assert (Hsc3 : size_class st3 = size_class st)
    by (unfold st3; destruct (negb (head =? NULL)); reflexivity).
  assert (Hmh3 : mini_block_head st3 = mini_block_head st)
    by (unfold st3; destruct (negb (head =? NULL)); reflexivity).
  assert (Hheads : length (size_class st') = NUM_CLASSES).
  { rewrite E. unfold set_class_head. cbn [size_class set_size_class].
    rewrite length_list_set, Hsc3. exact (wf_heads _ _ _ Hwf). }
  assert (Hch : class_head st' c = b).
  { rewrite E. unfold class_head, set_class_head. cbn [size_class set_size_class].
    apply nth_list_set_same.
    rewrite Hsc3, (wf_heads _ _ _ Hwf). exact Hc. }
  assert (Hch' : forall c', c <> c' -> class_head st' c' = class_head st c').
  { intros c' Hne. rewrite E. unfold class_head, set_class_head.
    cbn [size_class set_size_class].
    rewrite nth_list_set_other by exact Hne. rewrite Hsc3. reflexivity. }
  assert (Hcl : (c < length classes)%nat) by (rewrite (wf_classes _ _ _ Hwf); exact Hc).
  split; [|split; [exact Hch|split; [exact Hbn|split; [exact Hbp|exact Hframe]]]].
  apply (lists_wf_add st st' classes mini (push_class classes c b) mini b Hwf).
  - apply perm_all_nodes_push. exact Hcl.
  - rewrite length_push_class. exact (wf_classes _ _ _ Hwf).
  - exact Hhdr.
  - exact Hb0.
  - exact Hb1.
  - lia.
  - exact Hap.
  - intros c' a Ha. destruct (Nat.eq_dec c c') as [<-|Hne].
    + rewrite nth_push_class_same in Ha by exact Hcl.
      destruct Ha as [<-|Ha]; [left|right; exact Ha].
      split; [reflexivity|]. split; [unfold min_block_size, dsize, wsize; lia|reflexivity].
    + rewrite nth_push_class_other in Ha by exact Hne. right. exact Ha.
  - intros a Ha. right. exact Ha.
  - exact Hheads.
  - intros c' Hc'. destruct (Nat.eq_dec c c') as [<-|Hne].
    + rewrite Hch, nth_push_class_same by exact Hcl. fold l. split.
      * split; [reflexivity|]. split; [unfold NULL; lia|]. rewrite Hbn.
        apply (is_list_frame st st' l head); [|exact Hl].
        intros a Ha. apply Hnext. exact (in_class_all_nodes classes mini c a Ha).
      * split; [exact Hbp|].
        destruct l as [|h l'] eqn:El; [exact I|].
        cbn [hd] in Hhd. destruct Hl as (_ & Hh0 & _). destruct Hpl as [_ Hpl].
        assert (Hn : head <> NULL) by (rewrite Hhd; exact Hh0).
        destruct (Hhead Hn) as (_ & _ & Hs & Hapart & _). unfold apart in Hapart.
        split.
        -- unfold get_prev, prev_offset. rewrite E.
           change (load_word (set_class_head st3 c b) (h + 16))
             with (load_word st3 (h + 16)).
           unfold st3. destruct (Z.eqb_spec head NULL) as [|_]; [contradiction|].
           cbn [negb]. rewrite Hhd. apply load_store_same. lia.
        -- apply (prev_links_frame st st' l' h); [|exact Hpl].
           intros a Ha. apply Hprev.
           ++ apply (in_nth_concat classes c). fold l. rewrite El. right. exact Ha.
           ++ rewrite Hhd. intros ->.
              pose proof (nodup_concat_nth classes
                            ltac:(exact (NoDup_app_remove_r _ _ (wf_nodup _ _ _ Hwf))) c)
                as Hnd.
              fold l in Hnd. rewrite El in Hnd. inversion Hnd. contradiction.
    + rewrite (Hch' c' Hne), nth_push_class_other by exact Hne.
      destruct (wf_dlist _ _ _ Hwf c' Hc') as [Hl' Hpl']. split.
      * apply (is_list_frame st st' _ _); [|exact Hl'].
        intros a Ha. apply Hnext. exact (in_class_all_nodes classes mini c' a Ha).
      * apply (prev_links_frame st st' _ _); [|exact Hpl'].
        intros a Ha. apply Hprev; [exact (in_nth_concat classes c' a Ha)|].
        intros ->. destruct (Z.eq_dec head NULL) as [En|Hn].
        -- rewrite En in Ha.
           pose proof (node_word _ _ _ _ Hwf (in_class_all_nodes classes mini c' _ Ha))
             as [_ H0]. contradiction.
        -- destruct (Hhead Hn) as (Hin & _).
           exact (nodup_concat_disjoint classes head
                    (NoDup_app_remove_r _ _ (wf_nodup _ _ _ Hwf)) c c' Hne Hin Ha).
  - apply (is_list_frame st st' mini _).
    + intros a Ha. apply Hnext. apply in_all_nodes. right. exact Ha.
    + rewrite E. unfold set_class_head. cbn [mini_block_head set_size_class].
      rewrite Hmh3. exact (wf_mini_list _ _ _ Hwf).
Qed.

(** X9.  [add_to_free_list] puts a regular block [b] that is on no list
    and overlaps no listed block at the head of the list of its size
    class: the lists stay well formed, with [b] in front of the former
    nodes of that class; its [next] is the former head and its [prev] is
    null; and only the two link words of [b] and the [prev] word of the
    former head are written. *)
Theorem X9_add_to_free_list_inserts_at_head :
  forall st classes mini b,
    lists_wf st classes mini ->
    min_block_size <= get_size st b ->
    0 < b -> b + get_size st b <= word_modulus ->
    (forall a, In a (all_nodes classes mini) -> apart st a b) ->
    let c := size_to_class (get_size st b) in
    let st' := add_to_free_list st b in
    lists_wf st' (push_class classes c b) mini /\
    class_head st' c = b /\
    get_next st' b = class_head st c /\
    get_prev st' b = NULL /\
    (forall w,
       w + 8 <= b + 8 \/ b + 24 <= w ->
       class_head st c = NULL \/
       w + 8 <= class_head st c + 16 \/ class_head st c + 24 <= w ->
       load_word st' w = load_word st w).
Proof. exact add_to_free_list_spec. Qed.

Lemma X9_add_to_free_list_inserts_at_head_witness :
  let c := size_to_class (get_size Coalesce.st_freed Coalesce.B) in
  let st' := add_to_free_list Coalesce.st_freed Coalesce.B in
  lists_wf st' (push_class Coalesce.classes c Coalesce.B) [] /\
  class_head st' c = Coalesce.B /\
  get_next st' Coalesce.B = class_head Coalesce.st_freed c /\
  get_prev st' Coalesce.B = NULL /\
  (forall w,
     w + 8 <= Coalesce.B + 8 \/ Coalesce.B + 24 <= w ->
     class_head Coalesce.st_freed c = NULL \/
     w + 8 <= class_head Coalesce.st_freed c + 16 \/
     class_head Coalesce.st_freed c + 24 <= w ->
     load_word st' w = load_word Coalesce.st_freed w).
Proof.
  apply (X9_add_to_free_list_inserts_at_head Coalesce.st_freed Coalesce.classes []
           Coalesce.B coalesce_scenario_lists).
  - vm_compute. congruence.
  - vm_compute. reflexivity.
  - vm_compute. congruence.
  - exact (fb_unlisted _ _ _ _ coalesce_scenario_freed).
Defined.

(** [add_to_mini_list] on a block of 16 bytes that is on no list. *)
Lemma add_to_mini_list_spec :
  forall st classes mini b,
    lists_wf st classes mini ->
    get_size st b = mb_block_size ->
    0 < b -> b + mb_block_size <= word_modulus ->
    (forall a, In a (all_nodes classes mini) -> apart st a b) ->
    let st' := add_to_mini_list st b in
    lists_wf st' classes (b :: mini) /\
    mini_block_head st' = b /\
    get_next st' b = mini_block_head st /\
    (forall w, w + 8 <= b + 8 \/ b + 16 <= w -> load_word st' w = load_word st w).
Proof.
  intros st classes mini b Hwf HS Hb0 Hb1 Hap st'. unfold mb_block_size in *.
  set (head := mini_block_head st).
  pose proof (wf_mini_list _ _ _ Hwf) as Hl. fold head in Hl.
  assert (Hhd : head = hd NULL mini) by exact (is_list_hd st mini head Hl).
  assert (Hhr : 0 <= head < word_modulus).
  { destruct mini as [|h m]; cbn [hd] in Hhd.
    - rewrite Hhd. unfold NULL, word_modulus. lia.
    - rewrite Hhd. apply (node_word st classes (h :: m) h Hwf).
      apply in_all_nodes. right. left. reflexivity. }
  assert (E : st' = set_mini_block_head (store_word st (b + 8) head) b) by reflexivity.
  assert (Hframe : forall w, w + 8 <= b + 8 \/ b + 16 <= w ->
            load_word st' w = load_word st w).
  { intros w Hw. rewrite E.
    change (load_word (set_mini_block_head (store_word st (b + 8) head) b) w)
      with (load_word (store_word st (b + 8) head) w).
    apply load_store_other. lia. }
  assert (Hb_apart : forall a, In a (all_nodes classes mini) ->
            mb_block_size <= get_size st a /\ (a + get_size st a <= b \/ b + 16 <= a)).
  { intros a Ha. split; [exact (node_size _ _ _ a Hwf Ha)|].
    pose proof (Hap a Ha) as H. unfold apart in H. rewrite HS in H. exact H. }
  assert (Hbn : get_next st' b = head).
  { unfold get_next, next_offset. rewrite E.
    change (load_word (set_mini_block_head (store_word st (b + 8) head) b) (b + 8))
      with (load_word (store_word st (b + 8) head) (b + 8)).
    apply load_store_same. exact Hhr. }
  assert (Hword : forall a k, In a (all_nodes classes mini) -> 0 <= k -> k + 8 <= get_size st a ->
            load_word st' (a + k) = load_word st (a + k)).
  { intros a k Ha Hk0 Hk. apply Hframe. destruct (Hb_apart a Ha) as [_ H]. lia. }
  split; [|split; [reflexivity|split; [exact Hbn|exact Hframe]]].
  apply (lists_wf_add st st' classes mini classes (b :: mini) b Hwf).
  - apply perm_all_nodes_mini.
  - exact (wf_classes _ _ _ Hwf).
  - intros a [->|Ha].
    + apply Hframe. left. lia.
    + replace a with (a + 0) by lia. apply Hword; [exact Ha|lia|].
      pose proof (node_size _ _ _ a Hwf Ha) as Hs. unfold mb_block_size in Hs. lia.
  - exact Hb0.
  - lia.
  - lia.
  - exact Hap.
  - intros c a Ha. right. exact Ha.
  - intros a [<-|Ha]; [left; split; [reflexivity|exact HS]|right; exact Ha].
  - exact (wf_heads _ _ _ Hwf).
  - intros c Hc. destruct (wf_dlist _ _ _ Hwf c Hc) as [Hl' Hpl']. split.
    + apply (is_list_frame st st' _ _); [|exact Hl'].
      intros a Ha. unfold get_next, next_offset.
      pose proof (in_class_all_nodes classes mini c a Ha) as Hall.
      apply Hword; [exact Hall|lia|].
      pose proof (node_size _ _ _ a Hwf Hall) as Hs. unfold mb_block_size in Hs. lia.
    + apply (prev_links_frame st st' _ _); [|exact Hpl'].
      intros a Ha. unfold get_prev, prev_offset.
      pose proof (in_class_all_nodes classes mini c a Ha) as Hall.
      apply Hword; [exact Hall|lia|].
      pose proof (proj1 (wf_regular _ _ _ Hwf c a Ha)) as Hs.
      unfold min_block_size, dsize, wsize in Hs. lia.
  - split; [reflexivity|]. split; [unfold NULL; lia|]. rewrite Hbn.
    apply (is_list_frame st st' mini head); [|exact Hl].
    intros a Ha. unfold get_next, next_offset.
    assert (Hall : In a (all_nodes classes mini)) by (apply in_all_nodes; right; exact Ha).
    apply Hword; [exact Hall|lia|].
    pose proof (node_size _ _ _ a Hwf Hall) as Hs. unfold mb_block_size in Hs. lia.
Qed.

(** The scenario of module [MiniBlock]: well-formed lists before and after
    the freed mini block is put on the mini list. *)
Lemma mini_scenario_lists : lists_wf MiniBlock.st_freed MiniBlock.classes [].
Proof.
  assert (Hnodes : all_nodes MiniBlock.classes [] = [65560]) by reflexivity.
  constructor.
  - vm_compute. reflexivity.
  - reflexivity.
  - intros c Hc.
    do 15 (destruct c as [|c]; [vm_compute; repeat split; congruence|]).
    unfold NUM_CLASSES in Hc. lia.
  - vm_compute. reflexivity.
  - intros c a Ha.
    do 15 (destruct c as [|c];
           [cbn in Ha; repeat (destruct Ha as [<-|Ha]; [vm_compute; split; congruence|]);
            destruct Ha|]).
    destruct c; destruct Ha.
  - intros a [].
  - intros a Ha. rewrite Hnodes in Ha.
    repeat (destruct Ha as [<-|Ha]; [vm_compute; split; congruence|]). destruct Ha.
  - rewrite Hnodes. repeat constructor; cbn; intuition congruence.
  - intros a b Ha Hb Hab. rewrite Hnodes in Ha, Hb.
    destruct Ha as [<-|[]]. destruct Hb as [<-|[]]. contradiction.
Qed.

Lemma mini_scenario_apart :
  forall a, In a (all_nodes MiniBlock.classes []) ->
            apart MiniBlock.st_freed a MiniBlock.B.
Proof.
  intros a Ha. change (all_nodes MiniBlock.classes []) with [65560] in Ha.
  destruct Ha as [<-|[]]. right. vm_compute. congruence.
Qed.

Lemma mini_scenario_listed :
  lists_wf MiniBlock.st_listed MiniBlock.classes [MiniBlock.B].
Proof.
  apply (add_to_mini_list_spec MiniBlock.st_freed MiniBlock.classes [] MiniBlock.B
           mini_scenario_lists).
  - vm_compute. reflexivity.
  - vm_compute. reflexivity.
  - vm_compute. congruence.
  - exact mini_scenario_apart.
Qed.

(** X10.  [add_to_mini_list] puts a block [b] of 16 bytes that is on no
    list and overlaps no listed block at the head of the mini list: the
    lists stay well formed with [b] in front of the former mini nodes, its
    [next] is the former head, and only the [next] word of [b] is
    written. *)
Theorem X10_add_to_mini_list_inserts_at_head :
  forall st classes mini b,
    lists_wf st classes mini ->
    get_size st b = mb_block_size ->
    0 < b -> b + mb_block_size <= word_modulus ->
    (forall a, In a (all_nodes classes mini) -> apart st a b) ->
    let st' := add_to_mini_list st b in
    lists_wf st' classes (b :: mini) /\
    mini_block_head st' = b /\
    get_next st' b = mini_block_head st /\
    (forall w, w + 8 <= b + 8 \/ b + 16 <= w -> load_word st' w = load_word st w).
Proof. exact add_to_mini_list_spec. Qed.

Lemma X10_add_to_mini_list_inserts_at_head_witness :
  let st' := add_to_mini_list MiniBlock.st_freed MiniBlock.B in
  lists_wf st' MiniBlock.classes [MiniBlock.B] /\
  mini_block_head st' = MiniBlock.B /\
  get_next st' MiniBlock.B = mini_block_head MiniBlock.st_freed /\
  (forall w, w + 8 <= MiniBlock.B + 8 \/ MiniBlock.B + 16 <= w ->
     load_word st' w = load_word MiniBlock.st_freed w).
Proof.
  apply (X10_add_to_mini_list_inserts_at_head MiniBlock.st_freed MiniBlock.classes []
           MiniBlock.B mini_scenario_lists).
  - vm_compute. reflexivity.
  - vm_compute. reflexivity.
  - vm_compute. congruence.
  - exact mini_scenario_apart.
Defined.

(** ** Removal from the free lists *)

Lemma not_in_without x (l : list Z) : ~ In x (without x l).
Proof. intros H. apply in_without in H. destruct H as [_ H]. congruence. Qed.

Lemma links_only_headers st st' classes mini :
  lists_wf st classes mini -> links_only st st' classes mini ->
  forall a, In a (all_nodes classes mini) -> header st' a = header st a.
Proof.
  intros Hwf Hlo a Ha.
  exact (links_only_header st st' classes mini a Hlo
           (node_outside_payloads _ _ _ a Hwf Ha)).
Qed.

(** X11.  [rem_from_free_list] on a node [x] of a size-class list unlinks
    it: the lists stay well formed and are the former lists without [x];
    the header of every listed block is kept; and only words inside the
    payloads of listed blocks (their link words) are written. *)
Theorem X11_rem_from_free_list_unlinks :
  forall st classes mini x,
    lists_wf st classes mini ->
    In x (concat classes) ->
    let st' := rem_from_free_list st x in
    lists_wf st' (map (without x) classes) (without x mini) /\
    ~ In x (all_nodes (map (without x) classes) (without x mini)) /\
    (forall a, In a (all_nodes classes mini) -> header st' a = header st a) /\
    (forall w,
       (forall a, In a (all_nodes classes mini) -> w <= a \/ a + get_size st a <= w) ->
       load_word st' w = load_word st w).
Proof.
  intros st classes mini x Hwf Hx st'.
  destruct (in_concat_nth classes x Hx) as (c & Hc & Hin).
  rewrite (wf_classes _ _ _ Hwf) in Hc.
  destruct (rem_from_free_list_spec st classes mini c x Hwf Hc Hin) as [W L].
  split; [exact W|].
  split; [rewrite all_nodes_without; apply not_in_without|].
  split; [exact (links_only_headers st st' classes mini Hwf L)|exact L].
Qed.

Lemma X11_rem_from_free_list_unlinks_witness :
  let st' := rem_from_free_list Coalesce.st_freed 65672 in
  lists_wf st' (map (without 65672) Coalesce.classes) (without 65672 []) /\
  ~ In 65672 (all_nodes (map (without 65672) Coalesce.classes) (without 65672 [])) /\
  (forall a, In a (all_nodes Coalesce.classes []) ->
     header st' a = header Coalesce.st_freed a) /\
  (forall w,
     (forall a, In a (all_nodes Coalesce.classes []) ->
        w <= a \/ a + get_size Coalesce.st_freed a <= w) ->
     load_word st' w = load_word Coalesce.st_freed w).
Proof.
  apply (X11_rem_from_free_list_unlinks Coalesce.st_freed Coalesce.classes [] 65672
           coalesce_scenario_lists).
  cbn. left. reflexivity.
Defined.

(** X12.  [rem_from_mini_list] on a node [x] of the mini list, given fuel
    for the search, unlinks it: the lists stay well formed and are the
    former lists without [x]; the header of every listed block is kept;
    and only words inside the payloads of listed blocks are written. *)
Theorem X12_rem_from_mini_list_unlinks :
  forall fuel st classes mini x,
    lists_wf st classes mini ->
    In x mini -> (length mini <= fuel)%nat ->
    exists st',
      rem_from_mini_list fuel st x = Some st' /\
      lists_wf st' (map (without x) classes) (without x mini) /\
      ~ In x (all_nodes (map (without x) classes) (without x mini)) /\
      (forall a, In a (all_nodes classes mini) -> header st' a = header st a) /\
      (forall w,
         (forall a, In a (all_nodes classes mini) -> w <= a \/ a + get_size st a <= w) ->
         load_word st' w = load_word st w).
Proof.
  intros fuel st classes mini x Hwf Hx Hfuel.
  destruct (rem_from_mini_list_spec fuel st classes mini x Hwf Hx Hfuel)
    as (st' & E & W & L).
  exists st'. split; [exact E|]. split; [exact W|].
  split; [rewrite all_nodes_without; apply not_in_without|].
  split; [exact (links_only_headers st st' classes mini Hwf L)|exact L].
Qed.

Lemma X12_rem_from_mini_list_unlinks_witness :
  exists st',
    rem_from_mini_list run_fuel MiniBlock.st_listed MiniBlock.B = Some st' /\
    lists_wf st' (map (without MiniBlock.B) MiniBlock.classes)
      (without MiniBlock.B [MiniBlock.B]) /\
    ~ In MiniBlock.B
        (all_nodes (map (without MiniBlock.B) MiniBlock.classes)
           (without MiniBlock.B [MiniBlock.B])) /\
    (forall a, In a (all_nodes MiniBlock.classes [MiniBlock.B]) ->
       header st' a = header MiniBlock.st_listed a) /\
    (forall w,
       (forall a, In a (all_nodes MiniBlock.classes [MiniBlock.B]) ->
          w <= a \/ a + get_size MiniBlock.st_listed a <= w) ->
       load_word st' w = load_word MiniBlock.st_listed w).
Proof.
  apply (X12_rem_from_mini_list_unlinks run_fuel MiniBlock.st_listed MiniBlock.classes
           [MiniBlock.B] MiniBlock.B mini_scenario_listed).
  - left. reflexivity.
  - unfold run_fuel. cbn. lia.
Defined.

Lemma mini_list_seek_absent st x :
  forall l current fuel,
    is_list st current l -> ~ In x l -> x <> NULL -> (length l < fuel)%nat ->
    mini_list_seek fuel st x current = Some NULL.
Proof.
  induction l as [|a l IH]; intros current fuel Hl Hx Hn Hfuel;
    (destruct fuel as [|fuel]; [cbn in Hfuel; lia|]); cbn [mini_list_seek].
  - cbn in Hl. subst current. reflexivity.
  - destruct Hl as (-> & Ha & Hl).
    destruct (Z.eqb_spec a NULL) as [|_]; [contradiction|]. cbn [negb andb].
    pose proof (is_list_hd st _ _ Hl) as Hh.
    destruct (Z.eqb_spec (get_next st a) x) as [E|_].
    + exfalso. destruct l as [|b l]; cbn [hd] in Hh.
      * congruence.
      * apply Hx. right. left. congruence.
    + cbn [negb]. apply (IH _ fuel Hl).
      * intros H. apply Hx. right. exact H.
      * exact Hn.
      * cbn in Hfuel. lia.
Qed.

(** X13.  [rem_from_mini_list] on a non-null block that is not on the mini
    list walks the whole list and changes nothing. *)
Theorem X13_rem_from_mini_list_absent :
  forall fuel st mini x,
    is_list st (mini_block_head st) mini ->
    ~ In x mini -> x <> NULL -> (length mini < fuel)%nat ->
    rem_from_mini_list fuel st x = Some st.
Proof.
  intros fuel st mini x Hl Hx Hn Hfuel. unfold rem_from_mini_list.
  destruct (Z.eqb_spec x (mini_block_head st)) as [E|_].
  - exfalso. pose proof (is_list_hd st _ _ Hl) as Hh.
    destruct mini as [|a m]; cbn [hd] in Hh.
    + congruence.
    + apply Hx. left. congruence.
  - rewrite (mini_list_seek_absent st x mini _ fuel Hl Hx Hn Hfuel). reflexivity.
Qed.

Lemma X13_rem_from_mini_list_absent_witness :
  rem_from_mini_list run_fuel MiniBlock.st_listed 65560 = Some MiniBlock.st_listed.
Proof.
  apply (X13_rem_from_mini_list_absent run_fuel MiniBlock.st_listed [MiniBlock.B] 65560).
  - exact (wf_mini_list _ _ _ mini_scenario_listed).
  - intros [H|[]]. vm_compute in H. congruence.
  - unfold NULL. lia.
  - unfold run_fuel. cbn. lia.
Defined.

(** ** Insertion followed by removal *)

Lemma load64_zero_bytes m p a :
  load64 m p = 0 -> p <= a < p + 8 -> load8 m a = 0.
Proof.
  intros H Ha. unfold load64 in H.
  pose proof (load8_range m p). pose proof (load8_range m (p + 1)).
  pose proof (load8_range m (p + 2)). pose proof (load8_range m (p + 3)).
  pose proof (load8_range m (p + 4)). pose proof (load8_range m (p + 5)).
  pose proof (load8_range m (p + 6)). pose proof (load8_range m (p + 7)).
  assert (Hc : a = p \/ a = p + 1 \/ a = p + 2 \/ a = p + 3 \/ a = p + 4 \/
               a = p + 5 \/ a = p + 6 \/ a = p + 7) by lia.
  repeat (destruct Hc as [->|Hc]; [lia|]). subst a. lia.
Qed.

Lemma load8_store_word st p v a :
  load8 (mem (store_word st p v)) a
  = if (p <=? a) && (a <? p + 8) then byte_of v (a - p) else load8 (mem st) a.
Proof.
  unfold store_word. cbn [mem set_mem]. unfold load8 at 1. unfold store64.
  destruct ((p <=? a) && (a <? p + 8)); [|reflexivity].
  unfold byte_of. apply Z.mod_mod. lia.
Qed.

Lemma load_word_bytes st st' w :
  (forall a, w <= a < w + 8 -> load8 (mem st') a = load8 (mem st) a) ->
  load_word st' w = load_word st w.
Proof.
  intros H. unfold load_word, load64.
  rewrite (H w), (H (w + 1)), (H (w + 2)), (H (w + 3)), (H (w + 4)),
    (H (w + 5)), (H (w + 6)), (H (w + 7)) by lia.
  reflexivity.
Qed.

Lemma list_set_twice l i v w : list_set (list_set l i v) i w = list_set l i w.
Proof.
  revert i. induction l as [|h t IH]; intros i; [reflexivity|].
  destruct i; cbn; [reflexivity|]. rewrite IH. reflexivity.
Qed.

Lemma list_set_nth l i : list_set l i (nth i l NULL) = l.
Proof.
  revert i. induction l as [|h t IH]; intros i; [reflexivity|].
  destruct i; cbn; [reflexivity|]. rewrite IH. reflexivity.
Qed.

Lemma add_to_free_list_eq st b :
  add_to_free_list st b
  = let c := size_to_class (get_size st b) in
    let head := class_head st c in
    let st2 := store_word (store_word st (b + 8) head) (b + 16) NULL in
    set_class_head
      (if negb (head =? NULL) then store_word st2 (head + 16) b else st2) c b.
Proof.
  unfold add_to_free_list. cbv zeta.
  unfold set_next, set_prev, next_offset, prev_offset.
  rewrite !class_head_store_word. reflexivity.
Qed.

(** X14.  Putting a regular block [b] on its size-class list with
    [add_to_free_list] and taking it off again with [rem_from_free_list]
    restores the list heads, and every byte outside the two link words of
    [b]; the lists are well formed as before. *)
Theorem X14_add_then_remove_restores_lists :
  forall st classes mini b,
    lists_wf st classes mini ->
    min_block_size <= get_size st b ->
    0 < b -> b + get_size st b <= word_modulus ->
    (forall a, In a (all_nodes classes mini) -> apart st a b) ->
    let st'' := rem_from_free_list (add_to_free_list st b) b in
    size_class st'' = size_class st /\
    mini_block_head st'' = mini_block_head st /\
    (forall a, a < b + 8 \/ b + 24 <= a -> load8 (mem st'') a = load8 (mem st) a) /\
    lists_wf st'' classes mini.
Proof.
  intros st classes mini b Hwf HS Hb0 Hb1 Hap st''.
  destruct (add_to_free_list_spec st classes mini b Hwf HS Hb0 Hb1 Hap)
    as (W' & Hch & Hbn & Hbp & _).
  unfold min_block_size, dsize, wsize in HS.
  set (c := size_to_class (get_size st b)) in *.
  set (head := class_head st c) in *.
  assert (Hc : (c < NUM_CLASSES)%nat) by apply size_to_class_lt.
  assert (Hcl : (c < length classes)%nat) by (rewrite (wf_classes _ _ _ Hwf); exact Hc).
  assert (Hclass : size_to_class (get_size (add_to_free_list st b) b) = c).
  { apply (wf_regular _ _ _ W' c b). rewrite nth_push_class_same by exact Hcl.
    left. reflexivity. }
  destruct (wf_dlist _ _ _ Hwf c Hc) as [Hl Hpl]. fold head in Hl.
  pose proof (is_list_hd st _ _ Hl) as Hhd.
  (* the state in closed form *)
  set (st2 := store_word (store_word st (b + 8) head) (b + 16) NULL).
  assert (E : st'' = if head =? NULL
                     then set_class_head (set_class_head st2 c b) c NULL
                     else set_class_head
                            (store_word
                               (set_class_head (store_word st2 (head + 16) b) c b)
                               (head + 16) NULL) c head).
  { unfold st'', rem_from_free_list. rewrite Hbn, Hbp, Hclass.
    change (NULL =? NULL) with true. cbn [negb andb].
    rewrite add_to_free_list_eq. cbv zeta. fold c head st2.
    destruct (head =? NULL); reflexivity. }
  assert (Hsc : size_class st'' = size_class st).
  { rewrite E. destruct (Z.eqb_spec head NULL) as [En|Hn];
      unfold set_class_head; cbn [size_class set_size_class store_word set_mem];
      rewrite list_set_twice.
    - rewrite <- En. apply list_set_nth.
    - apply list_set_nth. }
  assert (Hmh : mini_block_head st'' = mini_block_head st).
  { rewrite E. destruct (head =? NULL); reflexivity. }
  assert (Hbytes : forall a, a < b + 8 \/ b + 24 <= a ->
            load8 (mem st'') a = load8 (mem st) a).
  { intros a Ha.
    assert (H2 : load8 (mem st2) a = load8 (mem st) a).
    { unfold st2. rewrite !load8_store_word.
      destruct (Z.leb_spec (b + 16) a), (Z.ltb_spec a (b + 16 + 8));
        destruct (Z.leb_spec (b + 8) a), (Z.ltb_spec a (b + 8 + 8));
        cbn [andb]; try reflexivity; lia. }
    rewrite E. destruct (Z.eqb_spec head NULL) as [En|Hn].
    - exact H2.
    - change (load8 (mem (store_word (store_word st2 (head + 16) b) (head + 16) NULL)) a
              = load8 (mem st) a).
      rewrite !load8_store_word.
      destruct (Z.leb_spec (head + 16) a), (Z.ltb_spec a (head + 16 + 8));
        cbn [andb]; try exact H2.
      unfold byte_of, NULL. rewrite Z.div_0_l, Z.mod_0_l by lia.
      symmetry. apply (load64_zero_bytes _ (head + 16)); [|lia].
      destruct (nth c classes []) as [|h l'] eqn:El; cbn [hd] in Hhd; [contradiction|].
      destruct Hpl as [Hp _]. rewrite Hhd. exact Hp. }
  split; [exact Hsc|]. split; [exact Hmh|]. split; [exact Hbytes|].
  assert (Hword : forall a k, In a (all_nodes classes mini) -> 0 <= k ->
            k + 8 <= get_size st a -> load_word st'' (a + k) = load_word st (a + k)).
  { intros a k Ha Hk0 Hk. apply load_word_bytes. intros x Hx. apply Hbytes.
    pose proof (Hap a Ha) as H. unfold apart in H. lia. }
  apply (lists_wf_frame st st'' classes mini Hwf Hsc Hmh).
  - intros a Ha. pose proof (node_size _ _ _ a Hwf Ha) as Hs. unfold mb_block_size in Hs.
    split.
    + replace a with (a + 0) by lia. apply Hword; [exact Ha|lia|lia].
    + unfold next_offset. apply Hword; [exact Ha|lia|lia].
  - intros a Ha. pose proof (regular_node_size _ _ _ a Hwf Ha) as Hs.
    unfold prev_offset. apply Hword; [apply in_all_nodes; left; exact Ha|lia|lia].
Qed.

Lemma X14_add_then_remove_restores_lists_witness :
  let st'' := rem_from_free_list (add_to_free_list Coalesce.st_freed Coalesce.B)
                Coalesce.B in
  size_class st'' = size_class Coalesce.st_freed /\
  mini_block_head st'' = mini_block_head Coalesce.st_freed /\
  (forall a, a < Coalesce.B + 8 \/ Coalesce.B + 24 <= a ->
     load8 (mem st'') a = load8 (mem Coalesce.st_freed) a) /\
  lists_wf st'' Coalesce.classes [].
Proof.
  apply (X14_add_then_remove_restores_lists Coalesce.st_freed Coalesce.classes []
           Coalesce.B coalesce_scenario_lists).
  - vm_compute. congruence.
  - vm_compute. reflexivity.
  - vm_compute. congruence.
  - exact (fb_unlisted _ _ _ _ coalesce_scenario_freed).
Defined.

(** X15.  Putting a block [b] of 16 bytes on the mini list with
    [add_to_mini_list] and taking it off again with [rem_from_mini_list]
    restores the head of the mini list and every word that does not
    overlap the [next] word of [b]; the lists are well formed as before. *)
Theorem X15_add_then_remove_restores_mini_list :
  forall fuel st classes mini b,
    lists_wf st classes mini ->
    get_size st b = mb_block_size ->
    0 < b -> b + mb_block_size <= word_modulus ->
    (forall a, In a (all_nodes classes mini) -> apart st a b) ->
    exists st'',
      rem_from_mini_list fuel (add_to_mini_list st b) b = Some st'' /\
      size_class st'' = size_class st /\
      mini_block_head st'' = mini_block_head st /\
      (forall w, w + 8 <= b + 8 \/ b + 16 <= w -> load_word st'' w = load_word st w) /\
      lists_wf st'' classes mini.
Proof.
  intros fuel st classes mini b Hwf HS Hb0 Hb1 Hap.
  destruct (add_to_mini_list_spec st classes mini b Hwf HS Hb0 Hb1 Hap)
    as (W' & Hmh & Hbn & Hframe).
  unfold rem_from_mini_list. rewrite Hmh, Z.eqb_refl, Hbn.
  eexists. split; [reflexivity|].
  split; [reflexivity|]. split; [reflexivity|]. split; [exact Hframe|].
  assert (Hword : forall a k, In a (all_nodes classes mini) -> 0 <= k ->
            k + 8 <= get_size st a ->
            load_word (add_to_mini_list st b) (a + k) = load_word st (a + k)).
  { intros a k Ha Hk0 Hk. apply Hframe.
    pose proof (Hap a Ha) as H. unfold apart in H. rewrite HS in H.
    unfold mb_block_size in *. lia. }
  apply (lists_wf_frame st _ classes mini Hwf); try reflexivity.
  - intros a Ha. pose proof (node_size _ _ _ a Hwf Ha) as Hs. unfold mb_block_size in Hs.
    split.
    + replace a with (a + 0) by lia. apply Hword; [exact Ha|lia|lia].
    + unfold next_offset. apply Hword; [exact Ha|lia|lia].
  - intros a Ha. pose proof (regular_node_size _ _ _ a Hwf Ha) as Hs.
    unfold prev_offset. apply Hword; [apply in_all_nodes; left; exact Ha|lia|lia].
Qed.

Lemma X15_add_then_remove_restores_mini_list_witness :
  exists st'',
    rem_from_mini_list run_fuel (add_to_mini_list MiniBlock.st_freed MiniBlock.B)
      MiniBlock.B = Some st'' /\
    size_class st'' = size_class MiniBlock.st_freed /\
    mini_block_head st'' = mini_block_head MiniBlock.st_freed /\
    (forall w, w + 8 <= MiniBlock.B + 8 \/ MiniBlock.B + 16 <= w ->
       load_word st'' w = load_word MiniBlock.st_freed w) /\
    lists_wf st'' MiniBlock.classes [].
Proof.
  apply (X15_add_then_remove_restores_mini_list run_fuel MiniBlock.st_freed
           MiniBlock.classes [] MiniBlock.B mini_scenario_lists).
  - vm_compute. reflexivity.
  - vm_compute. reflexivity.
  - vm_compute. congruence.
  - exact mini_scenario_apart.
Defined.

(** ** Splitting a block *)

Lemma class_head_node st classes mini c :
  lists_wf st classes mini -> (c < NUM_CLASSES)%nat ->
  class_head st c = NULL \/ In (class_head st c) (nth c classes []).
Proof.
  intros Hwf Hc. destruct (wf_dlist _ _ _ Hwf c Hc) as [Hl _].
  pose proof (is_list_hd st _ _ Hl) as Hh.
  destruct (nth c classes []) as [|h l]; cbn [hd] in Hh;
    [left; exact Hh|right; left; congruence].
Qed.

(** [add_to_free_list] writes only link words: inside [b] and inside the
    former head of its class. *)
Lemma add_to_free_list_frame st classes mini b w :
  lists_wf st classes mini ->
  w + 8 <= b + 8 \/ b + 24 <= w ->
  outside_payloads st classes mini w ->
  load_word (add_to_free_list st b) w = load_word st w.
Proof.
  intros Hwf Hb Hout. rewrite add_to_free_list_eq. cbv zeta.
  set (c := size_to_class (get_size st b)). set (head := class_head st c).
  change (load_word (set_class_head ?s c b) w) with (load_word s w).
  destruct (Z.eqb_spec head NULL) as [En|Hn]; cbn [negb].
  - rewrite !load_store_other by lia. reflexivity.
  - destruct (class_head_node st classes mini c Hwf (size_to_class_lt _)) as [|Hin];
      [contradiction|]. fold head in Hin.
    pose proof (proj1 (wf_regular _ _ _ Hwf c head Hin)) as Hs.
    unfold min_block_size, dsize, wsize in Hs.
    pose proof (Hout head (in_class_all_nodes classes mini c head Hin)) as H.
    rewrite !load_store_other by lia. reflexivity.
Qed.

Lemma is_size_sub a b : is_size a -> is_size b -> b <= a -> is_size (a - b).
Proof.
  intros [Ha Hma] [Hb Hmb] Hle. split; [lia|].
  Z.div_mod_to_equations. lia.
Qed.

(** The two flag updates that follow a split or an allocation, on an
    allocated block [F]: both are stores to its header. *)
Lemma flags_allocated st F (v1 v2 : bool) :
  get_alloc st F = true ->
  let s1 := if v1 then set_prev_alloc st F else clear_prev_alloc st F in
  let st' := if v2 then set_prev_mini s1 F else clear_prev_mini s1 F in
  exists h1 h2,
    st' = store_word (store_word st F h1) F h2 /\
    get_alloc st' F = true /\
    get_prev_alloc st' F = v1 /\
    get_prev_mini st' F = v2 /\
    get_size st' F = get_size st F.
Proof.
  intros Ha s1 st'.
  set (h1 := if v1 then Z.lor (header st F) prev_alloc_mask
             else Z.land (header st F) (wnot prev_alloc_mask)).
  assert (E1 : s1 = store_word st F h1) by (unfold s1, h1; destruct v1; reflexivity).
  assert (Hr1 : 0 <= h1 < word_modulus).
  { unfold h1. destruct v1.
    - apply lor_word; [apply header_range|vm_compute; split; congruence].
    - apply land_word. vm_compute. split; congruence. }
  assert (Hh1 : header s1 F = h1) by (rewrite E1; apply header_store_same; exact Hr1).
  assert (B0 : Z.testbit h1 0 = true).
  { unfold h1. destruct v1; rewrite ?Z.lor_spec, ?Z.land_spec, <- get_alloc_bit, Ha;
      reflexivity. }
  assert (B1 : Z.testbit h1 1 = v1).
  { unfold h1. destruct v1; rewrite ?Z.lor_spec, ?Z.land_spec.
    - apply orb_true_r.
    - apply andb_false_r. }
  assert (Sz1 : extract_size h1 = get_size st F).
  { unfold h1. destruct v1.
    - apply extract_size_lor. reflexivity.
    - apply extract_size_land. reflexivity. }
  assert (Ha1 : get_alloc s1 F = true) by (rewrite get_alloc_bit, Hh1; exact B0).
  set (h2 := if v2 then Z.lor h1 prev_mini_mask else Z.land h1 (wnot prev_mini_mask)).
  assert (E2 : st' = store_word s1 F h2).
  { unfold st', h2. destruct v2.
    - rewrite (set_prev_mini_allocated s1 F Ha1), Hh1. reflexivity.
    - rewrite (clear_prev_mini_allocated s1 F Ha1), Hh1. reflexivity. }
  assert (Hr2 : 0 <= h2 < word_modulus).
  { unfold h2. destruct v2.
    - apply lor_word; [exact Hr1|vm_compute; split; congruence].
    - apply land_word. vm_compute. split; congruence. }
  assert (Hh2 : header st' F = h2) by (rewrite E2; apply header_store_same; exact Hr2).
  exists h1, h2. split; [rewrite E2, E1; reflexivity|].
  rewrite get_alloc_bit, get_prev_alloc_bit, get_prev_mini_bit.
  unfold get_size at 1. rewrite Hh2. unfold h2.
  destruct v2; rewrite ?Z.lor_spec, ?Z.land_spec, B0, B1.
  - rewrite (extract_size_lor h1 prev_mini_mask) by reflexivity.
    repeat split; try exact Sz1; [apply orb_false_r|apply orb_true_r].
  - rewrite (extract_size_land h1 (wnot prev_mini_mask)) by reflexivity.
    repeat split; try exact Sz1; [apply andb_true_r|apply andb_false_r].
Qed.

(** [split_block] with the two outer branches folded into one: they
    differ in the [prev_mini] flag given to the remainder, and in the last
    call of the branch that does not split. *)
Lemma split_block_eq st block asize :
  split_block st block asize
  = let block_size := get_size st block in
    let remainder := wrap (block_size - asize) in
    let pm := asize =? mb_block_size in
    if remainder >=? min_block_size then
      let st := write_block st block asize true
                  (get_prev_alloc st block) (get_prev_mini st block) in
      let block_next := find_next st block in
      let st := write_block st block_next remainder false true pm in
      let st := add_to_free_list st block_next in
      let st := clear_prev_alloc st (find_next st block_next) in
      clear_prev_mini st (find_next st block_next)
    else if remainder =? mb_block_size then
      let st := write_block st block asize true
                  (get_prev_alloc st block) (get_prev_mini st block) in
      let block_next := find_next st block in
      let st := write_block st block_next mb_block_size false true pm in
      let st := add_to_mini_list st block_next in
      let st := clear_prev_alloc st (find_next st block_next) in
      set_prev_mini st (find_next st block_next)
    else
      let st := write_block st block block_size true
                  (get_prev_alloc st block) (get_prev_mini st block) in
      let st := set_prev_alloc st (find_next st block) in
      if pm then set_prev_mini st (find_next st block)
      else clear_prev_mini st (find_next st block).
Proof.
  unfold split_block. cbv zeta.
  destruct (Z.eqb_spec asize mb_block_size) as [->|Hne]; reflexivity.
Qed.

Lemma header_pack_flags st b sz a pa pm :
  is_size sz -> header st b = pack sz a pa pm ->
  get_size st b = sz /\ get_alloc st b = a /\
  get_prev_alloc st b = pa /\ get_prev_mini st b = pm.
Proof.
  intros Hs Hh. rewrite get_alloc_bit, get_prev_alloc_bit, get_prev_mini_bit.
  unfold get_size. rewrite Hh.
  split; [apply extract_size_pack; exact Hs|].
  split; [apply pack_bit0; exact Hs|].
  split; [apply pack_bit1; exact Hs|apply pack_bit2; exact Hs].
Qed.

Lemma write_block_allocated st b sz pa pm :
  write_block st b sz true pa pm = store_word st b (pack sz true pa pm).
Proof. reflexivity. Qed.

Lemma write_block_free_mini st b pa pm :
  write_block st b mb_block_size false pa pm
  = store_word st b (pack mb_block_size false pa pm).
Proof. reflexivity. Qed.

Section Split.
Variables (st : State) (classes : list (list Z)) (mini : list Z) (B asize : Z).
Hypothesis Hwf : lists_wf st classes mini.
Hypothesis Hap : forall a, In a (all_nodes classes mini) -> apart st a B.
Hypothesis HB0 : 0 < B.
Hypothesis HS : min_block_size <= get_size st B.
Hypothesis HF : allocated_header st classes mini (B + get_size st B).
Hypothesis Has : is_size asize.
Hypothesis Hlo : mb_block_size <= asize.
Hypothesis Hhi : asize <= get_size st B.

Local Abbreviation S := (get_size st B).
Local Abbreviation F := (B + get_size st B).
Local Abbreviation R := (B + asize).
Local Abbreviation pa := (get_prev_alloc st B).
Local Abbreviation pm := (get_prev_mini st B).

Lemma split_node a :
  In a (all_nodes classes mini) ->
  16 <= get_size st a /\
  (a + get_size st a <= B \/ F <= a) /\
  (F + 8 <= a \/ a + get_size st a <= F).
Proof.
  intros Ha. split; [exact (node_size _ _ _ a Hwf Ha)|].
  split; [exact (Hap a Ha)|]. exact (proj2 (proj2 HF) a Ha).
Qed.

Lemma split_range : 32 <= S /\ F + 8 <= word_modulus /\ 16 <= asize.
Proof.
  unfold min_block_size, dsize, wsize, mb_block_size in *.
  destruct HF as (_ & H & _). unfold wsize in H. lia.
Qed.

(** The first statement of every branch: the header of [B] is rewritten
    as allocated with size [sz]. *)
Lemma split_first sz :
  is_size sz -> sz <= S ->
  let s1 := write_block st B sz true pa pm in
  s1 = store_word st B (pack sz true pa pm) /\
  lists_wf s1 classes mini /\
  (forall a, In a (all_nodes classes mini) -> get_size s1 a = get_size st a) /\
  header s1 B = pack sz true pa pm /\
  find_next s1 B = B + sz.
Proof.
  intros Hsz Hle s1. destruct split_range as (H32 & HFr & H16).
  assert (E : s1 = store_word st B (pack sz true pa pm)) by reflexivity.
  destruct (store_outside st classes mini B (pack sz true pa pm) Hwf) as [W1 S1].
  { intros a Ha. destruct (split_node a Ha) as (Hs & H & _).
    unfold word_outside, wsize. lia. }
  assert (Hh : header s1 B = pack sz true pa pm).
  { rewrite E. apply header_store_same, pack_word. exact (proj1 Hsz). }
  split; [exact E|]. split; [rewrite E; exact W1|]. split; [rewrite E; exact S1|].
  split; [exact Hh|].
  unfold find_next. rewrite (proj1 (header_pack_flags s1 B sz _ _ _ Hsz Hh)).
  apply wrap_small. destruct Hsz as [[H0 _] _]. lia.
Qed.

(** The block is not split. *)
Lemma split_none (v : bool) :
  let s1 := write_block st B S true pa pm in
  let s2 := set_prev_alloc s1 (find_next s1 B) in
  let st' := if v then set_prev_mini s2 (find_next s2 B)
             else clear_prev_mini s2 (find_next s2 B) in
  header st' B = pack S true pa pm /\
  lists_wf st' classes mini /\
  get_alloc st' F = true /\ get_prev_alloc st' F = true /\
  get_prev_mini st' F = v /\ get_size st' F = get_size st F.
Proof.
  intros s1 s2 st'. destruct split_range as (H32 & HFr & H16).
  destruct (split_first S (get_size_is_size st B) ltac:(lia))
    as (E1 & W1 & S1 & Hh1 & Hn1). fold s1 in E1, W1, S1, Hh1, Hn1.
  assert (HF1 : header s1 F = header st F).
  { rewrite E1. unfold header. apply load_store_other. lia. }
  assert (Ha1 : get_alloc s1 F = true).
  { rewrite get_alloc_bit, HF1, <- get_alloc_bit. exact (proj1 HF). }
  assert (Hn2 : find_next s2 B = F).
  { unfold find_next, get_size, s2, set_prev_alloc, set_header, header.
    rewrite Hn1. rewrite load_store_other by lia. fold (header s1 B).
    fold (get_size s1 B). exact Hn1. }
  unfold st'. rewrite Hn2. unfold s2. rewrite Hn1.
  destruct (flags_allocated s1 F true v Ha1) as (h1 & h2 & E & Hfa & Hfpa & Hfpm & Hfs).
  cbv zeta in E, Hfa, Hfpa, Hfpm, Hfs. cbn [negb] in *.
  rewrite E in *.
  split.
  { unfold header. rewrite !load_store_other by lia. exact Hh1. }
  split.
  { destruct (store_outside s1 classes mini F h1 W1) as [W2 S2].
    { intros a Ha. unfold word_outside. rewrite (S1 a Ha).
      exact (proj2 (proj2 HF) a Ha). }
    apply (store_outside _ classes mini F h2 W2).
    intros a Ha. unfold word_outside. rewrite (S2 a Ha), (S1 a Ha).
    exact (proj2 (proj2 HF) a Ha). }
  split; [exact Hfa|]. split; [exact Hfpa|]. split; [exact Hfpm|].
  rewrite Hfs. exact (proj1 (header_flags st s1 _ HF1)).
Qed.

(** The remainder is a mini block. *)
Lemma split_mini (v : bool) :
  S - asize = 16 ->
  let s1 := write_block st B asize true pa pm in
  let block_next := find_next s1 B in
  let s2 := write_block s1 block_next mb_block_size false true v in
  let s3 := add_to_mini_list s2 block_next in
  let s4 := clear_prev_alloc s3 (find_next s3 block_next) in
  let st' := set_prev_mini s4 (find_next s4 block_next) in
  header st' B = pack asize true pa pm /\
  header st' R = pack mb_block_size false true v /\
  lists_wf st' classes (R :: mini) /\
  get_alloc st' F = true /\ get_prev_alloc st' F = false /\
  get_prev_mini st' F = true /\ get_size st' F = get_size st F.
Proof.
  intros Hr s1 block_next s2 s3 s4 st'. destruct split_range as (H32 & HFr & H16).
  destruct (split_first asize Has Hhi) as (E1 & W1 & S1 & Hh1 & Hn1).
  fold s1 in E1, W1, S1, Hh1, Hn1.
  assert (Ebn : block_next = R) by exact Hn1.
  clearbody s1 block_next. subst block_next.
  set (hR := pack mb_block_size false true v).
  assert (HhR : 0 <= hR < word_modulus)
    by (apply pack_word; unfold mb_block_size, word_modulus; lia).
  assert (E2 : s2 = store_word s1 R hR) by reflexivity.
  assert (E3 : s3 = add_to_mini_list s2 R) by reflexivity.
  assert (E4 : s4 = clear_prev_alloc s3 (find_next s3 R)) by reflexivity.
  assert (E5 : st' = set_prev_mini s4 (find_next s4 R)) by reflexivity.
  clearbody s2 s3 s4 st'.
  destruct (store_outside s1 classes mini R hR W1) as [W2 S2].
  { intros a Ha. destruct (split_node a Ha) as (Hs & H & _).
    unfold word_outside, wsize. rewrite (S1 a Ha). lia. }
  rewrite <- E2 in W2, S2.
  assert (L2 : load_word s2 R = hR) by (rewrite E2; apply load_store_same; exact HhR).
  assert (HsR : get_size s2 R = mb_block_size)
    by apply (header_pack_flags s2 R _ _ _ _ is_size_16 L2).
  assert (Hap2 : forall a, In a (all_nodes classes mini) -> apart s2 a R).
  { intros a Ha. unfold apart. rewrite HsR, (S2 a Ha), (S1 a Ha).
    destruct (split_node a Ha) as (Hs & H & _). unfold mb_block_size. lia. }
  destruct (add_to_mini_list_spec s2 classes mini R W2 HsR ltac:(lia)
              ltac:(unfold mb_block_size; lia) Hap2) as (W3 & _ & _ & Hfr3).
  rewrite <- E3 in W3, Hfr3.
  assert (L3 : load_word s3 R = hR) by (rewrite Hfr3 by lia; exact L2).
  assert (HsR3 : get_size s3 R = mb_block_size)
    by apply (header_pack_flags s3 R _ _ _ _ is_size_16 L3).
  assert (Hn3 : find_next s3 R = F).
  { unfold find_next. rewrite HsR3. unfold mb_block_size.
    replace (R + 16) with F by lia. apply wrap_small. lia. }
  rewrite Hn3 in E4.
  assert (L4 : load_word s4 R = hR).
  { rewrite E4. unfold clear_prev_alloc, set_header.
    rewrite load_store_other by lia. exact L3. }
  assert (Hn4 : find_next s4 R = F).
  { unfold find_next. rewrite (proj1 (header_pack_flags s4 R _ _ _ _ is_size_16 L4)).
    unfold mb_block_size. replace (R + 16) with F by lia. apply wrap_small. lia. }
  rewrite Hn4 in E5.
  assert (LF3 : load_word s3 F = load_word st F).
  { rewrite Hfr3 by (unfold mb_block_size in *; lia).
    rewrite E2, E1. rewrite !load_store_other by lia. reflexivity. }
  assert (Ha3 : get_alloc s3 F = true).
  { rewrite get_alloc_bit. unfold header. rewrite LF3.
    fold (header st F). rewrite <- get_alloc_bit. exact (proj1 HF). }
  destruct (flags_allocated s3 F false true Ha3) as (h1 & h2 & E & Hfa & Hfpa & Hfpm & Hfs).
  cbv zeta in E, Hfa, Hfpa, Hfpm, Hfs. rewrite <- E4, <- E5 in E, Hfa, Hfpa, Hfpm, Hfs.
  clear E4 E5.
  assert (Hin : forall a, In a (all_nodes classes (R :: mini)) ->
            a = R \/ In a (all_nodes classes mini)).
  { intros a Ha. apply (Permutation_in _ (perm_all_nodes_mini classes mini R)) in Ha.
    destruct Ha as [<-|Ha]; [left; reflexivity|right; exact Ha]. }
  assert (Hsz3 : forall a, In a (all_nodes classes mini) -> get_size s3 a = get_size st a).
  { intros a Ha. destruct (split_node a Ha) as (Hs & H & _).
    rewrite <- (S1 a Ha), <- (S2 a Ha). unfold get_size, header.
    rewrite Hfr3 by (unfold mb_block_size in *; lia). reflexivity. }
  assert (Hout3 : forall a, In a (all_nodes classes (R :: mini)) -> word_outside s3 F a).
  { intros a Ha. unfold word_outside. destruct (Hin a Ha) as [->|Hold].
    - rewrite HsR3. unfold mb_block_size. lia.
    - rewrite (Hsz3 a Hold). exact (proj2 (proj2 HF) a Hold). }
  split.
  { unfold header. rewrite E, !load_store_other by lia.
    rewrite Hfr3 by lia. rewrite E2.
    rewrite load_store_other by (unfold mb_block_size in *; lia). exact Hh1. }
  split.
  { unfold header. rewrite E, !load_store_other by lia. exact L3. }
  split.
  { rewrite E. destruct (store_outside s3 classes (R :: mini) F h1 W3 Hout3) as [W4 S4].
    apply (store_outside _ classes (R :: mini) F h2 W4).
    intros a Ha. unfold word_outside. rewrite (S4 a Ha). exact (Hout3 a Ha). }
  split; [exact Hfa|]. split; [exact Hfpa|]. split; [exact Hfpm|].
  rewrite Hfs. exact (proj1 (header_flags st s3 _ LF3)).
Qed.

(** The remainder is a regular block. *)
Lemma split_regular (v : bool) :
  32 <= S - asize ->
  let s1 := write_block st B asize true pa pm in
  let block_next := find_next s1 B in
  let s2 := write_block s1 block_next (S - asize) false true v in
  let s3 := add_to_free_list s2 block_next in
  let s4 := clear_prev_alloc s3 (find_next s3 block_next) in
  let st' := clear_prev_mini s4 (find_next s4 block_next) in
  header st' B = pack asize true pa pm /\
  header st' R = pack (S - asize) false true v /\
  load_word st' (F - 8) = pack (S - asize) false true v /\
  lists_wf st' (push_class classes (size_to_class (S - asize)) R) mini /\
  get_alloc st' F = true /\ get_prev_alloc st' F = false /\
  get_prev_mini st' F = false /\ get_size st' F = get_size st F.
Proof.
  intros Hr s1 block_next s2 s3 s4 st'. destruct split_range as (H32 & HFr & H16).
  destruct (split_first asize Has Hhi) as (E1 & W1 & S1 & Hh1 & Hn1).
  fold s1 in E1, W1, S1, Hh1, Hn1.
  assert (Ebn : block_next = R) by exact Hn1.
  clearbody s1 block_next. subst block_next.
  assert (Hrs : is_size (S - asize))
    by (apply is_size_sub; [apply get_size_is_size|exact Has|exact Hhi]).
  set (hR := pack (S - asize) false true v).
  assert (HhR : 0 <= hR < word_modulus) by (apply pack_word; exact (proj1 Hrs)).
  assert (E2 : s2 = store_word (store_word s1 R hR) (F - 8) hR).
  { unfold s2. rewrite (write_block_free_regular s1 R (S - asize) true v Hrs Hr) by lia.
    fold hR. replace (R + (S - asize) - 8) with (F - 8) by lia. reflexivity. }
  assert (E3 : s3 = add_to_free_list s2 R) by reflexivity.
  assert (E4 : s4 = clear_prev_alloc s3 (find_next s3 R)) by reflexivity.
  assert (E5 : st' = clear_prev_mini s4 (find_next s4 R)) by reflexivity.
  clearbody s2 s3 s4 st'.
  destruct (store_outside s1 classes mini R hR W1) as [Wa Sa].
  { intros a Ha. destruct (split_node a Ha) as (Hs & H & _).
    unfold word_outside, wsize. rewrite (S1 a Ha). lia. }
  destruct (store_outside _ classes mini (F - 8) hR Wa) as [W2 S2].
  { intros a Ha. destruct (split_node a Ha) as (Hs & H & _).
    unfold word_outside, wsize. rewrite (Sa a Ha), (S1 a Ha). lia. }
  rewrite <- E2 in W2, S2.
  assert (Hsz2 : forall a, In a (all_nodes classes mini) -> get_size s2 a = get_size st a).
  { intros a Ha. rewrite (S2 a Ha), (Sa a Ha). exact (S1 a Ha). }
  assert (L2 : load_word s2 R = hR).
  { rewrite E2. rewrite load_store_other by lia. apply load_store_same. exact HhR. }
  assert (HsR : get_size s2 R = S - asize)
    by apply (header_pack_flags s2 R _ _ _ _ Hrs L2).
  assert (Hap2 : forall a, In a (all_nodes classes mini) -> apart s2 a R).
  { intros a Ha. unfold apart. rewrite HsR, (Hsz2 a Ha).
    destruct (split_node a Ha) as (Hs & H & _). lia. }
  assert (Hout2 : forall w, B <= w <= F -> outside_payloads s2 classes mini w).
  { intros w Hw a Ha. rewrite (Hsz2 a Ha).
    destruct (split_node a Ha) as (Hs & H & _). lia. }
  destruct (add_to_free_list_spec s2 classes mini R W2) as (W3 & _).
  { rewrite HsR. unfold min_block_size, dsize, wsize. lia. }
  { lia. }
  { rewrite HsR. lia. }
  { exact Hap2. }
  rewrite HsR in W3. rewrite <- E3 in W3.
  assert (Hfr3 : forall w, w + 8 <= R + 8 \/ R + 24 <= w -> B <= w <= F ->
            load_word s3 w = load_word s2 w).
  { intros w Hw1 Hw2. rewrite E3.
    apply (add_to_free_list_frame s2 classes mini R w W2 Hw1).
    apply Hout2. exact Hw2. }
  assert (L3 : load_word s3 R = hR) by (rewrite Hfr3 by lia; exact L2).
  assert (HsR3 : get_size s3 R = S - asize)
    by apply (header_pack_flags s3 R _ _ _ _ Hrs L3).
  assert (Hn3 : find_next s3 R = F).
  { unfold find_next. rewrite HsR3.
    replace (R + (S - asize)) with F by lia. apply wrap_small. lia. }
  rewrite Hn3 in E4.
  assert (L4 : load_word s4 R = hR).
  { rewrite E4. unfold clear_prev_alloc, set_header.
    rewrite load_store_other by lia. exact L3. }
  assert (Hn4 : find_next s4 R = F).
  { unfold find_next. rewrite (proj1 (header_pack_flags s4 R _ _ _ _ Hrs L4)).
    replace (R + (S - asize)) with F by lia. apply wrap_small. lia. }
  rewrite Hn4 in E5.
  assert (LF3 : load_word s3 F = load_word st F).
  { rewrite Hfr3 by lia.
    rewrite E2, E1. rewrite !load_store_other by lia. reflexivity. }
  assert (Ha3 : get_alloc s3 F = true).
  { rewrite get_alloc_bit. unfold header. rewrite LF3.
    fold (header st F). rewrite <- get_alloc_bit. exact (proj1 HF). }
  destruct (flags_allocated s3 F false false Ha3)
    as (h1 & h2 & E & Hfa & Hfpa & Hfpm & Hfs).
  cbv zeta in E, Hfa, Hfpa, Hfpm, Hfs. rewrite <- E4, <- E5 in E, Hfa, Hfpa, Hfpm, Hfs.
  clear E4 E5.
  set (c := size_to_class (S - asize)) in *.
  assert (Hcl : (c < length classes)%nat)
    by (rewrite (wf_classes _ _ _ Hwf); apply size_to_class_lt).
  assert (Hin : forall a, In a (all_nodes (push_class classes c R) mini) ->
            a = R \/ In a (all_nodes classes mini)).
  { intros a Ha. apply (Permutation_in _ (perm_all_nodes_push classes mini c R Hcl)) in Ha.
    destruct Ha as [<-|Ha]; [left; reflexivity|right; exact Ha]. }
  assert (Hsz3 : forall a, In a (all_nodes classes mini) -> get_size s3 a = get_size st a).
  { intros a Ha. destruct (split_node a Ha) as (Hs & H & _).
    rewrite <- (Hsz2 a Ha). unfold get_size, header. rewrite E3.
    rewrite (add_to_free_list_frame s2 classes mini R a W2);
      [reflexivity|lia|exact (node_outside_payloads _ _ _ a W2 Ha)]. }
  assert (Hout3 : forall a, In a (all_nodes (push_class classes c R) mini) ->
            word_outside s3 F a).
  { intros a Ha. unfold word_outside. destruct (Hin a Ha) as [->|Hold].
    - rewrite HsR3. lia.
    - rewrite (Hsz3 a Hold). exact (proj2 (proj2 HF) a Hold). }
  split.
  { unfold header. rewrite E, !load_store_other by lia.
    rewrite Hfr3 by lia. rewrite E2.
    rewrite !load_store_other by lia. exact Hh1. }
  split.
  { unfold header. rewrite E, !load_store_other by lia. exact L3. }
  split.
  { rewrite E, !load_store_other by lia. rewrite Hfr3 by lia.
    rewrite E2. apply load_store_same. exact HhR. }
  split.
  { rewrite E. destruct (store_outside s3 _ mini F h1 W3 Hout3) as [W4 S4].
    apply (store_outside _ _ mini F h2 W4).
    intros a Ha. unfold word_outside. rewrite (S4 a Ha). exact (Hout3 a Ha). }
  split; [exact Hfa|]. split; [exact Hfpa|]. split; [exact Hfpm|].
  rewrite Hfs. exact (proj1 (header_flags st s3 _ LF3)).
Qed.

End Split.

(** The three outcomes of [split_block]: the block is kept whole, or a mini
    block or a regular block remains. *)
Lemma split_block_cases_spec :
  forall st classes mini B asize,
    lists_wf st classes mini ->
    (forall a, In a (all_nodes classes mini) -> apart st a B) ->
    0 < B -> min_block_size <= get_size st B ->
    allocated_header st classes mini (B + get_size st B) ->
    is_size asize -> mb_block_size <= asize -> asize <= get_size st B ->
    let size := get_size st B in
    let R := B + asize in
    let F := B + size in
    let st' := split_block st B asize in
    get_alloc st' B = true /\
    get_prev_alloc st' B = get_prev_alloc st B /\
    get_prev_mini st' B = get_prev_mini st B /\
    get_alloc st' F = true /\ get_size st' F = get_size st F /\
    (size - asize < 16 ->
     get_size st' B = size /\
     get_prev_alloc st' F = true /\ get_prev_mini st' F = false /\
     lists_wf st' classes mini) /\
    (size - asize = 16 ->
     get_size st' B = asize /\
     get_size st' R = 16 /\ get_alloc st' R = false /\
     get_prev_alloc st' R = true /\ get_prev_mini st' R = (asize =? 16) /\
     lists_wf st' classes (R :: mini) /\
     get_prev_alloc st' F = false /\ get_prev_mini st' F = true) /\
    (32 <= size - asize ->
     get_size st' B = asize /\
     get_size st' R = size - asize /\ get_alloc st' R = false /\
     get_prev_alloc st' R = true /\ get_prev_mini st' R = (asize =? 16) /\
     load_word st' (header_to_footer st' R) = header st' R /\
     lists_wf st' (push_class classes (size_to_class (size - asize)) R) mini /\
     get_prev_alloc st' F = false /\ get_prev_mini st' F = false).
Proof.
  intros st classes mini B asize Hwf Hap HB0 HS HF Has Hlo Hhi size R F st'.
  subst R F.
  assert (Hrs : is_size (size - asize))
    by (apply is_size_sub; [apply get_size_is_size|exact Has|exact Hhi]).
  pose proof (split_range st classes mini B asize HS HF Hlo) as (H32 & HFr & H16).
  fold size in H32, HFr.
  assert (Hcases : size - asize = 0 \/ size - asize = 16 \/ 32 <= size - asize).
  { destruct Hrs as [_ Hm]. Z.div_mod_to_equations. lia. }
  assert (E : st' = split_block st B asize) by reflexivity.
  clearbody st'. rewrite split_block_eq in E. cbv zeta in E. fold size in E.
  rewrite (wrap_small (size - asize)) in E by (destruct Hrs as [Hr _]; exact Hr).
  rewrite Z.geb_leb in E. unfold min_block_size, dsize, wsize, mb_block_size in E.
  destruct Hcases as [H0|[Hr16|Hr32]].
  - (* no split *)
    destruct (Z.leb_spec (2 * (2 * 8)) (size - asize)) as [|_]; [lia|].
    destruct (Z.eqb_spec (size - asize) 16) as [|_]; [lia|].
    destruct (Z.eqb_spec asize 16) as [|_]; [lia|].
    pose proof (split_none st classes mini B asize Hwf Hap HB0 HS HF Hlo false) as H.
    cbv zeta in H. fold size in H. rewrite <- E in H. clear E.
    destruct H as (HhB & W & Hfa & Hfpa & Hfpm & Hfs).
    destruct (header_pack_flags st' B size _ _ _ (get_size_is_size st B) HhB)
      as (Hs & Ha & Hpa & Hpm).
    split; [exact Ha|]. split; [exact Hpa|]. split; [exact Hpm|].
    split; [exact Hfa|]. split; [exact Hfs|].
    split; [intros _; split; [exact Hs|split; [exact Hfpa|split; [exact Hfpm|exact W]]]|].
    split; intros; lia.
  - (* mini remainder *)
    destruct (Z.leb_spec (2 * (2 * 8)) (size - asize)) as [|_]; [lia|].
    destruct (Z.eqb_spec (size - asize) 16) as [_|]; [|lia].
    pose proof (split_mini st classes mini B asize Hwf Hap HB0 HS HF Has Hlo Hhi
                  (asize =? 16) Hr16) as H.
    cbv zeta in H. unfold mb_block_size in H. rewrite <- E in H. clear E.
    destruct H as (HhB & HhR & W & Hfa & Hfpa & Hfpm & Hfs).
    destruct (header_pack_flags st' B asize _ _ _ Has HhB) as (Hs & Ha & Hpa & Hpm).
    destruct (header_pack_flags st' _ 16 _ _ _ is_size_16 HhR) as (HsR & HaR & HpaR & HpmR).
    split; [exact Ha|]. split; [exact Hpa|]. split; [exact Hpm|].
    split; [exact Hfa|]. split; [exact Hfs|].
    split; [intros; lia|]. split; [|intros; lia]. intros _.
    repeat (split; [assumption|]). assumption.
  - (* regular remainder *)
    destruct (Z.leb_spec (2 * (2 * 8)) (size - asize)) as [_|]; [|lia].
    pose proof (split_regular st classes mini B asize Hwf Hap HB0 HS HF Has Hlo Hhi
                  (asize =? 16) Hr32) as H.
    cbv zeta in H. fold size in H. rewrite <- E in H. clear E.
    destruct H as (HhB & HhR & Hfoot & W & Hfa & Hfpa & Hfpm & Hfs).
    destruct (header_pack_flags st' B asize _ _ _ Has HhB) as (Hs & Ha & Hpa & Hpm).
    destruct (header_pack_flags st' _ (size - asize) _ _ _ Hrs HhR)
      as (HsR & HaR & HpaR & HpmR).
    split; [exact Ha|]. split; [exact Hpa|]. split; [exact Hpm|].
    split; [exact Hfa|]. split; [exact Hfs|].
    split; [intros; lia|]. split; [intros; lia|]. intros _.
    split; [exact Hs|]. split; [exact HsR|]. split; [exact HaR|].
    split; [exact HpaR|]. split; [exact HpmR|].
    split.
    { unfold header_to_footer. rewrite HsR, HhR.
      unfold payload_offset, dsize, wsize.
      replace (B + asize + 8 + (size - asize) - 2 * 8) with (B + size - 8) by lia.
      rewrite wrap_small by lia. exact Hfoot. }
    split; [exact W|]. split; [exact Hfpa|exact Hfpm].
Qed.

(** X16.  [split_block] on a regular block [B] of size [size] that is on
    no list, followed by an allocated block [F], with a request [asize]
    that is a multiple of 16 between 16 and [size]: [B] becomes allocated
    and keeps its [prev_alloc] and [prev_mini] bits, and [F] stays
    allocated with its size.  If [asize = size] the block is not split and
    [F] gets [prev_alloc] set and [prev_mini] clear.  If 16 bytes remain,
    [B] shrinks to [asize] and the remainder [R = B + asize] is a free mini
    block at the head of the mini list.  If 32 bytes or more remain, the
    remainder is a free regular block at the head of the list of its size
    class, with a footer equal to its header.  In both cases [R] has
    [prev_alloc] set and [prev_mini] set exactly when [asize] is 16, [F]
    has [prev_alloc] clear and [prev_mini] telling whether [R] is a mini
    block, and the sizes of [B] and [R] add up to [size].  The lists stay
    well formed. *)
Theorem X16_split_block_cases :
  forall st classes mini B asize,
    lists_wf st classes mini ->
    (forall a, In a (all_nodes classes mini) -> apart st a B) ->
    0 < B -> min_block_size <= get_size st B ->
    allocated_header st classes mini (B + get_size st B) ->
    is_size asize -> mb_block_size <= asize -> asize <= get_size st B ->
    let size := get_size st B in
    let R := B + asize in
    let F := B + size in
    let st' := split_block st B asize in
    get_alloc st' B = true /\
    get_prev_alloc st' B = get_prev_alloc st B /\
    get_prev_mini st' B = get_prev_mini st B /\
    get_alloc st' F = true /\ get_size st' F = get_size st F /\
    (size - asize < 16 ->
     get_size st' B = size /\
     get_prev_alloc st' F = true /\ get_prev_mini st' F = false /\
     lists_wf st' classes mini) /\
    (size - asize = 16 ->
     get_size st' B = asize /\
     get_size st' R = 16 /\ get_alloc st' R = false /\
     get_prev_alloc st' R = true /\ get_prev_mini st' R = (asize =? 16) /\
     lists_wf st' classes (R :: mini) /\
     get_prev_alloc st' F = false /\ get_prev_mini st' F = true) /\
    (32 <= size - asize ->
     get_size st' B = asize /\
     get_size st' R = size - asize /\ get_alloc st' R = false /\
     get_prev_alloc st' R = true /\ get_prev_mini st' R = (asize =? 16) /\
     load_word st' (header_to_footer st' R) = header st' R /\
     lists_wf st' (push_class classes (size_to_class (size - asize)) R) mini /\
     get_prev_alloc st' F = false /\ get_prev_mini st' F = false).
Proof. exact split_block_cases_spec. Qed.

Lemma lists_wf_empty st :
  length (size_class st) = NUM_CLASSES ->
  (forall c, (c < NUM_CLASSES)%nat -> class_head st c = NULL) ->
  mini_block_head st = NULL ->
  lists_wf st (repeat [] NUM_CLASSES) [].
Proof.
  intros Hlen Hheads Hmini.
  assert (Hnth : forall c, nth c (repeat (@nil Z) NUM_CLASSES) [] = [])
    by (intros c; apply nth_repeat).
  constructor.
  - exact Hlen.
  - apply repeat_length.
  - intros c Hc. rewrite Hnth. split; [exact (Hheads c Hc)|exact I].
  - exact Hmini.
  - intros c a Ha. rewrite Hnth in Ha. destruct Ha.
  - intros a [].
  - intros a [].
  - constructor.
  - intros a b [].
Qed.

Lemma split_scenario_lists : lists_wf SplitBlock.st_unlisted SplitBlock.classes [].
Proof.
  apply lists_wf_empty.
  - vm_compute. reflexivity.
  - intros c Hc.
    do 15 (destruct c as [|c]; [vm_compute; reflexivity|]).
    unfold NUM_CLASSES in Hc. lia.
  - vm_compute. reflexivity.
Qed.

Lemma X16_split_block_cases_witness :
  let st := SplitBlock.st_unlisted in
  let B := SplitBlock.B in
  let size := get_size st B in
  let R := B + 64 in
  let F := B + size in
  let st' := split_block st B 64 in
  get_alloc st' B = true /\
  get_prev_alloc st' B = get_prev_alloc st B /\
  get_prev_mini st' B = get_prev_mini st B /\
  get_alloc st' F = true /\ get_size st' F = get_size st F /\
  (size - 64 < 16 ->
   get_size st' B = size /\
   get_prev_alloc st' F = true /\ get_prev_mini st' F = false /\
   lists_wf st' SplitBlock.classes []) /\
  (size - 64 = 16 ->
   get_size st' B = 64 /\
   get_size st' R = 16 /\ get_alloc st' R = false /\
   get_prev_alloc st' R = true /\ get_prev_mini st' R = (64 =? 16) /\
   lists_wf st' SplitBlock.classes [R] /\
   get_prev_alloc st' F = false /\ get_prev_mini st' F = true) /\
  (32 <= size - 64 ->
   get_size st' B = 64 /\
   get_size st' R = size - 64 /\ get_alloc st' R = false /\
   get_prev_alloc st' R = true /\ get_prev_mini st' R = (64 =? 16) /\
   load_word st' (header_to_footer st' R) = header st' R /\
   lists_wf st' (push_class SplitBlock.classes (size_to_class (size - 64)) R) [] /\
   get_prev_alloc st' F = false /\ get_prev_mini st' F = false).
Proof.
  apply (X16_split_block_cases SplitBlock.st_unlisted SplitBlock.classes []
           SplitBlock.B 64 split_scenario_lists).
  - intros a [].
  - vm_compute. reflexivity.
  - vm_compute. congruence.
  - split; [vm_compute; reflexivity|]. split; [vm_compute; congruence|]. intros a [].
  - split; [unfold word_modulus; lia|reflexivity].
  - vm_compute. congruence.
  - vm_compute. congruence.
Defined.

(** ** Growing the heap behind an allocated block *)

Lemma mem_sbrk_ok st incr :
  0 <= incr -> incr <= mem_max_addr st - mem_brk st ->
  mem_sbrk st incr = (set_brk st (mem_brk st + incr), mem_brk st).
Proof.
  intros H0 H1. unfold mem_sbrk.
  destruct (Z.ltb_spec incr 0) as [|_]; [lia|].
  destruct (Z.ltb_spec (mem_max_addr st - mem_brk st) incr) as [|_]; [lia|].
  reflexivity.
Qed.

(** [extend_heap] when the memory system grants the request. *)
Lemma extend_heap_eq fuel st size :
  is_size size -> size < 2 ^ 63 ->
  size <= mem_max_addr st - mem_brk st ->
  8 <= mem_brk st -> mem_brk st < word_modulus - 1 ->
  extend_heap fuel st size
  = let block := mem_brk st - 8 in
    let st1 := set_brk st (mem_brk st + size) in
    let st2 := write_block st1 block size false
                 (get_prev_alloc st1 block) (get_prev_mini st1 block) in
    let st3 := write_epilogue st2 (find_next st2 block) in
    ' (st4, block) <- coalesce_block fuel st3 block ;;
    Some (add_to_free_list st4 block, block).
Proof.
  intros Hs H63 Hroom H8 Hb. unfold extend_heap.
  rewrite (round_up_multiple size Hs).
  assert (Hi : to_intptr size = size).
  { unfold to_intptr. destruct (Z.ltb_spec size (2 ^ 63)) as [_|]; [reflexivity|lia]. }
  rewrite Hi, (mem_sbrk_ok st size (proj1 (proj1 Hs)) Hroom).
  assert (Hw : wrap (-1) = word_modulus - 1) by reflexivity.
  destruct (Z.eqb_spec (mem_brk st) (wrap (-1))) as [E|_]; [rewrite Hw in E; lia|].
  assert (Hp : payload_to_header (mem_brk st) = mem_brk st - 8).
  { unfold payload_to_header, payload_offset. apply wrap_small. lia. }
  rewrite Hp. reflexivity.
Qed.

Lemma bounds_fields s s' :
  bounds_of s = bounds_of s' ->
  mem_brk s = mem_brk s' /\ mem_start_brk s = mem_start_brk s' /\
  mem_max_addr s = mem_max_addr s' /\ heap_start s = heap_start s'.
Proof. unfold bounds_of. intros H. inversion H. repeat split; assumption. Qed.

Lemma lists_wf_same_memory st st' classes mini :
  lists_wf st classes mini ->
  size_class st' = size_class st -> mini_block_head st' = mini_block_head st ->
  (forall w, load_word st' w = load_word st w) ->
  lists_wf st' classes mini.
Proof.
  intros Hwf Hsc Hmh Hm.
  apply (lists_wf_frame st st' classes mini Hwf Hsc Hmh).
  - intros a _. split; apply Hm.
  - intros a _. apply Hm.
Qed.

(** [extend_heap] behind an allocated last block: the former epilogue
    header [E] becomes the header of a free block of [size] bytes, put on
    the list of its size class, and a new epilogue follows it. *)
Lemma extend_heap_appends fuel st classes mini size :
  lists_wf st classes mini ->
  is_size size -> min_block_size <= size -> size < 2 ^ 63 ->
  size <= mem_max_addr st - mem_brk st ->
  8 < mem_brk st -> mem_brk st + size <= word_modulus ->
  get_prev_alloc st (mem_brk st - 8) = true ->
  (forall a, In a (all_nodes classes mini) -> a + get_size st a <= mem_brk st - 8) ->
  let E := mem_brk st - 8 in
  let c := size_to_class size in
  exists st',
    extend_heap fuel st size = Some (st', E) /\
    mem_brk st' = mem_brk st + size /\
    mem_start_brk st' = mem_start_brk st /\ mem_max_addr st' = mem_max_addr st /\
    heap_start st' = heap_start st /\
    header st' E = pack size false true (get_prev_mini st E) /\
    load_word st' (E + size - 8) = pack size false true (get_prev_mini st E) /\
    (get_size st' (E + size) = 0 /\ get_alloc st' (E + size) = true /\
     get_prev_alloc st' (E + size) = false /\ get_prev_mini st' (E + size) = false) /\
    lists_wf st' (push_class classes c E) mini /\
    (forall w, w + 8 <= E -> outside_payloads st classes mini w ->
       load_word st' w = load_word st w).
Proof.
  intros Hwf Hs H32 H63 Hroom H8 Hb Hpa Hbelow E c.
  unfold min_block_size, dsize, wsize in H32.
  rewrite (extend_heap_eq fuel st size Hs H63 Hroom ltac:(lia)
             ltac:(unfold word_modulus in *; lia)).
  cbv zeta. fold E.
  set (pm := get_prev_mini st E).
  change (get_prev_alloc (set_brk st (mem_brk st + size)) E) with (get_prev_alloc st E).
  change (get_prev_mini (set_brk st (mem_brk st + size)) E) with pm.
  fold E in Hpa. rewrite Hpa.
  set (s1 := set_brk st (mem_brk st + size)).
  assert (W1 : lists_wf s1 classes mini)
    by (apply (lists_wf_same_memory st s1 classes mini Hwf); reflexivity).
  assert (L1 : forall w, load_word s1 w = load_word st w) by reflexivity.
  assert (G1 : mem_brk s1 = mem_brk st + size /\ mem_start_brk s1 = mem_start_brk st /\
               mem_max_addr s1 = mem_max_addr st /\ heap_start s1 = heap_start st)
    by (repeat split).
  clearbody s1.
  set (hE := pack size false true pm).
  assert (HhE : 0 <= hE < word_modulus) by (apply pack_word; exact (proj1 Hs)).
  rewrite (write_block_free_regular s1 E size true pm Hs H32) by (unfold E; lia).
  fold hE.
  set (s2 := store_word (store_word s1 E hE) (E + size - 8) hE).
  assert (E2 : s2 = store_word (store_word s1 E hE) (E + size - 8) hE) by reflexivity.
  clearbody s2.
  assert (Hnode : forall a, In a (all_nodes classes mini) ->
            16 <= get_size st a /\ a + get_size st a <= E).
  { intros a Ha. split; [exact (node_size _ _ _ a Hwf Ha)|exact (Hbelow a Ha)]. }
  assert (Hsz1 : forall a, get_size s1 a = get_size st a) by (intros a; unfold get_size, header; rewrite L1; reflexivity).
  destruct (store_outside s1 classes mini E hE W1) as [Wa Sa].
  { intros a Ha. unfold word_outside. rewrite Hsz1. right. exact (proj2 (Hnode a Ha)). }
  destruct (store_outside _ classes mini (E + size - 8) hE Wa) as [W2 S2].
  { intros a Ha. unfold word_outside. rewrite (Sa a Ha), Hsz1. right.
    destruct (Hnode a Ha). lia. }
  rewrite <- E2 in W2, S2.
  assert (L2E : load_word s2 E = hE).
  { rewrite E2, load_store_other by lia. apply load_store_same. exact HhE. }
  assert (Hn2 : find_next s2 E = E + size).
  { unfold find_next. rewrite (proj1 (header_pack_flags s2 E size _ _ _ Hs L2E)).
    apply wrap_small. unfold E. lia. }
  rewrite Hn2. unfold write_epilogue, set_header.
  set (F := E + size) in *.
  set (epi := pack 0 true false false).
  set (s3 := store_word s2 F epi).
  assert (E3 : s3 = store_word s2 F epi) by reflexivity.
  clearbody s3.
  destruct (store_outside s2 classes mini F epi W2) as [W3 S3].
  { intros a Ha. unfold word_outside. rewrite (S2 a Ha), (Sa a Ha), Hsz1. right.
    destruct (Hnode a Ha). unfold F. lia. }
  rewrite <- E3 in W3, S3.
  assert (Hsz3 : forall a, In a (all_nodes classes mini) -> get_size s3 a = get_size st a).
  { intros a Ha. rewrite (S3 a Ha), (S2 a Ha), (Sa a Ha). apply Hsz1. }
  assert (L3E : load_word s3 E = hE).
  { rewrite E3, load_store_other by (unfold F; lia). exact L2E. }
  assert (L3F : load_word s3 F = epi).
  { rewrite E3. apply load_store_same. vm_compute. split; congruence. }
  destruct (header_pack_flags s3 E size _ _ _ Hs L3E) as (HsE & HaE & HpaE & HpmE).
  assert (Hn3 : find_next s3 E = F).
  { unfold find_next. rewrite HsE. apply wrap_small. unfold F, E. lia. }
  assert (Ha3 : get_alloc s3 F = true).
  { rewrite get_alloc_bit. unfold header. rewrite L3F. reflexivity. }
  rewrite (coalesce_block_alloc_alloc fuel s3 E HpaE) by (rewrite Hn3; exact Ha3).
  unfold coalesce_none. rewrite Hn3.
  assert (Hm : get_mini (clear_prev_alloc s3 F) E = false).
  { unfold get_mini, get_size, clear_prev_alloc, set_header.
    unfold header at 1. rewrite load_store_other by (unfold F; lia).
    rewrite L3E. unfold hE. rewrite (extract_size_pack _ _ _ _ Hs).
    unfold mb_block_size. apply Z.eqb_neq. lia. }
  rewrite Hm.
  destruct (flags_allocated s3 F false false Ha3)
    as (h1 & h2 & E4 & Hfa & Hfpa & Hfpm & Hfs).
  cbv zeta in E4, Hfa, Hfpa, Hfpm, Hfs.
  set (s4 := clear_prev_mini (clear_prev_alloc s3 F) F) in *.
  clearbody s4.
  destruct (store_outside s3 classes mini F h1 W3) as [Wb Sb].
  { intros a Ha. unfold word_outside. rewrite (Hsz3 a Ha). right.
    destruct (Hnode a Ha). unfold F. lia. }
  destruct (store_outside _ classes mini F h2 Wb) as [W4 S4].
  { intros a Ha. unfold word_outside. rewrite (Sb a Ha), (Hsz3 a Ha). right.
    destruct (Hnode a Ha). unfold F. lia. }
  rewrite <- E4 in W4, S4.
  assert (Hsz4 : forall a, In a (all_nodes classes mini) -> get_size s4 a = get_size st a).
  { intros a Ha. rewrite (S4 a Ha), (Sb a Ha). exact (Hsz3 a Ha). }
  assert (L4E : load_word s4 E = hE).
  { rewrite E4, !load_store_other by (unfold F; lia). exact L3E. }
  destruct (header_pack_flags s4 E size _ _ _ Hs L4E) as (HsE4 & _).
  assert (Hap4 : forall a, In a (all_nodes classes mini) -> apart s4 a E).
  { intros a Ha. unfold apart. rewrite (Hsz4 a Ha). left. exact (proj2 (Hnode a Ha)). }
  destruct (add_to_free_list_spec s4 classes mini E W4) as (W5 & _).
  { rewrite HsE4. unfold min_block_size, dsize, wsize. lia. }
  { unfold E. lia. }
  { rewrite HsE4. unfold E. lia. }
  { exact Hap4. }
  rewrite HsE4 in W5. fold c in W5.
  assert (Hfr5 : forall w, w + 8 <= E + 8 \/ E + 24 <= w ->
            outside_payloads st classes mini w ->
            load_word (add_to_free_list s4 E) w = load_word s4 w).
  { intros w Hw Hout. apply (add_to_free_list_frame s4 classes mini E w W4 Hw).
    intros a Ha. rewrite (Hsz4 a Ha). exact (Hout a Ha). }
  assert (Hout_hi : forall w, E <= w -> outside_payloads st classes mini w).
  { intros w Hw a Ha. right. destruct (Hnode a Ha). lia. }
  set (s5 := add_to_free_list s4 E) in *.
  assert (G5 : mem_brk s5 = mem_brk s4 /\ mem_start_brk s5 = mem_start_brk s4 /\
               mem_max_addr s5 = mem_max_addr s4 /\ heap_start s5 = heap_start s4).
  { apply bounds_fields. unfold s5. apply bounds_add_to_free_list. }
  assert (G4 : mem_brk s4 = mem_brk s1 /\ mem_start_brk s4 = mem_start_brk s1 /\
               mem_max_addr s4 = mem_max_addr s1 /\ heap_start s4 = heap_start s1).
  { rewrite E4, E3, E2. repeat split. }
  clearbody s5.
  exists s5. split; [reflexivity|].
  destruct G5 as (-> & -> & -> & ->). destruct G4 as (-> & -> & -> & ->).
  destruct G1 as (-> & -> & -> & ->).
  split; [reflexivity|]. split; [reflexivity|]. split; [reflexivity|].
  split; [reflexivity|].
  assert (HF5 : header s5 F = header s4 F).
  { unfold header. apply Hfr5; [unfold F; lia|apply Hout_hi; unfold F; lia]. }
  split.
  { unfold header. rewrite Hfr5 by (try apply Hout_hi; lia). exact L4E. }
  split.
  { rewrite Hfr5 by (try apply Hout_hi; lia).
    rewrite E4, !load_store_other by (unfold F; lia).
    rewrite E3, load_store_other by (unfold F; lia).
    rewrite E2. apply load_store_same. exact HhE. }
  split.
  { destruct (header_flags s4 s5 F HF5) as (-> & -> & -> & ->).
    rewrite Hfs. split; [|split; [exact Hfa|split; [exact Hfpa|exact Hfpm]]].
    unfold get_size, header. rewrite L3F. reflexivity. }
  split; [exact W5|].
  intros w Hw Hout. rewrite Hfr5 by (try exact Hout; lia).
  rewrite E4, !load_store_other by (unfold F; lia).
  rewrite E3, load_store_other by (unfold F; lia).
  rewrite E2, !load_store_other by lia. apply L1.
Qed.

(** X17.  [extend_heap] behind an allocated last block, when the memory
    system grants [size] bytes ([size] a multiple of 16, at least 32): it
    returns the former epilogue header [E], now the header of a free block
    of [size] bytes with a matching footer and [prev_alloc] set, at the
    head of the list of its size class; a new epilogue of size 0 follows,
    allocated, with [prev_alloc] and [prev_mini] clear; the break moves by
    [size]; the lists stay well formed; and below [E] only link words of
    listed blocks may change. *)
Theorem X17_extend_heap_appends_free_block :
  forall fuel st classes mini size,
    lists_wf st classes mini ->
    is_size size -> min_block_size <= size -> size < 2 ^ 63 ->
    size <= mem_max_addr st - mem_brk st ->
    8 < mem_brk st -> mem_brk st + size <= word_modulus ->
    get_prev_alloc st (mem_brk st - 8) = true ->
    (forall a, In a (all_nodes classes mini) -> a + get_size st a <= mem_brk st - 8) ->
    let E := mem_brk st - 8 in
    let c := size_to_class size in
    exists st',
      extend_heap fuel st size = Some (st', E) /\
      mem_brk st' = mem_brk st + size /\
      mem_start_brk st' = mem_start_brk st /\ mem_max_addr st' = mem_max_addr st /\
      heap_start st' = heap_start st /\
      header st' E = pack size false true (get_prev_mini st E) /\
      load_word st' (E + size - 8) = pack size false true (get_prev_mini st E) /\
      (get_size st' (E + size) = 0 /\ get_alloc st' (E + size) = true /\
       get_prev_alloc st' (E + size) = false /\ get_prev_mini st' (E + size) = false) /\
      lists_wf st' (push_class classes c E) mini /\
      (forall w, w + 8 <= E -> outside_payloads st classes mini w ->
         load_word st' w = load_word st w).
Proof. exact extend_heap_appends. Qed.

Lemma full_scenario_lists : lists_wf FullHeap.st_full (repeat [] NUM_CLASSES) [].
Proof.
  apply lists_wf_empty.
  - vm_compute. reflexivity.
  - intros c Hc.
    do 15 (destruct c as [|c]; [vm_compute; reflexivity|]).
    unfold NUM_CLASSES in Hc. lia.
  - vm_compute. reflexivity.
Qed.

Lemma X17_extend_heap_appends_free_block_witness :
  let st := FullHeap.st_full in
  let E := mem_brk st - 8 in
  let c := size_to_class 4096 in
  exists st',
    extend_heap run_fuel st 4096 = Some (st', E) /\
    mem_brk st' = mem_brk st + 4096 /\
    mem_start_brk st' = mem_start_brk st /\ mem_max_addr st' = mem_max_addr st /\
    heap_start st' = heap_start st /\
    header st' E = pack 4096 false true (get_prev_mini st E) /\
    load_word st' (E + 4096 - 8) = pack 4096 false true (get_prev_mini st E) /\
    (get_size st' (E + 4096) = 0 /\ get_alloc st' (E + 4096) = true /\
     get_prev_alloc st' (E + 4096) = false /\ get_prev_mini st' (E + 4096) = false) /\
    lists_wf st' (push_class (repeat [] NUM_CLASSES) c E) [] /\
    (forall w, w + 8 <= E -> outside_payloads st (repeat [] NUM_CLASSES) [] w ->
       load_word st' w = load_word st w).
Proof.
  apply (X17_extend_heap_appends_free_block run_fuel FullHeap.st_full
           (repeat [] NUM_CLASSES) [] 4096 full_scenario_lists).
  - exact is_size_4096.
  - vm_compute. congruence.
  - lia.
  - vm_compute. congruence.
  - vm_compute. reflexivity.
  - vm_compute. congruence.
  - vm_compute. reflexivity.
  - intros a [].
Defined.

(** ** Initialisation *)

Lemma mem_clear_classes n : forall st i, mem (clear_classes n st i) = mem st.
Proof. induction n as [|n IH]; intros st i; [reflexivity|]. cbn. rewrite IH. reflexivity. Qed.

Lemma mini_clear_classes n :
  forall st i, mini_block_head (clear_classes n st i) = mini_block_head st.
Proof. induction n as [|n IH]; intros st i; [reflexivity|]. cbn. rewrite IH. reflexivity. Qed.

Lemma length_clear_classes n :
  forall st i, length (size_class (clear_classes n st i)) = length (size_class st).
Proof.
  induction n as [|n IH]; intros st i; [reflexivity|]. cbn [clear_classes].
  rewrite IH. unfold set_class_head. cbn [size_class set_size_class].
  apply length_list_set.
Qed.

Lemma clear_classes_below n :
  forall st i c, (c < i)%nat -> class_head (clear_classes n st i) c = class_head st c.
Proof.
  induction n as [|n IH]; intros st i c Hc; [reflexivity|]. cbn [clear_classes].
  rewrite IH by lia. unfold class_head, set_class_head. cbn [size_class set_size_class].
  apply nth_list_set_other. lia.
Qed.

Lemma clear_classes_heads n :
  forall st i c, (i <= c < i + n)%nat -> (c < length (size_class st))%nat ->
    class_head (clear_classes n st i) c = NULL.
Proof.
  induction n as [|n IH]; intros st i c Hc Hlen; [lia|]. cbn [clear_classes].
  destruct (Nat.eq_dec c i) as [->|Hne].
  - rewrite clear_classes_below by lia.
    unfold class_head, set_class_head. cbn [size_class set_size_class].
    apply nth_list_set_same. exact Hlen.
  - apply IH; [lia|]. unfold set_class_head. cbn [size_class set_size_class].
    rewrite length_list_set. exact Hlen.
Qed.

(** The state in which [mm_init] calls [extend_heap]: the two sentinel
    words are written, the lists are empty and [heap_start] is set. *)
Lemma mm_init_eq fuel st :
  0 <= mem_brk st ->
  2 * wsize <= mem_max_addr st - mem_brk st ->
  mem_brk st + wsize < word_modulus - 1 ->
  mm_init fuel st
  = (' (st', block) <-
       extend_heap fuel
         (set_heap_start
            (set_mini_block_head
               (clear_classes NUM_CLASSES
                  (store_word
                     (store_word (set_brk st (mem_brk st + 2 * wsize)) (mem_brk st)
                        (pack 0 true true false))
                     (mem_brk st + wsize) (pack 0 true true false)) 0)
               NULL)
            (mem_brk st + wsize)) chunksize ;;
     if block =? NULL then Some (st', false) else Some (st', true)).
Proof.
  intros H0 Hroom Hwm. unfold mm_init.
  rewrite (mem_sbrk_ok st (2 * wsize)) by (unfold wsize in *; lia).
  assert (Hw : wrap (-1) = word_modulus - 1) by reflexivity.
  destruct (Z.eqb_spec (mem_brk st) (wrap (-1))) as [E|_];
    [rewrite Hw in E; unfold wsize in *; lia|].
  rewrite (wrap_small (mem_brk st + wsize)) by (unfold wsize in *; lia).
  reflexivity.
Qed.

Lemma fields_set_heap_start s p :
  mem (set_heap_start s p) = mem s /\ size_class (set_heap_start s p) = size_class s /\
  mini_block_head (set_heap_start s p) = mini_block_head s /\
  bounds_of (set_heap_start s p) = (mem_start_brk s, mem_brk s, mem_max_addr s, p).
Proof. repeat split. Qed.

Lemma fields_set_mini_block_head s p :
  mem (set_mini_block_head s p) = mem s /\
  size_class (set_mini_block_head s p) = size_class s /\
  mini_block_head (set_mini_block_head s p) = p /\
  mem_start_brk (set_mini_block_head s p) = mem_start_brk s /\
  mem_brk (set_mini_block_head s p) = mem_brk s /\
  mem_max_addr (set_mini_block_head s p) = mem_max_addr s.
Proof. repeat split. Qed.

Lemma fields_store_word s a v :
  mem (store_word s a v) = store64 (mem s) a v /\
  size_class (store_word s a v) = size_class s /\
  mini_block_head (store_word s a v) = mini_block_head s.
Proof. repeat split. Qed.

Lemma init_state_facts st s1 s5 :
  length (size_class st) = NUM_CLASSES ->
  mem s1 = mem st -> size_class s1 = size_class st ->
  s5 = set_heap_start
         (set_mini_block_head
            (clear_classes NUM_CLASSES
               (store_word
                  (store_word s1 (mem_brk st) (pack 0 true true false))
                  (mem_brk st + wsize) (pack 0 true true false)) 0)
            NULL)
         (mem_brk st + wsize) ->
  (forall w, load_word s5 w
             = load_word (store_word (store_word st (mem_brk st) (pack 0 true true false))
                            (mem_brk st + wsize) (pack 0 true true false)) w) /\
  bounds_of s5 = (mem_start_brk s1, mem_brk s1, mem_max_addr s1, mem_brk st + wsize) /\
  lists_wf s5 (repeat [] NUM_CLASSES) [].
Proof.
  intros Hlen Hm Hsc ->.
  set (s2 := store_word (store_word s1 (mem_brk st) (pack 0 true true false))
               (mem_brk st + wsize) (pack 0 true true false)).
  assert (M2 : mem s2 = mem (store_word (store_word st (mem_brk st) (pack 0 true true false))
                               (mem_brk st + wsize) (pack 0 true true false))).
  { unfold s2. rewrite !(proj1 (fields_store_word _ _ _)), Hm. reflexivity. }
  assert (S2 : size_class s2 = size_class st).
  { unfold s2. rewrite !(proj1 (proj2 (fields_store_word _ _ _))). exact Hsc. }
  assert (B2 : bounds_of s2 = bounds_of s1).
  { unfold s2. rewrite !bounds_store_word. reflexivity. }
  clearbody s2.
  set (s3 := clear_classes NUM_CLASSES s2 0).
  assert (M3 : mem s3 = mem s2) by apply mem_clear_classes.
  assert (B3 : bounds_of s3 = bounds_of s2) by apply bounds_clear_classes.
  assert (L3 : length (size_class s3) = NUM_CLASSES).
  { unfold s3. rewrite length_clear_classes, S2. exact Hlen. }
  assert (H3 : forall c, (c < NUM_CLASSES)%nat -> class_head s3 c = NULL).
  { intros c Hc. apply (clear_classes_heads NUM_CLASSES s2 0 c); [lia|].
    rewrite S2, Hlen. exact Hc. }
  clearbody s3.
  set (s4 := set_mini_block_head s3 NULL).
  destruct (fields_set_mini_block_head s3 NULL)
    as (M4 & S4 & H4 & B4a & B4b & B4c). fold s4 in M4, S4, H4, B4a, B4b, B4c.
  clearbody s4.
  destruct (fields_set_heap_start s4 (mem_brk st + wsize)) as (M5 & S5 & H5 & B5).
  set (s5 := set_heap_start s4 (mem_brk st + wsize)) in *. clearbody s5.
  apply bounds_fields in B3. destruct B3 as (B3a & B3b & B3c & _).
  apply bounds_fields in B2. destruct B2 as (B2a & B2b & B2c & _).
  split; [|split].
  - intros w. unfold load_word. rewrite M5, M4, M3, M2. reflexivity.
  - rewrite B5, B4a, B4b, B4c, B3a, B3b, B3c, B2a, B2b, B2c. reflexivity.
  - apply lists_wf_empty.
    + rewrite S5, S4. exact L3.
    + intros c Hc. unfold class_head. rewrite S5, S4. exact (H3 c Hc).
    + rewrite H5. exact H4.
Qed.

Lemma bounds_tuple s a b c d :
  bounds_of s = (a, b, c, d) ->
  mem_start_brk s = a /\ mem_brk s = b /\ mem_max_addr s = c /\ heap_start s = d.
Proof. unfold bounds_of. intros H. inversion H. repeat split. Qed.

(** [mm_init] on a memory system with room for the prologue, the
    epilogue and one chunk. *)
Lemma mm_init_spec fuel st :
  length (size_class st) = NUM_CLASSES ->
  0 <= mem_brk st ->
  mem_brk st + 2 * wsize + chunksize <= mem_max_addr st ->
  mem_brk st + 2 * wsize + chunksize <= word_modulus ->
  let base := mem_brk st in
  exists st',
    mm_init fuel st = Some (st', true) /\
    heap_start st' = base + 8 /\
    mem_brk st' = base + 2 * wsize + chunksize /\
    mem_start_brk st' = mem_start_brk st /\ mem_max_addr st' = mem_max_addr st /\
    load_word st' base = pack 0 true true false /\
    header st' (base + 8) = pack chunksize false true false /\
    load_word st' (base + chunksize) = pack chunksize false true false /\
    (get_size st' (base + 8 + chunksize) = 0 /\
     get_alloc st' (base + 8 + chunksize) = true /\
     get_prev_alloc st' (base + 8 + chunksize) = false /\
     get_prev_mini st' (base + 8 + chunksize) = false) /\
    lists_wf st' (push_class (repeat [] NUM_CLASSES) 7 (base + 8)) [] /\
    (forall w, w + 8 <= base -> load_word st' w = load_word st w).
Proof.
  intros Hlen H0 Hroom Hwm base.
  assert (Hc : chunksize = 4096) by reflexivity.
  assert (Hws : wsize = 8) by reflexivity.
  rewrite Hc, Hws in *.
  rewrite (mm_init_eq fuel st H0)
    by (rewrite ?Hws; unfold word_modulus in *; lia).
  destruct (init_state_facts st (set_brk st (mem_brk st + 2 * wsize)) _ Hlen
              eq_refl eq_refl eq_refl) as (L5 & B5 & W5).
  rewrite Hc, Hws in *. fold base in L5, B5, W5 |- *.
  set (P := pack 0 true true false) in *.
  set (s5 := set_heap_start _ _) in *. clearbody s5.
  assert (G5 : mem_start_brk s5 = mem_start_brk st /\ mem_brk s5 = base + 16 /\
               mem_max_addr s5 = mem_max_addr st /\ heap_start s5 = base + 8).
  { destruct (bounds_tuple _ _ _ _ _ B5) as (Ha & Hb & Hd & He).
    rewrite Ha, Hb, Hd, He, mem_brk_set_brk. repeat split. }
  clear B5. destruct G5 as (Gs & Gb & Gm & Gh).
  assert (HP : 0 <= P < word_modulus) by (vm_compute; split; congruence).
  assert (L5e : load_word s5 (base + 8) = P).
  { rewrite L5. apply load_store_same. exact HP. }
  destruct (header_pack_flags s5 (base + 8) 0 true true false
              ltac:(split; [unfold word_modulus; lia|reflexivity]) L5e)
    as (_ & _ & Hpa5 & Hpm5).
  destruct (extend_heap_appends fuel s5 (repeat [] NUM_CLASSES) [] 4096 W5)
    as (st' & Ex & Hbrk & Hsb & Hmx & Hhs & HhE & Hfoot & Hepi & W' & Hfr).
  { exact is_size_4096. }
  { vm_compute. congruence. }
  { lia. }
  { rewrite Gb, Gm. lia. }
  { rewrite Gb. lia. }
  { rewrite Gb. lia. }
  { rewrite Gb. replace (base + 16 - 8) with (base + 8) by lia. exact Hpa5. }
  { intros a []. }
  rewrite Gb in Ex, Hbrk, HhE, Hfoot, Hepi, W', Hfr.
  replace (base + 16 - 8) with (base + 8) in Ex, HhE, Hfoot, Hepi, W', Hfr by lia.
  rewrite Hpm5 in HhE, Hfoot.
  rewrite Ex.
  destruct (Z.eqb_spec (base + 8) NULL) as [E|_]; [unfold NULL in E; lia|].
  exists st'. split; [reflexivity|].
  split; [rewrite Hhs; exact Gh|]. split; [rewrite Hbrk; lia|].
  split; [rewrite Hsb; exact Gs|]. split; [rewrite Hmx; exact Gm|].
  assert (Hout : forall w, outside_payloads s5 (repeat [] NUM_CLASSES) [] w)
    by (intros w a []).
  split.
  { rewrite Hfr by (try apply Hout; lia). rewrite L5.
    rewrite load_store_other by lia. apply load_store_same. exact HP. }
  split; [exact HhE|].
  split; [replace (base + 4096) with (base + 8 + 4096 - 8) by lia; exact Hfoot|].
  split; [exact Hepi|]. split; [exact W'|].
  intros w Hlow. rewrite Hfr by (try apply Hout; lia). rewrite L5.
  rewrite !load_store_other by lia. reflexivity.
Qed.

(** X18.  [mm_init] on a memory system that has room for 16 + 4096 bytes
    above the break [base] succeeds: the prologue word is at [base],
    [heap_start] is [base + 8] and heads one free block of 4096 bytes with
    a matching footer and [prev_alloc] set, followed by the epilogue (size
    0, allocated, [prev_alloc] and [prev_mini] clear); that block is the
    only node of the free lists, on the list of class 7; the break has
    moved by 4112 bytes; and no word below [base] is written. *)
Theorem X18_mm_init_builds_initial_heap :
  forall fuel st,
    length (size_class st) = NUM_CLASSES ->
    0 <= mem_brk st ->
    mem_brk st + 2 * wsize + chunksize <= mem_max_addr st ->
    mem_brk st + 2 * wsize + chunksize <= word_modulus ->
    let base := mem_brk st in
    exists st',
      mm_init fuel st = Some (st', true) /\
      heap_start st' = base + 8 /\
      mem_brk st' = base + 2 * wsize + chunksize /\
      mem_start_brk st' = mem_start_brk st /\ mem_max_addr st' = mem_max_addr st /\
      load_word st' base = pack 0 true true false /\
      header st' (base + 8) = pack chunksize false true false /\
      load_word st' (base + chunksize) = pack chunksize false true false /\
      (get_size st' (base + 8 + chunksize) = 0 /\
       get_alloc st' (base + 8 + chunksize) = true /\
       get_prev_alloc st' (base + 8 + chunksize) = false /\
       get_prev_mini st' (base + 8 + chunksize) = false) /\
      lists_wf st' (push_class (repeat [] NUM_CLASSES) 7 (base + 8)) [] /\
      (forall w, w + 8 <= base -> load_word st' w = load_word st w).
Proof. exact mm_init_spec. Qed.

Lemma X18_mm_init_builds_initial_heap_witness :
  let base := mem_brk fresh_state in
  exists st',
    mm_init run_fuel fresh_state = Some (st', true) /\
    heap_start st' = base + 8 /\
    mem_brk st' = base + 2 * wsize + chunksize /\
    mem_start_brk st' = mem_start_brk fresh_state /\
    mem_max_addr st' = mem_max_addr fresh_state /\
    load_word st' base = pack 0 true true false /\
    header st' (base + 8) = pack chunksize false true false /\
    load_word st' (base + chunksize) = pack chunksize false true false /\
    (get_size st' (base + 8 + chunksize) = 0 /\
     get_alloc st' (base + 8 + chunksize) = true /\
     get_prev_alloc st' (base + 8 + chunksize) = false /\
     get_prev_mini st' (base + 8 + chunksize) = false) /\
    lists_wf st' (push_class (repeat [] NUM_CLASSES) 7 (base + 8)) [] /\
    (forall w, w + 8 <= base -> load_word st' w = load_word fresh_state w).
Proof.
  apply (X18_mm_init_builds_initial_heap run_fuel fresh_state).
  - reflexivity.
  - vm_compute. congruence.
  - vm_compute. congruence.
  - vm_compute. congruence.
Defined.

(** X19.  [mm_init] fails when the memory system has less than 16 + 4096
    bytes above the break.  With less than 16 bytes nothing changes; with
    at least 16 the prologue and the epilogue stay written, the break has
    moved by 16 bytes and [heap_start] is set, so that a later [malloc]
    does not initialise again. *)
Theorem X19_mm_init_out_of_memory :
  forall fuel st,
    length (size_class st) = NUM_CLASSES ->
    0 <= mem_brk st -> mem_brk st + wsize < word_modulus - 1 ->
    mem_max_addr st - mem_brk st < 2 * wsize + chunksize ->
    exists st',
      mm_init fuel st = Some (st', false) /\
      (mem_max_addr st - mem_brk st < 2 * wsize -> st' = st) /\
      (2 * wsize <= mem_max_addr st - mem_brk st ->
       mem_brk st' = mem_brk st + 2 * wsize /\
       heap_start st' = mem_brk st + wsize /\
       load_word st' (mem_brk st) = pack 0 true true false /\
       load_word st' (mem_brk st + wsize) = pack 0 true true false).
Proof.
  intros fuel st Hlen H0 Hwm Hroom.
  destruct (Z.lt_ge_cases (mem_max_addr st - mem_brk st) (2 * wsize)) as [Hs|Hs].
  - exists st. split; [|split; [reflexivity|intros; lia]].
    unfold mm_init, mem_sbrk.
    destruct (Z.ltb_spec (mem_max_addr st - mem_brk st) (2 * wsize)) as [_|]; [|lia].
    rewrite orb_true_r, Z.eqb_refl. reflexivity.
  - rewrite (mm_init_eq fuel st H0 Hs Hwm).
    destruct (init_state_facts st (set_brk st (mem_brk st + 2 * wsize)) _ Hlen
                eq_refl eq_refl eq_refl) as (L5 & B5 & _).
    set (s5 := set_heap_start _ _) in *. clearbody s5.
    destruct (bounds_tuple _ _ _ _ _ B5) as (_ & Hb & Hm & Hh).
    rewrite mem_brk_set_brk in Hb.
    assert (Hm' : mem_max_addr s5 = mem_max_addr st) by exact Hm.
    rewrite (extend_heap_refused fuel s5 chunksize is_size_4096)
      by (rewrite Hb, Hm'; lia).
    change (NULL =? NULL) with true. cbv iota beta.
    exists s5. split; [reflexivity|]. split; [intros; lia|]. intros _.
    split; [exact Hb|]. split; [exact Hh|].
    assert (HP : 0 <= pack 0 true true false < word_modulus)
      by (vm_compute; split; congruence).
    unfold wsize in *. split.
    + rewrite L5, load_store_other by lia. apply load_store_same. exact HP.
    + rewrite L5. apply load_store_same. exact HP.
Qed.

Lemma X19_mm_init_out_of_memory_witness :
  exists st',
    mm_init run_fuel (set_brk fresh_state (mem_max_addr fresh_state - 4096))
    = Some (st', false) /\
    (mem_max_addr (set_brk fresh_state (mem_max_addr fresh_state - 4096))
     - mem_brk (set_brk fresh_state (mem_max_addr fresh_state - 4096)) < 2 * wsize ->
     st' = set_brk fresh_state (mem_max_addr fresh_state - 4096)) /\
    (2 * wsize <= mem_max_addr (set_brk fresh_state (mem_max_addr fresh_state - 4096))
                  - mem_brk (set_brk fresh_state (mem_max_addr fresh_state - 4096)) ->
     mem_brk st' = mem_brk (set_brk fresh_state (mem_max_addr fresh_state - 4096))
                   + 2 * wsize /\
     heap_start st' = mem_brk (set_brk fresh_state (mem_max_addr fresh_state - 4096))
                      + wsize /\
     load_word st' (mem_brk (set_brk fresh_state (mem_max_addr fresh_state - 4096)))
     = pack 0 true true false /\
     load_word st' (mem_brk (set_brk fresh_state (mem_max_addr fresh_state - 4096)) + wsize)
     = pack 0 true true false).
Proof.
  apply (X19_mm_init_out_of_memory run_fuel
           (set_brk fresh_state (mem_max_addr fresh_state - 4096))).
  - reflexivity.
  - vm_compute. congruence.
  - vm_compute. reflexivity.
  - vm_compute. reflexivity.
Defined.

(** ** The checker on the initial heap *)

Lemma mm_checkheap_accepts fuel st blocks classes mini :
  prologue_ok st ->
  checked_walk st NULL (heap_start st) blocks ->
  free_lists st classes mini ->
  (length blocks < fuel)%nat ->
  (forall l, In l (mini :: classes) -> (length l < fuel)%nat) ->
  count_free st blocks = count_nodes classes mini ->
  mm_checkheap fuel st = Some true.
Proof.
  intros Hpro Hw (Hlen & Hcl & Hmini) Hfuel Hlens Hcount. unfold mm_checkheap.
  unfold prologue_ok in Hpro. rewrite Hpro, Z.eqb_refl. cbn [negb].
  rewrite (checkheap_walk_passes st _ _ _ Hw) by exact Hfuel.
  rewrite <- Hlen.
  rewrite (count_classes_complete st fuel classes 0 0).
  - rewrite (count_list_complete st mini _ fuel _ Hmini)
      by (apply Hlens; left; reflexivity).
    unfold count_nodes in Hcount.
    destruct (Z.eqb_spec (0 + Z.of_nat (length (concat classes)) + Z.of_nat (length mini))
                         (0 + count_free st blocks)) as [E|E];
      cbn [negb]; [reflexivity|exfalso; lia].
  - intros j Hj. apply Hcl. rewrite <- Hlen. exact Hj.
  - intros l Hl. apply Hlens. right. exact Hl.
Qed.

Lemma lists_wf_free_lists st classes mini :
  lists_wf st classes mini -> free_lists st classes mini.
Proof.
  intros Hwf. split; [exact (wf_classes _ _ _ Hwf)|]. split.
  - intros i Hi. exact (proj1 (wf_dlist _ _ _ Hwf i Hi)).
  - exact (wf_mini_list _ _ _ Hwf).
Qed.

(** X20.  The heap built by a successful [mm_init] passes
    [mm_checkheap], given fuel for a walk over one block and a list of
    one node. *)
Theorem X20_initial_heap_passes_checkheap :
  forall fuel fuel' st,
    length (size_class st) = NUM_CLASSES ->
    0 <= mem_brk st -> mem_start_brk st <= mem_brk st + wsize ->
    mem_brk st + 2 * wsize + chunksize <= mem_max_addr st ->
    mem_brk st + 2 * wsize + chunksize <= word_modulus ->
    (2 <= fuel')%nat ->
    exists st',
      mm_init fuel st = Some (st', true) /\ mm_checkheap fuel' st' = Some true.
Proof.
  intros fuel fuel' st Hlen H0 Hlo Hroom Hwm Hfuel.
  destruct (mm_init_spec fuel st Hlen H0 Hroom Hwm)
    as (st' & E & Hhs & Hbrk & Hsb & Hmx & Hpro & Hh & Hfoot & Hepi & W & _).
  cbv zeta in *.
  assert (Hc : chunksize = 4096) by reflexivity.
  assert (Hws : wsize = 8) by reflexivity.
  rewrite Hc, Hws in *.
  set (base := mem_brk st) in *.
  exists st'. split; [exact E|].
  destruct (header_pack_flags st' (base + 8) 4096 _ _ _ is_size_4096 Hh)
    as (Hs & Ha & Hpa & Hpm).
  assert (Hn : find_next st' (base + 8) = base + 8 + 4096).
  { unfold find_next. rewrite Hs. apply wrap_small. lia. }
  destruct Hepi as (Hes & Hea & _).
  apply (mm_checkheap_accepts fuel' st' [base + 8]
           (push_class (repeat [] NUM_CLASSES) 7 (base + 8)) []).
  - unfold prologue_ok. rewrite Hhs, Hws.
    replace (base + 8 - 8) with base by lia.
    rewrite wrap_small by (unfold word_modulus in *; lia). exact Hpro.
  - rewrite Hhs. apply checked_walk_step.
    + rewrite Hs. lia.
    + unfold block_checks. rewrite Hs, Hn.
      split; [reflexivity|].
      split; [unfold mem_heap_lo, mem_heap_hi; rewrite Hsb, Hbrk; lia|].
      split; [intros Hne; exfalso; apply Hne; reflexivity|].
      split; [intros _; left; exact Hea|].
      intros _ _. unfold header_to_footer. rewrite Hs.
      unfold payload_offset, dsize, wsize.
      replace (base + 8 + 8 + 4096 - 2 * 8) with (base + 4096) by lia.
      rewrite wrap_small by lia. rewrite Hfoot. exact Hh.
    + rewrite Hn. apply checked_walk_end. exact Hes.
  - apply lists_wf_free_lists. exact W.
  - cbn. lia.
  - intros l [<-|Hl]; [cbn; lia|].
    assert (Hle : (length l <= 1)%nat).
    { cbn in Hl. repeat (destruct Hl as [<-|Hl]; [cbn; lia|]). destruct Hl. }
    lia.
  - rewrite count_free_cons, Ha. reflexivity.
Qed.

Lemma X20_initial_heap_passes_checkheap_witness :
  exists st',
    mm_init run_fuel fresh_state = Some (st', true) /\
    mm_checkheap run_fuel st' = Some true.
Proof.
  apply (X20_initial_heap_passes_checkheap run_fuel run_fuel fresh_state).
  - reflexivity.
  - vm_compute. congruence.
  - vm_compute. congruence.
  - vm_compute. congruence.
  - vm_compute. congruence.
  - unfold run_fuel. lia.
Defined.

(** ** Freeing a block between allocated blocks *)

(** The branch of [coalesce_block] that merges nothing is two stores to
    the header of the next block. *)
Lemma coalesce_none_stores st B :
  get_alloc st (find_next st B) = true ->
  find_next st B + 8 <= B \/ B + 8 <= find_next st B ->
  exists h1 h2,
    coalesce_none st B
    = (store_word (store_word st (find_next st B) h1) (find_next st B) h2, B) /\
    get_alloc (fst (coalesce_none st B)) (find_next st B) = true /\
    get_prev_alloc (fst (coalesce_none st B)) (find_next st B) = false /\
    get_prev_mini (fst (coalesce_none st B)) (find_next st B) = get_mini st B /\
    get_size (fst (coalesce_none st B)) (find_next st B) = get_size st (find_next st B).
Proof.
  intros Ha Hd. unfold coalesce_none. cbn [fst].
  set (N := find_next st B) in *.
  assert (Hm : get_mini (clear_prev_alloc st N) B = get_mini st B).
  { unfold get_mini, get_size, clear_prev_alloc, set_header.
    unfold header at 1. rewrite load_store_other by lia. reflexivity. }
  rewrite Hm.
  destruct (flags_allocated st N false (get_mini st B) Ha)
    as (h1 & h2 & E & Hfa & Hfpa & Hfpm & Hfs).
  cbv zeta iota in E, Hfa, Hfpa, Hfpm, Hfs.
  exists h1, h2. rewrite E. split; [reflexivity|].
  rewrite <- E. split; [exact Hfa|]. split; [exact Hfpa|]. split; [exact Hfpm|exact Hfs].
Qed.

Section Free.
Variables (st : State) (classes : list (list Z)) (mini : list Z) (B : Z).
Hypothesis Hwf : lists_wf st classes mini.
Hypothesis HB0 : 0 < B.
Hypothesis HS : mb_block_size <= get_size st B.
Hypothesis HBr : B + get_size st B + 8 <= word_modulus.
Hypothesis Hap : forall a, In a (all_nodes classes mini) -> apart st a B.
Hypothesis Hpa : get_prev_alloc st B = true.
Hypothesis HN : allocated_header st classes mini (B + get_size st B).

Local Abbreviation size := (get_size st B).
Local Abbreviation N := (B + get_size st B).
Local Abbreviation pm := (get_prev_mini st B).

Lemma free_node a :
  In a (all_nodes classes mini) ->
  16 <= get_size st a /\
  (a + get_size st a <= B \/ N <= a) /\
  (N + 8 <= a \/ a + get_size st a <= N).
Proof.
  intros Ha. split; [exact (node_size _ _ _ a Hwf Ha)|].
  split; [exact (Hap a Ha)|]. exact (proj2 (proj2 HN) a Ha).
Qed.

(** After the header (and footer) of [B] are rewritten as free and the
    flags of the next block updated, before [B] is put on a list. *)
Lemma free_coalesced fuel :
  let s1 := write_block st B size false (get_prev_alloc st B) pm in
  exists s2,
    coalesce_block fuel s1 B = Some (s2, B) /\
    lists_wf s2 classes mini /\
    (forall a, In a (all_nodes classes mini) -> get_size s2 a = get_size st a) /\
    header s2 B = pack size false true pm /\
    (size <> mb_block_size -> load_word s2 (N - 8) = pack size false true pm) /\
    (get_alloc s2 N = true /\ get_prev_alloc s2 N = false /\
     get_prev_mini s2 N = (size =? mb_block_size) /\ get_size s2 N = get_size st N) /\
    bounds_of s2 = bounds_of st.
Proof.
  intros s1. subst s1. rewrite Hpa. unfold mb_block_size in *.
  set (s1 := write_block st B size false true pm).
  pose proof (get_size_is_size st B) as Hsz.
  set (h := pack size false true pm).
  assert (Hh : 0 <= h < word_modulus) by (apply pack_word; exact (proj1 Hsz)).
  assert (Hs1 : lists_wf s1 classes mini /\
                (forall a, In a (all_nodes classes mini) -> get_size s1 a = get_size st a) /\
                load_word s1 B = h /\
                (size <> 16 -> load_word s1 (N - 8) = h) /\
                load_word s1 N = load_word st N /\
                bounds_of s1 = bounds_of st).
  { destruct (Z.eq_dec size 16) as [E16|Hne].
    - assert (E1 : s1 = store_word st B h).
      { unfold s1, h. rewrite E16. apply write_block_free_mini. }
      destruct (store_outside st classes mini B h Hwf) as [W1 S1].
      { intros a Ha. destruct (free_node a Ha) as (Hs & H & _).
        unfold word_outside, wsize. lia. }
      rewrite E1. split; [exact W1|]. split; [exact S1|].
      split; [apply load_store_same; exact Hh|]. split; [intros; contradiction|].
      split; [apply load_store_other; lia|apply bounds_store_word].
    - assert (H32 : 32 <= size).
      { destruct Hsz as [_ Hm]. Z.div_mod_to_equations. lia. }
      assert (E1 : s1 = store_word (store_word st B h) (N - 8) h).
      { unfold s1. rewrite (write_block_free_regular st B size true pm Hsz H32 HB0)
          by (unfold word_modulus in *; lia).
        fold h. replace (B + size - 8) with (N - 8) by lia. reflexivity. }
      destruct (store_outside st classes mini B h Hwf) as [Wa Sa].
      { intros a Ha. destruct (free_node a Ha) as (Hs & H & _).
        unfold word_outside, wsize. lia. }
      destruct (store_outside _ classes mini (N - 8) h Wa) as [W1 S1].
      { intros a Ha. destruct (free_node a Ha) as (Hs & H & _).
        unfold word_outside, wsize. rewrite (Sa a Ha). lia. }
      rewrite E1. split; [exact W1|].
      split; [intros a Ha; rewrite (S1 a Ha); exact (Sa a Ha)|].
      split; [rewrite load_store_other by lia; apply load_store_same; exact Hh|].
      split; [intros _; apply load_store_same; exact Hh|].
      split; [rewrite !load_store_other by lia; reflexivity|].
      rewrite !bounds_store_word. reflexivity. }
  clearbody s1. destruct Hs1 as (W1 & S1 & L1B & L1f & L1N & B1).
  destruct (header_pack_flags s1 B size _ _ _ Hsz L1B) as (HsB & HaB & HpaB & HpmB).
  assert (Hn1 : find_next s1 B = N).
  { unfold find_next. rewrite HsB. apply wrap_small. unfold word_modulus in *. lia. }
  assert (Ha1 : get_alloc s1 N = true).
  { rewrite get_alloc_bit. unfold header. rewrite L1N.
    fold (header st N). rewrite <- get_alloc_bit. exact (proj1 HN). }
  rewrite (coalesce_block_alloc_alloc fuel s1 B HpaB) by (rewrite Hn1; exact Ha1).
  destruct (coalesce_none_stores s1 B) as (h1 & h2 & E2 & Hfa & Hfpa & Hfpm & Hfs).
  { rewrite Hn1. exact Ha1. }
  { rewrite Hn1. right. lia. }
  rewrite Hn1 in E2, Hfa, Hfpa, Hfpm, Hfs. rewrite E2 in Hfa, Hfpa, Hfpm, Hfs |- *.
  cbn [fst] in Hfa, Hfpa, Hfpm, Hfs.
  set (s2 := store_word (store_word s1 N h1) N h2) in *.
  assert (E : s2 = store_word (store_word s1 N h1) N h2) by reflexivity.
  clearbody s2.
  destruct (store_outside s1 classes mini N h1 W1) as [Wb Sb].
  { intros a Ha. unfold word_outside. rewrite (S1 a Ha). exact (proj2 (proj2 HN) a Ha). }
  destruct (store_outside _ classes mini N h2 Wb) as [W2 S2].
  { intros a Ha. unfold word_outside. rewrite (Sb a Ha), (S1 a Ha).
    exact (proj2 (proj2 HN) a Ha). }
  rewrite <- E in W2, S2.
  exists s2. split; [reflexivity|]. split; [exact W2|].
  split; [intros a Ha; rewrite (S2 a Ha), (Sb a Ha); exact (S1 a Ha)|].
  split; [unfold header; rewrite E, !load_store_other by lia; exact L1B|].
  split; [intros Hne; rewrite E, !load_store_other by lia; exact (L1f Hne)|].
  split.
  { split; [exact Hfa|]. split; [exact Hfpa|]. split.
    - rewrite Hfpm. unfold get_mini. rewrite HsB. reflexivity.
    - rewrite Hfs. exact (proj1 (header_flags st s1 _ L1N)). }
  rewrite E, !bounds_store_word. exact B1.
Qed.

End Free.

Lemma free_spec fuel st classes mini bp :
  lists_wf st classes mini ->
  8 < bp < word_modulus ->
  mb_block_size <= get_size st (bp - 8) ->
  bp - 8 + get_size st (bp - 8) + 8 <= word_modulus ->
  (forall a, In a (all_nodes classes mini) -> apart st a (bp - 8)) ->
  get_prev_alloc st (bp - 8) = true ->
  allocated_header st classes mini (bp - 8 + get_size st (bp - 8)) ->
  let B := bp - 8 in
  let size := get_size st B in
  let N := B + size in
  exists st',
    free fuel st bp = Some st' /\
    header st' B = pack size false true (get_prev_mini st B) /\
    (size <> mb_block_size ->
     load_word st' (N - 8) = pack size false true (get_prev_mini st B)) /\
    (get_alloc st' N = true /\ get_prev_alloc st' N = false /\
     get_prev_mini st' N = (size =? mb_block_size) /\ get_size st' N = get_size st N) /\
    lists_wf st'
      (if size =? mb_block_size then classes
       else push_class classes (size_to_class size) B)
      (if size =? mb_block_size then B :: mini else mini) /\
    bounds_of st' = bounds_of st.
Proof.
  intros Hwf Hbp HS HBr Hap Hpa HN B size N. fold B in HS, HBr, Hap, Hpa, HN.
  fold size in HS, HBr, HN. fold N in HN.
  unfold free.
  destruct (Z.eqb_spec bp NULL) as [E|_]; [unfold NULL in E; lia|].
  assert (Hp : payload_to_header bp = B).
  { unfold payload_to_header, payload_offset. apply wrap_small. lia. }
  rewrite Hp. fold size.
  destruct (free_coalesced st classes mini B Hwf ltac:(unfold B; lia) HS HBr Hap Hpa HN fuel)
    as (s2 & E2 & W2 & S2 & HhB & Hfoot & HNf & B2).
  fold size N in E2, HhB, Hfoot, HNf. rewrite E2.
  pose proof (get_size_is_size st B) as Hsz. fold size in Hsz.
  destruct (header_pack_flags s2 B size _ _ _ Hsz HhB) as (HsB & _).
  assert (Hnode : forall a, In a (all_nodes classes mini) ->
            16 <= get_size st a /\ (a + get_size st a <= B \/ N <= a) /\
            (N + 8 <= a \/ a + get_size st a <= N)).
  { intros a Ha. split; [exact (node_size _ _ _ a Hwf Ha)|].
    split; [exact (Hap a Ha)|exact (proj2 (proj2 HN) a Ha)]. }
  assert (Hap2 : forall a, In a (all_nodes classes mini) -> apart s2 a B).
  { intros a Ha. unfold apart. rewrite HsB, (S2 a Ha). exact (Hap a Ha). }
  unfold get_mini. rewrite HsB. unfold mb_block_size in *.
  destruct (Z.eqb_spec size 16) as [E16|Hne].
  - destruct (add_to_mini_list_spec s2 classes mini B W2) as (W3 & _ & _ & Hfr).
    { rewrite HsB. exact E16. }
    { unfold B. lia. }
    { unfold mb_block_size, N in *. lia. }
    { exact Hap2. }
    set (s3 := add_to_mini_list s2 B) in *.
    assert (B3 : bounds_of s3 = bounds_of s2) by apply bounds_add_to_mini_list.
    clearbody s3.
    exists s3. split; [reflexivity|].
    split; [unfold header; rewrite Hfr by lia; exact HhB|].
    split; [intros; contradiction|].
    assert (HF : header s3 N = header s2 N).
    { unfold header. apply Hfr. unfold N. lia. }
    split; [destruct (header_flags s2 s3 N HF) as (-> & -> & -> & ->); exact HNf|].
    split; [exact W3|]. rewrite B3. exact B2.
  - assert (H32 : 32 <= size).
    { destruct Hsz as [_ Hm]. Z.div_mod_to_equations. lia. }
    destruct (add_to_free_list_spec s2 classes mini B W2) as (W3 & _).
    { rewrite HsB. unfold min_block_size, dsize, wsize. lia. }
    { unfold B. lia. }
    { rewrite HsB. unfold N, word_modulus in *. lia. }
    { exact Hap2. }
    rewrite HsB in W3.
    assert (Hfr : forall w, w + 8 <= B + 8 \/ B + 24 <= w -> B <= w <= N ->
              load_word (add_to_free_list s2 B) w = load_word s2 w).
    { intros w Hw1 Hw2. apply (add_to_free_list_frame s2 classes mini B w W2 Hw1).
      intros a Ha. rewrite (S2 a Ha). destruct (Hnode a Ha) as (Hs & H1 & H2). lia. }
    set (s3 := add_to_free_list s2 B) in *.
    assert (B3 : bounds_of s3 = bounds_of s2) by apply bounds_add_to_free_list.
    clearbody s3.
    exists s3. split; [reflexivity|].
    split; [unfold header; rewrite Hfr by (unfold N; lia); exact HhB|].
    split; [intros _; rewrite Hfr by (unfold N; lia); exact (Hfoot Hne)|].
    assert (HF : header s3 N = header s2 N).
    { unfold header. apply Hfr; unfold N; lia. }
    split; [destruct (header_flags s2 s3 N HF) as (-> & -> & -> & ->); exact HNf|].
    split; [exact W3|]. rewrite B3. exact B2.
Qed.

(** X21.  [free] of a block [B] (payload [bp]) whose previous block, by
    its [prev_alloc] bit, and next block [N] are allocated: the header of
    [B] keeps its size and its [prev_mini] bit and has [alloc] clear and
    [prev_alloc] set, a regular block gets a footer equal to its header;
    [B] is put at the head of the mini list if its size is 16, else at the
    head of the list of its size class, and the lists stay well formed;
    [N] stays allocated with its size, [prev_alloc] clear and [prev_mini]
    telling whether [B] is a mini block; the memory system is left as it
    is. *)
Theorem X21_free_between_allocated_blocks :
  forall fuel st classes mini bp,
    lists_wf st classes mini ->
    8 < bp < word_modulus ->
    mb_block_size <= get_size st (bp - 8) ->
    bp - 8 + get_size st (bp - 8) + 8 <= word_modulus ->
    (forall a, In a (all_nodes classes mini) -> apart st a (bp - 8)) ->
    get_prev_alloc st (bp - 8) = true ->
    allocated_header st classes mini (bp - 8 + get_size st (bp - 8)) ->
    let B := bp - 8 in
    let size := get_size st B in
    let N := B + size in
    exists st',
      free fuel st bp = Some st' /\
      (get_size st' B = size /\ get_alloc st' B = false /\
       get_prev_alloc st' B = true /\ get_prev_mini st' B = get_prev_mini st B) /\
      (size <> mb_block_size -> load_word st' (header_to_footer st' B) = header st' B) /\
      (get_alloc st' N = true /\ get_prev_alloc st' N = false /\
       get_prev_mini st' N = (size =? mb_block_size) /\ get_size st' N = get_size st N) /\
      lists_wf st'
        (if size =? mb_block_size then classes
         else push_class classes (size_to_class size) B)
        (if size =? mb_block_size then B :: mini else mini) /\
      bounds_of st' = bounds_of st.
Proof.
  intros fuel st classes mini bp Hwf Hbp HS HBr Hap Hpa HN B size N.
  destruct (free_spec fuel st classes mini bp Hwf Hbp HS HBr Hap Hpa HN)
    as (st' & E & HhB & Hfoot & HNf & W & Hb).
  fold B size N in E, HhB, Hfoot, HNf, W.
  exists st'. split; [exact E|].
  pose proof (get_size_is_size st B) as Hsz. fold size in Hsz.
  pose proof (header_pack_flags st' B size _ _ _ Hsz HhB) as Hflags.
  split; [exact Hflags|].
  split.
  { intros Hne. unfold header_to_footer. rewrite (proj1 Hflags), HhB.
    unfold payload_offset, dsize, wsize.
    replace (B + 8 + size - 2 * 8) with (N - 8) by (unfold N; lia).
    rewrite wrap_small by (unfold N, B, mb_block_size, word_modulus in *; lia).
    exact (Hfoot Hne). }
  split; [exact HNf|]. split; [exact W|exact Hb].
Qed.

Lemma free_scenario_lists : lists_wf FreeBetween.st_alloc FreeBetween.classes [].
Proof.
  assert (Hnodes : all_nodes FreeBetween.classes [] = [65800]) by reflexivity.
  constructor.
  - vm_compute. reflexivity.
  - reflexivity.
  - intros c Hc.
    do 15 (destruct c as [|c]; [vm_compute; repeat split; congruence|]).
    unfold NUM_CLASSES in Hc. lia.
  - vm_compute. reflexivity.
  - intros c a Ha.
    do 15 (destruct c as [|c];
           [cbn in Ha; repeat (destruct Ha as [<-|Ha]; [vm_compute; split; congruence|]);
            destruct Ha|]).
    destruct c; destruct Ha.
  - intros a [].
  - intros a Ha. rewrite Hnodes in Ha.
    repeat (destruct Ha as [<-|Ha]; [vm_compute; split; congruence|]). destruct Ha.
  - rewrite Hnodes. repeat constructor; cbn; intuition congruence.
  - intros a b Ha Hb Hab. rewrite Hnodes in Ha, Hb.
    destruct Ha as [<-|[]]. destruct Hb as [<-|[]]. contradiction.
Qed.

Lemma X21_free_between_allocated_blocks_witness :
  let st := FreeBetween.st_alloc in
  let B := FreeBetween.bp - 8 in
  let size := get_size st B in
  let N := B + size in
  exists st',
    free run_fuel st FreeBetween.bp = Some st' /\
    (get_size st' B = size /\ get_alloc st' B = false /\
     get_prev_alloc st' B = true /\ get_prev_mini st' B = get_prev_mini st B) /\
    (size <> mb_block_size -> load_word st' (header_to_footer st' B) = header st' B) /\
    (get_alloc st' N = true /\ get_prev_alloc st' N = false /\
     get_prev_mini st' N = (size =? mb_block_size) /\ get_size st' N = get_size st N) /\
    lists_wf st'
      (if size =? mb_block_size then FreeBetween.classes
       else push_class FreeBetween.classes (size_to_class size) B)
      (if size =? mb_block_size then [B] else []) /\
    bounds_of st' = bounds_of st.
Proof.
  assert (Hnodes : all_nodes FreeBetween.classes [] = [65800]) by reflexivity.
  apply (X21_free_between_allocated_blocks run_fuel FreeBetween.st_alloc
           FreeBetween.classes [] FreeBetween.bp free_scenario_lists).
  - vm_compute. split; reflexivity.
  - vm_compute. congruence.
  - vm_compute. congruence.
  - intros a Ha. rewrite Hnodes in Ha. destruct Ha as [<-|[]].
    right. vm_compute. congruence.
  - vm_compute. reflexivity.
  - split; [vm_compute; reflexivity|]. split; [vm_compute; congruence|].
    intros a Ha. rewrite Hnodes in Ha. destruct Ha as [<-|[]].
    left. vm_compute. congruence.
Defined.

(** ** Freeing a block next to free blocks *)

(** The first statement of [free]: the header of [B] (and the footer of a
    regular block) is rewritten with the [alloc] bit clear.  The lists and
    every word outside [B] are left as they are. *)
Lemma free_header_step st classes mini B :
  lists_wf st classes mini -> 0 < B ->
  mb_block_size <= get_size st B ->
  B + get_size st B + 8 <= word_modulus ->
  (forall a, In a (all_nodes classes mini) -> apart st a B) ->
  exists s1,
    write_block st B (get_size st B) false (get_prev_alloc st B) (get_prev_mini st B) = s1 /\
    freed_block s1 classes mini B /\
    (forall a, In a (all_nodes classes mini) -> get_size s1 a = get_size st a) /\
    (get_size s1 B = get_size st B /\ get_prev_alloc s1 B = get_prev_alloc st B /\
     get_prev_mini s1 B = get_prev_mini st B) /\
    find_next s1 B = B + get_size st B /\
    (forall w, w + 8 <= B \/ B + get_size st B <= w -> load_word s1 w = load_word st w) /\
    bounds_of s1 = bounds_of st.
Proof.
  intros Hwf HB0 HS HBr Hap. unfold mb_block_size in HS.
  set (size := get_size st B) in *.
  set (pa := get_prev_alloc st B). set (pm := get_prev_mini st B).
  pose proof (get_size_is_size st B) as Hsz. fold size in Hsz.
  set (h := pack size false pa pm).
  assert (Hh : 0 <= h < word_modulus) by (apply pack_word; exact (proj1 Hsz)).
  assert (Hnode : forall a, In a (all_nodes classes mini) ->
            16 <= get_size st a /\ (a + get_size st a <= B \/ B + size <= a)).
  { intros a Ha. split; [exact (node_size _ _ _ a Hwf Ha)|exact (Hap a Ha)]. }
  assert (Hs1 : exists s1, write_block st B size false pa pm = s1 /\
                lists_wf s1 classes mini /\
                (forall a, In a (all_nodes classes mini) -> get_size s1 a = get_size st a) /\
                header s1 B = h /\
                (forall w, w + 8 <= B \/ B + size <= w -> load_word s1 w = load_word st w) /\
                bounds_of s1 = bounds_of st).
  { destruct (Z.eq_dec size 16) as [E16|Hne].
    - exists (store_word st B h).
      split; [unfold h; rewrite E16; apply write_block_free_mini|].
      destruct (store_outside st classes mini B h Hwf) as [W1 S1].
      { intros a Ha. destruct (Hnode a Ha) as (Hs & H).
        unfold word_outside, wsize. lia. }
      split; [exact W1|]. split; [exact S1|].
      split; [apply header_store_same; exact Hh|].
      split; [intros w Hw; apply load_store_other; lia|apply bounds_store_word].
    - assert (H32 : 32 <= size).
      { destruct Hsz as [_ Hm]. Z.div_mod_to_equations. lia. }
      exists (store_word (store_word st B h) (B + size - 8) h).
      split.
      { rewrite (write_block_free_regular st B size pa pm Hsz H32 HB0)
          by (unfold word_modulus in *; lia).
        reflexivity. }
      destruct (store_outside st classes mini B h Hwf) as [Wa Sa].
      { intros a Ha. destruct (Hnode a Ha) as (Hs & H).
        unfold word_outside, wsize. lia. }
      destruct (store_outside _ classes mini (B + size - 8) h Wa) as [W1 S1].
      { intros a Ha. destruct (Hnode a Ha) as (Hs & H).
        unfold word_outside, wsize. rewrite (Sa a Ha). lia. }
      split; [exact W1|].
      split; [intros a Ha; rewrite (S1 a Ha); exact (Sa a Ha)|].
      split.
      { unfold header. rewrite load_store_other by lia. apply load_store_same. exact Hh. }
      split; [intros w Hw; rewrite !load_store_other by lia; reflexivity|].
      rewrite !bounds_store_word. reflexivity. }
  destruct Hs1 as (s1 & E1 & W1 & S1 & HhB & Fr & B1).
  exists s1. split; [exact E1|]. clear E1.
  destruct (header_pack_flags s1 B size _ _ _ Hsz HhB) as (HsB & HaB & HpaB & HpmB).
  split.
  { constructor.
    - exact W1.
    - exact HaB.
    - rewrite HsB. unfold mb_block_size. exact HS.
    - rewrite HsB. unfold wsize. split; [exact HB0|exact HBr].
    - intros a Ha. unfold apart. rewrite HsB, (S1 a Ha). exact (Hap a Ha). }
  split; [exact S1|].
  split; [split; [exact HsB|split; [exact HpaB|exact HpmB]]|].
  split.
  { unfold find_next. rewrite HsB. apply wrap_small. unfold word_modulus in *. lia. }
  split; [exact Fr|exact B1].
Qed.

(** [find_prev] reads the header of the block and the word before it. *)
Lemma find_prev_same st s1 B :
  8 <= B < word_modulus ->
  get_prev_mini s1 B = get_prev_mini st B ->
  load_word s1 (B - 8) = load_word st (B - 8) ->
  find_prev s1 B = find_prev st B.
Proof.
  intros HB Hpm Hw. unfold find_prev, find_prev_footer, footer_to_header, wsize.
  rewrite Hpm, (wrap_small (B - 8)) by lia. rewrite Hw. reflexivity.
Qed.

(** The last statement of [free] for a merged block [R] of size [T]: it
    is put on the list of its size class; its header and footer and the
    header of the block [F] after it are left as they are. *)
Lemma free_insert s2 classes mini R T F :
  lists_wf s2 classes mini ->
  get_size s2 R = T -> 32 <= T -> 0 < R -> F = R + T -> F + 8 <= word_modulus ->
  (forall a, In a (all_nodes classes mini) -> a + get_size s2 a <= R \/ F <= a) ->
  (forall a, In a (all_nodes classes mini) -> F + 8 <= a \/ a + get_size s2 a <= F) ->
  exists s3,
    (if get_mini s2 R then Some (add_to_mini_list s2 R)
     else Some (add_to_free_list s2 R)) = Some s3 /\
    lists_wf s3 (push_class classes (size_to_class T) R) mini /\
    header s3 R = header s2 R /\
    load_word s3 (F - 8) = load_word s2 (F - 8) /\
    header s3 F = header s2 F /\
    bounds_of s3 = bounds_of s2.
Proof.
  intros W2 HsR H32 HR0 HF HFr Hap HFout.
  unfold get_mini. rewrite HsR.
  destruct (Z.eqb_spec T mb_block_size) as [E|_]; [unfold mb_block_size in E; lia|].
  destruct (add_to_free_list_spec s2 classes mini R W2) as (W3 & _).
  { rewrite HsR. unfold min_block_size, dsize, wsize. lia. }
  { exact HR0. }
  { rewrite HsR. unfold word_modulus in *. lia. }
  { intros a Ha. unfold apart. rewrite HsR, <- HF. exact (Hap a Ha). }
  rewrite HsR in W3.
  assert (Hfr : forall w, w + 8 <= R + 8 \/ R + 24 <= w -> R <= w <= F ->
            load_word (add_to_free_list s2 R) w = load_word s2 w).
  { intros w Hw1 Hw2. apply (add_to_free_list_frame s2 classes mini R w W2 Hw1).
    intros a Ha. pose proof (node_size _ _ _ a W2 Ha) as Hs. unfold mb_block_size in Hs.
    destruct (Hap a Ha) as [H|H]; [right; lia|].
    destruct (HFout a Ha) as [H'|H']; [left; lia|lia]. }
  set (s3 := add_to_free_list s2 R) in *.
  assert (B3 : bounds_of s3 = bounds_of s2) by apply bounds_add_to_free_list.
  clearbody s3.
  exists s3. split; [reflexivity|]. split; [exact W3|].
  split; [unfold header; apply Hfr; lia|].
  split; [apply Hfr; lia|].
  split; [unfold header; apply Hfr; lia|exact B3].
Qed.

(** A block that is allocated, or the epilogue, in [st] is so after the
    header of [B] has been rewritten. *)
Lemma allocated_header_same st s1 classes mini F :
  allocated_header st classes mini F ->
  header s1 F = header st F ->
  (forall a, In a (all_nodes classes mini) -> get_size s1 a = get_size st a) ->
  allocated_header s1 classes mini F.
Proof.
  intros (Ha & Hr & Hout) Hh Hs. split; [|split].
  - rewrite (proj1 (proj2 (header_flags st s1 F Hh))). exact Ha.
  - exact Hr.
  - intros a Hin. unfold word_outside. rewrite (Hs a Hin). exact (Hout a Hin).
Qed.

Lemma free_merges_previous_spec fuel st classes mini bp P :
  let B := bp - 8 in
  let N := B + get_size st B in
  let total := get_size st P + get_size st B in
  lists_wf st classes mini -> (length mini <= fuel)%nat ->
  8 < bp < word_modulus ->
  mb_block_size <= get_size st B ->
  (forall a, In a (all_nodes classes mini) -> apart st a B) ->
  get_prev_alloc st B = false -> find_prev st B = P ->
  In P (all_nodes classes mini) -> P + get_size st P = B ->
  allocated_header st classes mini N ->
  exists st',
    free fuel st bp = Some st' /\
    (get_size st' P = total /\ get_alloc st' P = false /\
     get_prev_alloc st' P = get_prev_alloc st P /\
     get_prev_mini st' P = get_prev_mini st P) /\
    load_word st' (header_to_footer st' P) = header st' P /\
    (get_alloc st' N = true /\ get_prev_alloc st' N = false /\
     get_prev_mini st' N = false /\ get_size st' N = get_size st N) /\
    lists_wf st' (push_class (map (without P) classes) (size_to_class total) P)
      (without P mini) /\
    bounds_of st' = bounds_of st.
Proof.
  intros B N total Hwf Hfuel Hbp HS Hap Hpa HP HPin HPB HN.
  pose proof HN as (HNa & HNr & HNout). unfold wsize in HNr.
  pose proof (node_size _ _ _ P Hwf HPin) as HsP. unfold mb_block_size in HsP, HS.
  destruct (wf_range _ _ _ Hwf P HPin) as [HP0 _].
  assert (HB0 : 0 < B) by (unfold B; lia).
  unfold free.
  destruct (Z.eqb_spec bp NULL) as [E|_]; [unfold NULL in E; lia|].
  assert (Hp : payload_to_header bp = B).
  { unfold payload_to_header, payload_offset. apply wrap_small. lia. }
  rewrite Hp. cbv zeta.
  destruct (free_header_step st classes mini B Hwf HB0 HS ltac:(fold N; lia) Hap)
    as (s1 & E1 & Hfb & S1 & (HsB & HpaB & HpmB) & Hn1 & Fr & B1).
  rewrite E1. clear E1. fold N in Hn1, Fr.
  assert (HhN : header s1 N = header st N) by (unfold header; apply Fr; lia).
  assert (HhP : header s1 P = header st P) by (unfold header; apply Fr; lia).
  destruct (coalesce_free_alloc_full fuel s1 classes mini B P Hfb Hfuel)
    as (s2 & E2 & Hsz2 & Hal2 & W2 & _ & Hfpa & Hfpm & (Hrpa & Hrpm) & Hfoot
        & (HaN & HsN) & Hsizes & B2).
  { rewrite HpaB. exact Hpa. }
  { rewrite <- HP. apply find_prev_same; [unfold word_modulus in *; lia|exact HpmB|].
    apply Fr. lia. }
  { exact HPin. }
  { rewrite (S1 P HPin). exact HPB. }
  { rewrite Hn1. exact (allocated_header_same st s1 classes mini N HN HhN S1). }
  rewrite Hn1 in Hfpa, Hfpm, HaN, HsN.
  rewrite (S1 P HPin), HsB in Hsz2. fold total in Hsz2.
  rewrite E2. clear E2.
  destruct (free_insert s2 (map (without P) classes) (without P mini) P total N W2 Hsz2)
    as (s3 & E3 & W3 & H3P & H3f & H3N & B3).
  { unfold total. lia. }
  { exact HP0. }
  { unfold total, N. lia. }
  { exact HNr. }
  { intros a Ha. rewrite all_nodes_without in Ha. apply in_without in Ha.
    destruct Ha as [Ha HaP]. rewrite (Hsizes a Ha HaP), (S1 a Ha).
    pose proof (node_size _ _ _ a Hwf Ha) as Hsa. unfold mb_block_size in Hsa.
    pose proof (wf_apart _ _ _ Hwf a P Ha HPin HaP) as H1.
    pose proof (Hap a Ha) as H2.
    unfold apart in *. fold N in H2. lia. }
  { intros a Ha. rewrite all_nodes_without in Ha. apply in_without in Ha.
    destruct Ha as [Ha HaP]. rewrite (Hsizes a Ha HaP), (S1 a Ha).
    pose proof (HNout a Ha) as H. unfold word_outside, wsize in H. lia. }
  cbv beta iota. rewrite E3. clear E3.
  exists s3. split; [reflexivity|].
  destruct (header_flags s2 s3 P H3P) as (-> & -> & -> & ->).
  destruct (header_flags s2 s3 N H3N) as (-> & -> & -> & ->).
  destruct (header_flags st s1 P HhP) as (_ & _ & EPa & EPm).
  destruct (header_flags st s1 N HhN) as (ENs & _).
  split.
  { split; [exact Hsz2|]. split; [exact Hal2|].
    split; [rewrite Hrpa; exact EPa|rewrite Hrpm; exact EPm]. }
  split.
  { assert (Ef : header_to_footer s3 P = N - 8).
    { unfold header_to_footer.
      rewrite (proj1 (header_flags s2 s3 P H3P)), Hsz2.
      unfold payload_offset, dsize, wsize.
      rewrite wrap_small by (unfold total, N, word_modulus in *; lia).
      unfold total, N. lia. }
    assert (Ef2 : header_to_footer s2 P = N - 8).
    { unfold header_to_footer. rewrite Hsz2.
      unfold payload_offset, dsize, wsize.
      rewrite wrap_small by (unfold total, N, word_modulus in *; lia).
      unfold total, N. lia. }
    rewrite Ef, H3f, H3P, <- Ef2. exact Hfoot. }
  split.
  { split; [exact HaN|]. split; [exact Hfpa|]. split; [exact Hfpm|].
    rewrite HsN. exact ENs. }
  split; [exact W3|]. rewrite B3, B2. exact B1.
Qed.

Lemma free_merges_next_spec fuel st classes mini bp :
  let B := bp - 8 in
  let X := B + get_size st B in
  let F := X + get_size st X in
  let total := get_size st B + get_size st X in
  lists_wf st classes mini -> (length mini <= fuel)%nat ->
  8 < bp < word_modulus ->
  mb_block_size <= get_size st B ->
  (forall a, In a (all_nodes classes mini) -> apart st a B) ->
  get_prev_alloc st B = true ->
  get_alloc st X = false -> In X (all_nodes classes mini) ->
  allocated_header st classes mini F ->
  exists st',
    free fuel st bp = Some st' /\
    (get_size st' B = total /\ get_alloc st' B = false /\
     get_prev_alloc st' B = true /\
     get_prev_mini st' B = get_prev_mini st B) /\
    load_word st' (header_to_footer st' B) = header st' B /\
    (get_alloc st' F = true /\ get_prev_alloc st' F = false /\
     get_prev_mini st' F = false /\ get_size st' F = get_size st F) /\
    lists_wf st' (push_class (map (without X) classes) (size_to_class total) B)
      (without X mini) /\
    bounds_of st' = bounds_of st.
Proof.
  intros B X F total Hwf Hfuel Hbp HS Hap Hpa Hna HXin HF.
  pose proof HF as (HFa & HFr & HFout). unfold wsize in HFr.
  pose proof (node_size _ _ _ X Hwf HXin) as HsX. unfold mb_block_size in HsX, HS.
  destruct (wf_range _ _ _ Hwf X HXin) as [HX0 HX1].
  assert (HB0 : 0 < B) by (unfold B; lia).
  unfold free.
  destruct (Z.eqb_spec bp NULL) as [E|_]; [unfold NULL in E; lia|].
  assert (Hp : payload_to_header bp = B).
  { unfold payload_to_header, payload_offset. apply wrap_small. lia. }
  rewrite Hp. cbv zeta.
  destruct (free_header_step st classes mini B Hwf HB0 HS ltac:(fold X; lia) Hap)
    as (s1 & E1 & Hfb & S1 & (HsB & HpaB & HpmB) & Hn1 & Fr & B1).
  rewrite E1. clear E1. fold X in Hn1, Fr.
  assert (HhX : header s1 X = header st X) by (unfold header; apply Fr; lia).
  assert (HhF : header s1 F = header st F) by (unfold header; apply Fr; unfold F; lia).
  assert (HsX1 : get_size s1 X = get_size st X) by exact (S1 X HXin).
  rewrite (coalesce_block_alloc_free fuel s1 B).
  2: { rewrite HpaB. exact Hpa. }
  2: { rewrite Hn1, (proj1 (proj2 (header_flags st s1 X HhX))). exact Hna. }
  2: { rewrite Hn1. unfold NULL. lia. }
  destruct (coalesce_next_full fuel s1 classes mini B Hfb Hfuel)
    as (s2 & E2 & Hsz2 & Hal2 & W2 & _ & Hfpa & Hfpm & _ & (Hrpa & Hrpm) & Hfoot
        & (HaF & HsF) & Hsizes & B2).
  { rewrite Hn1. exact HXin. }
  { rewrite Hn1, HsX1. exact (allocated_header_same st s1 classes mini F HF HhF S1). }
  rewrite Hn1 in Hfpa, Hfpm, HaF, HsF, W2, Hsizes, Hsz2.
  rewrite HsX1 in Hfpa, Hfpm, HaF, HsF, Hsz2.
  fold F in Hfpa, Hfpm, HaF, HsF.
  rewrite HsB in Hsz2. fold total in Hsz2.
  rewrite E2. clear E2.
  destruct (free_insert s2 (map (without X) classes) (without X mini) B total F W2 Hsz2)
    as (s3 & E3 & W3 & H3B & H3f & H3F & B3).
  { unfold total. lia. }
  { exact HB0. }
  { unfold total, F, X. lia. }
  { exact HFr. }
  { intros a Ha. rewrite all_nodes_without in Ha. apply in_without in Ha.
    destruct Ha as [Ha HaX]. rewrite (Hsizes a Ha HaX), (S1 a Ha).
    pose proof (node_size _ _ _ a Hwf Ha) as Hsa. unfold mb_block_size in Hsa.
    pose proof (wf_apart _ _ _ Hwf a X Ha HXin HaX) as H1.
    pose proof (Hap a Ha) as H2.
    unfold apart in *. fold X in H2. fold F in H1. lia. }
  { intros a Ha. rewrite all_nodes_without in Ha. apply in_without in Ha.
    destruct Ha as [Ha HaX]. rewrite (Hsizes a Ha HaX), (S1 a Ha).
    pose proof (HFout a Ha) as H. unfold word_outside, wsize in H. lia. }
  cbv beta iota. rewrite E3. clear E3.
  exists s3. split; [reflexivity|].
  assert (Ef : header_to_footer s3 B = F - 8).
  { unfold header_to_footer.
    rewrite (proj1 (header_flags s2 s3 B H3B)), Hsz2.
    unfold payload_offset, dsize, wsize.
    rewrite wrap_small by (unfold total, F, X, word_modulus in *; lia).
    unfold total, F, X. lia. }
  assert (Ef2 : header_to_footer s2 B = F - 8).
  { unfold header_to_footer. rewrite Hsz2.
    unfold payload_offset, dsize, wsize.
    rewrite wrap_small by (unfold total, F, X, word_modulus in *; lia).
    unfold total, F, X. lia. }
  rewrite Ef, H3f, <- Ef2.
  destruct (header_flags s2 s3 B H3B) as (-> & -> & -> & ->).
  destruct (header_flags s2 s3 F H3F) as (-> & -> & -> & ->).
  destruct (header_flags st s1 F HhF) as (EFs & _).
  split.
  { split; [exact Hsz2|]. split; [exact Hal2|].
    split; [rewrite Hrpa, HpaB; exact Hpa|rewrite Hrpm; exact HpmB]. }
  split; [rewrite H3B; exact Hfoot|].
  split.
  { split; [exact HaF|]. split; [exact Hfpa|]. split; [exact Hfpm|].
    rewrite HsF. exact EFs. }
  split; [exact W3|]. rewrite B3, B2. exact B1.
Qed.

Lemma free_merges_both_spec fuel st classes mini bp P :
  let B := bp - 8 in
  let X := B + get_size st B in
  let F := X + get_size st X in
  let total := get_size st P + get_size st B + get_size st X in
  lists_wf st classes mini -> (length mini <= fuel)%nat ->
  8 < bp < word_modulus ->
  mb_block_size <= get_size st B ->
  (forall a, In a (all_nodes classes mini) -> apart st a B) ->
  get_prev_alloc st B = false -> find_prev st B = P ->
  In P (all_nodes classes mini) -> P + get_size st P = B ->
  get_alloc st X = false -> In X (all_nodes classes mini) ->
  allocated_header st classes mini F ->
  exists st',
    free fuel st bp = Some st' /\
    (get_size st' P = total /\ get_alloc st' P = false /\
     get_prev_alloc st' P = get_prev_alloc st P /\
     get_prev_mini st' P = get_prev_mini st P) /\
    load_word st' (header_to_footer st' P) = header st' P /\
    (get_alloc st' F = true /\ get_prev_alloc st' F = false /\
     get_prev_mini st' F = false /\ get_size st' F = get_size st F) /\
    lists_wf st'
      (push_class (map (without X) (map (without P) classes)) (size_to_class total) P)
      (without X (without P mini)) /\
    bounds_of st' = bounds_of st.
Proof.
  intros B X F total Hwf Hfuel Hbp HS Hap Hpa HP HPin HPB Hna HXin HF.
  pose proof HF as (HFa & HFr & HFout). unfold wsize in HFr.
  pose proof (node_size _ _ _ X Hwf HXin) as HsX. unfold mb_block_size in HsX, HS.
  pose proof (node_size _ _ _ P Hwf HPin) as HsP. unfold mb_block_size in HsP.
  destruct (wf_range _ _ _ Hwf X HXin) as [HX0 HX1].
  destruct (wf_range _ _ _ Hwf P HPin) as [HP0 _].
  assert (HB0 : 0 < B) by (unfold B; lia).
  unfold free.
  destruct (Z.eqb_spec bp NULL) as [E|_]; [unfold NULL in E; lia|].
  assert (Hp : payload_to_header bp = B).
  { unfold payload_to_header, payload_offset. apply wrap_small. lia. }
  rewrite Hp. cbv zeta.
  destruct (free_header_step st classes mini B Hwf HB0 HS ltac:(fold X; lia) Hap)
    as (s1 & E1 & Hfb & S1 & (HsB & HpaB & HpmB) & Hn1 & Fr & B1).
  rewrite E1. clear E1. fold X in Hn1, Fr.
  assert (HhX : header s1 X = header st X) by (unfold header; apply Fr; lia).
  assert (HhF : header s1 F = header st F) by (unfold header; apply Fr; unfold F; lia).
  assert (HhP : header s1 P = header st P) by (unfold header; apply Fr; lia).
  assert (HsX1 : get_size s1 X = get_size st X) by exact (S1 X HXin).
  destruct (coalesce_free_free_full fuel s1 classes mini B P Hfb Hfuel)
    as (s2 & E2 & Hsz2 & Hal2 & W2 & _ & Hfpa & Hfpm & (Hrpa & Hrpm) & Hfoot
        & (HaF & HsF) & Hsizes & B2).
  { rewrite HpaB. exact Hpa. }
  { rewrite <- HP. apply find_prev_same; [unfold word_modulus in *; lia|exact HpmB|].
    apply Fr. lia. }
  { exact HPin. }
  { rewrite (S1 P HPin). exact HPB. }
  { rewrite Hn1, (proj1 (proj2 (header_flags st s1 X HhX))). exact Hna. }
  { rewrite Hn1. exact HXin. }
  { rewrite Hn1, HsX1. exact (allocated_header_same st s1 classes mini F HF HhF S1). }
  rewrite Hn1 in Hfpa, Hfpm, HaF, HsF, W2, Hsizes, Hsz2.
  rewrite HsX1 in Hfpa, Hfpm, HaF, HsF, Hsz2.
  fold F in Hfpa, Hfpm, HaF, HsF.
  rewrite (S1 P HPin), HsB in Hsz2. fold total in Hsz2.
  rewrite E2. clear E2.
  destruct (free_insert s2 (map (without X) (map (without P) classes))
              (without X (without P mini)) P total F W2 Hsz2)
    as (s3 & E3 & W3 & H3P & H3f & H3F & B3).
  { unfold total. lia. }
  { exact HP0. }
  { unfold total, F, X. lia. }
  { exact HFr. }
  { intros a Ha. rewrite !all_nodes_without in Ha. apply in_without in Ha.
    destruct Ha as [Ha HaX]. apply in_without in Ha. destruct Ha as [Ha HaP].
    rewrite (Hsizes a Ha HaP HaX), (S1 a Ha).
    pose proof (node_size _ _ _ a Hwf Ha) as Hsa. unfold mb_block_size in Hsa.
    pose proof (wf_apart _ _ _ Hwf a P Ha HPin HaP) as H0.
    pose proof (wf_apart _ _ _ Hwf a X Ha HXin HaX) as H1.
    pose proof (Hap a Ha) as H2.
    unfold apart in *. fold X in H2. fold F in H1. lia. }
  { intros a Ha. rewrite !all_nodes_without in Ha. apply in_without in Ha.
    destruct Ha as [Ha HaX]. apply in_without in Ha. destruct Ha as [Ha HaP].
    rewrite (Hsizes a Ha HaP HaX), (S1 a Ha).
    pose proof (HFout a Ha) as H. unfold word_outside, wsize in H. lia. }
  cbv beta iota. rewrite E3. clear E3.
  exists s3. split; [reflexivity|].
  assert (Ef : header_to_footer s3 P = F - 8).
  { unfold header_to_footer.
    rewrite (proj1 (header_flags s2 s3 P H3P)), Hsz2.
    unfold payload_offset, dsize, wsize.
    rewrite wrap_small by (unfold total, F, X, word_modulus in *; lia).
    unfold total, F, X. lia. }
  assert (Ef2 : header_to_footer s2 P = F - 8).
  { unfold header_to_footer. rewrite Hsz2.
    unfold payload_offset, dsize, wsize.
    rewrite wrap_small by (unfold total, F, X, word_modulus in *; lia).
    unfold total, F, X. lia. }
  rewrite Ef, H3f, <- Ef2.
  destruct (header_flags s2 s3 P H3P) as (-> & -> & -> & ->).
  destruct (header_flags s2 s3 F H3F) as (-> & -> & -> & ->).
  destruct (header_flags st s1 P HhP) as (_ & _ & EPa & EPm).
  destruct (header_flags st s1 F HhF) as (EFs & _).
  split.
  { split; [exact Hsz2|]. split; [exact Hal2|].
    split; [rewrite Hrpa; exact EPa|rewrite Hrpm; exact EPm]. }
  split; [rewrite H3P; exact Hfoot|].
  split.
  { split; [exact HaF|]. split; [exact Hfpa|]. split; [exact Hfpm|].
    rewrite HsF. exact EFs. }
  split; [exact W3|]. rewrite B3, B2. exact B1.
Qed.

(** X22.  [free] of a block [B] (payload [bp]) whose previous block [P]
    is free and on a list and whose next block [N] is allocated: [P] and
    [B] become one free block at [P] of size [size(P) + size(B)], which
    keeps the [prev_alloc] and [prev_mini] bits of [P] and has a footer
    equal to its header; [P] is taken off its list and the merged block is
    put at the head of the list of its size class, the lists staying well
    formed; [N] stays allocated with its size, with [prev_alloc] and
    [prev_mini] clear; the memory system is left as it is. *)
Theorem X22_free_merges_previous_block :
  forall fuel st classes mini bp P,
    let B := bp - 8 in
    let N := B + get_size st B in
    let total := get_size st P + get_size st B in
    lists_wf st classes mini -> (length mini <= fuel)%nat ->
    8 < bp < word_modulus ->
    mb_block_size <= get_size st B ->
    (forall a, In a (all_nodes classes mini) -> apart st a B) ->
    get_prev_alloc st B = false -> find_prev st B = P ->
    In P (all_nodes classes mini) -> P + get_size st P = B ->
    allocated_header st classes mini N ->
    exists st',
      free fuel st bp = Some st' /\
      (get_size st' P = total /\ get_alloc st' P = false /\
       get_prev_alloc st' P = get_prev_alloc st P /\
       get_prev_mini st' P = get_prev_mini st P) /\
      load_word st' (header_to_footer st' P) = header st' P /\
      (get_alloc st' N = true /\ get_prev_alloc st' N = false /\
       get_prev_mini st' N = false /\ get_size st' N = get_size st N) /\
      lists_wf st' (push_class (map (without P) classes) (size_to_class total) P)
        (without P mini) /\
      bounds_of st' = bounds_of st.
Proof. exact free_merges_previous_spec. Qed.

(** X23.  [free] of a block [B] (payload [bp]) whose previous block is
    allocated, by its [prev_alloc] bit, and whose next block [X] is free
    and on a list: [B] and [X] become one free block at [B] of size
    [size(B) + size(X)], which keeps the [prev_mini] bit of [B] and has a
    footer equal to its header; [X] is taken off its list and the merged
    block is put at the head of the list of its size class, the lists
    staying well formed; the block [F] after [X] stays allocated with its
    size, with [prev_alloc] and [prev_mini] clear; the memory system is
    left as it is. *)
Theorem X23_free_merges_next_block :
  forall fuel st classes mini bp,
    let B := bp - 8 in
    let X := B + get_size st B in
    let F := X + get_size st X in
    let total := get_size st B + get_size st X in
    lists_wf st classes mini -> (length mini <= fuel)%nat ->
    8 < bp < word_modulus ->
    mb_block_size <= get_size st B ->
    (forall a, In a (all_nodes classes mini) -> apart st a B) ->
    get_prev_alloc st B = true ->
    get_alloc st X = false -> In X (all_nodes classes mini) ->
    allocated_header st classes mini F ->
    exists st',
      free fuel st bp = Some st' /\
      (get_size st' B = total /\ get_alloc st' B = false /\
       get_prev_alloc st' B = true /\
       get_prev_mini st' B = get_prev_mini st B) /\
      load_word st' (header_to_footer st' B) = header st' B /\
      (get_alloc st' F = true /\ get_prev_alloc st' F = false /\
       get_prev_mini st' F = false /\ get_size st' F = get_size st F) /\
      lists_wf st' (push_class (map (without X) classes) (size_to_class total) B)
        (without X mini) /\
      bounds_of st' = bounds_of st.
Proof. exact free_merges_next_spec. Qed.

(** X24.  [free] of a block [B] (payload [bp]) between two free blocks
    [P] and [X] that are on the lists: the three become one free block at
    [P] of size [size(P) + size(B) + size(X)], which keeps the
    [prev_alloc] and [prev_mini] bits of [P] and has a footer equal to its
    header; [P] and [X] are taken off their lists and the merged block is
    put at the head of the list of its size class, the lists staying well
    formed; the block [F] after [X] stays allocated with its size, with
    [prev_alloc] and [prev_mini] clear; the memory system is left as it
    is. *)
Theorem X24_free_merges_both_neighbours :
  forall fuel st classes mini bp P,
    let B := bp - 8 in
    let X := B + get_size st B in
    let F := X + get_size st X in
    let total := get_size st P + get_size st B + get_size st X in
    lists_wf st classes mini -> (length mini <= fuel)%nat ->
    8 < bp < word_modulus ->
    mb_block_size <= get_size st B ->
    (forall a, In a (all_nodes classes mini) -> apart st a B) ->
    get_prev_alloc st B = false -> find_prev st B = P ->
    In P (all_nodes classes mini) -> P + get_size st P = B ->
    get_alloc st X = false -> In X (all_nodes classes mini) ->
    allocated_header st classes mini F ->
    exists st',
      free fuel st bp = Some st' /\
      (get_size st' P = total /\ get_alloc st' P = false /\
       get_prev_alloc st' P = get_prev_alloc st P /\
       get_prev_mini st' P = get_prev_mini st P) /\
      load_word st' (header_to_footer st' P) = header st' P /\
      (get_alloc st' F = true /\ get_prev_alloc st' F = false /\
       get_prev_mini st' F = false /\ get_size st' F = get_size st F) /\
      lists_wf st'
        (push_class (map (without X) (map (without P) classes)) (size_to_class total) P)
        (without X (without P mini)) /\
      bounds_of st' = bounds_of st.
Proof. exact free_merges_both_spec. Qed.

Ltac scenario_lists Hnodes :=
  constructor;
  [ vm_compute; reflexivity
  | reflexivity
  | intros c Hc;
    do 15 (destruct c as [|c]; [vm_compute; repeat split; congruence|]);
    unfold NUM_CLASSES in Hc; lia
  | vm_compute; repeat split; congruence
  | intros c a Ha;
    do 15 (destruct c as [|c];
           [cbn in Ha; repeat (destruct Ha as [<-|Ha]; [vm_compute; split; congruence|]);
            destruct Ha|]);
    destruct c; destruct Ha
  | intros a Ha; repeat (destruct Ha as [<-|Ha]; [vm_compute; reflexivity|]); destruct Ha
  | intros a Ha; rewrite Hnodes in Ha;
    repeat (destruct Ha as [<-|Ha]; [vm_compute; split; congruence|]); destruct Ha
  | rewrite Hnodes; repeat constructor; cbn; intuition congruence
  | intros a b Ha Hb Hab; rewrite Hnodes in Ha, Hb; unfold apart;
    repeat (destruct Ha as [<-|Ha]);
    repeat (destruct Hb as [<-|Hb]);
    try contradiction; try congruence;
    solve [left; vm_compute; congruence | right; vm_compute; congruence] ].

Ltac scenario_nodes Hnodes :=
  let a := fresh "a" in
  let Ha := fresh "Ha" in
  intros a Ha; rewrite Hnodes in Ha;
  repeat (destruct Ha as [<-|Ha];
          [solve [left; vm_compute; congruence | right; vm_compute; congruence]|]);
  destruct Ha.

Lemma merge_prev_scenario_lists : lists_wf MergePrev.st_one MergePrev.classes [].
Proof.
  assert (Hnodes : all_nodes MergePrev.classes [] = [65544; 65800]) by reflexivity.
  scenario_lists Hnodes.
Qed.

Lemma merge_next_scenario_lists : lists_wf MergeNext.st_one MergeNext.classes [].
Proof.
  assert (Hnodes : all_nodes MergeNext.classes [] = [65672; 65800]) by reflexivity.
  scenario_lists Hnodes.
Qed.

Lemma merge_both_scenario_lists : lists_wf MergeBoth.st_two Coalesce.classes [].
Proof.
  assert (Hnodes : all_nodes Coalesce.classes [] = [65672; 65544; 65800]) by reflexivity.
  scenario_lists Hnodes.
Qed.

Lemma X22_free_merges_previous_block_witness :
  let st := MergePrev.st_one in
  let P := 65544 in
  let B := MergePrev.bp - 8 in
  let N := B + get_size st B in
  let total := get_size st P + get_size st B in
  exists st',
    free run_fuel st MergePrev.bp = Some st' /\
    (get_size st' P = total /\ get_alloc st' P = false /\
     get_prev_alloc st' P = get_prev_alloc st P /\
     get_prev_mini st' P = get_prev_mini st P) /\
    load_word st' (header_to_footer st' P) = header st' P /\
    (get_alloc st' N = true /\ get_prev_alloc st' N = false /\
     get_prev_mini st' N = false /\ get_size st' N = get_size st N) /\
    lists_wf st' (push_class (map (without P) MergePrev.classes) (size_to_class total) P)
      (without P []) /\
    bounds_of st' = bounds_of st.
Proof.
  assert (Hnodes : all_nodes MergePrev.classes [] = [65544; 65800]) by reflexivity.
  apply (X22_free_merges_previous_block run_fuel MergePrev.st_one MergePrev.classes []
           MergePrev.bp 65544 merge_prev_scenario_lists).
  - apply Nat.le_0_l.
  - vm_compute. split; reflexivity.
  - vm_compute. congruence.
  - scenario_nodes Hnodes.
  - vm_compute. reflexivity.
  - vm_compute. reflexivity.
  - rewrite Hnodes. left. reflexivity.
  - vm_compute. reflexivity.
  - split; [vm_compute; reflexivity|]. split; [vm_compute; congruence|].
    unfold word_outside. scenario_nodes Hnodes.
Defined.

Lemma X23_free_merges_next_block_witness :
  let st := MergeNext.st_one in
  let B := MergeNext.bp - 8 in
  let X := B + get_size st B in
  let F := X + get_size st X in
  let total := get_size st B + get_size st X in
  exists st',
    free run_fuel st MergeNext.bp = Some st' /\
    (get_size st' B = total /\ get_alloc st' B = false /\
     get_prev_alloc st' B = true /\
     get_prev_mini st' B = get_prev_mini st B) /\
    load_word st' (header_to_footer st' B) = header st' B /\
    (get_alloc st' F = true /\ get_prev_alloc st' F = false /\
     get_prev_mini st' F = false /\ get_size st' F = get_size st F) /\
    lists_wf st' (push_class (map (without X) MergeNext.classes) (size_to_class total) B)
      (without X []) /\
    bounds_of st' = bounds_of st.
Proof.
  assert (Hnodes : all_nodes MergeNext.classes [] = [65672; 65800]) by reflexivity.
  apply (X23_free_merges_next_block run_fuel MergeNext.st_one MergeNext.classes []
           MergeNext.bp merge_next_scenario_lists).
  - apply Nat.le_0_l.
  - vm_compute. split; reflexivity.
  - vm_compute. congruence.
  - scenario_nodes Hnodes.
  - vm_compute. reflexivity.
  - vm_compute. reflexivity.
  - rewrite Hnodes. left. vm_compute. reflexivity.
  - split; [vm_compute; reflexivity|]. split; [vm_compute; congruence|].
    unfold word_outside. scenario_nodes Hnodes.
Defined.

Lemma X24_free_merges_both_neighbours_witness :
  let st := MergeBoth.st_two in
  let P := 65544 in
  let B := MergeBoth.bp - 8 in
  let X := B + get_size st B in
  let F := X + get_size st X in
  let total := get_size st P + get_size st B + get_size st X in
  exists st',
    free run_fuel st MergeBoth.bp = Some st' /\
    (get_size st' P = total /\ get_alloc st' P = false /\
     get_prev_alloc st' P = get_prev_alloc st P /\
     get_prev_mini st' P = get_prev_mini st P) /\
    load_word st' (header_to_footer st' P) = header st' P /\
    (get_alloc st' F = true /\ get_prev_alloc st' F = false /\
     get_prev_mini st' F = false /\ get_size st' F = get_size st F) /\
    lists_wf st'
      (push_class (map (without X) (map (without P) Coalesce.classes))
         (size_to_class total) P)
      (without X (without P [])) /\
    bounds_of st' = bounds_of st.
Proof.
  assert (Hnodes : all_nodes Coalesce.classes [] = [65672; 65544; 65800]) by reflexivity.
  apply (X24_free_merges_both_neighbours run_fuel MergeBoth.st_two Coalesce.classes []
           MergeBoth.bp 65544 merge_both_scenario_lists).
  - apply Nat.le_0_l.
  - vm_compute. split; reflexivity.
  - vm_compute. congruence.
  - scenario_nodes Hnodes.
  - vm_compute. reflexivity.
  - vm_compute. reflexivity.
  - rewrite Hnodes. right. left. reflexivity.
  - vm_compute. reflexivity.
  - vm_compute. reflexivity.
  - rewrite Hnodes. left. vm_compute. reflexivity.
  - split; [vm_compute; reflexivity|]. split; [vm_compute; congruence|].
    unfold word_outside. scenario_nodes Hnodes.
Defined.

(** ** [malloc] on a heap with a block that fits *)

Lemma without_absent x (l : list Z) : ~ In x l -> without x l = l.
Proof. intros H. unfold without. apply notin_remove. exact H. Qed.

Lemma map_without_absent x (classes : list (list Z)) :
  ~ In x (concat classes) -> map (without x) classes = classes.
Proof.
  induction classes as [|l t IH]; intros H; [reflexivity|].
  cbn [map concat] in *. rewrite in_app_iff in H.
  rewrite without_absent by tauto. rewrite IH by tauto. reflexivity.
Qed.

Lemma adjusted_size_is_size size : is_size (adjusted_size size).
Proof. apply malloc_asize_is_size. Qed.

Lemma adjusted_size_min size : mb_block_size <= adjusted_size size.
Proof.
  unfold adjusted_size. destruct (size <=? mb_dsize); [lia|].
  pose proof (max_ge_r (round_up (wrap (size + wsize)) dsize) min_block_size).
  unfold min_block_size, dsize, wsize, mb_block_size in *. lia.
Qed.

(** A request that does not overflow is adjusted to at least its size
    plus the header word. *)
Lemma adjusted_size_room size :
  0 <= size -> size + 24 <= word_modulus ->
  size + wsize <= adjusted_size size.
Proof.
  intros H0 Hb. unfold adjusted_size, mb_dsize, mb_block_size, wsize.
  destruct (Z.leb_spec size 8) as [|Hbig]; [lia|].
  unfold max.
  destruct (Z.gtb_spec (round_up (wrap (size + 8)) dsize) min_block_size) as [_|Hle].
  - rewrite (wrap_small (size + 8)) by lia.
    unfold round_up, dsize, wsize.
    rewrite (wrap_small (size + 8 + (2 * 8 - 1))) by lia.
    pose proof (Z.div_mod (size + 8 + (2 * 8 - 1)) (2 * 8) ltac:(lia)) as Hd.
    pose proof (Z.mod_pos_bound (size + 8 + (2 * 8 - 1)) (2 * 8) ltac:(lia)) as Hm.
    rewrite wrap_small by lia. lia.
  - rewrite (wrap_small (size + 8)) in Hle by lia.
    unfold round_up, dsize, wsize, min_block_size, dsize, wsize in *.
    rewrite (wrap_small (size + 8 + (2 * 8 - 1))) in Hle by lia.
    pose proof (Z.div_mod (size + 8 + (2 * 8 - 1)) (2 * 8) ltac:(lia)) as Hd.
    pose proof (Z.mod_pos_bound (size + 8 + (2 * 8 - 1)) (2 * 8) ltac:(lia)) as Hm.
    rewrite wrap_small in Hle by lia. lia.
Qed.

(** A block returned by [find_fit] is the head of the mini list, for a
    request of at most 16 bytes, or a node of a size-class list that is
    large enough. *)
Lemma find_fit_sound fuel st classes mini asize :
  free_lists st classes mini ->
  (length (nth (size_to_class asize) classes []) < fuel)%nat ->
  exists r, find_fit fuel st asize = Some r /\
    (r = NULL \/
     (asize <= 16 /\ exists rest, mini = r :: rest) \/
     (~ (asize <= 16 /\ mini <> []) /\ In r (concat classes) /\ asize <= get_size st r)).
Proof.
  intros (Hlen & Hcl & Hmini) Hfuel.
  pose proof (size_to_class_lt asize) as Hclass.
  assert (Hnth : forall c x, (c < NUM_CLASSES)%nat -> In x (nth c classes []) ->
                             In x (concat classes)).
  { intros c x Hc Hx. apply in_concat. exists (nth c classes []).
    split; [apply nth_In; rewrite Hlen; exact Hc|exact Hx]. }
  assert (Hrest : ~ (asize <= 16 /\ mini <> []) ->
    exists r,
      (block <- first_fit_scan fuel st asize (class_head st (size_to_class asize)) ;;
       if negb (block =? NULL) then Some block
       else Some (higher_classes_scan (NUM_CLASSES - (size_to_class asize + 1)) st asize
                    (size_to_class asize + 1)%nat)) = Some r /\
      (r = NULL \/
       (asize <= 16 /\ exists rest, mini = r :: rest) \/
       (~ (asize <= 16 /\ mini <> []) /\ In r (concat classes) /\ asize <= get_size st r))).
  { intros Hno.
    destruct (first_fit_scan_spec st asize _ _ fuel (Hcl _ Hclass) Hfuel)
      as (r & -> & [[-> Hnone]|(Hr & l1 & l2 & Hsplit & Hnone & Hfit)]).
    - change (NULL =? NULL) with true. cbn [negb].
      destruct (higher_classes_scan_spec st classes asize Hcl
                  (NUM_CLASSES - (size_to_class asize + 1))
                  (size_to_class asize + 1)%nat ltac:(lia))
        as [[Hr Hnone']|(Hr & c & Hc & Hlow & Hin & Hfit & Hmin)].
      + eexists. split; [reflexivity|]. left. exact Hr.
      + eexists. split; [reflexivity|]. right. right.
        split; [exact Hno|]. split; [|exact Hfit].
        apply (Hnth c); [lia|]. unfold examined in Hin.
        eapply in_firstn. exact Hin.
    - destruct (Z.eqb_spec r NULL) as [|_]; [contradiction|]. cbn [negb].
      exists r. split; [reflexivity|]. right. right.
      split; [exact Hno|]. split; [|exact Hfit].
      apply (Hnth (size_to_class asize) r Hclass). rewrite Hsplit.
      apply in_or_app. right. left. reflexivity. }
  unfold find_fit.
  destruct (Z.leb_spec asize mb_block_size) as [Hsmall|Hbig]; cbn [andb].
  - destruct mini as [|b rest]; cbn [is_list] in Hmini.
    + rewrite Hmini. change (NULL =? NULL) with true. cbn [negb].
      apply Hrest. intros [_ H]. congruence.
    + destruct Hmini as (Hhead & Hb & _). rewrite Hhead.
      destruct (Z.eqb_spec b NULL) as [|_]; [contradiction|]. cbn [negb].
      exists b. split; [reflexivity|]. right. left.
      split; [exact Hsmall|]. exists rest. reflexivity.
  - apply Hrest. unfold mb_block_size in Hbig. lia.
Qed.

(** The last two statements of [malloc]: the block [B] found is taken off
    its size-class list and split. *)
Lemma malloc_place st classes mini B asize :
  let total := get_size st B in
  let R := B + asize in
  let F := B + total in
  let classes' := map (without B) classes in
  lists_wf st classes mini -> In B (concat classes) ->
  is_size asize -> mb_block_size <= asize -> asize <= total ->
  allocated_header st classes mini F ->
  exists st',
    split_block (rem_from_free_list st B) B asize = st' /\
    header_to_payload B = B + 8 /\
    get_alloc st' B = true /\
    asize <= get_size st' B <= total /\
    get_prev_alloc st' B = get_prev_alloc st B /\
    get_prev_mini st' B = get_prev_mini st B /\
    get_alloc st' F = true /\ get_size st' F = get_size st F /\
    (total - asize < 16 ->
     get_size st' B = total /\
     get_prev_alloc st' F = true /\ get_prev_mini st' F = false /\
     lists_wf st' classes' mini) /\
    (total - asize = 16 ->
     get_size st' B = asize /\
     get_size st' R = 16 /\ get_alloc st' R = false /\
     get_prev_alloc st' R = true /\ get_prev_mini st' R = (asize =? 16) /\
     lists_wf st' classes' (R :: mini) /\
     get_prev_alloc st' F = false /\ get_prev_mini st' F = true) /\
    (32 <= total - asize ->
     get_size st' B = asize /\
     get_size st' R = total - asize /\ get_alloc st' R = false /\
     get_prev_alloc st' R = true /\ get_prev_mini st' R = (asize =? 16) /\
     load_word st' (header_to_footer st' R) = header st' R /\
     lists_wf st' (push_class classes' (size_to_class (total - asize)) R) mini /\
     get_prev_alloc st' F = false /\ get_prev_mini st' F = false) /\
    bounds_of st' = bounds_of st.
Proof.
  intros total R F classes' Hwf HBin Has Hlo Hhi HF.
  assert (HBnode : In B (all_nodes classes mini))
    by (apply in_all_nodes; left; exact HBin).
  pose proof (regular_node_size st classes mini B Hwf HBin) as H32. fold total in H32.
  destruct (wf_range _ _ _ Hwf B HBnode) as [HB0 HB1]. fold total in HB1.
  assert (HBmini : ~ In B mini).
  { intros Hm.
    exact (nodup_app_disjoint (concat classes) mini B (wf_nodup _ _ _ Hwf) HBin Hm). }
  assert (Hp : header_to_payload B = B + 8).
  { unfold header_to_payload, payload_offset. apply wrap_small.
    unfold word_modulus in *. lia. }
  (* the block is taken off its list *)
  destruct (in_concat_nth classes B HBin) as (c & Hc & HBc).
  rewrite (wf_classes _ _ _ Hwf) in Hc.
  destruct (rem_from_free_list_spec st classes mini c B Hwf Hc HBc) as [W1 L1].
  rewrite (without_absent B mini HBmini) in W1. fold classes' in W1.
  pose proof (bounds_rem_from_free_list st B) as B1.
  pose proof (links_only_header st _ classes mini B L1
                (node_outside_payloads _ _ _ B Hwf HBnode)) as HhB.
  pose proof (links_only_header st _ classes mini F L1
                (allocated_outside_payloads _ _ _ _ HF)) as HhF.
  assert (S1 : forall a, In a (all_nodes classes mini) ->
                 get_size (rem_from_free_list st B) a = get_size st a).
  { intros a Ha. exact (links_only_size st _ classes mini a Hwf L1 Ha). }
  set (s1 := rem_from_free_list st B) in *. clearbody s1.
  destruct (header_flags st s1 B HhB) as (EsB & _ & EpaB & EpmB). fold total in EsB.
  destruct (header_flags st s1 F HhF) as (EsF & EaF & _).
  assert (Hnodes' : forall a, In a (all_nodes classes' mini) ->
                      In a (all_nodes classes mini) /\ a <> B).
  { intros a Ha. apply in_all_nodes in Ha. destruct Ha as [Ha|Ha].
    - unfold classes' in Ha. apply in_concat in Ha. destruct Ha as (l & Hl & Ha).
      apply in_map_iff in Hl. destruct Hl as (l0 & <- & Hl0).
      apply in_without in Ha. destruct Ha as [Ha HaB].
      split; [|exact HaB]. apply in_all_nodes. left.
      apply in_concat. exists l0. split; assumption.
    - split; [apply in_all_nodes; right; exact Ha|]. intros ->. contradiction. }
  assert (Hap1 : forall a, In a (all_nodes classes' mini) -> apart s1 a B).
  { intros a Ha'. destruct (Hnodes' a Ha') as [Ha HaB].
    unfold apart. rewrite (S1 a Ha), EsB.
    exact (wf_apart _ _ _ Hwf a B Ha HBnode HaB). }
  assert (HF1 : allocated_header s1 classes' mini (B + get_size s1 B)).
  { rewrite EsB. fold F. destruct HF as (HFa & HFr & HFout). split; [|split].
    - rewrite EaF. exact HFa.
    - exact HFr.
    - intros a Ha'. destruct (Hnodes' a Ha') as [Ha HaB].
      unfold word_outside. rewrite (S1 a Ha). exact (HFout a Ha). }
  pose proof (split_block_cases_spec s1 classes' mini B asize W1 Hap1 HB0
                ltac:(rewrite EsB; exact H32) HF1 Has Hlo
                ltac:(rewrite EsB; exact Hhi)) as H.
  cbv zeta in H. rewrite EsB in H. fold F R in H. rewrite EpaB, EpmB, EsF in H.
  destruct H as (Ha & Hpa & Hpm & HaF & HsF & Hnone & Hmin & Hreg).
  exists (split_block s1 B asize). split; [reflexivity|]. split; [exact Hp|].
  split; [exact Ha|].
  split.
  { assert (Hrs : is_size (total - asize))
      by (apply is_size_sub; [apply get_size_is_size|exact Has|exact Hhi]).
    assert (Hcases : total - asize < 16 \/ total - asize = 16 \/ 32 <= total - asize).
    { destruct Hrs as [_ Hmod]. Z.div_mod_to_equations. lia. }
    destruct Hcases as [Hk|[Hk|Hk]].
    - rewrite (proj1 (Hnone Hk)). lia.
    - rewrite (proj1 (Hmin Hk)). lia.
    - rewrite (proj1 (Hreg Hk)). lia. }
  split; [exact Hpa|]. split; [exact Hpm|].
  split; [exact HaF|]. split; [exact HsF|].
  split; [exact Hnone|]. split; [exact Hmin|]. split; [exact Hreg|].
  rewrite bounds_split_block. exact B1.
Qed.

Lemma malloc_regular_spec fuel st classes mini size B :
  let asize := adjusted_size size in
  let total := get_size st B in
  let R := B + asize in
  let F := B + total in
  let classes' := map (without B) classes in
  heap_start st <> NULL -> size <> 0 ->
  lists_wf st classes mini ->
  (length (nth (size_to_class asize) classes []) < fuel)%nat ->
  find_fit fuel st asize = Some B -> B <> NULL ->
  (asize = mb_block_size -> mini = []) ->
  allocated_header st classes mini F ->
  exists st',
    malloc fuel st size = Some (st', B + 8) /\
    In B (concat classes) /\
    get_alloc st' B = true /\
    asize <= get_size st' B <= total /\
    (0 <= size -> size + 24 <= word_modulus -> size + wsize <= get_size st' B) /\
    get_prev_alloc st' B = get_prev_alloc st B /\
    get_prev_mini st' B = get_prev_mini st B /\
    get_alloc st' F = true /\ get_size st' F = get_size st F /\
    (total - asize < 16 ->
     get_size st' B = total /\
     get_prev_alloc st' F = true /\ get_prev_mini st' F = false /\
     lists_wf st' classes' mini) /\
    (total - asize = 16 ->
     get_size st' B = asize /\
     get_size st' R = 16 /\ get_alloc st' R = false /\
     get_prev_alloc st' R = true /\ get_prev_mini st' R = (asize =? 16) /\
     lists_wf st' classes' (R :: mini) /\
     get_prev_alloc st' F = false /\ get_prev_mini st' F = true) /\
    (32 <= total - asize ->
     get_size st' B = asize /\
     get_size st' R = total - asize /\ get_alloc st' R = false /\
     get_prev_alloc st' R = true /\ get_prev_mini st' R = (asize =? 16) /\
     load_word st' (header_to_footer st' R) = header st' R /\
     lists_wf st' (push_class classes' (size_to_class (total - asize)) R) mini /\
     get_prev_alloc st' F = false /\ get_prev_mini st' F = false) /\
    bounds_of st' = bounds_of st.
Proof.
  intros asize total R F classes' Hinit Hsize Hwf Hfuel Hfit HBn Hmini HF.
  pose proof (adjusted_size_is_size size) as Has. fold asize in Has.
  pose proof (adjusted_size_min size) as Hlo. fold asize in Hlo.
  (* what [find_fit] found *)
  destruct (find_fit_sound fuel st classes mini asize
              (lists_wf_free_lists st classes mini Hwf) Hfuel)
    as (r & Hr & Hcases).
  rewrite Hfit in Hr. injection Hr as <-.
  assert (HBin : In B (concat classes) /\ asize <= total).
  { destruct Hcases as [E|[(Hle & rest & Em)|(_ & Hin & Hge)]].
    - contradiction.
    - assert (E16 : asize = mb_block_size) by (unfold mb_block_size in *; lia).
      rewrite (Hmini E16) in Em. discriminate.
    - split; assumption. }
  destruct HBin as [HBin Hhi].
  pose proof (regular_node_size st classes mini B Hwf HBin) as H32. fold total in H32.
  (* the path taken *)
  rewrite (malloc_asize size Hsize fuel st Hinit). fold asize. rewrite Hfit.
  cbv beta iota.
  assert (Hm : get_mini st B = false).
  { unfold get_mini. fold total. apply Z.eqb_neq. unfold mb_block_size. lia. }
  rewrite Hm, andb_false_r.
  assert (En : (B =? NULL) = false) by (apply Z.eqb_neq; exact HBn).
  rewrite En. cbv beta iota. rewrite En.
  destruct (malloc_place st classes mini B asize Hwf HBin Has Hlo Hhi HF)
    as (st' & E & Hp & H).
  cbv zeta. rewrite E, Hp. exists st'. split; [reflexivity|].
  destruct H as (Ha & Hsz & H).
  split; [exact HBin|]. split; [exact Ha|]. split; [exact Hsz|].
  split; [|exact H].
  intros H0 Hb. pose proof (adjusted_size_room size H0 Hb) as Hr. fold asize in Hr. lia.
Qed.

Lemma malloc_mini_spec fuel st classes mini size B rest :
  let F := B + mb_block_size in
  heap_start st <> NULL -> 0 < size <= mb_dsize ->
  lists_wf st classes mini -> (length mini <= fuel)%nat ->
  mini = B :: rest ->
  allocated_header st classes mini F ->
  exists st',
    malloc fuel st size = Some (st', B + 8) /\
    (get_size st' B = mb_block_size /\ get_alloc st' B = true /\
     get_prev_alloc st' B = get_prev_alloc st B /\
     get_prev_mini st' B = get_prev_mini st B) /\
    (get_alloc st' F = true /\ get_prev_alloc st' F = true /\
     get_prev_mini st' F = true /\ get_size st' F = get_size st F) /\
    lists_wf st' classes rest /\
    bounds_of st' = bounds_of st.
Proof.
  intros F Hinit Hsize Hwf Hfuel Hmini HF.
  pose proof HF as (HFa & HFr & HFout). unfold wsize in HFr.
  assert (HBmini : In B mini) by (rewrite Hmini; left; reflexivity).
  assert (HBnode : In B (all_nodes classes mini))
    by (apply in_all_nodes; right; exact HBmini).
  pose proof (wf_mini _ _ _ Hwf B HBmini) as HsB.
  destruct (wf_range _ _ _ Hwf B HBnode) as [HB0 HB1]. rewrite HsB in HB1.
  assert (HBn : B <> NULL) by (unfold NULL; lia).
  assert (En : (B =? NULL) = false) by (apply Z.eqb_neq; exact HBn).
  assert (Hhead : mini_block_head st = B).
  { pose proof (wf_mini_list _ _ _ Hwf) as Hl. rewrite Hmini in Hl.
    exact (proj1 Hl). }
  assert (Has : adjusted_size size = mb_block_size).
  { unfold adjusted_size. destruct (Z.leb_spec size mb_dsize) as [_|]; [reflexivity|lia]. }
  assert (Hfit : find_fit fuel st mb_block_size = Some B).
  { unfold find_fit. rewrite Hhead, En. reflexivity. }
  assert (Hclasses : map (without B) classes = classes).
  { apply map_without_absent. intros Hin.
    exact (nodup_app_disjoint _ _ B (wf_nodup _ _ _ Hwf) Hin HBmini). }
  assert (Hrest : without B mini = rest).
  { rewrite Hmini. unfold without. cbn [remove].
    destruct (Z.eq_dec B B) as [_|]; [|contradiction].
    apply notin_remove.
    pose proof (wf_nodup _ _ _ Hwf) as Hnd. apply NoDup_app_remove_l in Hnd.
    rewrite Hmini in Hnd. inversion Hnd. assumption. }
  (* the path taken *)
  rewrite (malloc_asize size ltac:(lia) fuel st Hinit), Has, Hfit.
  cbv beta iota.
  assert (Hm : get_mini st B = true).
  { unfold get_mini. rewrite HsB. reflexivity. }
  rewrite En, Hm, Z.eqb_refl. cbn [negb andb].
  assert (Hp : header_to_payload B = B + 8).
  { unfold header_to_payload, payload_offset. apply wrap_small.
    unfold mb_block_size, word_modulus in *. lia. }
  rewrite Hp.
  (* the block is taken off the mini list *)
  destruct (rem_from_mini_list_spec fuel st classes mini B Hwf HBmini Hfuel)
    as (s1 & E1 & W1 & L1).
  rewrite Hclasses, Hrest in W1.
  pose proof (bounds_rem_from_mini_list fuel st B s1 E1) as B1.
  rewrite E1. cbv beta iota. clear E1.
  pose proof (links_only_header st s1 classes mini B L1
                (node_outside_payloads _ _ _ B Hwf HBnode)) as HhB.
  pose proof (links_only_header st s1 classes mini F L1
                (allocated_outside_payloads _ _ _ _ HF)) as HhF.
  destruct (header_flags st s1 B HhB) as (_ & _ & -> & ->).
  destruct (header_flags st s1 F HhF) as (EsF & EaF & _).
  assert (Hnodes' : forall a, In a (all_nodes classes rest) ->
            In a (all_nodes classes mini) /\ a <> B /\ get_size s1 a = get_size st a).
  { intros a Ha.
    assert (Hin : In a (all_nodes classes mini)).
    { apply in_all_nodes in Ha. apply in_all_nodes.
      destruct Ha as [Ha|Ha]; [left; exact Ha|right; rewrite Hmini; right; exact Ha]. }
    split; [exact Hin|].
    split; [|exact (links_only_size st s1 classes mini a Hwf L1 Hin)].
    intros ->. rewrite <- Hclasses, <- Hrest, all_nodes_without in Ha.
    exact (not_in_without B _ Ha). }
  (* the three header words written *)
  set (h := pack mb_block_size true (get_prev_alloc st B) (get_prev_mini st B)).
  assert (Hh : 0 <= h < word_modulus)
    by (apply pack_word; unfold mb_block_size, word_modulus; lia).
  rewrite write_block_allocated. fold h.
  destruct (store_outside s1 classes rest B h W1) as [W2 S2].
  { intros a Ha. destruct (Hnodes' a Ha) as (Hin & HaB & Hs).
    pose proof (node_size _ _ _ a Hwf Hin) as Hsa.
    pose proof (wf_apart _ _ _ Hwf a B Hin HBnode HaB) as Hap.
    unfold word_outside, apart, wsize, mb_block_size in *. rewrite Hs. lia. }
  set (s2 := store_word s1 B h) in *.
  assert (Hh2 : header s2 B = h) by (apply header_store_same; exact Hh).
  assert (HF2 : header s2 F = header s1 F).
  { unfold s2, header. apply load_store_other. unfold F, mb_block_size. lia. }
  assert (B2 : bounds_of s2 = bounds_of s1) by apply bounds_store_word.
  clearbody s2.
  destruct (header_pack_flags s2 B mb_block_size _ _ _ is_size_16 Hh2)
    as (Hs2 & Ha2 & Hpa2 & Hpm2).
  assert (Hn2 : find_next s2 B = F).
  { unfold find_next. rewrite Hs2. apply wrap_small.
    unfold F, mb_block_size, word_modulus in *. lia. }
  rewrite Hn2.
  assert (Hn3 : find_next (set_prev_alloc s2 F) B = F).
  { unfold find_next, get_size, set_prev_alloc, set_header.
    unfold header at 1. rewrite load_store_other by (unfold F, mb_block_size; lia).
    fold (header s2 B). fold (get_size s2 B). exact Hn2. }
  rewrite Hn3.
  assert (HaF2 : get_alloc s2 F = true).
  { rewrite (proj1 (proj2 (header_flags s1 s2 F HF2))), EaF. exact HFa. }
  destruct (flags_allocated s2 F true true HaF2) as (h1 & h2 & E & Hfa & Hfpa & Hfpm & Hfs).
  cbv zeta iota in E, Hfa, Hfpa, Hfpm, Hfs.
  rewrite E in Hfa, Hfpa, Hfpm, Hfs |- *. clear E.
  destruct (store_outside s2 classes rest F h1 W2) as [W3 S3].
  { intros a Ha. destruct (Hnodes' a Ha) as (Hin & HaB & Hs).
    unfold word_outside. rewrite (S2 a Ha), Hs. exact (HFout a Hin). }
  destruct (store_outside _ classes rest F h2 W3) as [W4 _].
  { intros a Ha. destruct (Hnodes' a Ha) as (Hin & HaB & Hs).
    unfold word_outside. rewrite (S3 a Ha), (S2 a Ha), Hs. exact (HFout a Hin). }
  set (s4 := store_word (store_word s2 F h1) F h2) in *.
  assert (Hh4 : header s4 B = h).
  { unfold s4, header. rewrite !load_store_other by (unfold F, mb_block_size; lia).
    exact Hh2. }
  assert (B4 : bounds_of s4 = bounds_of s2)
    by (unfold s4; rewrite !bounds_store_word; reflexivity).
  clearbody s4.
  exists s4. split; [reflexivity|].
  split; [exact (header_pack_flags s4 B mb_block_size _ _ _ is_size_16 Hh4)|].
  split.
  { split; [exact Hfa|]. split; [exact Hfpa|]. split; [exact Hfpm|].
    rewrite Hfs, (proj1 (header_flags s1 s2 F HF2)). exact EsF. }
  split; [exact W4|].
  rewrite B4, B2. exact B1.
Qed.

Lemma map_without_push_class classes c b :
  (c < length classes)%nat -> ~ In b (concat classes) ->
  map (without b) (push_class classes c b) = classes.
Proof.
  revert c. induction classes as [|l t IH]; intros c Hc Hn; [cbn in Hc; lia|].
  cbn [concat] in Hn. rewrite in_app_iff in Hn.
  destruct c; cbn [push_class map].
  - unfold without at 1. cbn [remove]. destruct (Z.eq_dec b b) as [_|]; [|contradiction].
    fold (without b l). rewrite without_absent by tauto.
    rewrite map_without_absent by tauto. reflexivity.
  - rewrite without_absent by tauto.
    rewrite IH; [reflexivity|cbn in Hc; lia|tauto].
Qed.

Lemma malloc_extend_spec fuel st classes mini size :
  let asize := adjusted_size size in
  let S := max asize chunksize in
  let E := mem_brk st - 8 in
  let R := E + asize in
  let F := E + S in
  heap_start st <> NULL -> size <> 0 ->
  lists_wf st classes mini ->
  find_fit fuel st asize = Some NULL ->
  S < 2 ^ 63 -> S <= mem_max_addr st - mem_brk st ->
  8 < mem_brk st -> mem_brk st + S <= word_modulus ->
  get_prev_alloc st E = true ->
  (forall a, In a (all_nodes classes mini) -> a + get_size st a <= E) ->
  exists st',
    malloc fuel st size = Some (st', E + 8) /\
    (mem_brk st' = mem_brk st + S /\ mem_start_brk st' = mem_start_brk st /\
     mem_max_addr st' = mem_max_addr st /\ heap_start st' = heap_start st) /\
    get_alloc st' E = true /\
    asize <= get_size st' E <= S /\
    (0 <= size -> size + 24 <= word_modulus -> size + wsize <= get_size st' E) /\
    get_prev_alloc st' E = true /\
    get_prev_mini st' E = get_prev_mini st E /\
    get_alloc st' F = true /\ get_size st' F = 0 /\
    (S - asize < 16 ->
     get_size st' E = S /\
     get_prev_alloc st' F = true /\ get_prev_mini st' F = false /\
     lists_wf st' classes mini) /\
    (S - asize = 16 ->
     get_size st' E = asize /\
     get_size st' R = 16 /\ get_alloc st' R = false /\
     get_prev_alloc st' R = true /\ get_prev_mini st' R = (asize =? 16) /\
     lists_wf st' classes (R :: mini) /\
     get_prev_alloc st' F = false /\ get_prev_mini st' F = true) /\
    (32 <= S - asize ->
     get_size st' E = asize /\
     get_size st' R = S - asize /\ get_alloc st' R = false /\
     get_prev_alloc st' R = true /\ get_prev_mini st' R = (asize =? 16) /\
     load_word st' (header_to_footer st' R) = header st' R /\
     lists_wf st' (push_class classes (size_to_class (S - asize)) R) mini /\
     get_prev_alloc st' F = false /\ get_prev_mini st' F = false).
Proof.
  intros asize S E R F Hinit Hsize Hwf Hfit H63 Hroom H8 Hb Hpa Hbelow.
  pose proof (adjusted_size_is_size size) as Has. fold asize in Has.
  pose proof (adjusted_size_min size) as Hlo. fold asize in Hlo.
  assert (HsS : is_size S) by (apply is_size_max; [exact Has|exact is_size_4096]).
  assert (HS4096 : 4096 <= S) by (exact (max_ge_r asize chunksize)).
  assert (HaS : asize <= S).
  { unfold S, max. destruct (Z.gtb_spec asize chunksize); lia. }
  assert (Hnode : forall a, In a (all_nodes classes mini) ->
            16 <= get_size st a /\ a + get_size st a <= E).
  { intros a Ha. split; [exact (node_size _ _ _ a Hwf Ha)|exact (Hbelow a Ha)]. }
  (* the path taken *)
  rewrite (malloc_asize size Hsize fuel st Hinit). fold asize. rewrite Hfit.
  cbv beta iota. change (NULL =? NULL) with true. cbn [negb].
  rewrite andb_false_r. cbn [andb]. fold S.
  destruct (extend_heap_appends fuel st classes mini S Hwf HsS
              ltac:(unfold min_block_size, dsize, wsize; lia) H63 Hroom H8 Hb Hpa Hbelow)
    as (s1 & E1 & Hbrk & Hsb & Hmax & Hhs & HhE & _ & (Hzs & Hza & _) & W1 & Fr1).
  fold E F in E1, HhE, Hzs, Hza, W1, Fr1.
  rewrite E1. cbv beta iota. clear E1.
  assert (En : (E =? NULL) = false) by (apply Z.eqb_neq; unfold E, NULL; lia).
  rewrite En.
  destruct (header_pack_flags s1 E S _ _ _ HsS HhE) as (HsE & _ & HpaE & HpmE).
  set (c := size_to_class S) in *.
  assert (Hc : (c < length classes)%nat).
  { rewrite (wf_classes _ _ _ Hwf). apply size_to_class_lt. }
  assert (HEnew : ~ In E (concat classes)).
  { intros Hin. destruct (Hnode E ltac:(apply in_all_nodes; left; exact Hin)). lia. }
  assert (Hnodes1 : forall a, In a (all_nodes (push_class classes c E) mini) ->
            a = E \/ (In a (all_nodes classes mini) /\ get_size s1 a = get_size st a)).
  { intros a Ha.
    apply (Permutation_in _ (perm_all_nodes_push classes mini c E Hc)) in Ha.
    destruct Ha as [<-|Ha]; [left; reflexivity|right].
    split; [exact Ha|]. unfold get_size, header.
    rewrite (Fr1 a); [reflexivity| |exact (node_outside_payloads _ _ _ a Hwf Ha)].
    destruct (Hnode a Ha). lia. }
  destruct (malloc_place s1 (push_class classes c E) mini E asize W1)
    as (st' & E2 & Hp & Ha' & Hsz' & Hpa' & Hpm' & HaF & HsF & Hnone & Hmin & Hreg & B2).
  { apply (Permutation_in _ (Permutation_sym (perm_push_class classes c E Hc))).
    left. reflexivity. }
  { exact Has. }
  { exact Hlo. }
  { rewrite HsE. exact HaS. }
  { rewrite HsE. fold F. split; [exact Hza|]. split; [unfold F, E, wsize; lia|].
    intros a Ha. unfold word_outside. right.
    destruct (Hnodes1 a Ha) as [->|[Hin Hs]].
    - rewrite HsE. unfold F. lia.
    - rewrite Hs. destruct (Hnode a Hin). unfold F. lia. }
  rewrite HsE in Hnone, Hmin, Hreg, HaF, HsF, Hsz'.
  fold F R in Hnone, Hmin, Hreg, HaF, HsF.
  rewrite (map_without_push_class classes c E Hc HEnew) in Hnone, Hmin, Hreg.
  cbv zeta. rewrite E2, Hp. exists st'. split; [reflexivity|].
  destruct (bounds_fields st' s1 B2) as (F1 & F2 & F3 & F4).
  split.
  { rewrite F1, F2, F3, F4. repeat split; assumption. }
  split; [exact Ha'|]. split; [exact Hsz'|].
  split.
  { intros H0 Hb'. pose proof (adjusted_size_room size H0 Hb') as Hr.
    fold asize in Hr. lia. }
  split; [rewrite Hpa'; exact HpaE|].
  split; [rewrite Hpm'; exact HpmE|].
  split; [exact HaF|]. split; [rewrite HsF; exact Hzs|].
  split; [exact Hnone|]. split; [exact Hmin|exact Hreg].
Qed.

(** X25.  [malloc] on an initialised heap with well-formed free lists,
    when [find_fit] returns a block [B] for the adjusted size [asize] and
    the request is not served from the mini list ([asize] is not 16, or the
    mini list is empty), [B] being followed by an allocated block [F]:
    [malloc] returns the payload [B + 8]; [B] is a node of a size-class
    list; it becomes allocated with a size between [asize] and its former
    size, which leaves room for the [size] bytes asked for when
    [size + 24] does not overflow, and keeps its [prev_alloc] and
    [prev_mini] bits; [F] stays allocated with its size.  [B] is taken off
    its list and is kept whole, or the remainder [R = B + asize] becomes a
    free mini block at the head of the mini list or a free regular block
    at the head of the list of its size class, as [split_block] does; the
    lists stay well formed and the memory system is left as it is. *)
Theorem X25_malloc_takes_listed_block :
  forall fuel st classes mini size B,
    let asize := adjusted_size size in
    let total := get_size st B in
    let R := B + asize in
    let F := B + total in
    let classes' := map (without B) classes in
    heap_start st <> NULL -> size <> 0 ->
    lists_wf st classes mini ->
    (length (nth (size_to_class asize) classes []) < fuel)%nat ->
    find_fit fuel st asize = Some B -> B <> NULL ->
    (asize = mb_block_size -> mini = []) ->
    allocated_header st classes mini F ->
    exists st',
      malloc fuel st size = Some (st', B + 8) /\
      In B (concat classes) /\
      get_alloc st' B = true /\
      asize <= get_size st' B <= total /\
      (0 <= size -> size + 24 <= word_modulus -> size + wsize <= get_size st' B) /\
      get_prev_alloc st' B = get_prev_alloc st B /\
      get_prev_mini st' B = get_prev_mini st B /\
      get_alloc st' F = true /\ get_size st' F = get_size st F /\
      (total - asize < 16 ->
       get_size st' B = total /\
       get_prev_alloc st' F = true /\ get_prev_mini st' F = false /\
       lists_wf st' classes' mini) /\
      (total - asize = 16 ->
       get_size st' B = asize /\
       get_size st' R = 16 /\ get_alloc st' R = false /\
       get_prev_alloc st' R = true /\ get_prev_mini st' R = (asize =? 16) /\
       lists_wf st' classes' (R :: mini) /\
       get_prev_alloc st' F = false /\ get_prev_mini st' F = true) /\
      (32 <= total - asize ->
       get_size st' B = asize /\
       get_size st' R = total - asize /\ get_alloc st' R = false /\
       get_prev_alloc st' R = true /\ get_prev_mini st' R = (asize =? 16) /\
       load_word st' (header_to_footer st' R) = header st' R /\
       lists_wf st' (push_class classes' (size_to_class (total - asize)) R) mini /\
       get_prev_alloc st' F = false /\ get_prev_mini st' F = false) /\
      bounds_of st' = bounds_of st.
Proof. exact malloc_regular_spec. Qed.

(** X26.  [malloc] of at most 8 bytes on an initialised heap with
    well-formed free lists whose mini list is not empty, its first block
    [B] being followed by an allocated block [F]: [malloc] returns the
    payload [B + 8]; [B] is taken off the mini list and becomes an
    allocated block of 16 bytes that keeps its [prev_alloc] and
    [prev_mini] bits; [F] stays allocated with its size and gets
    [prev_alloc] and [prev_mini] set; the size-class lists are left as
    they are, the lists stay well formed, and so is the memory system. *)
Theorem X26_malloc_takes_mini_block :
  forall fuel st classes mini size B rest,
    let F := B + mb_block_size in
    heap_start st <> NULL -> 0 < size <= mb_dsize ->
    lists_wf st classes mini -> (length mini <= fuel)%nat ->
    mini = B :: rest ->
    allocated_header st classes mini F ->
    exists st',
      malloc fuel st size = Some (st', B + 8) /\
      (get_size st' B = mb_block_size /\ get_alloc st' B = true /\
       get_prev_alloc st' B = get_prev_alloc st B /\
       get_prev_mini st' B = get_prev_mini st B) /\
      (get_alloc st' F = true /\ get_prev_alloc st' F = true /\
       get_prev_mini st' F = true /\ get_size st' F = get_size st F) /\
      lists_wf st' classes rest /\
      bounds_of st' = bounds_of st.
Proof. exact malloc_mini_spec. Qed.

(** X27.  [malloc] on an initialised heap with well-formed free lists in
    which [find_fit] finds nothing, the last block before the epilogue [E]
    being allocated and the memory system having room for
    [S = max asize chunksize] more bytes: the heap grows by [S] bytes;
    [malloc] returns the payload [E + 8] of a block that starts at the
    former epilogue, is allocated with a size between [asize] and [S],
    which leaves room for the [size] bytes asked for when [size + 24] does
    not overflow, has [prev_alloc] set and keeps the [prev_mini] bit of the
    epilogue; the new epilogue [F = E + S] is allocated with size 0.  The
    block is kept whole, or the remainder [R = E + asize] becomes a free
    mini block at the head of the mini list or a free regular block at the
    head of the list of its size class; the lists stay well formed. *)
Theorem X27_malloc_extends_heap :
  forall fuel st classes mini size,
    let asize := adjusted_size size in
    let S := max asize chunksize in
    let E := mem_brk st - 8 in
    let R := E + asize in
    let F := E + S in
    heap_start st <> NULL -> size <> 0 ->
    lists_wf st classes mini ->
    find_fit fuel st asize = Some NULL ->
    S < 2 ^ 63 -> S <= mem_max_addr st - mem_brk st ->
    8 < mem_brk st -> mem_brk st + S <= word_modulus ->
    get_prev_alloc st E = true ->
    (forall a, In a (all_nodes classes mini) -> a + get_size st a <= E) ->
    exists st',
      malloc fuel st size = Some (st', E + 8) /\
      (mem_brk st' = mem_brk st + S /\ mem_start_brk st' = mem_start_brk st /\
       mem_max_addr st' = mem_max_addr st /\ heap_start st' = heap_start st) /\
      get_alloc st' E = true /\
      asize <= get_size st' E <= S /\
      (0 <= size -> size + 24 <= word_modulus -> size + wsize <= get_size st' E) /\
      get_prev_alloc st' E = true /\
      get_prev_mini st' E = get_prev_mini st E /\
      get_alloc st' F = true /\ get_size st' F = 0 /\
      (S - asize < 16 ->
       get_size st' E = S /\
       get_prev_alloc st' F = true /\ get_prev_mini st' F = false /\
       lists_wf st' classes mini) /\
      (S - asize = 16 ->
       get_size st' E = asize /\
       get_size st' R = 16 /\ get_alloc st' R = false /\
       get_prev_alloc st' R = true /\ get_prev_mini st' R = (asize =? 16) /\
       lists_wf st' classes (R :: mini) /\
       get_prev_alloc st' F = false /\ get_prev_mini st' F = true) /\
      (32 <= S - asize ->
       get_size st' E = asize /\
       get_size st' R = S - asize /\ get_alloc st' R = false /\
       get_prev_alloc st' R = true /\ get_prev_mini st' R = (asize =? 16) /\
       load_word st' (header_to_footer st' R) = header st' R /\
       lists_wf st' (push_class classes (size_to_class (S - asize)) R) mini /\
       get_prev_alloc st' F = false /\ get_prev_mini st' F = false).
Proof. exact malloc_extend_spec. Qed.

Lemma fit_scenario_lists : lists_wf initial_heap FitBlock.classes [].
Proof.
  assert (Hnodes : all_nodes FitBlock.classes [] = [65544]) by reflexivity.
  scenario_lists Hnodes.
Qed.

Lemma mini_fit_scenario_lists : lists_wf MiniFit.st_freed MiniFit.classes [65544].
Proof.
  assert (Hnodes : all_nodes MiniFit.classes [65544] = [65624; 65544]) by reflexivity.
  scenario_lists Hnodes.
Qed.

Lemma X25_malloc_takes_listed_block_witness :
  let st := initial_heap in
  let size := 56 in
  let B := 65544 in
  let asize := adjusted_size size in
  let total := get_size st B in
  let R := B + asize in
  let F := B + total in
  let classes' := map (without B) FitBlock.classes in
  exists st',
    malloc run_fuel st size = Some (st', B + 8) /\
    In B (concat FitBlock.classes) /\
    get_alloc st' B = true /\
    asize <= get_size st' B <= total /\
    (0 <= size -> size + 24 <= word_modulus -> size + wsize <= get_size st' B) /\
    get_prev_alloc st' B = get_prev_alloc st B /\
    get_prev_mini st' B = get_prev_mini st B /\
    get_alloc st' F = true /\ get_size st' F = get_size st F /\
    (total - asize < 16 ->
     get_size st' B = total /\
     get_prev_alloc st' F = true /\ get_prev_mini st' F = false /\
     lists_wf st' classes' []) /\
    (total - asize = 16 ->
     get_size st' B = asize /\
     get_size st' R = 16 /\ get_alloc st' R = false /\
     get_prev_alloc st' R = true /\ get_prev_mini st' R = (asize =? 16) /\
     lists_wf st' classes' [R] /\
     get_prev_alloc st' F = false /\ get_prev_mini st' F = true) /\
    (32 <= total - asize ->
     get_size st' B = asize /\
     get_size st' R = total - asize /\ get_alloc st' R = false /\
     get_prev_alloc st' R = true /\ get_prev_mini st' R = (asize =? 16) /\
     load_word st' (header_to_footer st' R) = header st' R /\
     lists_wf st' (push_class classes' (size_to_class (total - asize)) R) [] /\
     get_prev_alloc st' F = false /\ get_prev_mini st' F = false) /\
    bounds_of st' = bounds_of st.
Proof.
  assert (Hnodes : all_nodes FitBlock.classes [] = [65544]) by reflexivity.
  apply (X25_malloc_takes_listed_block run_fuel initial_heap FitBlock.classes [] 56 65544).
  - vm_compute. congruence.
  - congruence.
  - exact fit_scenario_lists.
  - vm_compute. lia.
  - vm_compute. reflexivity.
  - unfold NULL. congruence.
  - intros _. reflexivity.
  - split; [vm_compute; reflexivity|]. split; [vm_compute; congruence|].
    unfold word_outside. scenario_nodes Hnodes.
Defined.

Lemma X26_malloc_takes_mini_block_witness :
  let st := MiniFit.st_freed in
  let B := 65544 in
  let F := B + mb_block_size in
  exists st',
    malloc run_fuel st 8 = Some (st', B + 8) /\
    (get_size st' B = mb_block_size /\ get_alloc st' B = true /\
     get_prev_alloc st' B = get_prev_alloc st B /\
     get_prev_mini st' B = get_prev_mini st B) /\
    (get_alloc st' F = true /\ get_prev_alloc st' F = true /\
     get_prev_mini st' F = true /\ get_size st' F = get_size st F) /\
    lists_wf st' MiniFit.classes [] /\
    bounds_of st' = bounds_of st.
Proof.
  assert (Hnodes : all_nodes MiniFit.classes [65544] = [65624; 65544]) by reflexivity.
  apply (X26_malloc_takes_mini_block run_fuel MiniFit.st_freed MiniFit.classes
           [65544] 8 65544 []).
  - vm_compute. congruence.
  - vm_compute. split; congruence.
  - exact mini_fit_scenario_lists.
  - unfold run_fuel. cbn. lia.
  - reflexivity.
  - split; [vm_compute; reflexivity|]. split; [vm_compute; congruence|].
    unfold word_outside. scenario_nodes Hnodes.
Defined.

Lemma X27_malloc_extends_heap_witness :
  let st := FullHeap.st_full in
  let size := 56 in
  let asize := adjusted_size size in
  let S := max asize chunksize in
  let E := mem_brk st - 8 in
  let R := E + asize in
  let F := E + S in
  exists st',
    malloc run_fuel st size = Some (st', E + 8) /\
    (mem_brk st' = mem_brk st + S /\ mem_start_brk st' = mem_start_brk st /\
     mem_max_addr st' = mem_max_addr st /\ heap_start st' = heap_start st) /\
    get_alloc st' E = true /\
    asize <= get_size st' E <= S /\
    (0 <= size -> size + 24 <= word_modulus -> size + wsize <= get_size st' E) /\
    get_prev_alloc st' E = true /\
    get_prev_mini st' E = get_prev_mini st E /\
    get_alloc st' F = true /\ get_size st' F = 0 /\
    (S - asize < 16 ->
     get_size st' E = S /\
     get_prev_alloc st' F = true /\ get_prev_mini st' F = false /\
     lists_wf st' (repeat [] NUM_CLASSES) []) /\
    (S - asize = 16 ->
     get_size st' E = asize /\
     get_size st' R = 16 /\ get_alloc st' R = false /\
     get_prev_alloc st' R = true /\ get_prev_mini st' R = (asize =? 16) /\
     lists_wf st' (repeat [] NUM_CLASSES) [R] /\
     get_prev_alloc st' F = false /\ get_prev_mini st' F = true) /\
    (32 <= S - asize ->
     get_size st' E = asize /\
     get_size st' R = S - asize /\ get_alloc st' R = false /\
     get_prev_alloc st' R = true /\ get_prev_mini st' R = (asize =? 16) /\
     load_word st' (header_to_footer st' R) = header st' R /\
     lists_wf st' (push_class (repeat [] NUM_CLASSES) (size_to_class (S - asize)) R) [] /\
     get_prev_alloc st' F = false /\ get_prev_mini st' F = false).
Proof.
  apply (X27_malloc_extends_heap run_fuel FullHeap.st_full (repeat [] NUM_CLASSES) [] 56).
  - vm_compute. congruence.
  - congruence.
  - exact full_scenario_lists.
  - vm_compute. reflexivity.
  - vm_compute. reflexivity.
  - vm_compute. congruence.
  - vm_compute. reflexivity.
  - vm_compute. congruence.
  - vm_compute. reflexivity.
  - intros a [].
Defined.
